(* ===== verification/_CoqProject ===== *)
-Q . S2P
Prelude.v
RustStr.v
Encoding.v
Config.v
Json.v
AppError.v
Closure.v
Schema.v
Registry.v
Workflow.v
State.v
Rbac.v
Caller.v
FieldPerms.v
Objects.v
Fixture.v
ObjectHandlers.v
ObjectProps.v
Lifecycle.v
RbacProps.v
Members.v
MemberProps.v
Orchestrator.v
Pipeline.v
Types.v
TypeProps.v
Migrations.v
Relations.v
HttpClient.v
Connectors.v
Auth.v
OAuth.v
RateLimit.v
Platform.v
Search.v
Steps.v
FieldProps.v
CaseFlow.v
Concurrency.v
Liveness.v
Server.v
Boot.v
ServerProps.v
Footprint.v
Staging.v
Authority.v
Confidentiality.v
Invariants.v
Installation.v
Secrecy.v
Interleaving.v
Races.v
Trespass.v
Integrity.v
Witnesses.v
ServerWitnesses.v
BootWitnesses.v
TestSuite.v
