(* ===== verification/Prelude.v ===== *)
(** * numu: a verification development of the numu API server

    numu ([src/crates/api/src/], Rust) serves typed objects over HTTP: every object is a row with a
    type, JSON data, a version and a scope parent; who may see or change it follows from
    memberships that are inherited down scopes and through teams; cases follow workflows, feature
    runs go through a pipeline of roles, connectors fetch from outside, and types themselves are
    registered at run time. This library models the server over its store and proves what its
    parts promise, of single requests, of interleaved ones and of whole runs of the server.

    ** How the program is modelled

    The store is a record of finite maps ([Schema.Db]), one per table of [src/migrations/], with
    the keys, foreign keys, delete actions and the trigger of the migrations; a statement or a
    transaction is a function [SqlM] that fails without effect. The state of the handlers
    ([State.AppState]) is the store with the registry snapshot and the workflow cache. A handler is
    a computation in the monad [State.M], which keeps what was changed before an error, so that
    statements outside a transaction are visibly not atomic. Random identifiers, tokens and the
    clock are inputs. A request is read by [Server.route], runs [Server.exec] or
    [Server.exec_public] behind the extraction of the caller, inside the layers of [lib.rs]
    ([Server.respond], [Server.serve_http]); a run of the server is [Server.serve_all] on any
    sequence of requests. A process starts from the environment and the database
    ([Boot.start_up]), serves and stops ([Boot.run]); an installation is a [Boot.history] of such
    lives over one database that the [Migrations] fill. For the server with requests in flight,
    [Staging] derives from each handler the tree of its statements and interleaves the trees, with
    requests that arrive, are dropped by their client or lose the database, and with crashes of
    the process ([Staging.server_step]).

    Below, each file with the code it models:

    - [Prelude], [RustStr], [Encoding], [Json], [Closure]: results, strings, hexadecimal and
      cookies, JSON values, and recursive queries as fixpoints.
    - [Config]: [config.rs]. [AppError]: [error.rs]. [Schema]: [migrations/].
    - [Registry]: [registry.rs]. [Workflow]: [workflow.rs]. [State]: [state.rs], [db.rs].
    - [Rbac]: [rbac.rs]. [Caller]: [caller.rs]. [FieldPerms]: [field_perms.rs].
    - [Objects], [ObjectHandlers]: [objects.rs], its pure part and its handlers.
    - [Members]: [members.rs]. [Orchestrator]: [orchestrator.rs]. [Types]: [types.rs].
    - [Relations]: [relations.rs]. [Search]: [search.rs]. [Connectors]: [connectors.rs].
    - [HttpClient]: [http_client.rs]. [Auth]: [auth.rs]. [OAuth]: [oauth.rs].
    - [RateLimit]: [ratelimit.rs]. [Platform]: [ids.rs], [request_id.rs], [health.rs], [debug.rs].
    - [Server]: [lib.rs] and the [router()] of every module. [Boot]: [run()] of [lib.rs], the
      shutdown signal and [main.rs]. [Migrations]: the rows of [migrations/*.sql].

    ** What is proved

    - Objects ([ObjectProps], [Lifecycle], [FieldProps]): without reach every verb that an item
      offers answers the same 404; nothing is created below a parent without reach there; a write needs the stored version and moves it by one; creation is atomic and makes an
      owner; lists hold exactly the reach; deletion leaves no reference; what a caller may not read
      does not influence what GET answers.
    - Who may do and see what ([Authority], [Confidentiality]): over any run of the server, nothing
      about an object changes unless a request addresses it whose caller holds the rank this needs
      on it; and what the callers of a run cannot see has no influence on what they are answered.
      The second runs every handler on two stores that differ in one object's content, by rules
      that follow the monad.
    - Reach ([RbacProps], [MemberProps]): the two directions of the resolver agree within the depth
      of the climb; no grant raises anyone above the granter or, for a team that the granter only
      manages through its workspace, above the team; owned objects stay owned under changes and
      removals; roster changes need authority.
    - Cases ([CaseFlow]): successful writes are legal transitions with their checks passed.
    - The pipeline ([Pipeline], [Liveness]): an abstract machine is the specification, the handler
      refines it, and a competent client brings every run to its end.
    - Interleavings ([Steps], [Concurrency], [Liveness]): between the read and the write of a
      request anything may happen that statements can do ([Steps.data_step]); no update is lost,
      the first writer wins, and the tag of a read lets a write through.
    - The running server, one request at a time ([ServerProps], [Footprint], [Invariants]): for any
      requests, objects conform to their types, cases stay in reachable states, teams never nest in
      a cycle, runs stay in the machine's states and within the circuit breaker, a version names one
      content, each endpoint changes at most the
      tables of its footprint, and nothing but logins and probes is served without a session. The
      rules of [Steps.Respects] follow the monad, so that each statement is looked at once.
    - Any interleaving ([Staging], [Interleaving], [Races], [Trespass], [Secrecy], [Integrity]):
      with the statements of any number of requests in any order, through drops and crashes,
      objects conform to their types, cases stay in reachable states, a version names one content,
      of the writes that name one version at most one succeeds, callers who may at no moment edit
      an object do not change it, what none of them sees at any moment has no influence on any
      answer, and every reference of the store has its target. The conformance and the edits are
      rely and guarantee arguments: types are only ever added, so what a request has checked before
      is still right when it writes. The secrecy is a simulation: two servers, on stores that
      differ in one content, take the same steps.
    - Installations ([Installation]): from an empty database through any history of failed and
      successful starts and of requests, every invariant of the server holds; a restart finds the
      state that the last life left; why a start fails, and what it leaves, is known; the catalog
      of builtin types obeys the rules of the registration, but for one reserved name.
    - The outer components ([TypeProps], [Relations], [Search], [HttpClient], [Auth], [OAuth],
      [RateLimit], [Platform], [AppError]): registration is live and coherent, edges and search
      results stay within reach, the blocklist is a union of address ranges and every fetch goes to
      a checked address, sessions, login state and the first-admin claim do what they mean to, and
      the limiter admits at most twice its maximum in any window.

    Where the code does not do what it says, a theorem shows it on a concrete run, beside the
    property it limits: [OAuth.callback_session_cookie_lost], [CaseFlow.case_write_not_atomic],
    [Lifecycle.delete_leaves_no_audit], [MemberProps.add_member_demotes_last_owner],
    [MemberProps.last_owner_race], [MemberProps.team_cycle_race],
    [MemberProps.team_ranks_given_away], [ObjectProps.item_post_ungated],
    [Pipeline.architect_fail_skips_tester], [Pipeline.hop_cap_race],
    [Auth.created_admin_blocks_claim], [TypeProps.null_default_trap],
    [HttpClient.embedded_v4_not_blocked], [Search.search_shows_unreadable_title],
    [Concurrency.ahead_tag_loses_update], [RbacProps.deep_scope_listed_but_denied],
    [Interleaving.registry_swap_race], [Boot.unlistened_signals].

    [Fixture], [Witnesses], [ServerWitnesses] and [BootWitnesses] hold a concrete server and the
    theorems with hypotheses applied to it. [TestSuite] runs the repository's own tests, every
    scenario of [tests/*.rs] and the unit tests, on the definitions: their assertions hold of the
    model as they do of the program.

    ** Bounds

    Versions, ranks and ordinals are 32-bit integers, counters of the limiter unsigned ones; the
    overflow of a version is the store's error. Recursive queries run with the size of the table as
    fuel, which [Closure.cte_spec] shows to be enough; the upward climb has the depth 8 of its SQL;
    printing an integer has its bit length as fuel ([RustStr.show_N]). A run has at most 8
    handoffs, the fuel of [Liveness.drive] at most that.

    ** What is not modelled

    - Parameters, with what is relied on as hypotheses: JSON parsing and printing, PostgreSQL's
      text of JSON and timestamps, its collation and its text search, HMAC, SHA-256, JWT, URLs, DNS
      and HTTP exchanges, the environment, the framework's extraction, fallbacks and the answers of
      its CORS layer, the filters of the subscriber, [sqlx]'s migrator, the outcome of connecting
      to the database and of binding the address.
    - Text of the database as it refuses and rewrites it: the NUL character, which PostgreSQL takes
      neither in text nor in jsonb, and the form in which jsonb gives numbers back.
    - The order of rows that the [order by] of a list or of a search leaves open: here it is fixed.
    - Tracing. An audit event or a connector's stamp that fails is ignored and the request goes on:
      here they fail only as the store's constraints make them, and a lost connection ends the
      whole request.
    - A handler reads the state anew for each of its queries ([State.get_state]), but what one gate
      or helper asks of the store (a floor with its overrides and the rank, a run with its
      handoffs, the field floors of the rows of a list) is one read, also in [Staging]. A statement, and
      a transaction, is one step: nothing is interleaved within it (two claims of the first
      admin).
    - The schema itself is the type of the store and the constraints of its statements
      ([Schema]); of the scripts only the rows they write are steps. Tables the server never
      touches. *)

From stdpp Require Export base tactics option list gmap fin_maps sets relations sorting strings.
From Stdlib Require Export ZArith Lia.

(** ** Scope, notations and tactics *)

Declare Scope numu_scope.
Delimit Scope numu_scope with numu.
Open Scope numu_scope.

#[global] Open Scope Z_scope.

Create HintDb json.
Create Rewrite HintDb json.
Create HintDb numu.
Create Rewrite HintDb numu.

(** The bounds of the machine integers the server uses. *)
Definition i32_max : Z := 2147483647.
Definition i32_min : Z := -2147483648.
Definition i32_ok (z : Z) : Prop := i32_min <= z <= i32_max.
#[export] Instance i32_ok_dec (z : Z) : Decision (i32_ok z).
Proof. unfold i32_ok. apply _. Defined.

(** [Result<T, E>] of the source. *)
Inductive Result (E A : Type) : Type :=
| Ok (a : A)
| Err (e : E).
Arguments Ok {E A} a.
Arguments Err {E A} e.

Definition is_ok {E A} (r : Result E A) : bool :=
  match r with Ok _ => true | Err _ => false end.

Definition result_bind {E A B} (r : Result E A) (k : A -> Result E B) : Result E B :=
  match r with Ok a => k a | Err e => Err e end.

(** [opt.ok_or_else(..)] *)
Definition ok_or {E A} (o : option A) (e : E) : Result E A :=
  match o with Some a => Ok a | None => Err e end.

(** [res.map_err(f)] *)
Definition map_err {E F A} (f : E -> F) (r : Result E A) : Result F A :=
  match r with Ok a => Ok a | Err e => Err (f e) end.

Notation "'let?' x := r 'in' k" := (result_bind r (fun x => k))
  (at level 10, x name, r at level 100, k at level 200) : numu_scope.
Notation "'try?' r 'in' k" := (result_bind r (fun _ => k))
  (at level 10, r at level 100, k at level 200) : numu_scope.

(** A decidable fact, by evaluation. *)
Ltac by_eval := apply (bool_decide_unpack _); vm_compute; exact I.

(** Split every [match]/[if] on the way to a goal or hypothesis. *)
Ltac case_match_eqn :=
  match goal with
  | H : context [ match ?x with _ => _ end ] |- _ => destruct x eqn:?; simplify_eq/=
  | |- context [ match ?x with _ => _ end ] => destruct x eqn:?; simplify_eq/=
  end.

(** Invert a chain of [let?] that ended in [Ok]. *)
Ltac inv_ok H :=
  repeat match type of H with
  | result_bind ?r _ = Ok _ =>
      let E := fresh "Hok" in
      destruct r eqn:E; cbn [result_bind] in H; [| discriminate H]
  | Ok _ = Ok _ => injection H as H; subst
  end.

(** ** Lemmas on results *)

Lemma result_bind_ok {E A B} (r : Result E A) (k : A -> Result E B) b :
  result_bind r k = Ok b <-> exists a, r = Ok a /\ k a = Ok b.
Proof. destruct r; simpl; split; [eauto | | done |]; [intros (? & [= ->] & ?) | intros (? & ? & ?)]; done. Qed.

Lemma ok_or_ok {E A} (o : option A) (e : E) a : ok_or o e = Ok a <-> o = Some a.
Proof. destruct o; simpl; split; congruence. Qed.

Lemma map_err_ok {E F A} (f : E -> F) (r : Result E A) a :
  map_err f r = Ok a <-> r = Ok a.
Proof. destruct r; simpl; split; congruence. Qed.

(** ** Lemmas on relations *)

Lemma rtc_flip_1 {A} (R : relation A) x y : rtc (flip R) x y -> rtc R y x.
Proof. induction 1 as [|x y z Hxy _ IH]; [apply rtc_refl|]. by eapply rtc_r. Qed.

Lemma rtc_flip {A} (R : relation A) x y : rtc (flip R) x y <-> rtc R y x.
Proof.
  split; [apply rtc_flip_1|]. intros H. apply (rtc_flip_1 (flip R)).
  eapply (rtc_subrel R); [|exact H]. by intros a b ?.
Qed.
