(* ===== verification/RustStr.v ===== *)
(** * Rust strings

    The [str] operations of the Rust standard library that the server uses, on UTF-8 byte
    strings ([string]). Trimming removes the Unicode [White_Space] characters, as [str::trim]
    does; integer parsing and printing are those of [i32]. *)

From S2P Require Import Prelude.
From Stdlib Require Import Ascii.
From Stdlib.Strings Require Import String.
Import (notations) String.

Local Open Scope Z_scope.

Definition code (c : ascii) : N := N_of_ascii c.

Definition is_ascii_lowercase (c : ascii) : bool := (97 <=? code c)%N && (code c <=? 122)%N.
Definition is_ascii_uppercase (c : ascii) : bool := (65 <=? code c)%N && (code c <=? 90)%N.
Definition is_ascii_digit (c : ascii) : bool := (48 <=? code c)%N && (code c <=? 57)%N.
Definition is_ascii_alphanumeric (c : ascii) : bool :=
  is_ascii_lowercase c || is_ascii_uppercase c || is_ascii_digit c.

(** [s.chars().all(p)] for a [p] that is false outside ASCII, and [s.bytes().all(p)]. *)
Fixpoint all_chars (p : ascii -> bool) (s : string) : bool :=
  match s with
  | EmptyString => true
  | String c s' => p c && all_chars p s'
  end.

(** [s.chars().next()], for a test that is false outside ASCII. *)
Definition first_char (s : string) : option ascii :=
  match s with EmptyString => None | String c _ => Some c end.

Definition is_empty (s : string) : bool :=
  match s with EmptyString => true | _ => false end.

(** [s.len()]: the number of bytes. *)
Definition len (s : string) : Z := Z.of_nat (String.length s).

Fixpoint strip_prefix (p s : string) : option string :=
  match p, s with
  | EmptyString, _ => Some s
  | String a p', String b s' => if Ascii.eqb a b then strip_prefix p' s' else None
  | _, _ => None
  end.

Definition starts_with (p s : string) : bool :=
  match strip_prefix p s with Some _ => true | None => false end.

(** [s.split(c)]: always at least one piece. *)
Fixpoint split (c : ascii) (s : string) : list string :=
  match s with
  | EmptyString => [EmptyString]
  | String b s' =>
      if Ascii.eqb b c then EmptyString :: split c s'
      else match split c s' with
           | p :: ps => String b p :: ps
           | [] => [String b EmptyString]
           end
  end.

(** *** Trimming *)

Definition ascii_ws (c : ascii) : bool :=
  ((9 <=? code c)%N && (code c <=? 13)%N) || (code c =? 32)%N.

(** The two-byte white space characters: U+0085 and U+00A0. *)
Definition ws2 (a b : ascii) : bool :=
  (code a =? 194)%N && ((code b =? 133)%N || (code b =? 160)%N).

(** The three-byte ones: U+1680, U+2000..200A, U+2028, U+2029, U+202F, U+205F, U+3000. *)
Definition ws3 (a b c : ascii) : bool :=
  ((code a =? 225) && (code b =? 154) && (code c =? 128))%N
  || ((code a =? 226)%N && (code b =? 128)%N
      && (((128 <=? code c)%N && (code c <=? 138)%N)
          || (code c =? 168)%N || (code c =? 169)%N || (code c =? 175)%N))
  || ((code a =? 226) && (code b =? 129) && (code c =? 159))%N
  || ((code a =? 227) && (code b =? 128) && (code c =? 128))%N.

(** Remove white space from the front; [rev] says the bytes come in reverse order. *)
Fixpoint trim_front (rev : bool) (s : string) {struct s} : string :=
  match s with
  | EmptyString => EmptyString
  | String a s1 =>
      if ascii_ws a then trim_front rev s1
      else match s1 with
           | EmptyString => s
           | String b s2 =>
               if (if rev then ws2 b a else ws2 a b) then trim_front rev s2
               else match s2 with
                    | EmptyString => s
                    | String c s3 =>
                        if (if rev then ws3 c b a else ws3 a b c) then trim_front rev s3 else s
                    end
           end
  end.

Definition srev (s : string) : string :=
  string_of_list_ascii (reverse (list_ascii_of_string s)).

Definition trim (s : string) : string :=
  srev (trim_front true (srev (trim_front false s))).

Fixpoint trim_char_front (q : ascii) (s : string) : string :=
  match s with
  | EmptyString => EmptyString
  | String c s' => if Ascii.eqb c q then trim_char_front q s' else s
  end.

(** [s.trim_matches(q)] for an ASCII character [q]. *)
Definition trim_matches (q : ascii) (s : string) : string :=
  srev (trim_char_front q (srev (trim_char_front q s))).

Definition to_upper (c : ascii) : ascii :=
  if is_ascii_lowercase c then ascii_of_N (code c - 32) else c.

(** [s.to_uppercase()] on ASCII text; other characters are kept. *)
Fixpoint to_uppercase (s : string) : string :=
  match s with
  | EmptyString => EmptyString
  | String c s' => String (to_upper c) (to_uppercase s')
  end.

(** [xs.join(sep)] *)
Fixpoint join (sep : string) (xs : list string) : string :=
  match xs with
  | [] => EmptyString
  | [x] => x
  | x :: ys => x +:+ sep +:+ join sep ys
  end.

(** *** Decimal integers *)

Definition digit_char (d : N) : ascii := ascii_of_N (48 + d).

Fixpoint show_digits (fuel : nat) (n : N) (tail : string) : string :=
  match fuel with
  | O => tail
  | S f =>
      let tail' := String (digit_char (n mod 10)) tail in
      if (n / 10 =? 0)%N then tail' else show_digits f (n / 10) tail'
  end.

Definition show_N (n : N) : string := show_digits (S (N.to_nat (N.log2 n))) n EmptyString.

(** [format!("{}", z)] *)
Definition show_Z (z : Z) : string :=
  if z <? 0 then String "-"%char (show_N (Z.to_N (- z))) else show_N (Z.to_N z).

Fixpoint parse_digits (acc : N) (s : string) : option N :=
  match s with
  | EmptyString => Some acc
  | String c s' =>
      if is_ascii_digit c then parse_digits (acc * 10 + (code c - 48))%N s' else None
  end.

(** At least one digit is needed. *)
Definition parse_nat (s : string) : option N :=
  match s with EmptyString => None | _ => parse_digits 0 s end.

Definition in_i32 (z : Z) : option Z := if decide (i32_ok z) then Some z else None.

(** [s.parse::<i32>().ok()]: an optional sign, digits, and a result in range. *)
Definition parse_i32 (s : string) : option Z :=
  match s with
  | String "-"%char s' => parse_nat s' ≫= fun n => in_i32 (- Z.of_N n)
  | String "+"%char s' => parse_nat s' ≫= fun n => in_i32 (Z.of_N n)
  | _ => parse_nat s ≫= fun n => in_i32 (Z.of_N n)
  end.

(** ** Lemmas *)

Lemma code_digit_char d : (d < 10)%N -> code (digit_char d) = (48 + d)%N.
Proof. intros H. unfold code, digit_char. apply N_ascii_embedding. lia. Qed.

Lemma is_ascii_digit_char d : (d < 10)%N -> is_ascii_digit (digit_char d) = true.
Proof.
  intros H. unfold is_ascii_digit. rewrite code_digit_char by done.
  apply andb_true_intro; split; apply N.leb_le; lia.
Qed.

Lemma parse_show_digits fuel n tail :
  (n < 10 ^ N.of_nat fuel)%N ->
  parse_digits 0 (show_digits fuel n tail) = parse_digits n tail.
Proof.
  revert n tail. induction fuel as [|f IH]; intros n tail Hn.
  - replace n with 0%N by (change (10 ^ N.of_nat 0)%N with 1%N in Hn; lia). done.
  - assert (Hm : (n mod 10 < 10)%N) by (apply N.mod_lt; lia).
    assert (Hdm : forall x, (x + (48 + n mod 10 - 48))%N = (x + n mod 10)%N) by (intros; generalize (n mod 10)%N; lia).
    assert (Hqr : (n / 10 * 10 + n mod 10)%N = n) by (rewrite N.mul_comm; symmetry; apply N.div_mod').
    cbn [show_digits]. destruct (N.eqb_spec (n / 10) 0) as [E|E].
    + cbn [parse_digits]. rewrite is_ascii_digit_char, code_digit_char by done.
      rewrite Hdm. f_equal. rewrite <- Hqr at 2. by rewrite E.
    + rewrite IH.
      * cbn [parse_digits]. rewrite is_ascii_digit_char, code_digit_char by done.
        by rewrite Hdm, Hqr.
      * rewrite Nat2N.inj_succ, N.pow_succ_r' in Hn.
        apply N.Div0.div_lt_upper_bound; lia.
Qed.

Lemma show_N_bound n : (n < 10 ^ N.of_nat (S (N.to_nat (N.log2 n))))%N.
Proof.
  rewrite Nat2N.inj_succ, N2Nat.id.
  destruct (N.eq_dec n 0) as [->|Hn]; [done|].
  destruct (N.log2_spec n) as [_ H]; [lia|].
  eapply N.lt_le_trans; [exact H|]. apply N.pow_le_mono_l. lia.
Qed.

Lemma show_digits_head fuel n tail :
  exists d t, (d < 10)%N /\ show_digits (S fuel) n tail = String (digit_char d) t.
Proof.
  revert n tail. induction fuel as [|f IH]; intros n tail.
  - cbn [show_digits]. exists (n mod 10)%N. eexists. split; [apply N.mod_lt; lia|].
    by destruct (n / 10 =? 0)%N.
  - cbn [show_digits]. destruct (n / 10 =? 0)%N.
    + do 2 eexists. split; [apply N.mod_lt; lia | reflexivity].
    + apply IH.
Qed.

Lemma show_N_head n :
  exists d t, (d < 10)%N /\ show_N n = String (digit_char d) t.
Proof. apply show_digits_head. Qed.

Lemma parse_nat_show_N n : parse_nat (show_N n) = Some n.
Proof.
  destruct (show_N_head n) as (d & t & _ & E). unfold parse_nat. rewrite E, <- E.
  unfold show_N. rewrite parse_show_digits by apply show_N_bound. done.
Qed.

(** A digit is neither a sign nor a quote. *)
Lemma digit_char_cases d : (d < 10)%N ->
  In (digit_char d) ["0";"1";"2";"3";"4";"5";"6";"7";"8";"9"]%char.
Proof.
  intros H. assert (d = 0 \/ d = 1 \/ d = 2 \/ d = 3 \/ d = 4 \/ d = 5 \/ d = 6 \/ d = 7
    \/ d = 8 \/ d = 9)%N as Hd by lia.
  repeat destruct Hd as [->|Hd]; [..|subst d]; vm_compute; tauto.
Qed.

Lemma parse_show_Z z : i32_ok z -> parse_i32 (show_Z z) = Some z.
Proof.
  intros Hz. unfold show_Z. destruct (Z.ltb_spec z 0).
  - cbn [parse_i32]. rewrite parse_nat_show_N. simpl. unfold in_i32.
    replace (- Z.of_N (Z.to_N (- z))) with z by lia. by rewrite decide_True.
  - assert (Hp : parse_nat (show_N (Z.to_N z)) ≫= (fun n => in_i32 (Z.of_N n)) = Some z).
    { rewrite parse_nat_show_N. simpl. unfold in_i32. rewrite Z2N.id by lia.
      by rewrite decide_True. }
    destruct (show_N_head (Z.to_N z)) as (d & t & Hd & E). rewrite E in *.
    pose proof (digit_char_cases d Hd) as Hin. simpl in Hin.
    repeat destruct Hin as [Hc|Hin]; try done; rewrite <- Hc in *; exact Hp.
Qed.

(** *** Reversal and trimming *)

Lemma append_cons c (a b : string) : String c a +:+ b = String c (a +:+ b).
Proof. done. Qed.

Lemma list_ascii_app (a b : string) :
  list_ascii_of_string (a +:+ b) = (list_ascii_of_string a ++ list_ascii_of_string b)%list.
Proof. induction a as [|c a IH]; [done|]. rewrite append_cons. cbn. by rewrite IH. Qed.

Lemma string_of_list_ascii_app (a b : list ascii) :
  string_of_list_ascii (a ++ b)%list = string_of_list_ascii a +:+ string_of_list_ascii b.
Proof. induction a as [|c a IH]; [done|]. cbn. by rewrite IH, append_cons. Qed.

Lemma srev_app a b : srev (a +:+ b) = srev b +:+ srev a.
Proof. unfold srev. by rewrite list_ascii_app, reverse_app, string_of_list_ascii_app. Qed.

Lemma srev_involutive s : srev (srev s) = s.
Proof.
  unfold srev. rewrite list_ascii_of_string_of_list_ascii, reverse_involutive.
  apply string_of_list_ascii_of_string.
Qed.

Lemma append_nil_r (s : string) : s +:+ "" = s.
Proof. induction s as [|c s IH]; [done|]. by rewrite append_cons, IH. Qed.

Lemma append_assoc (a b c : string) : (a +:+ b) +:+ c = a +:+ b +:+ c.
Proof. induction a as [|x a IH]; [done|]. by rewrite !append_cons, IH. Qed.

(** A printable ASCII character stops trimming. *)
Definition visible (c : ascii) : bool := (33 <=? code c)%N && (code c <=? 126)%N.

Lemma trim_front_visible r c s : visible c = true -> trim_front r (String c s) = String c s.
Proof.
  unfold visible. intros [H1%N.leb_le H2%N.leb_le]%andb_prop.
  assert (Hws : ascii_ws c = false).
  { unfold ascii_ws. apply orb_false_intro.
    - apply andb_false_intro2, N.leb_gt. lia.
    - apply N.eqb_neq. lia. }
  assert (Hw2 : forall b, (if r then ws2 b c else ws2 c b) = false).
  { intros b. unfold ws2. destruct r.
    - apply andb_false_intro2, orb_false_intro; apply N.eqb_neq; lia.
    - apply andb_false_intro1, N.eqb_neq. lia. }
  assert (Hn : forall n, (127 < n)%N -> (code c =? n)%N = false) by (intros; apply N.eqb_neq; lia).
  assert (Hl : (128 <=? code c)%N = false) by (apply N.leb_gt; lia).
  assert (Hw3 : forall b d, (if r then ws3 d b c else ws3 c b d) = false).
  { intros b d. unfold ws3. destruct r.
    - rewrite Hl. rewrite !(Hn 128%N), !(Hn 168%N), !(Hn 169%N), !(Hn 175%N), !(Hn 159%N) by lia.
      rewrite ?andb_false_r. done.
    - by rewrite !(Hn 225%N), !(Hn 226%N), !(Hn 227%N) by lia. }
  cbn [trim_front]. rewrite Hws. destruct s as [|b s]; [done|]. rewrite Hw2.
  destruct s as [|d s]; [done|]. by rewrite Hw3.
Qed.

Lemma trim_visible c s d :
  visible c = true -> visible d = true ->
  trim (String c (s +:+ String d "")) = String c (s +:+ String d "").
Proof.
  intros Hc Hd. unfold trim. rewrite trim_front_visible by done.
  change (String c (s +:+ String d "")) with (String c s +:+ String d "").
  rewrite srev_app. change (srev (String d "") +:+ srev (String c s))
    with (String d (srev (String c s))).
  rewrite trim_front_visible by done.
  change (String d (srev (String c s))) with (srev (String d "") +:+ srev (String c s)).
  rewrite <- srev_app. apply srev_involutive.
Qed.

(** The characters of a printed integer. *)
Definition int_char (c : ascii) : bool := is_ascii_digit c || Ascii.eqb c "-".

Lemma show_digits_chars fuel n tail :
  all_chars int_char tail = true -> all_chars int_char (show_digits fuel n tail) = true.
Proof.
  revert n tail. induction fuel as [|f IH]; intros n tail Ht; [done|]. cbn [show_digits].
  assert (Hc : all_chars int_char (String (digit_char (n mod 10)) tail) = true).
  { cbn [all_chars]. unfold int_char. rewrite is_ascii_digit_char by (apply N.mod_lt; lia). done. }
  destruct (n / 10 =? 0)%N; auto.
Qed.

Lemma show_Z_chars z : all_chars int_char (show_Z z) = true.
Proof. unfold show_Z, show_N. destruct (z <? 0); cbn [all_chars]; by rewrite ?show_digits_chars. Qed.

Lemma show_Z_nonempty z : show_Z z <> "".
Proof.
  unfold show_Z. destruct (z <? 0); [done|].
  destruct (show_N_head (Z.to_N z)) as (d & t & _ & ->). done.
Qed.

Lemma trim_char_front_stop q c s : Ascii.eqb c q = false -> trim_char_front q (String c s) = String c s.
Proof. intros H. cbn. by rewrite H. Qed.

Lemma trim_char_front_int q s :
  int_char q = false -> s <> "" -> all_chars int_char s = true -> trim_char_front q s = s.
Proof.
  intros Hq Hne Hs. destruct s as [|c s]; [done|]. apply trim_char_front_stop.
  apply andb_prop in Hs as [Hc _]. destruct (Ascii.eqb_spec c q) as [->|]; congruence.
Qed.

Lemma all_chars_app p a b : all_chars p (a +:+ b) = all_chars p a && all_chars p b.
Proof. induction a as [|c a IH]; [done|]. rewrite append_cons. cbn. by rewrite IH, andb_assoc. Qed.

Lemma srev_cons c s : srev (String c s) = srev s +:+ String c "".
Proof. change (String c s) with (String c "" +:+ s). by rewrite srev_app. Qed.

Lemma all_chars_srev p s : all_chars p (srev s) = all_chars p s.
Proof.
  induction s as [|c s IH]; [done|]. rewrite srev_cons, all_chars_app, IH. cbn.
  by rewrite andb_true_r, andb_comm.
Qed.

Lemma srev_nonempty s : s <> "" -> srev s <> "".
Proof. intros Hs Hr. apply Hs. rewrite <- (srev_involutive s), Hr. done. Qed.

(** Quotes around an integer come off. *)
Lemma trim_matches_quoted q s :
  int_char q = false -> s <> "" -> all_chars int_char s = true ->
  trim_matches q (String q (s +:+ String q "")) = s.
Proof.
  intros Hq Hne Hs. unfold trim_matches. cbn [trim_char_front]. rewrite Ascii.eqb_refl.
  assert (E : trim_char_front q (s +:+ String q "") = s +:+ String q "").
  { destruct s as [|c s]; [done|]. change (String c s +:+ String q "") with (String c (s +:+ String q "")).
    apply trim_char_front_stop. apply andb_prop in Hs as [Hc _].
    destruct (Ascii.eqb_spec c q) as [->|]; congruence. }
  rewrite E, srev_app. change (srev (String q "") +:+ srev s) with (String q (srev s)).
  cbn [trim_char_front]. rewrite Ascii.eqb_refl, trim_char_front_int; [apply srev_involutive|done|..].
  - by apply srev_nonempty.
  - by rewrite all_chars_srev.
Qed.
