(* ===== verification/Encoding.v ===== *)
(** * Text encodings of the auth routes

    Hexadecimal digests ([format!("{b:02x}")] and [u8::from_str_radix(.., 16)]), the splitting of
    tokens at a separator, and the [Cookie] header, as [auth.rs] and [oauth.rs] use them. *)

From S2P Require Import Prelude RustStr.
From Stdlib Require Import Ascii.
From Stdlib.Strings Require Import String.
Import (notations) String.

Local Open Scope Z_scope.

(** ** Hexadecimal *)

Definition hex_digit (n : N) : ascii :=
  ascii_of_N (if (n <? 10)%N then 48 + n else 87 + n).

Fixpoint hex (bytes : string) : string :=
  match bytes with
  | EmptyString => EmptyString
  | String b rest =>
      String (hex_digit (code b / 16)) (String (hex_digit (code b mod 16)) (hex rest))
  end.

(** [c.to_digit(16)] *)
Definition from_digit (c : ascii) : option N :=
  let n := code c in
  if is_ascii_digit c then Some (n - 48)%N
  else if (97 <=? n)%N && (n <=? 102)%N then Some (n - 87)%N
  else if (65 <=? n)%N && (n <=? 70)%N then Some (n - 55)%N
  else None.

(** [u8::from_str_radix(ab, 16).ok()] on two characters: a leading [+] is a sign. *)
Definition hex_pair (a b : ascii) : option ascii :=
  if Ascii.eqb a "+"%char then ascii_of_N <$> from_digit b
  else from_digit a ≫= fun x => from_digit b ≫= fun y => Some (ascii_of_N (16 * x + y)).

(** On visible ASCII, which is what a header's text is; an odd length is refused. *)
Fixpoint unhex (s : string) : option string :=
  match s with
  | EmptyString => Some EmptyString
  | String a (String b rest) => hex_pair a b ≫= fun c => String c <$> unhex rest
  | String _ EmptyString => None
  end.

(** ** Splitting *)

(** [s.split_once(c)] *)
Fixpoint split_once (c : ascii) (s : string) : option (string * string) :=
  match s with
  | EmptyString => None
  | String b rest =>
      if Ascii.eqb b c then Some (EmptyString, rest)
      else prod_map (String b) id <$> split_once c rest
  end.

(** [s.rsplit_once(c)] *)
Fixpoint rsplit_once (c : ascii) (s : string) : option (string * string) :=
  match s with
  | EmptyString => None
  | String b rest =>
      match rsplit_once c rest with
      | Some (x, y) => Some (String b x, y)
      | None => if Ascii.eqb b c then Some (EmptyString, rest) else None
      end
  end.

(** [&s[i..j]] within the bounds, on ASCII. *)
Definition slice (i j : nat) (s : string) : string := String.substring i (j - i) s.

(** [s.parse::<u64>().ok()] *)
Definition parse_u64 (s : string) : option Z :=
  let digits := match s with String "+"%char s' => s' | _ => s end in
  parse_nat digits ≫= fun n => if (n <? 2 ^ 64)%N then Some (Z.of_N n) else None.

(** ** Cookies *)

(** [header.split(';').map(str::trim).find_map(|kv| kv.strip_prefix(name=))] *)
Definition cookie_named (name header_value : string) : option string :=
  head (omap (fun kv => strip_prefix (name +:+ "=") (trim kv)) (split ";"%char header_value)).

(** ** Lemmas *)

Definition hex_char (c : ascii) : bool :=
  is_ascii_digit c || ((97 <=? code c)%N && (code c <=? 102)%N).

Lemma code_bound c : (code c < 256)%N.
Proof. apply N_ascii_bounded. Qed.

(** Hexadecimal digits, checked one by one. *)
Lemma hex_digits_check :
  forallb (fun i => let n := N.of_nat i in
      bool_decide (from_digit (hex_digit n) = Some n) && hex_char (hex_digit n)) (seq 0 16) = true.
Proof. vm_compute. reflexivity. Qed.

Lemma hex_digit_ok n : (n < 16)%N -> from_digit (hex_digit n) = Some n /\ hex_char (hex_digit n) = true.
Proof.
  intros Hn. pose proof (proj1 (forallb_forall _ _) hex_digits_check (N.to_nat n)) as Hc.
  cbv beta zeta in Hc. rewrite N2Nat.id in Hc. apply andb_prop in Hc as [H1%bool_decide_eq_true H2]; [done|].
  apply in_seq. lia.
Qed.

Lemma hex_char_not c d : hex_char c = true -> hex_char d = false -> Ascii.eqb c d = false.
Proof. intros Hc Hd. destruct (Ascii.eqb_spec c d) as [->|]; [congruence|done]. Qed.

Lemma unhex_hex b : unhex (hex b) = Some b.
Proof.
  induction b as [|c b IH]; [done|]. cbn [hex unhex]. pose proof (code_bound c) as Hc.
  destruct (hex_digit_ok (code c / 16)) as [E1 H1]; [apply N.Div0.div_lt_upper_bound; lia|].
  destruct (hex_digit_ok (code c mod 16)) as [E2 H2]; [apply N.mod_lt; lia|].
  unfold hex_pair. rewrite (hex_char_not _ "+"%char H1 eq_refl), E1. cbn [mbind option_bind].
  rewrite E2. cbn [mbind option_bind]. rewrite <- N.Div0.div_mod. unfold code.
  rewrite ascii_N_embedding, IH. done.
Qed.

Lemma hex_chars b : all_chars hex_char (hex b) = true.
Proof.
  induction b as [|c b IH]; [done|]. cbn [hex all_chars]. pose proof (code_bound c) as Hc.
  destruct (hex_digit_ok (code c / 16)) as [_ ->]; [apply N.Div0.div_lt_upper_bound; lia|].
  destruct (hex_digit_ok (code c mod 16)) as [_ ->]; [apply N.mod_lt; lia|]. done.
Qed.

Lemma rsplit_once_none c s : all_chars (fun x => negb (Ascii.eqb x c)) s = true -> rsplit_once c s = None.
Proof.
  induction s as [|b s IH]; [done|]. cbn [all_chars rsplit_once]. intros [H1%negb_true_iff H2]%andb_prop.
  by rewrite (IH H2), H1.
Qed.

Lemma rsplit_once_app c p s :
  all_chars (fun x => negb (Ascii.eqb x c)) s = true -> rsplit_once c (p +:+ String c s) = Some (p, s).
Proof.
  intros Hs. induction p as [|b p IH].
  - change (EmptyString +:+ String c s) with (String c s). cbn [rsplit_once].
    by rewrite (rsplit_once_none c s Hs), Ascii.eqb_refl.
  - rewrite append_cons. cbn [rsplit_once]. by rewrite IH.
Qed.

Lemma rsplit_once_join c s p q : rsplit_once c s = Some (p, q) -> s = p +:+ String c q.
Proof.
  revert p q. induction s as [|b s IH]; intros p q; [done|]. cbn [rsplit_once].
  destruct (rsplit_once c s) as [[x y]|].
  - intros [= <- <-]. rewrite append_cons. f_equal. by apply IH.
  - destruct (Ascii.eqb_spec b c) as [->|]; [|done]. by intros [= <- <-].
Qed.

Lemma all_chars_impl (p q : ascii -> bool) s :
  (forall c, p c = true -> q c = true) -> all_chars p s = true -> all_chars q s = true.
Proof.
  intros Hpq. induction s as [|c s IH]; [done|]. cbn [all_chars]. intros [H1 H2]%andb_prop.
  by rewrite (Hpq _ H1), (IH H2).
Qed.

Lemma split_none c s : all_chars (fun x => negb (Ascii.eqb x c)) s = true -> split c s = [s].
Proof.
  induction s as [|b s IH]; [done|]. cbn [all_chars split]. intros [H1%negb_true_iff H2]%andb_prop.
  by rewrite H1, (IH H2).
Qed.

Lemma srev_involution_snoc c s : srev (String c s) = srev s +:+ String c "".
Proof. apply srev_cons. Qed.

Lemma all_visible_trim s : all_chars visible s = true -> trim s = s.
Proof.
  intros Hs. unfold trim.
  assert (Hf : forall r t, all_chars visible t = true -> trim_front r t = t).
  { intros r [|c t]; [done|]. cbn [all_chars]. intros [Hc _]%andb_prop. by apply trim_front_visible. }
  rewrite (Hf false s Hs), (Hf true (srev s)).
  - apply srev_involutive.
  - by rewrite all_chars_srev.
Qed.

Lemma strip_prefix_app p s : strip_prefix p (p +:+ s) = Some s.
Proof. induction p as [|c p IH]; [done|]. rewrite append_cons. cbn [strip_prefix]. by rewrite Ascii.eqb_refl. Qed.

Definition token_char (c : ascii) : bool := visible c && negb (Ascii.eqb c ";"%char).

(** The cookie a browser sends back is read as what was set. *)
Lemma cookie_named_single name value :
  all_chars token_char name = true -> all_chars token_char value = true ->
  cookie_named name (name +:+ "=" +:+ value) = Some value.
Proof.
  intros Hn Hv. unfold cookie_named.
  assert (Hall : all_chars token_char (name +:+ "=" +:+ value) = true).
  { rewrite all_chars_app, Hn. change ("=" +:+ value) with (String "="%char value). cbn [all_chars]. by rewrite Hv. }
  rewrite split_none by (eapply all_chars_impl; [|exact Hall]; by intros c [_ ?]%andb_prop).
  cbn [omap list_omap]. rewrite all_visible_trim
    by (eapply all_chars_impl; [|exact Hall]; by intros c [? _]%andb_prop).
  change ("=" +:+ value) with (String "="%char EmptyString +:+ value).
  rewrite <- append_assoc, strip_prefix_app. done.
Qed.
