(* ===== verification/Config.v ===== *)
(** * Configuration ([config.rs])

    What the process reads of its environment, and the boot-time record built from it. The
    environment is a parameter: [env_var key] is [std::env::var(key).ok()]. *)

From S2P Require Import Prelude RustStr Encoding.
From Stdlib Require Import Ascii.

Local Open Scope Z_scope.

Class Env := { env_var : string -> option string }.

(** [s.to_ascii_lowercase()] *)
Definition to_ascii_lower (c : ascii) : ascii :=
  if is_ascii_uppercase c then ascii_of_N (code c + 32) else c.
Fixpoint to_ascii_lowercase (s : string) : string :=
  match s with
  | EmptyString => EmptyString
  | String c s' => String (to_ascii_lower c) (to_ascii_lowercase s')
  end.
Definition eq_ignore_ascii_case (a b : string) : bool :=
  String.eqb (to_ascii_lowercase a) (to_ascii_lowercase b).

(** [s.parse::<u32>().ok()] *)
Definition parse_u32 (s : string) : option Z :=
  parse_u64 s ≫= fun z => if z <? 2 ^ 32 then Some z else None.

Record Config := mkConfig {
  bind : string; database_url : string; debug : bool; auth_rate_limit : Z;
  auth_rate_window_secs : Z; cors_origins : list string }.

Section Env.
Context `{Env}.

Definition env_flag (key : string) : bool :=
  match env_var key with
  | Some v => String.eqb v "1" || eq_ignore_ascii_case v "true"
  | None => false
  end.

(** [env_parse::<T>], with the parser of [T]. *)
Definition env_parse (parse : string -> option Z) (key : string) (dflt : Z) : Z :=
  default dflt (env_var key ≫= parse).

Definition default_origins : list string := ["http://localhost:5173"; "http://localhost:3000"].

Definition from_env : Result string Config :=
  let? url := ok_or (env_var "DATABASE_URL")
                "DATABASE_URL is not set (e.g. postgres://user@localhost/numu)" in
  Ok (mkConfig
        (default "127.0.0.1:8080" (env_var "NUMU_BIND"))
        url
        (env_flag "NUMU_DEBUG")
        (env_parse parse_u32 "NUMU_AUTH_RATE_LIMIT" 30)
        (env_parse parse_u64 "NUMU_AUTH_RATE_WINDOW_SECS" 60)
        match env_var "NUMU_CORS_ORIGINS" with
        | Some v => filter (fun s => is_empty s = false) (trim <$> split ","%char v)
        | None => default_origins
        end).

Lemma parse_u64_bound s z : parse_u64 s = Some z -> 0 <= z < 2 ^ 64.
Proof.
  unfold parse_u64. intros (n & _ & Hn)%bind_Some.
  destruct (N.ltb_spec n (2 ^ 64)); [|done]. injection Hn as <-. lia.
Qed.

Lemma parse_u32_bound s z : parse_u32 s = Some z -> 0 <= z < 2 ^ 32.
Proof.
  unfold parse_u32. intros (n & Hn%parse_u64_bound & Hz)%bind_Some.
  destruct (Z.ltb_spec n (2 ^ 32)); [|done]. injection Hz as <-. lia.
Qed.

(** The configured limits fit their types, whatever the environment holds. *)
Lemma from_env_bounds c :
  from_env = Ok c ->
  0 <= auth_rate_limit c < 2 ^ 32 /\ 0 <= auth_rate_window_secs c < 2 ^ 64 /\
  (forall o, o ∈ cors_origins c -> o <> "").
Proof.
  unfold from_env, env_parse. intros (url & _ & [= <-])%result_bind_ok. cbn.
  destruct (env_var "NUMU_AUTH_RATE_LIMIT" ≫= parse_u32) as [l|] eqn:E1;
  destruct (env_var "NUMU_AUTH_RATE_WINDOW_SECS" ≫= parse_u64) as [w|] eqn:E2; simpl;
  try (apply bind_Some in E1 as (? & _ & E1%parse_u32_bound));
  try (apply bind_Some in E2 as (? & _ & E2%parse_u64_bound));
  (split; [lia|]); (split; [lia|]); intros o;
  (destruct (env_var "NUMU_CORS_ORIGINS");
    [by intros [Hne _]%list_elem_of_filter ->|unfold default_origins; set_solver]).
Qed.
End Env.
