(* ===== verification/Json.v ===== *)
(** * JSON values

    [serde_json::Value] as the handlers match on it, and [serde_json::Map]: without the
    [preserve_order] feature a [BTreeMap<String, Value>], here an association list kept sorted
    by key bytes. Numbers carry serde's three cases; a float is an IEEE binary64 datum. *)

From S2P Require Import Prelude.
From Stdlib Require Import SpecFloat.

Local Open Scope Z_scope.

Set Warnings "-register-all".

Inductive Number :=
| PosInt (n : Z)
| NegInt (n : Z)
| Float (f : spec_float).

Inductive Value :=
| JNull
| JBool (b : bool)
| JNumber (n : Number)
| JString (s : string)
| JArray (l : list Value)
| JObject (m : list (string * Value)).

Abbreviation Map := (list (string * Value)).

(** ** The sorted map *)

Fixpoint map_get (k : string) (m : Map) : option Value :=
  match m with
  | [] => None
  | (k', v) :: m' => if String.eqb k k' then Some v else map_get k m'
  end.

Fixpoint map_insert (k : string) (v : Value) (m : Map) : Map :=
  match m with
  | [] => [(k, v)]
  | (k', v') :: m' =>
      match String.compare k k' with
      | Eq => (k, v) :: m'
      | Lt => (k, v) :: (k', v') :: m'
      | Gt => (k', v') :: map_insert k v m'
      end
  end.

Fixpoint map_remove (k : string) (m : Map) : Map :=
  match m with
  | [] => []
  | (k', v) :: m' => if String.eqb k k' then map_remove k m' else (k', v) :: map_remove k m'
  end.

Definition map_keys (m : Map) : list string := m.*1.

(** Collecting pairs into a map: a later pair replaces an earlier one. *)
Definition map_collect (l : list (string * Value)) : Map :=
  fold_left (fun m kv => map_insert kv.1 kv.2 m) l [].

(** ** Accessors *)

Definition is_null (v : Value) : bool := match v with JNull => true | _ => false end.
Definition is_string (v : Value) : bool := match v with JString _ => true | _ => false end.
Definition is_boolean (v : Value) : bool := match v with JBool _ => true | _ => false end.
Definition is_object (v : Value) : bool := match v with JObject _ => true | _ => false end.

(** [i64::MAX] and [u64::MAX]. *)
Definition i64_max : Z := 9223372036854775807.

Definition is_i64 (v : Value) : bool :=
  match v with
  | JNumber (PosInt n) => n <=? i64_max
  | JNumber (NegInt _) => true
  | _ => false
  end.
Definition is_u64 (v : Value) : bool :=
  match v with JNumber (PosInt _) => true | _ => false end.

Definition as_str (v : Value) : option string :=
  match v with JString s => Some s | _ => None end.
Definition as_bool (v : Value) : option bool :=
  match v with JBool b => Some b | _ => None end.
Definition as_array (v : Value) : option (list Value) :=
  match v with JArray l => Some l | _ => None end.
Definition as_object (v : Value) : option Map :=
  match v with JObject m => Some m | _ => None end.

(** [v.get(key)]: [None] on anything but an object. *)
Definition get (k : string) (v : Value) : option Value :=
  match v with JObject m => map_get k m | _ => None end.

(** [v.get(key).and_then(|x| x.as_str())] *)
Definition get_str (k : string) (v : Value) : option string := get k v ≫= as_str.

Definition num_eqb (a b : Number) : bool :=
  match a, b with
  | PosInt x, PosInt y | NegInt x, NegInt y => x =? y
  | Float f, Float g => SFeqb f g
  | _, _ => false
  end.

(** [PartialEq for Value]. *)
Fixpoint value_eqb (a b : Value) {struct a} : bool :=
  match a, b with
  | JNull, JNull => true
  | JBool x, JBool y => Bool.eqb x y
  | JNumber x, JNumber y => num_eqb x y
  | JString x, JString y => String.eqb x y
  | JArray xs, JArray ys =>
      (fix go (xs ys : list Value) : bool :=
         match xs, ys with
         | [], [] => true
         | x :: xs', y :: ys' => value_eqb x y && go xs' ys'
         | _, _ => false
         end) xs ys
  | JObject xs, JObject ys =>
      (fix go (xs ys : Map) : bool :=
         match xs, ys with
         | [], [] => true
         | (k, x) :: xs', (k', y) :: ys' => String.eqb k k' && value_eqb x y && go xs' ys'
         | _, _ => false
         end) xs ys
  | _, _ => false
  end.

(** The members of an object; nothing for another value. *)
Definition obj_members (v : Value) : Map := match v with JObject m => m | _ => [] end.

(** ** Induction on values *)

Section value_ind.
Variable P : Value -> Prop.
Hypothesis Hnull : P JNull.
Hypothesis Hbool : forall b, P (JBool b).
Hypothesis Hnum : forall n, P (JNumber n).
Hypothesis Hstr : forall s, P (JString s).
Hypothesis Harr : forall l, Forall P l -> P (JArray l).
Hypothesis Hobj : forall m, Forall (fun kv => P kv.2) m -> P (JObject m).

Fixpoint value_ind' (v : Value) : P v :=
  match v with
  | JNull => Hnull
  | JBool b => Hbool b
  | JNumber n => Hnum n
  | JString s => Hstr s
  | JArray l => Harr l
      ((fix go (l : list Value) : Forall P l :=
          match l with [] => @List.Forall_nil _ _ | x :: l' => @List.Forall_cons _ _ _ _ (value_ind' x) (go l') end) l)
  | JObject m => Hobj m
      ((fix go (m : Map) : Forall (fun kv => P kv.2) m :=
          match m with [] => @List.Forall_nil _ _ | kv :: m' => @List.Forall_cons _ _ _ _ (value_ind' kv.2) (go m') end) m)
  end.
End value_ind.

(** ** Lookup laws: they hold of every association list *)

Lemma compare_refl (s : string) : String.compare s s = Eq.
Proof. induction s as [|c s IH]; simpl; [done|]. unfold Ascii.compare. by rewrite N.compare_refl. Qed.

Lemma compare_eq (a b : string) : String.compare a b = Eq <-> a = b.
Proof. split; [apply String.compare_eq_iff | intros ->; apply compare_refl]. Qed.

Lemma map_get_insert k v m : map_get k (map_insert k v m) = Some v.
Proof.
  induction m as [|[k' v'] m IH]; simpl; [by rewrite String.eqb_refl|].
  destruct (String.compare k k') eqn:E; simpl; rewrite ?String.eqb_refl; try done.
  destruct (String.eqb_spec k k') as [->|]; [by rewrite compare_refl in E|done].
Qed.

Lemma map_get_insert_ne k k' v m : k <> k' -> map_get k' (map_insert k v m) = map_get k' m.
Proof.
  intros Hne. induction m as [|[k1 v1] m IH]; simpl.
  - by destruct (String.eqb_spec k' k) as [->|].
  - destruct (String.compare k k1) eqn:E; simpl.
    + apply compare_eq in E as ->. by destruct (String.eqb_spec k' k1) as [->|].
    + by destruct (String.eqb_spec k' k) as [->|].
    + by rewrite IH.
Qed.

Lemma map_get_remove k m : map_get k (map_remove k m) = None.
Proof.
  induction m as [|[k1 v1] m IH]; simpl; [done|].
  destruct (String.eqb_spec k k1) as [->|]; simpl; [done|].
  by destruct (String.eqb_spec k k1).
Qed.

Lemma map_get_remove_ne k k' m : k <> k' -> map_get k' (map_remove k m) = map_get k' m.
Proof.
  intros Hne. induction m as [|[k1 v1] m IH]; simpl; [done|].
  destruct (String.eqb_spec k k1) as [->|]; simpl.
  - by destruct (String.eqb_spec k' k1) as [->|].
  - by rewrite IH.
Qed.

Lemma map_get_elem k v m : map_get k m = Some v -> (k, v) ∈ m.
Proof.
  induction m as [|[k1 v1] m IH]; simpl; [done|].
  destruct (String.eqb_spec k k1) as [->|]; [intros [= ->]; left | intros; right; auto].
Qed.

Lemma map_get_keys k m : k ∈ map_keys m <-> is_Some (map_get k m).
Proof.
  unfold map_keys. induction m as [|[k1 v1] m IH]; simpl.
  - split; [by intros ?%elem_of_nil | by intros []].
  - rewrite elem_of_cons, IH. destruct (String.eqb_spec k k1) as [->|]; [|tauto].
    split; [by eexists | by left].
Qed.

Lemma map_get_nodup k v m : NoDup m.*1 -> (k, v) ∈ m -> map_get k m = Some v.
Proof.
  induction m as [|[k1 v1] m IH]; simpl; [by intros _ ?%elem_of_nil|].
  intros [Hni Hnd]%NoDup_cons [[= <- <-]|Hin]%elem_of_cons; [by rewrite String.eqb_refl|].
  destruct (String.eqb_spec k k1) as [->|]; [|auto].
  exfalso. apply Hni, list_elem_of_fmap. by exists (k1, v).
Qed.

#[export] Hint Rewrite map_get_insert map_get_remove : json.
#[export] Hint Rewrite map_get_insert_ne map_get_remove_ne using congruence : json.

(** ** Sorted maps are determined by their lookups *)

Definition key_lt (a b : string) : Prop := String.compare a b = Lt.

#[export] Instance key_lt_trans : Transitive key_lt.
Proof.
  unfold key_lt. intros a. induction a as [|x a IH]; intros [|y b] [|z c]; simpl; try done.
  unfold Ascii.compare. intros Hab Hbc.
  destruct (N.compare_spec (Ascii.N_of_ascii x) (Ascii.N_of_ascii y)) as [E|E|E]; try done;
  destruct (N.compare_spec (Ascii.N_of_ascii y) (Ascii.N_of_ascii z)) as [F|F|F]; try done;
  destruct (N.compare_spec (Ascii.N_of_ascii x) (Ascii.N_of_ascii z)) as [G|G|G]; try done; try lia.
  by eapply IH.
Qed.

Lemma key_lt_irrefl a : ~ key_lt a a.
Proof. unfold key_lt. by rewrite compare_refl. Qed.

Definition map_wf (m : Map) : Prop := StronglySorted key_lt (map_keys m).

Lemma map_insert_keys k v m x :
  x ∈ map_keys (map_insert k v m) -> x = k \/ x ∈ map_keys m.
Proof.
  rewrite !map_get_keys. destruct (decide (x = k)) as [->|]; [by left|].
  rewrite map_get_insert_ne by done. by right.
Qed.

Lemma map_remove_keys k m x : x ∈ map_keys (map_remove k m) -> x ∈ map_keys m.
Proof.
  rewrite !map_get_keys. destruct (decide (x = k)) as [->|].
  - by rewrite map_get_remove; intros [].
  - by rewrite map_get_remove_ne.
Qed.

Lemma map_insert_wf k v m : map_wf m -> map_wf (map_insert k v m).
Proof.
  unfold map_wf. induction m as [|[k1 v1] m IH]; cbn [map_keys fmap list_fmap map_insert fst].
  - intros _. constructor; [constructor|]. constructor.
  - intros Hs. apply StronglySorted_inv in Hs as [Hs Hf].
    destruct (String.compare k k1) eqn:E; cbn [map_keys fmap list_fmap fst].
    + apply compare_eq in E as ->. by constructor.
    + constructor; [by constructor|]. constructor; [done|].
      eapply Forall_impl; [exact Hf|]. intros x Hx. by transitivity k1.
    + constructor; [by apply IH|]. apply Forall_forall. intros x Hx.
      apply map_insert_keys in Hx as [->|Hx]; [|by eapply Forall_forall in Hf].
      unfold key_lt. rewrite String.compare_antisym, E. done.
Qed.

Lemma map_remove_wf k m : map_wf m -> map_wf (map_remove k m).
Proof.
  unfold map_wf. induction m as [|[k1 v1] m IH]; cbn [map_keys fmap list_fmap map_remove fst]; [done|].
  intros Hs. apply StronglySorted_inv in Hs as [Hs Hf].
  destruct (String.eqb k k1); [by apply IH|]. cbn [map_keys fmap list_fmap fst].
  constructor; [by apply IH|]. apply Forall_forall. intros x Hx%map_remove_keys.
  by eapply Forall_forall in Hf.
Qed.

Lemma map_wf_cons k v m :
  map_wf ((k, v) :: m) <-> map_wf m /\ Forall (key_lt k) (map_keys m).
Proof.
  unfold map_wf; cbn [map_keys fmap list_fmap fst]. split.
  - apply StronglySorted_inv.
  - intros []. by constructor.
Qed.

Lemma map_wf_nodup m : map_wf m -> NoDup m.*1.
Proof.
  induction m as [|[k v] m IH]; [constructor|]. intros [Hw Hf]%map_wf_cons.
  constructor; [|by apply IH]. intros Hin. eapply Forall_forall in Hf; [|exact Hin].
  by eapply key_lt_irrefl.
Qed.

Lemma map_get_lt_none k m : Forall (key_lt k) (map_keys m) -> map_get k m = None.
Proof.
  intros Hf. apply eq_None_not_Some. rewrite <- map_get_keys. intros Hin.
  eapply Forall_forall in Hf; [|exact Hin]. by eapply key_lt_irrefl.
Qed.

Lemma map_ext m1 m2 :
  map_wf m1 -> map_wf m2 -> (forall k, map_get k m1 = map_get k m2) -> m1 = m2.
Proof.
  revert m2. induction m1 as [|[k1 v1] m1 IH]; intros [|[k2 v2] m2] H1 H2 Hget; [done|..].
  - specialize (Hget k2). simpl in Hget. by rewrite String.eqb_refl in Hget.
  - specialize (Hget k1). simpl in Hget. by rewrite String.eqb_refl in Hget.
  - apply map_wf_cons in H1 as [H1 F1], H2 as [H2 F2].
    assert (k1 = k2) as ->.
    { destruct (String.compare k1 k2) eqn:E.
      - by apply compare_eq.
      - pose proof (Hget k1) as G. simpl in G. rewrite String.eqb_refl in G.
        destruct (String.eqb_spec k1 k2) as [->|]; [done|].
        rewrite map_get_lt_none in G; [done|]. eapply Forall_impl; [exact F2|].
        intros x ?. by transitivity k2.
      - assert (E' : key_lt k2 k1) by (unfold key_lt; by rewrite String.compare_antisym, E).
        pose proof (Hget k2) as G. simpl in G. rewrite String.eqb_refl in G.
        destruct (String.eqb_spec k2 k1) as [->|]; [done|].
        rewrite map_get_lt_none in G; [done|]. eapply Forall_impl; [exact F1|].
        intros x ?. by transitivity k1. }
    pose proof (Hget k2) as G. simpl in G. rewrite String.eqb_refl in G. simplify_eq.
    f_equal. apply IH; [done..|]. intros k. specialize (Hget k). simpl in Hget.
    destruct (String.eqb_spec k k2) as [E|]; [|done]. subst k. by rewrite !map_get_lt_none.
Qed.

(** Every object in the value, at every depth, is sorted. *)
Inductive value_wf : Value -> Prop :=
| wf_null : value_wf JNull
| wf_bool b : value_wf (JBool b)
| wf_number n : value_wf (JNumber n)
| wf_string s : value_wf (JString s)
| wf_array l : Forall value_wf l -> value_wf (JArray l)
| wf_object m : map_wf m -> Forall (fun kv => value_wf kv.2) m -> value_wf (JObject m).

#[export] Hint Constructors value_wf : json.
#[export] Hint Resolve map_insert_wf map_remove_wf map_wf_nodup : json.

Lemma value_eqb_string s v : value_eqb (JString s) v = true <-> v = JString s.
Proof.
  destruct v; simpl; try (split; congruence).
  rewrite String.eqb_eq. split; congruence.
Qed.

Lemma value_eqb_string_r v s : value_eqb v (JString s) = true <-> v = JString s.
Proof.
  destruct v; simpl; try (split; congruence).
  rewrite String.eqb_eq. split; congruence.
Qed.
