(* ===== verification/AppError.v ===== *)
(** * Errors and responses ([error.rs])

    [AppError] is the one error type of the handlers; [into_response] is its RFC 9457 rendering.
    [SqlError] is what a statement on the store can raise ([sqlx::Error]), mapped to an
    [AppError] by [from_sqlx]. *)

From S2P Require Import Prelude RustStr Json.


Local Open Scope Z_scope.

Record AppError := mkAppError {
  status : Z;
  kind : string;
  detail : string;
  request_id : option string;
  allow : option (list string) }.

Abbreviation AppResult := (Result AppError).

(** Status codes by their names in the [http] crate. *)
Definition OK : Z := 200.
Definition CREATED : Z := 201.
Definition NO_CONTENT : Z := 204.
Definition FOUND : Z := 302.
Definition NOT_MODIFIED : Z := 304.
Definition BAD_REQUEST : Z := 400.
Definition UNAUTHORIZED : Z := 401.
Definition FORBIDDEN : Z := 403.
Definition NOT_FOUND : Z := 404.
Definition METHOD_NOT_ALLOWED : Z := 405.
Definition CONFLICT : Z := 409.
Definition PRECONDITION_FAILED : Z := 412.
Definition UNSUPPORTED_MEDIA_TYPE : Z := 415.
Definition UNPROCESSABLE_ENTITY : Z := 422.
Definition PRECONDITION_REQUIRED : Z := 428.
Definition TOO_MANY_REQUESTS : Z := 429.
Definition INTERNAL_SERVER_ERROR : Z := 500.
Definition SERVICE_UNAVAILABLE : Z := 503.

Definition new (status : Z) (kind detail : string) : AppError :=
  mkAppError status kind detail None None.

Definition with_request_id (id : string) (e : AppError) : AppError :=
  mkAppError (status e) (kind e) (detail e) (Some id) (allow e).

Definition with_allow (a : list string) (e : AppError) : AppError :=
  mkAppError (status e) (kind e) (detail e) (request_id e) (Some a).

Definition not_found : AppError := new NOT_FOUND "not_found" "Not found".
Definition unauthorized : AppError := new UNAUTHORIZED "unauthorized" "Authentication required".
Definition forbidden : AppError := new FORBIDDEN "forbidden" "Forbidden".
Definition forbidden_field (field : string) : AppError :=
  new FORBIDDEN "field_forbidden" ("field not writable for your role: " +:+ field).
Definition bad_request (d : string) : AppError := new BAD_REQUEST "bad_request" d.
Definition unprocessable (d : string) : AppError :=
  new UNPROCESSABLE_ENTITY "unprocessable_entity" d.
Definition illegal_transition (d : string) : AppError :=
  new UNPROCESSABLE_ENTITY "illegal_transition" d.
Definition close_preconditions_unmet (d : string) : AppError :=
  new UNPROCESSABLE_ENTITY "close_preconditions_unmet" d.
Definition too_many_requests : AppError :=
  new TOO_MANY_REQUESTS "too_many_requests" "rate limit exceeded".
Definition conflict (d : string) : AppError := new CONFLICT "conflict" d.
Definition unsupported_media_type : AppError :=
  new UNSUPPORTED_MEDIA_TYPE "unsupported_media_type" "Expected application/json".
Definition precondition_required : AppError :=
  new PRECONDITION_REQUIRED "precondition_required" "If-Match is required for this mutation".
Definition precondition_failed : AppError :=
  new PRECONDITION_FAILED "precondition_failed" "If-Match did not match the current version".
Definition method_not_allowed (a : list string) : AppError :=
  with_allow a (new METHOD_NOT_ALLOWED "method_not_allowed" "Method not allowed").
Definition internal (d : string) : AppError := new INTERNAL_SERVER_ERROR "internal" d.
Definition unavailable : AppError :=
  new SERVICE_UNAVAILABLE "service_unavailable" "Service unavailable".

(** The errors of a statement, by the SQLSTATE the mapping looks at. *)
Inductive SqlError :=
| RowNotFound
| ForeignKeyViolation    (* 23503 *)
| UniqueViolation        (* 23505 *)
| CasesGuard             (* NU001, raised by the [cases_guard] trigger *)
| OtherDb (msg : string) (* any other code *).

Definition from_sqlx (e : SqlError) : AppError :=
  match e with
  | RowNotFound => not_found
  | ForeignKeyViolation => unprocessable "a referenced entity does not exist"
  | UniqueViolation => conflict "a unique constraint was violated"
  | CasesGuard => close_preconditions_unmet "close preconditions not met"
  | OtherDb other => internal other
  end.

(** ** Responses *)

Record Response := mkResponse {
  resp_status : Z;
  resp_headers : list (string * string);
  resp_body : option Value }.

(** [headers.insert(k, v)]: the earlier values of the name are replaced. *)
Definition header_insert (k v : string) (l : list (string * string)) : list (string * string) :=
  filter (fun kv => kv.1 <> k) l ++ [(k, v)].

(** An array of headers as a part of a response: each is inserted in turn, so of two with the same
    name the later one stays. (A handler whose array names each header once is modelled by the
    array.) *)
Definition header_parts (l : list (string * string)) : list (string * string) :=
  fold_left (fun hs kv => header_insert kv.1 kv.2 hs) l [].

Definition is_server_error (s : Z) : bool := (500 <=? s) && (s <=? 599).

(** What the [http] crate supplies: reason phrases, and which strings can be header values. *)
Class HttpCrate := {
  canonical_reason : Z -> option string;
  header_from_str : string -> option string }.

Section IntoResponse.
Context `{HttpCrate}.

Definition into_response (e : AppError) : Response :=
  let instance := default "" (request_id e) in
  let wire_detail :=
    if is_server_error (status e)
    then default "Internal Server Error" (canonical_reason (status e))
    else detail e in
  let body :=
    JObject (map_collect
      [("type", JString ("https://numu/errors/" +:+ kind e));
       ("title", JString (default "" (canonical_reason (status e))));
       ("status", JNumber (PosInt (status e)));
       ("detail", JString wire_detail);
       ("instance", JString instance);
       ("kind", JString (kind e))]) in
  let hs := [("content-type", "application/problem+json")] in
  let hs' := match allow e with
             | Some a => match header_from_str (join ", " a) with
                         | Some v => hs ++ [("allow", v)]
                         | None => hs
                         end
             | None => hs
             end in
  mkResponse (status e) hs' (Some body).

(** the airlock: the response to a server error does not depend on its detail. *)
Theorem into_response_airlock e d :
  is_server_error (status e) = true ->
  into_response (mkAppError (status e) (kind e) d (request_id e) (allow e)) = into_response e.
Proof. intros Hs. unfold into_response. simpl. by rewrite Hs. Qed.
End IntoResponse.

(** The result of rendering: what the client sees of a handler's outcome. *)
Definition render `{HttpCrate} (r : AppResult Response) : Response :=
  match r with Ok x => x | Err e => into_response e end.

(** A statement never maps to a bare server error unless the store reported an unexpected
    one. *)
Lemma from_sqlx_status e :
  is_server_error (status (from_sqlx e)) = true <-> exists m, e = OtherDb m.
Proof. destruct e; simpl; split; try done; try (by intros [? ?]); eauto. Qed.
