(* ===== verification/Closure.v ===== *)
(** * Queries: selections and recursive common table expressions

    [select_list]/[select_set] are a [select .. from t where ..] over a table; [cte] evaluates
    [with recursive t as (seed union step t)] the way the database does: the step is applied to
    the working table, the rows already produced are removed, and the loop ends when nothing
    new appears. [cte_spec] identifies its result with a reflexive transitive closure. *)

From S2P Require Import Prelude.

(** ** Selections *)

Section Select.
Context `{Countable K} {A : Type}.

Definition select_list {B} (f : K -> A -> option B) (m : gmap K A) : list B :=
  omap (fun kv => f kv.1 kv.2) (map_to_list m).

Definition select_set `{Countable B} (f : K -> A -> option B) (m : gmap K A) : gset B :=
  list_to_set (select_list f m).

Lemma elem_of_select_list {B} (f : K -> A -> option B) m b :
  b ∈ select_list f m <-> exists k a, m !! k = Some a /\ f k a = Some b.
Proof.
  unfold select_list. rewrite list_elem_of_omap. split.
  - intros ([k a] & Hka%elem_of_map_to_list & Hf). eauto.
  - intros (k & a & Hm & Hf). exists (k, a). by rewrite elem_of_map_to_list.
Qed.

Lemma elem_of_select_set `{Countable B} (f : K -> A -> option B) m b :
  b ∈ select_set f m <-> exists k a, m !! k = Some a /\ f k a = Some b.
Proof. unfold select_set. by rewrite elem_of_list_to_set, elem_of_select_list. Qed.
End Select.

(** ** [with recursive] *)

Section Cte.
Context `{Countable K}.
Variable step : gset K -> gset K.

Fixpoint cte_loop (fuel : nat) (work acc : gset K) : gset K :=
  match fuel with
  | O => acc
  | S f =>
      let new := step work ∖ acc in
      if decide (new = ∅) then acc else cte_loop f new (acc ∪ new)
  end.

(** [bound] is the number of rows the step can ever produce. *)
Definition cte (bound : nat) (seed : gset K) : gset K := cte_loop (S bound) seed seed.

(** The step follows the edges of [R], whose targets lie in the finite set [U]. *)
Variable R : relation K.
Variable U : gset K.
Hypothesis step_spec : forall X y, y ∈ step X <-> exists x, x ∈ X /\ R x y.
Hypothesis step_bound : forall x y, R x y -> y ∈ U.

(** Rows are only produced by edges from the seed. *)
Lemma cte_loop_sound (seed : gset K) fuel work acc y :
  work ⊆ acc ->
  (forall x, x ∈ acc -> exists s, s ∈ seed /\ rtc R s x) ->
  y ∈ cte_loop fuel work acc -> exists s, s ∈ seed /\ rtc R s y.
Proof.
  revert work acc. induction fuel as [|f IH]; intros work acc Hwa Hacc; simpl; [auto|].
  case_decide as Hnew; [auto|]. apply IH; [set_solver|].
  intros x [Hx|[Hx _]%elem_of_difference]%elem_of_union; [auto|].
  apply step_spec in Hx as (w & Hw & HR). destruct (Hacc w) as (s & Hs & Hsw); [set_solver|].
  exists s. split; [done|]. by eapply rtc_r.
Qed.

(** With fuel for every row of [U] outside [acc], the loop stops at a closed set. *)
Lemma cte_loop_closed fuel (work acc : gset K) :
  (size (U ∖ acc) < fuel)%nat ->
  (forall x y, x ∈ acc -> R x y -> y ∈ acc \/ x ∈ work) ->
  acc ⊆ cte_loop fuel work acc /\
  forall x y, x ∈ cte_loop fuel work acc -> R x y -> y ∈ cte_loop fuel work acc.
Proof.
  revert work acc. induction fuel as [|f IH]; intros work acc Hsz Hcl; simpl; [lia|].
  case_decide as Hnew.
  - split; [done|]. intros x y Hx HR. destruct (Hcl x y Hx HR) as [|Hw]; [done|].
    assert (y ∈ step work) by (apply step_spec; eauto). set_solver.
  - destruct (IH (step work ∖ acc) (acc ∪ step work ∖ acc)) as [Hsub Hclosed].
    + apply set_choose_L in Hnew as [z Hz].
      assert (HzU : z ∈ U).
      { apply elem_of_difference in Hz as [Hz _].
        apply step_spec in Hz as (w & _ & HR). eauto. }
      cut (size (U ∖ (acc ∪ step work ∖ acc)) < size (U ∖ acc))%nat; [lia|].
      apply subset_size. apply strict_spec_alt. split; [set_solver|].
      intros Heq. assert (z ∈ U ∖ acc) by set_solver. rewrite <- Heq in *. set_solver.
    + intros x y [Hx|Hx]%elem_of_union HR; [|by right].
      destruct (Hcl x y Hx HR) as [|Hw]; [set_solver|]. left.
      assert (y ∈ step work) by (apply step_spec; eauto).
      destruct (decide (y ∈ acc)); set_solver.
    + split; [set_solver|done].
Qed.

Lemma cte_spec bound (seed : gset K) y :
  (size U <= bound)%nat ->
  y ∈ cte bound seed <-> exists s, s ∈ seed /\ rtc R s y.
Proof.
  intros Hb. unfold cte. split.
  - apply cte_loop_sound; [done|]. intros x Hx. exists x. split; [done|]. apply rtc_refl.
  - intros (s & Hs & Hsy).
    destruct (cte_loop_closed (S bound) seed seed) as [Hsub Hcl].
    + assert (size (U ∖ seed) <= size U)%nat by (apply subseteq_size; set_solver). lia.
    + by right.
    + assert (Hin : s ∈ cte_loop (S bound) seed seed) by set_solver.
      clear Hs Hsub. induction Hsy as [|a b c Hab Hbc IH]; [done|]. apply IH. by eapply Hcl.
Qed.
End Cte.
