(* ===== verification/Schema.v ===== *)
(** * The store: tables, statements and transactions

    The tables of [migrations/], as far as the server reads or writes them, and the SQL the
    server's statements are made of: [SqlM] is the type of a statement (or of a transaction: an
    error discards every change). Integrity constraints are the ones of the migrations. Loss of
    the connection and other infrastructure failures are not modelled. *)

From S2P Require Import Prelude RustStr Json AppError.


Local Open Scope Z_scope.

(** ** Rows *)

Record TypeDefRow := mkTypeDefRow {
  td_id_prefix : string; td_display_name : string; td_display_name_plural : string;
  td_scope_parents : Value; td_is_builtin : bool; td_ordinal : Z; td_method_policy : Value }.

Record TypeFieldRow := mkTypeFieldRow {
  tf_label : string; tf_kind : string; tf_required : bool; tf_editable : bool; tf_ordinal : Z;
  tf_perm_class : string; tf_options : Value; tf_searchable : bool }.

Record EntityRow := mkEntityRow { en_type : string; en_created_by : option string }.

Record DataRow := mkDataRow {
  d_type_id : string; d_data : Value; d_scope_parent_id : option string; d_version : Z;
  d_updated_at : Z }.

Record MemberRow := mkMemberRow { m_role : string; m_context_role : string }.

Record WorkflowRow := mkWorkflowRow {
  w_states : Value; w_transitions : Value; w_initial : string; w_close_checks : Value }.

Record CaseRow := mkCaseRow {
  c_title : string; c_status : string; c_workflow_id : string; c_priority : string;
  c_assignee_id : option string; c_project_id : option string; c_version : Z; c_updated_at : Z }.

Record CheckRow := mkCheckRow { k_passed : bool; k_note : option string }.

Record RelationRow := mkRelationRow {
  r_subject_id : string; r_object_id : string; r_relation_type : string;
  r_created_by : option string; r_created_at : Z }.

Record RunRow := mkRunRow {
  f_case_id : option string; f_title : string; f_phase : string; f_status : string;
  f_started_at : Z; f_updated_at : Z }.

Record HandoffRow := mkHandoffRow {
  h_feature_run_id : string; h_role : string; h_gate : string; h_outcome : string;
  h_kind : string; h_attempt : Z; h_retries : Z; h_hops : Z; h_note : string; h_at : Z }.

Record SessionRow := mkSessionRow {
  s_actor_id : string; s_token_hash : string; s_expires_at : Z }.

Record IdentityRow := mkIdentityRow { i_actor_id : string; i_email : option string }.

Record EventRow := mkEventRow {
  e_entity_id : option string; e_actor_id : string; e_kind : string; e_payload : Value;
  e_request_id : string; e_trace_id : string }.

(** ** The store

    [memberships] is keyed by (object, member), [type_fields] by (type, field),
    [field_permissions] by (type, field, role) and holds (can_read, can_write), [roles] maps a
    role to its rank, [role_handoffs] and [events] are in insertion order, [now] is the clock. *)

Record Db := mkDb {
  type_definitions : gmap string TypeDefRow;
  type_fields : gmap (string * string) TypeFieldRow;
  entities : gmap string EntityRow;
  entity_data : gmap string DataRow;
  memberships : gmap (string * string) MemberRow;
  roles : gmap string Z;
  field_permissions : gmap (string * string * string) (bool * bool);
  workflows : gmap string WorkflowRow;
  cases : gmap string CaseRow;
  case_close_checks : gmap (string * string) CheckRow;
  relations : gmap string RelationRow;
  feature_runs : gmap string RunRow;
  role_handoffs : list HandoffRow;
  sessions : gmap string SessionRow;
  auth_identities : gmap (string * string) IdentityRow;
  events : list EventRow;
  now : Z }.

Definition set_type_definitions (x : gmap string TypeDefRow) (db : Db) : Db :=   mkDb x
    (type_fields db) (entities db) (entity_data db) (memberships db) (roles db) (field_permissions
    db) (workflows db) (cases db) (case_close_checks db) (relations db) (feature_runs db)
    (role_handoffs db) (sessions db) (auth_identities db) (events db) (now db).
Definition set_type_fields (x : gmap (string * string) TypeFieldRow) (db : Db) : Db :=   mkDb
    (type_definitions db) x (entities db) (entity_data db) (memberships db) (roles db)
    (field_permissions db) (workflows db) (cases db) (case_close_checks db) (relations db)
    (feature_runs db) (role_handoffs db) (sessions db) (auth_identities db) (events db) (now db).
Definition set_entities (x : gmap string EntityRow) (db : Db) : Db :=   mkDb (type_definitions db)
    (type_fields db) x (entity_data db) (memberships db) (roles db) (field_permissions db)
    (workflows db) (cases db) (case_close_checks db) (relations db) (feature_runs db)
    (role_handoffs db) (sessions db) (auth_identities db) (events db) (now db).
Definition set_entity_data (x : gmap string DataRow) (db : Db) : Db :=   mkDb (type_definitions
    db) (type_fields db) (entities db) x (memberships db) (roles db) (field_permissions db)
    (workflows db) (cases db) (case_close_checks db) (relations db) (feature_runs db)
    (role_handoffs db) (sessions db) (auth_identities db) (events db) (now db).
Definition set_memberships (x : gmap (string * string) MemberRow) (db : Db) : Db :=   mkDb
    (type_definitions db) (type_fields db) (entities db) (entity_data db) x (roles db)
    (field_permissions db) (workflows db) (cases db) (case_close_checks db) (relations db)
    (feature_runs db) (role_handoffs db) (sessions db) (auth_identities db) (events db) (now db).
Definition set_cases (x : gmap string CaseRow) (db : Db) : Db :=   mkDb (type_definitions db)
    (type_fields db) (entities db) (entity_data db) (memberships db) (roles db) (field_permissions
    db) (workflows db) x (case_close_checks db) (relations db) (feature_runs db) (role_handoffs
    db) (sessions db) (auth_identities db) (events db) (now db).
Definition set_case_close_checks (x : gmap (string * string) CheckRow) (db : Db) : Db :=   mkDb
    (type_definitions db) (type_fields db) (entities db) (entity_data db) (memberships db) (roles
    db) (field_permissions db) (workflows db) (cases db) x (relations db) (feature_runs db)
    (role_handoffs db) (sessions db) (auth_identities db) (events db) (now db).
Definition set_relations (x : gmap string RelationRow) (db : Db) : Db :=   mkDb (type_definitions
    db) (type_fields db) (entities db) (entity_data db) (memberships db) (roles db)
    (field_permissions db) (workflows db) (cases db) (case_close_checks db) x (feature_runs db)
    (role_handoffs db) (sessions db) (auth_identities db) (events db) (now db).
Definition set_feature_runs (x : gmap string RunRow) (db : Db) : Db :=   mkDb (type_definitions
    db) (type_fields db) (entities db) (entity_data db) (memberships db) (roles db)
    (field_permissions db) (workflows db) (cases db) (case_close_checks db) (relations db) x
    (role_handoffs db) (sessions db) (auth_identities db) (events db) (now db).
Definition set_role_handoffs (x : list HandoffRow) (db : Db) : Db :=   mkDb (type_definitions db)
    (type_fields db) (entities db) (entity_data db) (memberships db) (roles db) (field_permissions
    db) (workflows db) (cases db) (case_close_checks db) (relations db) (feature_runs db) x
    (sessions db) (auth_identities db) (events db) (now db).
Definition set_sessions (x : gmap string SessionRow) (db : Db) : Db :=   mkDb (type_definitions
    db) (type_fields db) (entities db) (entity_data db) (memberships db) (roles db)
    (field_permissions db) (workflows db) (cases db) (case_close_checks db) (relations db)
    (feature_runs db) (role_handoffs db) x (auth_identities db) (events db) (now db).
Definition set_auth_identities (x : gmap (string * string) IdentityRow) (db : Db) : Db :=   mkDb
    (type_definitions db) (type_fields db) (entities db) (entity_data db) (memberships db) (roles
    db) (field_permissions db) (workflows db) (cases db) (case_close_checks db) (relations db)
    (feature_runs db) (role_handoffs db) (sessions db) x (events db) (now db).
Definition set_events (x : list EventRow) (db : Db) : Db :=   mkDb (type_definitions db)
    (type_fields db) (entities db) (entity_data db) (memberships db) (roles db) (field_permissions
    db) (workflows db) (cases db) (case_close_checks db) (relations db) (feature_runs db)
    (role_handoffs db) (sessions db) (auth_identities db) x (now db).
Definition set_now (x : Z) (db : Db) : Db :=   mkDb (type_definitions db) (type_fields db)
    (entities db) (entity_data db) (memberships db) (roles db) (field_permissions db) (workflows
    db) (cases db) (case_close_checks db) (relations db) (feature_runs db) (role_handoffs db)
    (sessions db) (auth_identities db) (events db) x.

(** ** Statements and transactions *)

Definition SqlM (A : Type) : Type := Db -> Result SqlError (A * Db).

#[export] Instance sql_ret : MRet SqlM := fun A a db => Ok (a, db).
#[export] Instance sql_bind : MBind SqlM := fun A B k m db =>
  match m db with Ok (a, db') => k a db' | Err e => Err e end.

Definition sql_fail {A} (e : SqlError) : SqlM A := fun _ => Err e.
Definition sql_get : SqlM Db := fun db => Ok (db, db).
(** [now()] *)
Definition sql_now : SqlM Z := fun db => Ok (now db, db).
Definition sql_put (db : Db) : SqlM unit := fun _ => Ok (tt, db).
(** A constraint: the statement fails with [e] unless [b]. *)
Definition constraint (b : bool) (e : SqlError) : SqlM unit :=
  fun db => if b then Ok (tt, db) else Err e.

(** A foreign key column holds null or the key of a row. *)
Definition fk_ok {A} (t : gmap string A) (k : option string) : bool :=
  match k with None => true | Some k => bool_decide (is_Some (t !! k)) end.

#[global] Arguments fk_ok : simpl never.

(** *** Inserting and updating objects *)

Definition insert_entity (id type_id : string) (created_by : option string) : SqlM unit :=
  fun db =>
    if decide (is_Some (entities db !! id)) then Err UniqueViolation
    else if fk_ok (type_definitions db) (Some type_id)
    then Ok (tt, set_entities (<[id := mkEntityRow type_id created_by]> (entities db)) db)
    else Err ForeignKeyViolation.

(** [insert into entity_data]: the version starts at 1. *)
Definition insert_data (id type_id : string) (data : Value) (sp : option string) : SqlM unit :=
  fun db =>
    if decide (is_Some (entity_data db !! id)) then Err UniqueViolation
    else if fk_ok (entities db) (Some id) && fk_ok (type_definitions db) (Some type_id)
            && fk_ok (entities db) sp
    then Ok (tt, set_entity_data
                   (<[id := mkDataRow type_id data sp 1 (now db)]> (entity_data db)) db)
    else Err ForeignKeyViolation.

(** [update entity_data set data = .., scope_parent_id = .., version = version + 1 where
    entity_id = .. and type_id = .. and version = expected]: the number of rows changed. The
    column is a 32-bit integer: incrementing its maximum is an error of the store. *)
Definition update_data (id type_id : string) (data : Value) (sp : option string) (expected : Z)
    : SqlM Z :=
  fun db =>
    match entity_data db !! id with
    | Some row =>
        if bool_decide (d_type_id row = type_id) && (d_version row =? expected) then
          if d_version row =? i32_max then Err (OtherDb "integer out of range")
          else if fk_ok (entities db) sp
          then Ok (1, set_entity_data
                        (<[id := mkDataRow type_id data sp (d_version row + 1) (now db)]>
                           (entity_data db)) db)
          else Err ForeignKeyViolation
        else Ok (0, db)
    | None => Ok (0, db)
    end.

(** *** Deleting an entity: the [on delete] actions of every reference to it *)

(** [on delete set null] *)
Definition null_if (id : string) (k : option string) : option string :=
  if decide (k = Some id) then None else k.

Definition cascade_data (id : string) (row : DataRow) : DataRow :=
  mkDataRow (d_type_id row) (d_data row) (null_if id (d_scope_parent_id row)) (d_version row)
    (d_updated_at row).

Definition cascade_case (id : string) (c : CaseRow) : CaseRow :=
  mkCaseRow (c_title c) (c_status c) (c_workflow_id c) (c_priority c)
    (null_if id (c_assignee_id c)) (null_if id (c_project_id c)) (c_version c) (c_updated_at c).

Definition cascade_relation (id : string) (r : RelationRow) : RelationRow :=
  mkRelationRow (r_subject_id r) (r_object_id r) (r_relation_type r)
    (null_if id (r_created_by r)) (r_created_at r).

Definition cascade_run (id : string) (f : RunRow) : RunRow :=
  mkRunRow (null_if id (f_case_id f)) (f_title f) (f_phase f) (f_status f) (f_started_at f)
    (f_updated_at f).

Definition cascade_event (id : string) (e : EventRow) : EventRow :=
  mkEventRow (null_if id (e_entity_id e)) (e_actor_id e) (e_kind e) (e_payload e)
    (e_request_id e) (e_trace_id e).

Definition delete_entity (id : string) (db : Db) : Db :=
  mkDb (type_definitions db) (type_fields db)
    (delete id (entities db))
    (cascade_data id <$> delete id (entity_data db))
    (filter (fun kv => kv.1.1 <> id /\ kv.1.2 <> id) (memberships db))
    (roles db) (field_permissions db) (workflows db)
    (cascade_case id <$> delete id (cases db))
    (filter (fun kv => kv.1.1 <> id) (case_close_checks db))
    (cascade_relation id <$>
       filter (fun kv => r_subject_id kv.2 <> id /\ r_object_id kv.2 <> id) (relations db))
    (cascade_run id <$> feature_runs db)
    (role_handoffs db)
    (filter (fun kv => s_actor_id kv.2 <> id) (sessions db))
    (filter (fun kv => i_actor_id kv.2 <> id) (auth_identities db))
    (cascade_event id <$> events db)
    (now db).

(** [delete from entities e using entity_data d where e.id = d.entity_id and e.id = .. and
    d.type_id = .. and d.version = ..] *)
Definition delete_object (id type_id : string) (expected : Z) : SqlM Z :=
  fun db =>
    match entity_data db !! id, entities db !! id with
    | Some row, Some _ =>
        if bool_decide (d_type_id row = type_id) && (d_version row =? expected)
        then Ok (1, delete_entity id db)
        else Ok (0, db)
    | _, _ => Ok (0, db)
    end.

(** *** Queries on one object *)

(** [select .. from entity_data where entity_id = .. and type_id = ..] *)
Definition select_data (id type_id : string) (db : Db) : option DataRow :=
  match entity_data db !! id with
  | Some row => if decide (d_type_id row = type_id) then Some row else None
  | None => None
  end.

(** [a.insert(..) on conflict .. do update]: what an upsert of memberships writes. *)
Definition upsert_membership (object_id member_id : string) (row : MemberRow) : SqlM unit :=
  fun db =>
    if fk_ok (entities db) (Some object_id) && fk_ok (entities db) (Some member_id)
       && fk_ok (roles db) (Some (m_role row))
    then Ok (tt, set_memberships (<[(object_id, member_id) := row]> (memberships db)) db)
    else Err ForeignKeyViolation.

(** ** Lemmas *)

Lemma fk_ok_Some {A} (t : gmap string A) k : fk_ok t (Some k) = true <-> is_Some (t !! k).
Proof. unfold fk_ok. apply bool_decide_eq_true. Qed.

Lemma null_if_ne id k : null_if id k <> Some id.
Proof. unfold null_if. by case_decide. Qed.

Lemma null_if_Some id k x : null_if id k = Some x <-> k = Some x /\ x <> id.
Proof. unfold null_if. case_decide; split; naive_solver. Qed.

Lemma sql_bind_ok {A B} (m : SqlM A) (k : A -> SqlM B) db b db' :
  (m ≫= k) db = Ok (b, db') <-> exists a db1, m db = Ok (a, db1) /\ k a db1 = Ok (b, db').
Proof.
  unfold mbind, sql_bind. destruct (m db) as [[a db1]|e].
  - split; [eauto|]. by intros (? & ? & [= -> ->] & ?).
  - split; [done|]. by intros (? & ? & ? & ?).
Qed.

Lemma select_data_Some id type_id db row :
  select_data id type_id db = Some row <->
  entity_data db !! id = Some row /\ d_type_id row = type_id.
Proof.
  unfold select_data. destruct (entity_data db !! id) as [r|]; [case_decide|]; naive_solver.
Qed.

Lemma update_data_ok id type_id data sp expected db n db' :
  update_data id type_id data sp expected db = Ok (n, db') ->
  (n = 0 /\ db' = db) \/
  (n = 1 /\ exists row, entity_data db !! id = Some row /\ d_type_id row = type_id /\
     d_version row = expected /\ expected <> i32_max /\ fk_ok (entities db) sp = true /\
     db' = set_entity_data
             (<[id := mkDataRow type_id data sp (expected + 1) (now db)]> (entity_data db)) db).
Proof.
  unfold update_data. destruct (entity_data db !! id) as [row|] eqn:E; [|intros [= <- <-]; auto].
  destruct (bool_decide _ && _) eqn:C; [|intros [= <- <-]; auto].
  apply andb_prop in C as [C1%bool_decide_eq_true C2%Z.eqb_eq].
  destruct (Z.eqb_spec (d_version row) i32_max); [done|].
  destruct (fk_ok _ sp) eqn:F; [|done]. intros [= <- <-]. right. split; [done|].
  exists row. subst. naive_solver.
Qed.

Lemma insert_entity_ok id type_id by_ db x db' :
  insert_entity id type_id by_ db = Ok (x, db') ->
  entities db !! id = None /\ is_Some (type_definitions db !! type_id) /\
  db' = set_entities (<[id := mkEntityRow type_id by_]> (entities db)) db.
Proof.
  unfold insert_entity. case_decide as Hd; [done|]. destruct (fk_ok _ _) eqn:F; [|done].
  intros [= _ <-]. apply fk_ok_Some in F. apply eq_None_not_Some in Hd. done.
Qed.

Lemma insert_data_ok id type_id data sp db x db' :
  insert_data id type_id data sp db = Ok (x, db') ->
  entity_data db !! id = None /\ is_Some (entities db !! id) /\
  is_Some (type_definitions db !! type_id) /\ fk_ok (entities db) sp = true /\
  db' = set_entity_data (<[id := mkDataRow type_id data sp 1 (now db)]> (entity_data db)) db.
Proof.
  unfold insert_data. case_decide as Hd; [done|].
  destruct (fk_ok (entities db) (Some id) && _ && _) eqn:F; [|done]. intros [= _ <-].
  apply andb_prop in F as [F F3]. apply andb_prop in F as [F1%fk_ok_Some F2%fk_ok_Some].
  apply eq_None_not_Some in Hd. done.
Qed.

Lemma upsert_membership_ok o m row db x db' :
  upsert_membership o m row db = Ok (x, db') ->
  is_Some (entities db !! o) /\ is_Some (entities db !! m) /\ is_Some (roles db !! m_role row) /\
  db' = set_memberships (<[(o, m) := row]> (memberships db)) db.
Proof.
  unfold upsert_membership. destruct (_ && _ && _) eqn:F; [|done]. intros [= _ <-].
  apply andb_prop in F as [F F3%fk_ok_Some]. by apply andb_prop in F as [F1%fk_ok_Some F2%fk_ok_Some].
Qed.

Lemma delete_object_ok id type_id expected db n db' :
  delete_object id type_id expected db = Ok (n, db') ->
  (n = 0 /\ db' = db) \/
  (n = 1 /\ exists row, entity_data db !! id = Some row /\ d_type_id row = type_id /\
     d_version row = expected /\ is_Some (entities db !! id) /\ db' = delete_entity id db).
Proof.
  unfold delete_object. destruct (entity_data db !! id) as [row|] eqn:E; [|intros [= <- <-]; auto].
  destruct (entities db !! id) as [e|] eqn:E2; [|intros [= <- <-]; auto].
  destruct (bool_decide _ && _) eqn:C; [|intros [= <- <-]; auto].
  apply andb_prop in C as [C1%bool_decide_eq_true C2%Z.eqb_eq]. intros [= <- <-]. right.
  split; [done|]. exists row. naive_solver.
Qed.
