(* ===== verification/Registry.v ===== *)
(** * The type registry ([registry.rs])

    [FieldDef] and [TypeDef] with their predicates, and [load], which builds the in-process
    cache from [type_definitions] and [type_fields]. *)

From S2P Require Import Prelude RustStr Json AppError Closure Schema.


Local Open Scope Z_scope.

Module FieldDef.
Record t := mk {
  field : string;
  label : string;
  kind : string;
  required : bool;
  editable : bool;
  ordinal : Z;
  perm_class : string;
  options : Value;
  searchable : bool }.

(** Settable at CREATE: any field the engine does not own. *)
Definition settable (f : t) : bool :=
  negb (String.eqb (perm_class f) "system") && negb (String.eqb (perm_class f) "readonly").

(** Writable on UPDATE: settable and still editable after creation. *)
Definition writable (f : t) : bool := editable f && settable f.
End FieldDef.

Module TypeDef.
Record t := mk {
  type_id : string;
  id_prefix : string;
  display_name : string;
  display_name_plural : string;
  scope_parents : list string;
  is_builtin : bool;
  method_policy : Value;
  fields : list FieldDef.t }.

(** Verbs removed from the default surface by [method_policy.mask], upper-cased. *)
Definition masked_verbs (td : t) : list string :=
  match get "mask" (method_policy td) ≫= as_array with
  | Some a => omap (fun v => to_uppercase <$> as_str v) a
  | None => []
  end.

Definition delete_min_role (td : t) : string :=
  default "admin" (get_str "delete_min_role" (method_policy td)).

(** [self.fields.iter().find(|f| f.field == name)] *)
Definition field (td : t) (name : string) : option FieldDef.t :=
  List.find (fun f => String.eqb (FieldDef.field f) name) (fields td).

Definition scope_parent_required (td : t) : bool :=
  match head (scope_parents td) with
  | Some name => match field td name with
                 | Some f => FieldDef.required f
                 | None => false
                 end
  | None => false
  end.

Definition push_field (f : FieldDef.t) (td : t) : t :=
  mk (type_id td) (id_prefix td) (display_name td) (display_name_plural td) (scope_parents td)
    (is_builtin td) (method_policy td) (fields td ++ [f]).
End TypeDef.

Abbreviation TypeDefCache := (gmap string TypeDef.t).

(** A JSON array's strings; nothing for another value. *)
Definition str_vec (v : Value) : list string :=
  match as_array v with
  | Some a => omap as_str a
  | None => []
  end.

Definition type_of_row (type_id : string) (r : TypeDefRow) : TypeDef.t :=
  TypeDef.mk type_id (td_id_prefix r) (td_display_name r) (td_display_name_plural r)
    (str_vec (td_scope_parents r)) (td_is_builtin r) (td_method_policy r) [].

Definition field_of_row (field : string) (r : TypeFieldRow) : FieldDef.t :=
  FieldDef.mk field (tf_label r) (tf_kind r) (tf_required r) (tf_editable r) (tf_ordinal r)
    (tf_perm_class r) (tf_options r) (tf_searchable r).

(** [order by type_id, ordinal] *)
Definition field_row_le (a b : string * string * TypeFieldRow) : Prop :=
  match String.compare a.1.1 b.1.1 with
  | Lt => True
  | Eq => tf_ordinal a.2 <= tf_ordinal b.2
  | Gt => False
  end.
#[export] Instance field_row_le_dec : RelDecision field_row_le.
Proof. intros a b. unfold field_row_le. destruct (String.compare _ _); apply _. Defined.

Definition field_rows (db : Db) : list (string * string * TypeFieldRow) :=
  merge_sort field_row_le (map_to_list (type_fields db)).

(** One field row: pushed onto its type, when that is registered. *)
Definition load_field (by_id : TypeDefCache) (r : string * string * TypeFieldRow) : TypeDefCache :=
  alter (TypeDef.push_field (field_of_row r.1.2 r.2)) r.1.1 by_id.

Definition load (db : Db) : TypeDefCache :=
  foldl load_field (map_imap (fun id r => Some (type_of_row id r)) (type_definitions db))
    (field_rows db).

(** [all()]: every registered type, in no particular order. *)
Definition all (reg : TypeDefCache) : list TypeDef.t := (map_to_list reg).*2.

(** ** Lemmas *)

Lemma elem_of_all reg td : td ∈ all reg <-> exists id, reg !! id = Some td.
Proof.
  unfold all. rewrite list_elem_of_fmap. split.
  - intros ([id td'] & -> & Hin%elem_of_map_to_list). eauto.
  - intros [id Hid]. exists (id, td). by rewrite elem_of_map_to_list.
Qed.

Lemma field_Some td name f :
  TypeDef.field td name = Some f -> f ∈ TypeDef.fields td /\ FieldDef.field f = name.
Proof.
  unfold TypeDef.field. intros H. apply List.find_some in H as [Hin Heq].
  apply list_elem_of_In in Hin. by apply String.eqb_eq in Heq.
Qed.

Lemma field_None td name f :
  TypeDef.field td name = None -> f ∈ TypeDef.fields td -> FieldDef.field f <> name.
Proof.
  unfold TypeDef.field. intros H Hin%list_elem_of_In.
  pose proof (List.find_none _ _ H _ Hin) as Hne. by apply String.eqb_neq in Hne.
Qed.

(** The rows of [type_fields] have (type, field) as key: a field name occurs once per type. *)
Definition fields_nodup (td : TypeDef.t) : Prop := NoDup (FieldDef.field <$> TypeDef.fields td).

Lemma field_unique td f :
  fields_nodup td -> f ∈ TypeDef.fields td -> TypeDef.field td (FieldDef.field f) = Some f.
Proof.
  unfold fields_nodup, TypeDef.field. induction (TypeDef.fields td) as [|g l IH]; simpl.
  - by intros _ ?%elem_of_nil.
  - intros [Hni Hnd]%NoDup_cons [->|Hin]%elem_of_cons; [by rewrite String.eqb_refl|].
    destruct (String.eqb_spec (FieldDef.field g) (FieldDef.field f)) as [E|]; [|auto].
    exfalso. apply Hni. rewrite E. by apply list_elem_of_fmap_2.
Qed.

Lemma settable_writable f : FieldDef.writable f = true -> FieldDef.settable f = true.
Proof. unfold FieldDef.writable. intros [_ H]%andb_prop. done. Qed.
