(* ===== verification/Workflow.v ===== *)
(** * Workflow-as-data ([workflow.rs])

    The cache of workflows and [validate], the check of a case's status change. *)

From S2P Require Import Prelude RustStr Json AppError Schema Registry.


Local Open Scope Z_scope.

Module Workflow.
Record t := mk {
  states : list string;
  transitions : gmap string (list string);
  initial : string;
  close_checks : list string }.

Definition is_state (wf : t) (s : string) : bool := bool_decide (s ∈ states wf).

(** The terminal state is the last of the ordered [states]. *)
Definition is_terminal (wf : t) (s : string) : bool := bool_decide (last (states wf) = Some s).
End Workflow.

Abbreviation WorkflowCache := (gmap string Workflow.t).

Definition workflow_of_row (r : WorkflowRow) : Workflow.t :=
  Workflow.mk (str_vec (w_states r))
    (list_to_map ((fun kv => (kv.1, str_vec kv.2)) <$> default [] (as_object (w_transitions r))))
    (w_initial r) (str_vec (w_close_checks r)).

Definition load_workflows (db : Db) : WorkflowCache := workflow_of_row <$> workflows db.

(** [transitions.get(from).is_some_and(|t| t.iter().any(|x| x == to))] *)
Definition allows (wf : Workflow.t) (from to : string) : bool :=
  match Workflow.transitions wf !! from with
  | Some t => bool_decide (to ∈ t)
  | None => false
  end.

(** [from = None] on CREATE; on UPDATE [from == to] is not a status change. *)
Definition validate (wfs : WorkflowCache) (workflow_id : string) (from : option string)
    (to : string) : AppResult unit :=
  match wfs !! workflow_id with
  | None => Err (unprocessable ("unknown workflow: " +:+ workflow_id))
  | Some wf =>
      if negb (Workflow.is_state wf to)
      then Err (unprocessable ("not a valid status: " +:+ to))
      else match from with
           | None =>
               if negb (String.eqb to (Workflow.initial wf))
               then Err (illegal_transition
                      ("a new case must start at '" +:+ Workflow.initial wf
                         +:+ "', not '" +:+ to +:+ "'"))
               else Ok tt
           | Some f =>
               if negb (String.eqb f to) && negb (allows wf f to)
               then Err (illegal_transition ("illegal transition: " +:+ f +:+ " -> " +:+ to))
               else Ok tt
           end
  end.

(** ** The moves a workflow permits, as a relation *)

Definition wf_step (wf : Workflow.t) : relation string := fun f t =>
  t ∈ Workflow.states wf /\ exists ts, Workflow.transitions wf !! f = Some ts /\ t ∈ ts.

(** A status reached by a case that started at the initial state. *)
Definition wf_reachable (wf : Workflow.t) (s : string) : Prop :=
  rtc (wf_step wf) (Workflow.initial wf) s.

Lemma allows_spec wf f t :
  allows wf f t = true <-> exists ts, Workflow.transitions wf !! f = Some ts /\ t ∈ ts.
Proof.
  unfold allows. destruct (Workflow.transitions wf !! f) as [ts|].
  - rewrite bool_decide_eq_true. split; [eauto|]. by intros (? & [= <-] & ?).
  - split; [done|]. by intros (? & ? & ?).
Qed.

Lemma validate_create_ok wfs id to :
  validate wfs id None to = Ok tt <->
  exists wf, wfs !! id = Some wf /\ to ∈ Workflow.states wf /\ to = Workflow.initial wf.
Proof.
  unfold validate. destruct (wfs !! id) as [wf|]; [|split; [done|]; by intros (? & ? & _)].
  unfold Workflow.is_state. case_bool_decide as Hs; simpl.
  - destruct (String.eqb_spec to (Workflow.initial wf)); simpl; split; try done.
    + eauto.
    + by intros (? & [= <-] & _ & ?).
  - split; [done|]. by intros (? & [= <-] & ? & _).
Qed.

Lemma validate_update_ok wfs id f to :
  validate wfs id (Some f) to = Ok tt <->
  exists wf, wfs !! id = Some wf /\ to ∈ Workflow.states wf /\ (f = to \/ wf_step wf f to).
Proof.
  unfold validate, wf_step. destruct (wfs !! id) as [wf|]; [|split; [done|]; by intros (? & ? & _)].
  unfold Workflow.is_state. case_bool_decide as Hs; simpl.
  - destruct (String.eqb_spec f to); simpl; [split; eauto|].
    destruct (allows wf f to) eqn:E; simpl.
    + apply allows_spec in E. split; eauto 10.
    + split; [done|]. intros (? & [= <-] & _ & [|[_ H]]); [done|].
      apply allows_spec in H. congruence.
  - split; [done|]. by intros (? & [= <-] & ? & _).
Qed.
