(* ===== verification/State.v ===== *)
(** * Application state and the handlers' monad ([state.rs], [db.rs])

    A handler reads and changes [AppState] and ends in [Ok] or in an [AppError]; what it changed
    before an error stays changed ([M] keeps the state of a failed run), except inside a
    transaction. [run_sql] runs one statement, or one transaction, against the pool. *)

From S2P Require Import Prelude RustStr Json AppError Closure Schema Registry Workflow.


Local Open Scope Z_scope.

(** The pool, the hot-swappable registry snapshot and the workflows loaded at boot. *)
Record AppState := mkAppState {
  pool : Db;
  registry : TypeDefCache;
  wf_cache : WorkflowCache }.

Definition set_pool (db : Db) (st : AppState) : AppState :=
  mkAppState db (registry st) (wf_cache st).
Definition set_registry (r : TypeDefCache) (st : AppState) : AppState :=
  mkAppState (pool st) r (wf_cache st).

(** [AppState::new] after the boot loads of [run()]. *)
Definition boot (db : Db) : AppState := mkAppState db (load db) (load_workflows db).

Definition M (A : Type) : Type := AppState -> AppResult A * AppState.

#[export] Instance m_ret : MRet M := fun A a st => (Ok a, st).
#[export] Instance m_bind : MBind M := fun A B k m st =>
  match m st with
  | (Ok a, st') => k a st'
  | (Err e, st') => (Err e, st')
  end.

Definition fail {A} (e : AppError) : M A := fun st => (Err e, st).
(** [r?] *)
Definition lift {A} (r : AppResult A) : M A := fun st => (r, st).
(** [if !b { return Err(e) }] *)
Definition ensure (b : bool) (e : AppError) : M unit := if b then mret tt else fail e.
(** A [select]. *)
Definition query {A} (q : Db -> A) : M A := fun st => (Ok (q (pool st)), st).
Definition get_state : M AppState := fun st => (Ok st, st).

(** A statement or a transaction, with [?] on its result. *)
Definition run_sql {A} (m : SqlM A) : M A := fun st =>
  match m (pool st) with
  | Ok (a, db) => (Ok a, set_pool db st)
  | Err e => (Err (from_sqlx e), st)
  end.

Record RequestCtx := mkRequestCtx { ctx_request_id : string; ctx_trace_id : string }.

(** ** [db.rs] *)

(** The audit row of a mutation. A failing insert (its entity does not exist) is logged and
    otherwise ignored. *)
Definition record_event (ctx : RequestCtx) (actor_id : string) (entity_id : option string)
    (kind : string) (payload : Value) : M unit := fun st =>
  let db := pool st in
  (Ok tt,
   if fk_ok (entities db) entity_id
   then set_pool (set_events (events db ++ [mkEventRow entity_id actor_id kind payload
                    (ctx_request_id ctx) (ctx_trace_id ctx)]) db) st
   else st).

(** The creator's owner edge; on conflict the role is replaced and the label kept. *)
Definition grant_owner (object_id member_id : string) : SqlM unit := fun db =>
  let label := match memberships db !! (object_id, member_id) with
               | Some row => m_context_role row
               | None => EmptyString
               end in
  upsert_membership object_id member_id (mkMemberRow "owner" label) db.

(** What the store itself decides: the text of a JSON value that is neither a string nor null,
    the text of a timestamp, and the order of texts (its collation). *)
Class Postgres := {
  jsonb_to_text : Value -> string;
  timestamp_text : Z -> string;
  collate : string -> string -> comparison }.

Section CaseMirror.
Context `{Postgres}.

Definition jsonb_text (v : Value) : option string :=
  match v with
  | JNull => None
  | JString s => Some s
  | _ => Some (jsonb_to_text v)
  end.

(** One close check of the trigger: a passing row with that name. *)
Definition check_passed (case_id : string) (name : option string) (db : Db) : bool :=
  match name with
  | None => false
  | Some n => match case_close_checks db !! (case_id, n) with
              | Some row => k_passed row
              | None => false
              end
  end.

(** The [cases_guard] trigger, before an update of [cases]. *)
Definition cases_guard (id : string) (old new : CaseRow) : SqlM unit := fun db =>
  if decide (c_status new = c_status old) then Ok (tt, db)
  else match workflows db !! c_workflow_id new with
       | None => Err CasesGuard
       | Some wf =>
           match as_array (w_states wf) with
           | None => Err (OtherDb "cannot get array length of a non-array")
           | Some l =>
               if decide (last l ≫= jsonb_text = Some (c_status new)) then
                 match as_array (w_close_checks wf) with
                 | None => Err (OtherDb "cannot extract elements from a non-array")
                 | Some cs => if forallb (fun c => check_passed id (jsonb_text c) db) cs
                              then Ok (tt, db) else Err CasesGuard
                 end
               else Ok (tt, db)
           end
       end.

Definition case_row (data : Value) (version now : Z) : CaseRow :=
  mkCaseRow (default EmptyString (get_str "title" data))
    (default "backlog" (get_str "status" data))
    (default "default" (get_str "workflow_id" data))
    (default "normal" (get_str "priority" data))
    (get_str "assignee_id" data) (get_str "project_id" data) version now.

(** Sync the typed [cases] projection from a case's [data]. *)
Definition upsert_case_mirror (id : string) (data : Value) (version : Z) : SqlM unit :=
  db ← sql_get;
  let row := case_row data version (now db) in
  _ ← match cases db !! id with
      | Some old => cases_guard id old row
      | None => mret tt
      end;
  _ ← constraint
        (fk_ok (entities db) (Some id) && fk_ok (workflows db) (Some (c_workflow_id row))
         && fk_ok (entities db) (c_assignee_id row) && fk_ok (entities db) (c_project_id row))
        ForeignKeyViolation;
  sql_put (set_cases (<[id := row]> (cases db)) db).
End CaseMirror.

(** Of a workflow's close checks, the names without a [passed = true] row for the case. *)
Definition unmet_close_checks (case_id : string) (close_checks : list string) (db : Db)
    : list string :=
  filter (fun name => (k_passed <$> case_close_checks db !! (case_id, name)) <> Some true)
    close_checks.

(** ** Lemmas *)

Lemma m_bind_ok {A B} (m : M A) (k : A -> M B) st b st' :
  (m ≫= k) st = (Ok b, st') <-> exists a st1, m st = (Ok a, st1) /\ k a st1 = (Ok b, st').
Proof.
  unfold mbind, m_bind. destruct (m st) as [[a|e] st1].
  - split; [eauto|]. by intros (? & ? & [= -> ->] & ?).
  - split; [done|]. by intros (? & ? & ? & ?).
Qed.

Lemma lift_ok {A} (r : AppResult A) st a st' : lift r st = (Ok a, st') <-> r = Ok a /\ st' = st.
Proof. unfold lift. split; [by intros [= -> ->] | by intros [-> ->]]. Qed.

Lemma ensure_ok b e st x st' : ensure b e st = (Ok x, st') <-> b = true /\ st' = st.
Proof.
  unfold ensure, fail. destruct b; destruct x.
  - split; [by intros [= ->] | by intros [_ ->]].
  - split; [done | by intros [? _]].
Qed.

Lemma query_ok {A} (q : Db -> A) st a st' : query q st = (Ok a, st') <-> q (pool st) = a /\ st' = st.
Proof. unfold query. split; [by intros [= -> ->] | by intros [-> ->]]. Qed.

Lemma run_sql_ok {A} (m : SqlM A) st a st' :
  run_sql m st = (Ok a, st') <-> exists db, m (pool st) = Ok (a, db) /\ st' = set_pool db st.
Proof.
  unfold run_sql. destruct (m (pool st)) as [[a' db]|e].
  - split; [intros [= -> <-]; eauto | by intros (? & [= -> ->] & ->)].
  - split; [done | by intros (? & ? & _)].
Qed.

Lemma record_event_entities ctx a e k p st : 
  exists evs, (record_event ctx a e k p st) = (Ok tt, set_pool (set_events evs (pool st)) st).
Proof.
  unfold record_event. destruct (fk_ok _ _); [by eexists|].
  exists (events (pool st)). by destruct st as [[] ? ?].
Qed.

Lemma unmet_close_checks_nil case_id cs db :
  unmet_close_checks case_id cs db = [] <->
  forall name, name ∈ cs ->
    exists row, case_close_checks db !! (case_id, name) = Some row /\ k_passed row = true.
Proof.
  unfold unmet_close_checks. split.
  - intros Hf name Hin.
    destruct (decide ((k_passed <$> case_close_checks db !! (case_id, name)) = Some true)) as [E|E].
    + apply fmap_Some in E as (row & E & K). by exists row.
    + exfalso. apply (elem_of_nil (A:=string) name). rewrite <- Hf.
      by apply list_elem_of_filter.
  - intros Hall. apply elem_of_nil_inv. intros name [Hne Hin]%list_elem_of_filter.
    destruct (Hall name Hin) as (row & E & K). apply Hne. by rewrite E; simpl; rewrite K.
Qed.

Lemma get_state_ok st x st' : get_state st = (Ok x, st') <-> x = st /\ st' = st.
Proof. unfold get_state. split; [by intros [= -> ->] | by intros [-> ->]]. Qed.

Lemma m_ret_ok {A} (a : A) st x st' : (mret a : M A) st = (Ok x, st') <-> x = a /\ st' = st.
Proof. unfold mret, m_ret. split; [by intros [= -> ->] | by intros [-> ->]]. Qed.

Lemma fail_ok {A} e st (x : A) st' : ~ (fail e st = (Ok x, st')).
Proof. done. Qed.

Lemma record_event_ok ctx a e k p st x st' :
  record_event ctx a e k p st = (Ok x, st') ->
  exists evs, st' = set_pool (set_events evs (pool st)) st.
Proof.
  destruct (record_event_entities ctx a e k p st) as [evs E]. rewrite E. intros [= _ <-]. eauto.
Qed.

(** Use the equation [E] on a state, trivial or not. *)
Ltac use_eq E :=
  match type of E with
  | ?x = ?x => clear E
  | ?x = _ => subst x
  | _ = ?x => subst x
  | _ => rewrite E in *; clear E
  end.

(** Decompose a run that ended in [Ok] into its steps. *)
Ltac inv_m_with L H := let E := fresh "E" in apply L in H as [? E]; use_eq E.
Ltac inv_m :=
  repeat match goal with
  | H : mbind _ _ _ = (Ok _, _) |- _ => apply m_bind_ok in H as (? & ? & ? & ?)
  | H : get_state _ = (Ok _, _) |- _ =>
      let E1 := fresh "E" in let E2 := fresh "E" in
      apply get_state_ok in H as [E1 E2]; use_eq E1; use_eq E2
  | H : lift _ _ = (Ok _, _) |- _ => inv_m_with @lift_ok H
  | H : ensure _ _ _ = (Ok _, _) |- _ => inv_m_with @ensure_ok H
  | H : mret _ _ = (Ok _, _) |- _ =>
      let E1 := fresh "E" in let E2 := fresh "E" in
      apply m_ret_ok in H as [E1 E2]; use_eq E1; use_eq E2
  | H : query _ _ = (Ok _, _) |- _ => inv_m_with @query_ok H
  | H : run_sql _ _ = (Ok _, _) |- _ =>
      let E := fresh "E" in apply run_sql_ok in H as (? & ? & E); use_eq E
  | H : fail _ _ = (Ok _, _) |- _ => by apply fail_ok in H
  | H : ok_or _ _ = Ok _ |- _ => apply ok_or_ok in H
  | H : map_err _ _ = Ok _ |- _ => apply map_err_ok in H
  end.

(** Decompose a transaction that committed. *)
Ltac inv_sql :=
  repeat match goal with
  | H : mbind _ _ _ = Ok (_, _) |- _ => apply sql_bind_ok in H as (? & ? & ? & ?)
  | H : sql_get _ = Ok (_, _) |- _ => injection H as <- <-
  | H : sql_now _ = Ok (_, _) |- _ => injection H as <- <-
  | H : sql_put _ _ = Ok (_, _) |- _ => first [injection H as <- <- | injection H as <-]
  | H : mret _ _ = Ok (_, _) |- _ => first [injection H as <- <- | injection H as <-]
  end.

(** Run a computation whose steps are known: rewrite them and reduce. *)
Ltac run_m := unfold mbind, m_bind, get_state, lift, ensure, fail, query, mret, m_ret.

(** The tables a statement changes: the object tables are not touched by an event. *)
Lemma set_pool_pool db st : pool (set_pool db st) = db.
Proof. done. Qed.

Lemma set_pool_id st : set_pool (pool st) st = st.
Proof. by destruct st. Qed.

(** ** Computations that change nothing *)

Class ReadOnly {A} (m : M A) : Prop := read_only : forall st, snd (m st) = st.

#[export] Instance ro_ret {A} (a : A) : ReadOnly (mret a : M A).
Proof. done. Qed.
#[export] Instance ro_lift {A} (r : AppResult A) : ReadOnly (lift r).
Proof. done. Qed.
#[export] Instance ro_fail {A} e : ReadOnly (fail (A := A) e).
Proof. done. Qed.
#[export] Instance ro_get : ReadOnly get_state.
Proof. done. Qed.
#[export] Instance ro_query {A} (q : Db -> A) : ReadOnly (query q).
Proof. done. Qed.
#[export] Instance ro_ensure b e : ReadOnly (ensure b e).
Proof. unfold ensure. by destruct b. Qed.
#[export] Instance ro_bind {A B} (m : M A) (k : A -> M B) :
  ReadOnly m -> (forall a, ReadOnly (k a)) -> ReadOnly (m ≫= k).
Proof.
  intros Hm Hk st. unfold mbind, m_bind. specialize (Hm st). destruct (m st) as [[a|e] st1].
  - simpl in Hm. subst. apply Hk.
  - done.
Qed.
#[export] Instance ro_if {A} (b : bool) (m1 m2 : M A) :
  ReadOnly m1 -> ReadOnly m2 -> ReadOnly (if b then m1 else m2).
Proof. by destruct b. Qed.
#[export] Instance ro_decide {A} (P : Prop) `{Decision P} (m1 m2 : M A) :
  ReadOnly m1 -> ReadOnly m2 -> ReadOnly (if decide P then m1 else m2).
Proof. by case_decide. Qed.

Lemma read_only_run {A} (m : M A) `{!ReadOnly m} st r st' : m st = (r, st') -> st' = st.
Proof. intros E. specialize (read_only (m := m) st). by rewrite E. Qed.

(** A failing run is a failure of a prefix, or of the rest after it. *)
Lemma m_bind_err {A B} (m : M A) (k : A -> M B) st e st' :
  (m ≫= k) st = (Err e, st') ->
  m st = (Err e, st') \/ exists a st1, m st = (Ok a, st1) /\ k a st1 = (Err e, st').
Proof.
  unfold mbind, m_bind. destruct (m st) as [[a|e1] st1]; [eauto|]. intros [= -> ->]. by left.
Qed.

Lemma m_bind_run {A B} (m : M A) (k : A -> M B) st a st1 :
  m st = (Ok a, st1) -> (m ≫= k) st = k a st1.
Proof. unfold mbind, m_bind. by intros ->. Qed.

Lemma m_bind_fail {A B} (m : M A) (k : A -> M B) st e st1 :
  m st = (Err e, st1) -> (m ≫= k) st = (Err e, st1).
Proof. unfold mbind, m_bind. by intros ->. Qed.

Lemma run_sql_err {A} (m : SqlM A) st e st' : run_sql m st = (Err e, st') -> st' = st.
Proof. unfold run_sql. destruct (m (pool st)) as [[a db]|e1]; [done|]. by intros [= _ <-]. Qed.

Lemma ensure_err b e st e' st' : ensure b e st = (Err e', st') -> b = false /\ e' = e /\ st' = st.
Proof. unfold ensure, fail. destruct b; [done|]. by intros [= -> ->]. Qed.

(** ** The case mirror touches the table [cases] only *)

Lemma upsert_case_mirror_ok `{Postgres} id data version db x db' :
  upsert_case_mirror id data version db = Ok (x, db') ->
  db' = set_cases (<[id := case_row data version (now db)]> (cases db)) db.
Proof.
  unfold upsert_case_mirror. intros Hm. inv_sql. 
  match goal with H1 : constraint _ _ _ = Ok _ |- _ =>
    unfold constraint in H1; destruct (_ && _) in H1; [injection H1 as <- <- | done] end.
  match goal with H1 : context [cases_guard] |- _ =>
    destruct (cases _ !! id) as [old|]; [|by injection H1 as _ ->];
    unfold cases_guard in H1; repeat case_match; simplify_eq; done end.
Qed.

Lemma record_event_err ctx a e k p st er st' : ~ (record_event ctx a e k p st = (Err er, st')).
Proof. destruct (record_event_entities ctx a e k p st) as [evs ->]. done. Qed.

Lemma m_ret_err {A} (a : A) st e st' : ~ ((mret a : M A) st = (Err e, st')).
Proof. done. Qed.

Lemma lift_err {A} (r : AppResult A) st e st' : lift r st = (Err e, st') -> r = Err e /\ st' = st.
Proof. unfold lift. by intros [= -> ->]. Qed.
