(* ===== verification/Rbac.v ===== *)
(** * The reach resolver, Plane A ([rbac.rs])

    [effective_rank] climbs an object's scope chain up, to depth 8; [reach] cascades down from
    the objects the caller's principals hold a membership on. Both are related here to the
    closures they stand for, and to each other. *)

From S2P Require Import Prelude RustStr Json AppError Closure Schema.

Local Open Scope Z_scope.

(** ** Queries *)

Definition is_team (db : Db) (id : string) : Prop :=
  en_type <$> entities db !! id = Some "team".
#[export] Instance is_team_dec db id : Decision (is_team db id).
Proof. unfold is_team. apply _. Defined.

(** [principals(id)]: the step joins [memberships] with the working table and with [entities]. *)
Definition principals_step (db : Db) (work : gset string) : gset string :=
  select_set (fun (k : string * string) _ =>
    if decide (k.2 ∈ work /\ is_team db k.1) then Some k.1 else None) (memberships db).

Definition principals (db : Db) (actor_id : string) : gset string :=
  cte (principals_step db) (size (memberships db)) {[actor_id]}.

Definition scope_parent_of (db : Db) (id : string) : option string :=
  entity_data db !! id ≫= d_scope_parent_id.

(** [scopes(id, depth)]: [entity_data] has one row per entity, so the recursion is a chain;
    [fuel] is the number of climbs left. *)
Fixpoint scopes_up (db : Db) (fuel : nat) (id : string) : list string :=
  id :: match fuel with
        | O => []
        | S f => match scope_parent_of db id with
                 | Some p => scopes_up db f p
                 | None => []
                 end
        end.

Definition max_depth : nat := 8.

Definition scopes (db : Db) (object_id : string) : list string := scopes_up db max_depth object_id.

(** SQL's [max] and [min]: null on no row. *)
Definition sql_max (l : list Z) : option Z :=
  match l with [] => None | x :: l' => Some (foldr Z.max x l') end.
Definition sql_min (l : list Z) : option Z :=
  match l with [] => None | x :: l' => Some (foldr Z.min x l') end.

Definition ranks_on (db : Db) (actor_id object_id : string) : list Z :=
  let ps := principals db actor_id in
  let ss := scopes db object_id in
  select_list (fun (k : string * string) row =>
    if decide (k.2 ∈ ps /\ k.1 ∈ ss) then roles db !! m_role row else None) (memberships db).

Definition effective_rank (db : Db) (actor_id object_id : string) : option Z :=
  sql_max (ranks_on db actor_id object_id).

Definition anchors (db : Db) (actor_id : string) : gset string :=
  let ps := principals db actor_id in
  select_set (fun (k : string * string) _ => if decide (k.2 ∈ ps) then Some k.1 else None)
    (memberships db).

Definition reach_step (db : Db) (work : gset string) : gset string :=
  select_set (fun id row =>
    match d_scope_parent_id row with
    | Some p => if decide (p ∈ work) then Some id else None
    | None => None
    end) (entity_data db).

Definition reach (db : Db) (actor_id : string) : gset string :=
  cte (reach_step db) (size (entity_data db)) (anchors db actor_id).

Definition reachable_entity_ids (db : Db) (actor_id type_id : string) : list string :=
  filter (fun id => d_type_id <$> entity_data db !! id = Some type_id) (elements (reach db actor_id)).

Definition reachable_entity_ids_any (db : Db) (actor_id : string) : list string :=
  elements (reach db actor_id).

Definition rank_of (db : Db) (role : string) : option Z := roles db !! role.

Definition principals_contain (db : Db) (root_id target_id : string) : bool :=
  bool_decide (target_id ∈ principals db root_id).

(** ** What they compute *)

(** [p] is a member of the team [o]. *)
Definition team_edge (db : Db) : relation string := fun p o =>
  is_Some (memberships db !! (o, p)) /\ is_team db o.

(** [c] is directly scoped under [p]. *)
Definition scope_edge (db : Db) : relation string := fun c p => scope_parent_of db c = Some p.

Lemma size_list_to_set_le `{Countable A} (l : list A) :
  (size (list_to_set l : gset A) <= length l)%nat.
Proof.
  induction l as [|x l IH].
  { rewrite list_to_set_nil, size_empty. simpl. lia. }
  rewrite list_to_set_cons, size_union_alt, size_singleton. cbn [length].
  assert (size ((list_to_set l : gset A) ∖ {[x]}) <= size (list_to_set l : gset A))%nat
    by (apply subseteq_size; set_solver). lia.
Qed.

Lemma length_select_list `{Countable K} {A B} (f : K -> A -> option B) (m : gmap K A) :
  (length (select_list f m) <= size m)%nat.
Proof.
  unfold select_list. rewrite <- length_map_to_list.
  induction (map_to_list m) as [|kv l IH]; simpl; [done|].
  unfold omap in IH. destruct (f kv.1 kv.2); simpl; lia.
Qed.

Lemma size_select_set `{Countable K} {A} `{Countable B} (f : K -> A -> option B) (m : gmap K A) :
  (size (select_set f m) <= size m)%nat.
Proof.
  unfold select_set. etransitivity; [apply size_list_to_set_le|]. apply length_select_list.
Qed.

Lemma principals_step_spec db X y :
  y ∈ principals_step db X <-> exists x, x ∈ X /\ team_edge db x y.
Proof.
  unfold principals_step, team_edge. rewrite elem_of_select_set. split.
  - intros ([o m] & row & Hrow & Hf). simpl in Hf. case_decide as Hd; simplify_eq.
    destruct Hd. eauto 10.
  - intros (x & Hx & [row Hrow] & Ht). exists (y, x), row. split; [done|]. simpl.
    by rewrite decide_True.
Qed.

Lemma principals_spec db a p : p ∈ principals db a <-> rtc (team_edge db) a p.
Proof.
  unfold principals.
  rewrite (cte_spec _ (team_edge db) (select_set (fun k _ => Some k.1) (memberships db))).
  - split; [intros (s & ->%elem_of_singleton & ?); done|].
    intros ?. exists a. split; [by apply elem_of_singleton|done].
  - intros X y. apply principals_step_spec.
  - intros x y [[row Hrow] _]. apply elem_of_select_set. by exists (y, x), row.
  - apply size_select_set.
Qed.

Lemma principals_self db a : a ∈ principals db a.
Proof. apply principals_spec, rtc_refl. Qed.

Lemma principals_contain_spec db r t :
  principals_contain db r t = true <-> rtc (team_edge db) r t.
Proof. unfold principals_contain. by rewrite bool_decide_eq_true, principals_spec. Qed.

Lemma scopes_up_spec db n o s : s ∈ scopes_up db n o <-> bsteps (scope_edge db) n o s.
Proof.
  revert o. induction n as [|n IH]; intros o; simpl.
  - rewrite list_elem_of_singleton. split; [intros ->; constructor|]. by inversion 1.
  - rewrite elem_of_cons. split.
    + intros [->|Hin]; [constructor|].
      destruct (scope_parent_of db o) as [p|] eqn:E; [|by apply elem_of_nil in Hin].
      eapply bsteps_l; [exact E|]. by apply IH.
    + inversion 1 as [|? ? p ? Hp Hs]; subst; [by left|]. right. unfold scope_edge in Hp.
      rewrite Hp. by apply IH.
Qed.

Lemma scopes_spec db o s : s ∈ scopes db o <-> bsteps (scope_edge db) max_depth o s.
Proof. apply scopes_up_spec. Qed.

Lemma scopes_self db o : o ∈ scopes db o.
Proof. apply scopes_spec. constructor. Qed.

Lemma anchors_spec db a o :
  o ∈ anchors db a <-> exists p row, rtc (team_edge db) a p /\ memberships db !! (o, p) = Some row.
Proof.
  unfold anchors. rewrite elem_of_select_set. split.
  - intros ([o' p] & row & Hrow & Hf). simpl in Hf. case_decide as Hd; simplify_eq.
    apply principals_spec in Hd. eauto.
  - intros (p & row & Hp & Hrow). exists (o, p), row. split; [done|]. simpl.
    rewrite decide_True; [done|]. by apply principals_spec.
Qed.

Lemma reach_spec db a e :
  e ∈ reach db a <-> exists o, o ∈ anchors db a /\ rtc (scope_edge db) e o.
Proof.
  unfold reach.
  rewrite (cte_spec _ (flip (scope_edge db)) (dom (entity_data db))).
  - split; intros (o & Ho & Hs); exists o; (split; [done|]).
    + apply rtc_flip in Hs. exact Hs.
    + apply rtc_flip. exact Hs.
  - intros X y. unfold reach_step. rewrite elem_of_select_set.
    unfold flip, scope_edge, scope_parent_of. split.
    + intros (id & row & Hrow & Hf). destruct (d_scope_parent_id row) as [p|] eqn:E; [|done].
      case_decide; simplify_eq. exists p. split; [done|]. rewrite Hrow. done.
    + intros (x & Hx & He). destruct (entity_data db !! y) as [row|] eqn:Hrow; [|done].
      simpl in He. exists y, row. split; [done|]. rewrite He. by rewrite decide_True.
  - intros x y Hxy. unfold flip, scope_edge, scope_parent_of in Hxy. apply elem_of_dom.
    destruct (entity_data db !! y); [by eexists|done].
  - by rewrite size_dom.
Qed.

Lemma foldr_max_spec x l :
  (x <= foldr Z.max x l) /\ (forall y, y ∈ l -> y <= foldr Z.max x l) /\
  (foldr Z.max x l = x \/ foldr Z.max x l ∈ l).
Proof.
  induction l as [|z l (IH1 & IH2 & IH3)]; simpl.
  - split; [lia|]. split; [by intros ? ?%elem_of_nil | by left].
  - split; [lia|]. split.
    + intros y [->|Hy]%elem_of_cons; [lia|]. specialize (IH2 y Hy). lia.
    + destruct (Z.max_spec z (foldr Z.max x l)) as [[_ ->]|[_ ->]].
      * destruct IH3; [by left | right; by right].
      * right. by left.
Qed.

(** [Some r] says that [r] is the maximum of a non-empty list. *)
Lemma sql_max_spec l r :
  sql_max l = Some r <-> r ∈ l /\ forall x, x ∈ l -> x <= r.
Proof.
  destruct l as [|x l]; simpl.
  - split; [done|]. by intros [?%elem_of_nil _].
  - destruct (foldr_max_spec x l) as (H1 & H2 & H3). split.
    + intros [= <-]. split.
      * destruct H3 as [->|?]; [by left | by right].
      * intros y [->|Hy]%elem_of_cons; auto.
    + intros [Hin Hmax]. f_equal.
      apply Z.le_antisymm.
      * destruct H3 as [->|?]; apply Hmax; [by left | by right].
      * apply elem_of_cons in Hin as [->|?]; auto.
Qed.

Lemma sql_max_None l : sql_max l = None <-> l = [].
Proof. by destruct l. Qed.

Lemma elem_of_ranks_on db a o r :
  r ∈ ranks_on db a o <->
  exists p s row, rtc (team_edge db) a p /\ s ∈ scopes db o /\
    memberships db !! (s, p) = Some row /\ roles db !! m_role row = Some r.
Proof.
  unfold ranks_on. rewrite elem_of_select_list. split.
  - intros ([s p] & row & Hrow & Hf). simpl in Hf. case_decide as Hd; [|done].
    destruct Hd as [Hp%principals_spec Hs]. eauto 10.
  - intros (p & s & row & Hp & Hs & Hrow & Hr). exists (s, p), row. split; [done|]. simpl.
    rewrite decide_True; [done|]. split; [by apply principals_spec|done].
Qed.

(** A membership of a principal, on the object or on one of the scopes climbed to, gives at
    least its role's rank. *)
Lemma effective_rank_lower db a o p s row r :
  rtc (team_edge db) a p -> s ∈ scopes db o -> memberships db !! (s, p) = Some row ->
  roles db !! m_role row = Some r -> exists r', effective_rank db a o = Some r' /\ r <= r'.
Proof.
  intros Hp Hs Hrow Hr. unfold effective_rank.
  assert (Hin : r ∈ ranks_on db a o) by (apply elem_of_ranks_on; eauto 10).
  destruct (sql_max (ranks_on db a o)) as [r'|] eqn:E.
  - exists r'. split; [done|]. apply sql_max_spec in E as [_ H]. auto.
  - apply sql_max_None in E. rewrite E in Hin. by apply elem_of_nil in Hin.
Qed.

Lemma effective_rank_inv db a o r :
  effective_rank db a o = Some r ->
  exists p s row, rtc (team_edge db) a p /\ s ∈ scopes db o /\
    memberships db !! (s, p) = Some row /\ roles db !! m_role row = Some r.
Proof.
  unfold effective_rank. intros [Hin _]%sql_max_spec. by apply elem_of_ranks_on.
Qed.

(** The queries read only these tables. *)
Lemma principals_ext db db' a :
  memberships db = memberships db' ->
  (forall p o, team_edge db p o <-> team_edge db' p o) ->
  forall p, p ∈ principals db a <-> p ∈ principals db' a.
Proof.
  intros _ He p. rewrite !principals_spec. split; apply rtc_subrel; intros x y; apply He.
Qed.
