(* ===== verification/Caller.v ===== *)
(** * The caller and the object gate ([caller.rs])

    [require_action] is Plane A: the caller's effective rank against the floor of the action.
    [permitted_verbs] and [rbac_verdict] describe the same gate verb by verb. *)

From S2P Require Import Prelude RustStr Json AppError Closure Schema Registry Workflow State Rbac.

Local Open Scope Z_scope.

Module Caller.
Record t := mk { actor_id : string; is_platform_admin : bool }.
Definition dev : t := mk "USR_dev" true.
End Caller.

Inductive Action := View | Create | Edit | Delete.
#[export] Instance action_eq_dec : EqDecision Action.
Proof. solve_decision. Defined.

(** The rank floors: View needs viewer, Create and Edit member, Delete admin (or owner, when
    the type's policy raises it). *)
Definition min_rank (td : TypeDef.t) (action : Action) : Z :=
  match action with
  | View => 1
  | Create | Edit => 2
  | Delete => if String.eqb (TypeDef.delete_min_role td) "owner" then 4 else 3
  end.

Definition require_action (db : Db) (caller : Caller.t) (td : TypeDef.t)
    (object_id : option string) (action : Action) : bool :=
  if Caller.is_platform_admin caller then true
  else match object_id with
       | None => true
       | Some id =>
           match effective_rank db (Caller.actor_id caller) id with
           | Some r => min_rank td action <=? r
           | None => false
           end
       end.

(** The gate on an entity whose type is looked up first; a missing entity is a denial. *)
Definition reach_action (st : AppState) (caller : Caller.t) (entity_id : string)
    (action : Action) : bool :=
  match entities (pool st) !! entity_id with
  | None => false
  | Some e => match registry st !! en_type e with
              | None => false
              | Some td => require_action (pool st) caller td (Some entity_id) action
              end
  end.

Definition verb_actions (is_item : bool) : list (string * Action) :=
  if is_item
  then [("GET", View); ("HEAD", View); ("PUT", Edit); ("PATCH", Edit); ("DELETE", Delete);
        ("OPTIONS", View)]
  else [("GET", View); ("HEAD", View); ("POST", Create); ("OPTIONS", View)].

Definition permitted_verbs (db : Db) (caller : Caller.t) (td : TypeDef.t)
    (object_id : option string) (is_item : bool) : list string :=
  let masked := TypeDef.masked_verbs td in
  omap (fun va => if decide (va.1 ∈ masked) then None
                  else if require_action db caller td object_id va.2 then Some va.1 else None)
    (verb_actions is_item).

Definition rbac_verdict (db : Db) (caller : Caller.t) (td : TypeDef.t)
    (object_id : option string) (is_item : bool) : Value :=
  let masked := TypeDef.masked_verbs td in
  JObject (map_collect
    ((fun va =>
        (va.1,
         if decide (va.1 ∈ masked)
         then JObject [("allowed", JBool false); ("reason", JString "masked by method_policy")]
         else if require_action db caller td object_id va.2
         then JObject [("allowed", JBool true)]
         else JObject [("allowed", JBool false); ("reason", JString "insufficient reach")]))
     <$> verb_actions is_item)).

(** ** Lemmas *)

Lemma require_action_admin db caller td o a :
  Caller.is_platform_admin caller = true -> require_action db caller td o a = true.
Proof. unfold require_action. by intros ->. Qed.

Lemma require_action_item db caller td id a :
  Caller.is_platform_admin caller = false ->
  require_action db caller td (Some id) a = true <->
  exists r, effective_rank db (Caller.actor_id caller) id = Some r /\ min_rank td a <= r.
Proof.
  unfold require_action. intros ->.
  destruct (effective_rank _ _ _) as [r|].
  - rewrite Z.leb_le. split; [eauto | by intros (? & [= ->] & ?)].
  - split; [done | by intros (? & ? & ?)].
Qed.

(** A stronger action implies a weaker one: Delete, Edit, View in this order. *)
Lemma min_rank_view td a : min_rank td View <= min_rank td a.
Proof. destruct a; simpl; try lia. destruct (String.eqb _ _); lia. Qed.

Lemma require_action_view db caller td o a :
  require_action db caller td o a = true -> require_action db caller td o View = true.
Proof.
  unfold require_action. destruct (Caller.is_platform_admin caller); [done|].
  destruct o as [id|]; [|done]. destruct (effective_rank _ _ _) as [r|]; [|done].
  rewrite !Z.leb_le. pose proof (min_rank_view td a). lia.
Qed.

Lemma require_action_delete_edit db caller td o :
  require_action db caller td o Delete = true -> require_action db caller td o Edit = true.
Proof.
  unfold require_action. destruct (Caller.is_platform_admin caller); [done|].
  destruct o as [id|]; [|done]. destruct (effective_rank _ _ _) as [r|]; [|done].
  rewrite !Z.leb_le. simpl. destruct (String.eqb _ _); lia.
Qed.

Lemma elem_of_permitted_verbs db caller td o is_item v :
  v ∈ permitted_verbs db caller td o is_item <->
  exists a, (v, a) ∈ verb_actions is_item /\ v ∉ TypeDef.masked_verbs td /\
    require_action db caller td o a = true.
Proof.
  unfold permitted_verbs. rewrite list_elem_of_omap. split.
  - intros ([v' a] & Hin & Hf). simpl in Hf. case_decide; [done|].
    destruct (require_action _ _ _ _ _) eqn:E; simplify_eq. eauto.
  - intros (a & Hin & Hm & Hr). exists (v, a). split; [done|]. simpl.
    rewrite decide_False by done. by rewrite Hr.
Qed.

Lemma reach_action_true st caller e a :
  reach_action st caller e a = true <->
  exists row td, entities (pool st) !! e = Some row /\ registry st !! en_type row = Some td /\
    require_action (pool st) caller td (Some e) a = true.
Proof.
  unfold reach_action. destruct (entities (pool st) !! e) as [row|]; [|split; [done|]; naive_solver].
  destruct (registry st !! en_type row) as [td|] eqn:E; [|split; [done|]; naive_solver].
  split; [eauto|naive_solver].
Qed.

Lemma reach_action_view st caller e a :
  reach_action st caller e a = true -> reach_action st caller e View = true.
Proof.
  rewrite !reach_action_true. intros (row & td & ? & ? & ?).
  exists row, td. split_and!; [done..|]. by eapply require_action_view.
Qed.
