(* ===== verification/FieldPerms.v ===== *)
(** * Per-field permissions, Plane B ([field_perms.rs])

    The floors of a field come from its class, overridden by [field_permissions]; writes below
    the floor are refused by name, unreadable fields are dropped from what is returned. *)

From S2P Require Import Prelude RustStr Json AppError Closure Schema Registry Workflow State Rbac.
From S2P Require Import Caller.

Local Open Scope Z_scope.

(** Default (read_min, write_min) of a class. *)
Definition class_ranks (perm_class : string) : Z * Z :=
  if String.eqb perm_class "owner_grade" then (3, 4)
  else if String.eqb perm_class "readonly" || String.eqb perm_class "system" then (1, i32_max)
  else (1, 2).

(** [min(r.rank) filter (where p)] over the rows of one field. *)
Definition override_min (db : Db) (type_id field : string) (p : bool * bool -> bool) : option Z :=
  sql_min (select_list (fun (k : string * string * string) row =>
    if decide (k.1 = (type_id, field)) then if p row then roles db !! k.2 else None else None)
    (field_permissions db)).

Definition field_floors (db : Db) (type_id field perm_class : string) : Z * Z :=
  let (def_r, def_w) := class_ranks perm_class in
  (default def_r (override_min db type_id field fst),
   default def_w (override_min db type_id field snd)).

(** The caller's rank on the object: the maximum for a platform admin, 0 without reach. *)
Definition rank_on (db : Db) (caller : Caller.t) (object_id : string) : Z :=
  if Caller.is_platform_admin caller then i32_max
  else default 0 (effective_rank db (Caller.actor_id caller) object_id).

(** The first written field whose floor is above [rank]; unknown fields are skipped. *)
Fixpoint refused_field (db : Db) (td : TypeDef.t) (rank : Z) (written : list string)
    : option string :=
  match written with
  | [] => None
  | field :: rest =>
      match TypeDef.field td field with
      | None => refused_field db td rank rest
      | Some f =>
          let '(_, write_min) :=
            field_floors db (TypeDef.type_id td) field (FieldDef.perm_class f) in
          if rank <? write_min then Some field else refused_field db td rank rest
      end
  end.

Definition require_write (db : Db) (caller : Caller.t) (td : TypeDef.t) (object_id : string)
    (written : list string) (ctx : RequestCtx) : AppResult unit :=
  let rank := rank_on db caller object_id in
  if rank =? i32_max then Ok tt
  else match refused_field db td rank written with
       | Some field => Err (with_request_id (ctx_request_id ctx) (forbidden_field field))
       | None => Ok tt
       end.

(** The fields below their read floor are removed, in the order of the type's fields. *)
Definition drop_unreadable (db : Db) (td : TypeDef.t) (rank : Z) (map : Map) : Map :=
  foldl (fun m f =>
    let '(read_min, _) :=
      field_floors db (TypeDef.type_id td) (FieldDef.field f) (FieldDef.perm_class f) in
    if rank <? read_min then map_remove (FieldDef.field f) m else m) map (TypeDef.fields td).

Definition filter_readable (db : Db) (caller : Caller.t) (td : TypeDef.t) (object_id : string)
    (data : Value) : Value :=
  let rank := rank_on db caller object_id in
  if rank =? i32_max then data
  else match data with
       | JObject map => JObject (drop_unreadable db td rank map)
       | _ => data
       end.

Definition readable_set (db : Db) (caller : Caller.t) (td : TypeDef.t)
    (object_id : option string) : gset string :=
  let rank :=
    if Caller.is_platform_admin caller then i32_max
    else match object_id with
         | Some id => default 0 (effective_rank db (Caller.actor_id caller) id)
         | None => i32_max
         end in
  list_to_set (omap (fun f =>
    let '(read_min, _) :=
      field_floors db (TypeDef.type_id td) (FieldDef.field f) (FieldDef.perm_class f) in
    if read_min <=? rank then Some (FieldDef.field f) else None) (TypeDef.fields td)).

(** ** What the gates decide *)

(** The read floor of a field of the type, and whether [rank] meets it. *)
Definition read_min (db : Db) (td : TypeDef.t) (f : FieldDef.t) : Z :=
  (field_floors db (TypeDef.type_id td) (FieldDef.field f) (FieldDef.perm_class f)).1.
Definition write_min (db : Db) (td : TypeDef.t) (f : FieldDef.t) : Z :=
  (field_floors db (TypeDef.type_id td) (FieldDef.field f) (FieldDef.perm_class f)).2.

Lemma refused_field_None db td rank written :
  refused_field db td rank written = None <->
  forall name f, name ∈ written -> TypeDef.field td name = Some f -> write_min db td f <= rank.
Proof.
  induction written as [|name rest IH]; cbn [refused_field].
  - split; [|done]. by intros _ ? ? ?%elem_of_nil.
  - destruct (TypeDef.field td name) as [f|] eqn:Ef.
    + destruct (field_floors db (TypeDef.type_id td) name (FieldDef.perm_class f)) as [rm wm] eqn:Efl.
      assert (Hwm : write_min db td f = wm).
      { unfold write_min. apply field_Some in Ef as [_ ->]. by rewrite Efl. }
      destruct (Z.ltb_spec rank wm).
      * split; [done|]. intros Hall. specialize (Hall name f (list_elem_of_here _ _) Ef). lia.
      * rewrite IH. split.
        -- intros Hall n g [->|Hin]%elem_of_cons Hg; [|eauto]. rewrite Ef in Hg. simplify_eq. lia.
        -- intros Hall n g Hin Hg. apply (Hall n g); [by right|done].
    + rewrite IH. split.
      * intros Hall n g [->|Hin]%elem_of_cons Hg; [congruence|eauto].
      * intros Hall n g Hin Hg. apply (Hall n g); [by right|done].
Qed.

Lemma refused_field_Some db td rank written name :
  refused_field db td rank written = Some name ->
  name ∈ written /\ exists f, TypeDef.field td name = Some f /\ rank < write_min db td f.
Proof.
  induction written as [|n rest IH]; cbn [refused_field]; [done|].
  destruct (TypeDef.field td n) as [f|] eqn:Ef.
  - destruct (field_floors db (TypeDef.type_id td) n (FieldDef.perm_class f)) as [rm wm] eqn:Efl.
    destruct (Z.ltb_spec rank wm).
    + intros [= <-]. split; [by left|]. exists f. split; [done|].
      unfold write_min. apply field_Some in Ef as [_ ->]. by rewrite Efl.
    + intros H1. destruct (IH H1) as [? ?]. split; [by right|done].
  - intros H1. destruct (IH H1) as [? ?]. split; [by right|done].
Qed.

(** Looking a key up after the filter: removed exactly when some field of that name is below
    its floor. *)
Lemma drop_unreadable_get db td rank map k :
  map_get k (drop_unreadable db td rank map) =
    if existsb (fun f => String.eqb (FieldDef.field f) k && (rank <? read_min db td f))
         (TypeDef.fields td)
    then None else map_get k map.
Proof.
  unfold drop_unreadable, read_min. revert map.
  induction (TypeDef.fields td) as [|f l IH]; intros map; [done|]. cbn [foldl existsb].
  destruct (field_floors _ _ _ _) as [rm wm]. rewrite IH. simpl fst.
  destruct (existsb _ l); [by rewrite orb_true_r|]. rewrite orb_false_r.
  destruct (Z.ltb_spec rank rm); simpl; [|by rewrite andb_false_r].
  destruct (String.eqb_spec (FieldDef.field f) k) as [->|]; simpl.
  - apply map_get_remove.
  - by apply map_get_remove_ne.
Qed.

Lemma drop_unreadable_all db td rank map :
  (forall f, f ∈ TypeDef.fields td -> read_min db td f <= rank) ->
  drop_unreadable db td rank map = map.
Proof.
  unfold drop_unreadable, read_min. induction (TypeDef.fields td) as [|f l IH]; intros Hf; [done|].
  cbn [foldl]. pose proof (Hf f (list_elem_of_here _ _)) as H1.
  destruct (field_floors _ _ _ _) as [rm wm]. simpl in H1.
  destruct (Z.ltb_spec rank rm); [lia|]. apply IH. intros g Hg. apply Hf. by right.
Qed.

Lemma filter_readable_all db caller td id data :
  (forall f, f ∈ TypeDef.fields td -> read_min db td f <= rank_on db caller id) ->
  filter_readable db caller td id data = data.
Proof.
  intros Hf. unfold filter_readable. destruct (_ =? _); [done|]. destruct data; try done.
  f_equal. by apply drop_unreadable_all.
Qed.
