(* ===== verification/Objects.v ===== *)
(** * The object surface: validation and data assembly ([objects.rs])

    The pure part of the generic handlers: version tags, request bodies, input checks, the
    assembly of a candidate [data] for CREATE, PUT and PATCH, and the case checks. The handlers
    themselves are in [ObjectHandlers]. *)

From S2P Require Import Prelude RustStr Json AppError Closure Schema Registry Workflow State Rbac.
From S2P Require Import Caller FieldPerms.
From Stdlib Require Import Ascii.

Local Open Scope Z_scope.

(** The headers of a request by lower-case name; [None] is a value that is not visible ASCII. *)
Abbreviation HeaderMap := (gmap string (option string)).

(** [headers.get(name).and_then(|h| h.to_str().ok())] *)
Definition header_str (headers : HeaderMap) (name : string) : option string :=
  headers !! name ≫= id.

(** [serde_json::from_slice] (with its error message), and the display of a value. *)
Class SerdeJson := {
  from_slice : string -> Result string Value;
  value_display : Value -> string }.

(** [serde_json::from_slice] at the type of an input, with the derived [Deserialize]. *)
Class FromSlice (A : Type) := { from_slice_as : string -> Result string A }.

(** [json!({..})] *)
Definition json_object (l : list (string * Value)) : Value := JObject (map_collect l).
Definition json_opt (o : option string) : Value :=
  match o with Some s => JString s | None => JNull end.

Definition deny_404 (ctx : RequestCtx) : AppError :=
  with_request_id (ctx_request_id ctx) not_found.

Definition resolve (reg : TypeDefCache) (type_id : string) (ctx : RequestCtx)
    : AppResult TypeDef.t := ok_or (reg !! type_id) (deny_404 ctx).

(** ** Version tags *)

Definition quote : ascii := "034"%char.

Definition etag (version : Z) : string :=
  "W/" +:+ String quote (show_Z version +:+ String quote "").

Definition parse_version_tag (raw : string) : option Z :=
  let s := trim raw in
  let s := trim (default s (strip_prefix "W/" s)) in
  parse_i32 (trim_matches quote s).

(** [None]: no header; [Some None]: present but unparseable; [Some (Some v)]: a version. *)
Definition if_match (headers : HeaderMap) : option (option Z) :=
  (fun h => h ≫= parse_version_tag) <$> headers !! "if-match".

Definition require_if_match (headers : HeaderMap) (ctx : RequestCtx) : AppResult Z :=
  match if_match headers with
  | None => Err (with_request_id (ctx_request_id ctx) precondition_required)
  | Some None => Err (with_request_id (ctx_request_id ctx) precondition_failed)
  | Some (Some v) => Ok v
  end.

Definition if_none_match_hit (headers : HeaderMap) (version : Z) : bool :=
  match header_str headers "if-none-match" with
  | Some raw =>
      existsb (fun t => String.eqb (trim t) "*"
                        || bool_decide (parse_version_tag t = Some version)) (split "," raw)
  | None => false
  end.

(** ** Bodies *)

Section Body.
Context `{SerdeJson}.

Definition read_json (headers : HeaderMap) (body : string) (allow_merge : bool)
    : AppResult Value :=
  let ct := default "" (header_str headers "content-type") in
  let ok := starts_with "application/json" ct
            || (allow_merge && starts_with "application/merge-patch+json" ct) in
  if negb ok then Err unsupported_media_type
  else match from_slice body with
       | Err e => Err (bad_request ("invalid JSON body: " +:+ e))
       | Ok v => if negb (is_object v) then Err (bad_request "body must be a JSON object")
                 else Ok v
       end.
End Body.

(** A machine integer as a JSON number. *)
Definition json_int (z : Z) : Value :=
  JNumber (if z <? 0 then NegInt z else PosInt z).

Definition entity_json (id type_id : string) (data : Value) (version : Z) : Value :=
  JObject (map_collect
    [("id", JString id); ("type", JString type_id); ("data", data);
     ("version", json_int version); ("etag", JString (etag version))]).

(** ** Input checks *)

Fixpoint check_keys (td : TypeDef.t) (on_create : bool) (ks : list string) : AppResult unit :=
  match ks with
  | [] => Ok tt
  | k :: rest =>
      match TypeDef.field td k with
      | None => Err (bad_request ("unknown field: " +:+ k))
      | Some f =>
          if on_create && negb (FieldDef.settable f)
          then Err (bad_request ("field is not settable: " +:+ k))
          else if negb on_create && negb (FieldDef.writable f)
          then Err (bad_request ("field is not editable: " +:+ k))
          else check_keys td on_create rest
      end
  end.

(** Every key of the payload is a known field, acceptable for the operation. *)
Definition check_input (td : TypeDef.t) (payload : Value) (on_create : bool) : AppResult unit :=
  check_keys td on_create (map_keys (obj_members payload)).

(** Whether a value fits a field's kind. *)
Definition kind_ok (f : FieldDef.t) (v : Value) : bool :=
  let kind := FieldDef.kind f in
  if String.eqb kind "text" || String.eqb kind "date" || String.eqb kind "ref" then is_string v
  else if String.eqb kind "int" then is_i64 v || is_u64 v
  else if String.eqb kind "bool" then is_boolean v
  else if String.eqb kind "json" then true
  else if String.eqb kind "enum" then
    is_string v &&
    match get "enum" (FieldDef.options f) ≫= as_array with
    | Some a => existsb (fun x => value_eqb x v) a
    | None => false
    end
  else true.

Definition coerce_check (f : FieldDef.t) (v : Value) : Result string unit :=
  if is_null v then Ok tt
  else if kind_ok f v then Ok tt
  else Err ("field `" +:+ FieldDef.field f +:+ "` expects " +:+ FieldDef.kind f).

Fixpoint validate_fields (fs : list FieldDef.t) (obj : Map) : AppResult unit :=
  match fs with
  | [] => Ok tt
  | f :: rest =>
      let v := map_get (FieldDef.field f) obj in
      let present := match v with Some x => negb (is_null x) | None => false end in
      if FieldDef.required f && negb present
      then Err (unprocessable ("missing required field: " +:+ FieldDef.field f))
      else match v with
           | Some x => match coerce_check f x with
                       | Err e => Err (unprocessable e)
                       | Ok _ => validate_fields rest obj
                       end
           | None => validate_fields rest obj
           end
  end.

(** The final candidate: required fields present, present fields of their kind. *)
Definition validate_final (td : TypeDef.t) (data : Value) : AppResult unit :=
  match as_object data with
  | None => Err (bad_request "data must be an object")
  | Some obj => validate_fields (TypeDef.fields td) obj
  end.

(** ** Assembling [data] *)

(** The payload's value for a field, null counting as absent. *)
Definition payload_value (pin : Map) (f : FieldDef.t) : option Value :=
  match map_get (FieldDef.field f) pin with
  | Some v => if is_null v then None else Some v
  | None => None
  end.

Definition field_default (f : FieldDef.t) : option Value := get "default" (FieldDef.options f).

Definition create_field (pin : Map) (out : Map) (f : FieldDef.t) : Map :=
  if FieldDef.settable f then
    match payload_value pin f with
    | Some v => map_insert (FieldDef.field f) v out
    | None => match field_default f with
              | Some def => map_insert (FieldDef.field f) def out
              | None => out
              end
    end
  else match field_default f with
       | Some def => map_insert (FieldDef.field f) def out
       | None => out
       end.

Definition build_create_data (td : TypeDef.t) (payload : Value) : Value :=
  JObject (foldl (create_field (obj_members payload)) [] (TypeDef.fields td)).

Definition put_field (pin : Map) (out : Map) (f : FieldDef.t) : Map :=
  if negb (FieldDef.writable f) then out
  else match payload_value pin f with
       | Some v => map_insert (FieldDef.field f) v out
       | None => match field_default f with
                 | Some def => map_insert (FieldDef.field f) def out
                 | None => map_remove (FieldDef.field f) out
                 end
       end.

(** PUT: non-editable fields are kept from [existing], the others come from the payload. *)
Definition build_put_data (td : TypeDef.t) (existing payload : Value) : Value :=
  JObject (foldl (put_field (obj_members payload)) (obj_members existing) (TypeDef.fields td)).

Definition scope_parent (td : TypeDef.t) (data : Value) : option string :=
  match head (TypeDef.scope_parents td) with
  | Some field => get_str field data
  | None => None
  end.

(** JSON Merge Patch (RFC 7386). *)
Fixpoint merge_patch (target patch : Value) {struct patch} : Value :=
  match patch with
  | JObject pm =>
      JObject
        ((fix go (pm : Map) (t : Map) : Map :=
            match pm with
            | [] => t
            | (k, v) :: pm' =>
                if is_null v then go pm' (map_remove k t)
                else let cur := default JNull (map_get k t) in
                     go pm' (map_insert k (merge_patch cur v) (map_remove k t))
            end) pm (obj_members target))
  | _ => patch
  end.

(** One pass over the members of the patch, as a fold. *)
Definition merge_entry (t : Map) (kv : string * Value) : Map :=
  if is_null kv.2 then map_remove kv.1 t
  else map_insert kv.1 (merge_patch (default JNull (map_get kv.1 t)) kv.2) (map_remove kv.1 t).

Lemma merge_patch_object target pm :
  merge_patch target (JObject pm) = JObject (foldl merge_entry (obj_members target) pm).
Proof.
  cbn [merge_patch]. f_equal. generalize (obj_members target) as t.
  induction pm as [|[k v] pm IH]; intros t; [done|]. cbn [foldl]. rewrite <- IH.
  unfold merge_entry. simpl. by destruct (is_null v).
Qed.

(** ** A case's status change *)

Definition validate_case_change (st : AppState) (id : string) (data : Value)
    (old_status : option string) (ctx : RequestCtx) : AppResult unit :=
  let wf_id := default "default" (get_str "workflow_id" data) in
  let new_status := default "" (get_str "status" data) in
  try? map_err (with_request_id (ctx_request_id ctx))
         (validate (wf_cache st) wf_id old_status new_status) in
  match wf_cache st !! wf_id with
  | Some wf =>
      if Workflow.is_terminal wf new_status && negb (bool_decide (old_status = Some new_status))
      then let unmet := unmet_close_checks id (Workflow.close_checks wf) (pool st) in
           match unmet with
           | [] => Ok tt
           | _ => Err (with_request_id (ctx_request_id ctx)
                    (close_preconditions_unmet
                       ("close preconditions not met: " +:+ join ", " unmet)))
           end
      else Ok tt
  | None => Ok tt
  end.

(** ** OPTIONS *)

Definition json_strings (l : list string) : Value := JArray (JString <$> l).

Definition options_body (db : Db) (td : TypeDef.t) (caller : Caller.t)
    (object_id : option string) (is_item : bool) (etag_version : option Z) : Value :=
  let readable := readable_set db caller td object_id in
  let fields :=
    (fun f => JObject (map_collect
       [("field", JString (FieldDef.field f)); ("label", JString (FieldDef.label f));
        ("kind", JString (FieldDef.kind f)); ("required", JBool (FieldDef.required f));
        ("editable", JBool (FieldDef.editable f)); ("perm_class", JString (FieldDef.perm_class f));
        ("options", FieldDef.options f);
        ("can_read", JBool (bool_decide (FieldDef.field f ∈ readable)));
        ("can_write", JBool (FieldDef.writable f))])) <$> TypeDef.fields td in
  let required := omap (fun f => if FieldDef.required f then Some (FieldDef.field f) else None)
                    (TypeDef.fields td) in
  let refs := map_collect
                (omap (fun f => (fun r => (FieldDef.field f, JString r))
                                  <$> get_str "ref" (FieldDef.options f)) (TypeDef.fields td)) in
  let body := map_collect
    [("type", JString (TypeDef.type_id td)); ("id_prefix", JString (TypeDef.id_prefix td));
     ("resource", JString (if is_item then "item" else "collection"));
     ("allow", json_strings (permitted_verbs db caller td object_id is_item));
     ("rbac", rbac_verdict db caller td object_id is_item);
     ("fields", JArray fields);
     ("validation", JObject (map_collect
        [("required", json_strings required); ("refs", JObject refs)]))] in
  JObject (match etag_version with
           | Some v => map_insert "concurrency" (JObject [("etag", JString (etag v))]) body
           | None => body
           end).

(** ** Version tags round trip *)

(** A version printed as an ETag and sent back as [If-Match] is read as the same version. *)
Theorem etag_roundtrip v : i32_ok v -> parse_version_tag (etag v) = Some v.
Proof.
  intros Hv. unfold parse_version_tag.
  assert (T1 : trim (etag v) = etag v).
  { change (etag v) with
      (String "W" (String "/" (String quote (show_Z v)) +:+ String quote "")).
    by apply trim_visible. }
  rewrite T1.
  change (strip_prefix "W/" (etag v)) with (Some (String quote (show_Z v +:+ String quote ""))).
  unfold default, from_option, id. rewrite trim_visible by done.
  rewrite trim_matches_quoted; [by apply parse_show_Z|done|apply show_Z_nonempty|apply show_Z_chars].
Qed.

(** ** Input checks *)

Definition acceptable (on_create : bool) (f : FieldDef.t) : bool :=
  if on_create then FieldDef.settable f else FieldDef.writable f.

Lemma check_input_ok td payload on_create :
  check_input td payload on_create = Ok tt <->
  forall k, k ∈ map_keys (obj_members payload) ->
    exists f, TypeDef.field td k = Some f /\ acceptable on_create f = true.
Proof.
  unfold check_input, acceptable. induction (map_keys (obj_members payload)) as [|k ks IH].
  - split; [|done]. by intros _ ? ?%elem_of_nil.
  - cbn [check_keys]. destruct (TypeDef.field td k) as [f|] eqn:Ef.
    + transitivity ((if on_create then FieldDef.settable f else FieldDef.writable f) = true
                    /\ check_keys td on_create ks = Ok tt).
      { destruct on_create, (FieldDef.settable f), (FieldDef.writable f); simpl; naive_solver. }
      rewrite IH. split.
      * intros [Ha Hall] x [->|Hx]%elem_of_cons; eauto.
      * intros Hall. split.
        -- destruct (Hall k (list_elem_of_here _ _)) as (g & Hg & Ha).
           rewrite Ef in Hg. by injection Hg as <-.
        -- intros x Hx. apply Hall. by right.
    + split; [done|]. intros Hall.
      destruct (Hall k (list_elem_of_here _ _)) as (g & Hg & _). congruence.
Qed.

(** A field is in order: present when required, and of its kind when present. *)
Definition field_valid (obj : Map) (f : FieldDef.t) : Prop :=
  (FieldDef.required f = true -> exists v, map_get (FieldDef.field f) obj = Some v /\ v <> JNull) /\
  (forall v, map_get (FieldDef.field f) obj = Some v -> v = JNull \/ kind_ok f v = true).

Lemma coerce_check_ok f v : coerce_check f v = Ok tt <-> v = JNull \/ kind_ok f v = true.
Proof.
  unfold coerce_check. destruct v; simpl; try (destruct (kind_ok f _)); naive_solver.
Qed.

Lemma validate_fields_ok fs obj : validate_fields fs obj = Ok tt <-> Forall (field_valid obj) fs.
Proof.
  induction fs as [|f fs IH]; cbn [validate_fields]; [split; [constructor|done]|].
  rewrite Forall_cons, <- IH. unfold field_valid at 1.
  destruct (map_get (FieldDef.field f) obj) as [v|] eqn:Ev.
  - assert (Hc := coerce_check_ok f v). destruct (coerce_check f v) as [[]|e].
    + assert (Hk : v = JNull \/ kind_ok f v = true) by (by apply Hc).
      destruct (FieldDef.required f), v; simpl; naive_solver.
    + assert (Hk : ~ (v = JNull \/ kind_ok f v = true)) by (by rewrite <- Hc).
      destruct (FieldDef.required f && _); split; naive_solver.
  - destruct (FieldDef.required f); simpl; naive_solver.
Qed.

Lemma validate_final_ok td data :
  validate_final td data = Ok tt <->
  exists obj, data = JObject obj /\ Forall (field_valid obj) (TypeDef.fields td).
Proof.
  unfold validate_final. destruct data; simpl; try (split; [done|]; by intros (? & ? & _)).
  rewrite validate_fields_ok. naive_solver.
Qed.

(** ** What the assembled [data] holds *)

(** The payload's value, else the default. *)
Definition supplied (pin : Map) (f : FieldDef.t) : option Value :=
  match payload_value pin f with Some v => Some v | None => field_default f end.

Definition set_opt (k : string) (v : option Value) (m : Map) : Map :=
  match v with Some v => map_insert k v m | None => map_remove k m end.

Lemma map_get_set_opt k v m : map_get k (set_opt k v m) = v.
Proof. destruct v; simpl; [apply map_get_insert | apply map_get_remove]. Qed.

Lemma map_get_set_opt_ne k k' v m : k <> k' -> map_get k' (set_opt k v m) = map_get k' m.
Proof. destruct v; simpl; [apply map_get_insert_ne | apply map_get_remove_ne]. Qed.

Lemma put_field_eq pin out f :
  put_field pin out f =
    if FieldDef.writable f then set_opt (FieldDef.field f) (supplied pin f) out else out.
Proof.
  unfold put_field, supplied. destruct (FieldDef.writable f); simpl; [|done].
  destruct (payload_value pin f); [done|]. by destruct (field_default f).
Qed.

(** Folding an update over fields of distinct names: a key is decided by its own field. *)
Lemma foldl_field_get (upd : Map -> FieldDef.t -> Map) (val : FieldDef.t -> option Value -> option Value)
    fs out k :
  (forall m f, map_get (FieldDef.field f) (upd m f) = val f (map_get (FieldDef.field f) m)) ->
  (forall m f k, k <> FieldDef.field f -> map_get k (upd m f) = map_get k m) ->
  NoDup (FieldDef.field <$> fs) ->
  map_get k (foldl upd out fs) =
    match List.find (fun f => String.eqb (FieldDef.field f) k) fs with
    | Some f => val f (map_get k out)
    | None => map_get k out
    end.
Proof.
  intros Hs Ho. revert out. induction fs as [|f fs IH]; intros out Hnd; [done|].
  apply NoDup_cons in Hnd as [Hni Hnd]. cbn [foldl List.find]. rewrite IH by done.
  destruct (String.eqb_spec (FieldDef.field f) k) as [<-|Hne].
  - destruct (List.find _ fs) as [g|] eqn:Eg; [|apply Hs].
    exfalso. apply List.find_some in Eg as [Hin E%String.eqb_eq]. apply Hni.
    fold (fmap FieldDef.field fs). rewrite <- E. apply list_elem_of_fmap_2. by apply list_elem_of_In.
  - by destruct (List.find _ fs); rewrite Ho by done.
Qed.

Lemma build_put_data_get td existing payload k :
  fields_nodup td ->
  get k (build_put_data td existing payload) =
    match TypeDef.field td k with
    | Some f => if FieldDef.writable f then supplied (obj_members payload) f
                else map_get k (obj_members existing)
    | None => map_get k (obj_members existing)
    end.
Proof.
  intros Hnd. unfold build_put_data, get, TypeDef.field.
  apply (foldl_field_get _
    (fun f o => if FieldDef.writable f then supplied (obj_members payload) f else o)); [..|done].
  - intros m f. rewrite put_field_eq. destruct (FieldDef.writable f); [|done].
    apply map_get_set_opt.
  - intros m f k' Hne. rewrite put_field_eq. destruct (FieldDef.writable f); [|done].
    by apply map_get_set_opt_ne.
Qed.

(** What CREATE stores for a field: a value the caller supplied only when the field is
    settable. *)
Definition created_value (pin : Map) (f : FieldDef.t) : option Value :=
  if FieldDef.settable f then supplied pin f else field_default f.

Lemma create_field_eq pin out f :
  create_field pin out f =
    match created_value pin f with
    | Some v => map_insert (FieldDef.field f) v out
    | None => out
    end.
Proof.
  unfold create_field, created_value, supplied. destruct (FieldDef.settable f).
  - by destruct (payload_value pin f), (field_default f).
  - by destruct (field_default f).
Qed.

Lemma build_create_data_get td payload k :
  fields_nodup td ->
  get k (build_create_data td payload) =
    TypeDef.field td k ≫= created_value (obj_members payload).
Proof.
  intros Hnd. unfold build_create_data, get, TypeDef.field.
  rewrite (foldl_field_get _
    (fun f o => match created_value (obj_members payload) f with Some v => Some v | None => o end));
    [| | |done].
  - simpl map_get. destruct (List.find _ _) as [f|]; [|done]. simpl.
    by destruct (created_value _ f).
  - intros m f. rewrite create_field_eq. destruct (created_value _ f); [apply map_get_insert|done].
  - intros m f k' Hne. rewrite create_field_eq.
    destruct (created_value _ f); [by apply map_get_insert_ne|done].
Qed.

(** *** Merge patch *)

Lemma merge_entry_get_ne t kv k : k <> kv.1 -> map_get k (merge_entry t kv) = map_get k t.
Proof.
  intros Hne. unfold merge_entry. destruct (is_null kv.2).
  - by apply map_get_remove_ne.
  - rewrite map_get_insert_ne by done. by apply map_get_remove_ne.
Qed.

Lemma merge_entries_get_notin pm t k :
  k ∉ pm.*1 -> map_get k (foldl merge_entry t pm) = map_get k t.
Proof.
  revert t. induction pm as [|kv pm IH]; intros t Hni; [done|]. cbn [foldl].
  rewrite fmap_cons, not_elem_of_cons in Hni. destruct Hni as [Hne Hni].
  rewrite IH by done. by apply merge_entry_get_ne.
Qed.

Lemma merge_entries_get pm t k :
  NoDup pm.*1 ->
  map_get k (foldl merge_entry t pm) =
    match map_get k pm with
    | None => map_get k t
    | Some v => if is_null v then None
                else Some (merge_patch (default JNull (map_get k t)) v)
    end.
Proof.
  revert t. induction pm as [|[k1 v1] pm IH]; intros t Hnd; [done|].
  rewrite fmap_cons in Hnd. apply NoDup_cons in Hnd as [Hni Hnd]. cbn [foldl map_get].
  destruct (String.eqb_spec k k1) as [->|Hne].
  - rewrite merge_entries_get_notin by done. unfold merge_entry. simpl.
    destruct (is_null v1); [apply map_get_remove | apply map_get_insert].
  - rewrite IH by done. rewrite merge_entry_get_ne by done. done.
Qed.

(** The members of a merged object, key by key, as RFC 7386 prescribes. *)
Lemma merge_patch_get target pm k :
  NoDup pm.*1 ->
  get k (merge_patch target (JObject pm)) =
    match map_get k pm with
    | None => map_get k (obj_members target)
    | Some v => if is_null v then None
                else Some (merge_patch (default JNull (map_get k (obj_members target))) v)
    end.
Proof. intros Hnd. rewrite merge_patch_object. by apply merge_entries_get. Qed.

Lemma merge_entry_wf t kv : map_wf t -> map_wf (merge_entry t kv).
Proof. unfold merge_entry. destruct (is_null kv.2); auto with json. Qed.

Lemma merge_entries_wf pm t : map_wf t -> map_wf (foldl merge_entry t pm).
Proof. revert t. induction pm as [|kv pm IH]; intros t Ht; [done|]. by apply IH, merge_entry_wf. Qed.

Lemma obj_members_wf v : value_wf v -> map_wf (obj_members v).
Proof. destruct 1; simpl; try done; constructor. Qed.

Lemma obj_members_get_wf v k x : value_wf v -> map_get k (obj_members v) = Some x -> value_wf x.
Proof.
  destruct 1 as [| | | | |m Hm Hall]; simpl; try done. intros Hg.
  eapply Forall_forall in Hall; [|by apply map_get_elem]. done.
Qed.

Lemma default_null_wf (o : option Value) : (forall x, o = Some x -> value_wf x) -> value_wf (default JNull o).
Proof. destruct o; simpl; [auto|]. intros _. constructor. Qed.

(** PATCH is idempotent: applying a merge patch to its own result changes nothing. *)
Theorem merge_patch_idempotent target patch :
  value_wf target -> value_wf patch ->
  merge_patch (merge_patch target patch) patch = merge_patch target patch.
Proof.
  revert target. induction patch as [| | | |l _|pm IH] using value_ind'; intros t Ht Hp; try done.
  inversion Hp as [| | | | |? Hpm Hall]; subst.
  rewrite !merge_patch_object. f_equal. cbn [obj_members].
  apply map_ext; [by apply merge_entries_wf, merge_entries_wf, obj_members_wf
                 | by apply merge_entries_wf, obj_members_wf |].
  intros k. assert (Hnd : NoDup pm.*1) by auto with json.
  rewrite !merge_entries_get by done.
  destruct (map_get k pm) as [v|] eqn:Ev; [|done]. destruct (is_null v); [done|]. f_equal.
  apply map_get_elem in Ev. eapply Forall_forall in IH; [|exact Ev].
  apply IH; [|by eapply (proj1 (Forall_forall _ _) Hall) in Ev].
  apply default_null_wf. intros x. by apply obj_members_get_wf.
Qed.

(** *** Fields an update cannot change *)

(** PUT and PATCH assemble the candidate differently and share the rest of the write path. *)
Inductive UpdateKind := Put | Patch.

Definition candidate (u : UpdateKind) (td : TypeDef.t) (existing payload : Value) : Value :=
  match u with
  | Put => build_put_data td existing payload
  | Patch => merge_patch existing payload
  end.

Lemma get_obj_members k v : get k v = map_get k (obj_members v).
Proof. by destruct v. Qed.

(** An update never changes a set-once or engine-owned field, nor a key that is not a field
    of the type. *)
Lemma candidate_preserves u td existing payload k :
  fields_nodup td -> value_wf payload -> is_object payload = true ->
  check_input td payload false = Ok tt ->
  (forall f, TypeDef.field td k = Some f -> FieldDef.writable f = false) ->
  get k (candidate u td existing payload) = get k existing.
Proof.
  intros Hnd Hwf Hobj Hin Hk. rewrite (get_obj_members k existing). destruct u; simpl candidate.
  - rewrite build_put_data_get by done. destruct (TypeDef.field td k) as [f|]; [|done].
    by rewrite Hk.
  - destruct payload as [| | | | |pm]; try done. inversion Hwf; subst.
    rewrite merge_patch_get by auto with json.
    destruct (map_get k pm) as [v|] eqn:E; [|done]. exfalso.
    destruct (proj1 (check_input_ok _ _ _) Hin k) as (f & Hf & Ha).
    + apply map_get_keys. by exists v.
    + simpl in Ha. rewrite (Hk f Hf) in Ha. done.
Qed.

(** PUT is idempotent. *)
Theorem build_put_data_idempotent td existing payload :
  fields_nodup td -> value_wf existing ->
  build_put_data td (build_put_data td existing payload) payload = build_put_data td existing payload.
Proof.
  intros Hnd Hwf.
  assert (Hput : forall m, map_wf m ->
            map_wf (foldl (put_field (obj_members payload)) m (TypeDef.fields td))).
  { clear Hnd. induction (TypeDef.fields td) as [|f fs IH]; intros m Hm; [done|]. cbn [foldl].
    apply IH. rewrite put_field_eq.
    destruct (FieldDef.writable f); [|done]. destruct (supplied _ f); simpl; auto with json. }
  pose proof (obj_members_wf _ Hwf) as Hm.
  set (d := build_put_data td existing payload).
  assert (Hd : map_wf (obj_members d)) by (by apply Hput).
  change (JObject (foldl (put_field (obj_members payload)) (obj_members d) (TypeDef.fields td)) = d).
  transitivity (JObject (obj_members d)); [|done]. f_equal.
  apply map_ext; [by apply Hput|done|]. intros k.
  change (get k (build_put_data td d payload) = map_get k (obj_members d)).
  rewrite build_put_data_get by done. rewrite <- (get_obj_members k d). subst d.
  rewrite build_put_data_get by done. destruct (TypeDef.field td k) as [f|]; [|done].
  by destruct (FieldDef.writable f).
Qed.
