(* ===== verification/Fixture.v ===== *)
(** * A concrete server, for the witnesses

    The roles, the workflow and some of the types that [migrations/] seed, three actors, a
    workspace with two teams, a project and objects scoped to it, and a parser that knows the
    request bodies the witnesses send. *)

From S2P Require Import Prelude RustStr Json AppError Closure Schema Registry Workflow State Caller.
From S2P Require Import Objects.

Local Open Scope Z_scope.

(** Bodies are written without quotes; only these are understood. *)
Definition bodies : list (string * Value) :=
  [("{title:hello}", JObject [("title", JString "hello")]);
   ("{name:apollo,slug:apollo}", JObject [("name", JString "apollo"); ("slug", JString "apollo")]);
   ("{status:todo}", JObject [("status", JString "todo")]);
   ("{status:done}", JObject [("status", JString "done")]);
   ("{assignee_id:ghost}", JObject [("assignee_id", JString "ghost")]);
   ("{project_id:PRJ_1,title:t}", JObject [("project_id", JString "PRJ_1"); ("title", JString "t")]);
   ("{member_id:USR_b,role:member}",
      JObject [("member_id", JString "USR_b"); ("role", JString "member")]);
   ("{member_id:USR_c,role:member}",
      JObject [("member_id", JString "USR_c"); ("role", JString "member")]);
   ("{member_id:USR_a,role:viewer}",
      JObject [("member_id", JString "USR_a"); ("role", JString "viewer")]);
   ("{member_id:TEM_1,role:member}",
      JObject [("member_id", JString "TEM_1"); ("role", JString "member")]);
   ("{member_id:TEM_2,role:member}",
      JObject [("member_id", JString "TEM_2"); ("role", JString "member")]);
   ("{role:admin}", JObject [("role", JString "admin")]);
   ("{passed:true}", JObject [("passed", JBool true)]);
   ("{body:x}", JObject [("body", JString "x")]);
   ("{display_name:m,platform_role:admin}",
      JObject [("display_name", JString "m"); ("platform_role", JString "admin")]);
   ("{access_token:a}", JObject [("access_token", JString "a")]);
   ("{id:42}", JObject [("id", JString "42")]);
   ("{}", JObject [])].

#[export] Instance fixture_json : SerdeJson := {
  from_slice s := match map_get s bodies with Some v => Ok v | None => Err "expected value" end;
  value_display v := match v with JString s => s | _ => "..." end }.

#[export] Instance fixture_pg : Postgres := {
  jsonb_to_text _ := "...";
  timestamp_text := show_Z;
  collate := String.compare }.

Definition no_options : Value := JObject [].
Definition enum_options (vals : list string) (def : string) : Value :=
  JObject [("default", JString def); ("enum", json_strings vals)].

Definition fld (type_id field kind : string) (required editable : bool) (ordinal : Z)
    (perm_class : string) (options : Value) : (string * string) * TypeFieldRow :=
  ((type_id, field),
   mkTypeFieldRow field kind required editable ordinal perm_class options false).

Definition case_states : list string := ["backlog"; "todo"; "in_progress"; "in_review"; "done"].

Definition seed_types : gmap string TypeDefRow := list_to_map
  [("actor", mkTypeDefRow "USR" "Actor" "Actors" (json_strings []) true 1 no_options);
   ("workspace", mkTypeDefRow "ORG" "Workspace" "Workspaces" (json_strings []) true 6 no_options);
   ("team", mkTypeDefRow "TEM" "Team" "Teams" (json_strings ["workspace_id"]) true 8 no_options);
   ("project", mkTypeDefRow "PRJ" "Project" "Projects" (json_strings []) true 10 no_options);
   ("note", mkTypeDefRow "NOT" "Note" "Notes" (json_strings ["project_id"]) true 20 no_options);
   ("case", mkTypeDefRow "CAS" "Case" "Cases" (json_strings ["project_id"]) true 30 no_options);
   ("connector", mkTypeDefRow "CON" "Connector" "Connectors" (json_strings ["project_id"]) true 70
      no_options)].

Definition seed_fields : gmap (string * string) TypeFieldRow := list_to_map
  [fld "actor" "display_name" "text" true true 1 "standard" no_options;
   fld "actor" "email" "text" false true 3 "owner_grade" no_options;
   fld "actor" "platform_role" "enum" true true 5 "owner_grade"
     (enum_options ["member"; "admin"] "member");
   fld "workspace" "name" "text" true true 1 "standard" no_options;
   fld "team" "workspace_id" "ref" true false 1 "standard" (JObject [("ref", JString "ORG")]);
   fld "team" "name" "text" true true 2 "standard" no_options;
   fld "team" "kind" "enum" true false 3 "standard" (enum_options ["team"; "department"] "team");
   fld "project" "name" "text" true true 1 "standard" no_options;
   fld "project" "slug" "text" true false 2 "standard" no_options;
   fld "project" "status" "enum" false true 3 "standard"
     (enum_options ["planning"; "active"; "paused"; "archived"] "planning");
   fld "note" "project_id" "ref" true false 1 "standard" (JObject [("ref", JString "PRJ")]);
   fld "note" "title" "text" true true 2 "standard" no_options;
   fld "note" "body" "text" false true 3 "standard" no_options;
   fld "note" "pinned" "bool" false true 4 "standard" (JObject [("default", JBool false)]);
   fld "case" "title" "text" true true 1 "standard" no_options;
   fld "case" "status" "enum" true true 4 "standard" (enum_options case_states "backlog");
   fld "case" "workflow_id" "ref" true false 8 "readonly"
     (JObject [("default", JString "default"); ("ref", JString "workflows")]);
   fld "case" "assignee_id" "ref" false true 9 "standard" (JObject [("ref", JString "USR")]);
   fld "case" "project_id" "ref" true false 11 "standard" (JObject [("ref", JString "PRJ")]);
   fld "connector" "name" "text" true true 2 "standard" no_options;
   fld "connector" "kind" "enum" true true 3 "standard"
     (enum_options ["http_json"; "webhook"; "sql"; "file"] "http_json");
   fld "connector" "target" "text" true true 4 "standard" no_options].

Definition seed_workflow : WorkflowRow :=
  mkWorkflowRow (json_strings case_states)
    (JObject [("backlog", json_strings ["todo"]); ("done", json_strings ["in_review"]);
       ("in_progress", json_strings ["todo"; "in_review"]);
       ("in_review", json_strings ["in_progress"; "done"]);
       ("todo", json_strings ["backlog"; "in_progress"])])
    "backlog" (json_strings ["docs_reconciled"]).

Definition note_data : Value :=
  JObject [("body", JString "b"); ("pinned", JBool false); ("project_id", JString "PRJ_1");
           ("title", JString "first")].
Definition case_data (status : string) : Value :=
  JObject [("project_id", JString "PRJ_1"); ("status", JString status); ("title", JString "fix");
           ("workflow_id", JString "default")].

Definition team_data (name : string) : Value :=
  JObject [("kind", JString "team"); ("name", JString name); ("workspace_id", JString "ORG_1")].

Definition seed_entities : gmap string EntityRow := list_to_map
  [("USR_a", mkEntityRow "actor" (Some "USR_a")); ("USR_b", mkEntityRow "actor" (Some "USR_b"));
   ("USR_c", mkEntityRow "actor" (Some "USR_c"));
   ("ORG_1", mkEntityRow "workspace" (Some "USR_a"));
   ("TEM_1", mkEntityRow "team" (Some "USR_a")); ("TEM_2", mkEntityRow "team" (Some "USR_a"));
   ("PRJ_1", mkEntityRow "project" (Some "USR_a"));
   ("NOT_1", mkEntityRow "note" (Some "USR_a"));
   ("CAS_1", mkEntityRow "case" (Some "USR_a"));
   ("CAS_2", mkEntityRow "case" (Some "USR_a"));
   ("CON_1", mkEntityRow "connector" (Some "USR_a"))].

Definition seed_data : gmap string DataRow := list_to_map
  [("USR_a", mkDataRow "actor" (JObject [("display_name", JString "A")]) None 1 1);
   ("USR_b", mkDataRow "actor" (JObject [("display_name", JString "B")]) None 1 1);
   ("USR_c", mkDataRow "actor" (JObject [("display_name", JString "C")]) None 1 1);
   ("ORG_1", mkDataRow "workspace" (JObject [("name", JString "acme")]) None 1 1);
   ("TEM_1", mkDataRow "team" (team_data "core") (Some "ORG_1") 1 1);
   ("TEM_2", mkDataRow "team" (team_data "sub") (Some "ORG_1") 1 1);
   ("PRJ_1", mkDataRow "project"
      (JObject [("name", JString "apollo"); ("slug", JString "apollo")]) None 1 2);
   ("NOT_1", mkDataRow "note" note_data (Some "PRJ_1") 3 3);
   ("CAS_1", mkDataRow "case" (case_data "backlog") (Some "PRJ_1") 1 4);
   ("CAS_2", mkDataRow "case" (case_data "in_review") (Some "PRJ_1") 5 5);
   ("CON_1", mkDataRow "connector"
      (JObject [("kind", JString "http_json"); ("name", JString "feed");
                ("target", JString "https://example.org/feed")]) (Some "PRJ_1") 1 6)].

(** USR_a owns the workspace, the project and the teams, USR_b is a member of TEM_1, TEM_1 views the project;
    USR_c has no membership. *)
Definition seed_memberships : gmap (string * string) MemberRow := list_to_map
  [(("ORG_1", "USR_a"), mkMemberRow "owner" "");
   (("PRJ_1", "USR_a"), mkMemberRow "owner" "");
   (("TEM_1", "USR_a"), mkMemberRow "owner" "");
   (("TEM_2", "USR_a"), mkMemberRow "owner" "");
   (("TEM_1", "USR_b"), mkMemberRow "member" "");
   (("TEM_2", "TEM_1"), mkMemberRow "member" "");
   (("PRJ_1", "TEM_1"), mkMemberRow "viewer" "")].

Definition case_mirror (status : string) (version : Z) : CaseRow :=
  mkCaseRow "fix" status "default" "normal" None (Some "PRJ_1") version 4.

Definition seed_db : Db :=
  mkDb seed_types seed_fields seed_entities seed_data seed_memberships
    (list_to_map [("viewer", 1); ("member", 2); ("admin", 3); ("owner", 4)])
    ∅ {[ "default" := seed_workflow ]}
    (list_to_map [("CAS_1", case_mirror "backlog" 1); ("CAS_2", case_mirror "in_review" 5)])
    ∅ ∅ ∅ [] ∅ ∅ [] 100.

Definition seed_state : AppState := boot seed_db.

Definition ctx0 : RequestCtx := mkRequestCtx "req_1" "trc_1".
Definition alice : Caller.t := Caller.mk "USR_a" false.
Definition bob : Caller.t := Caller.mk "USR_b" false.
Definition carol : Caller.t := Caller.mk "USR_c" false.
Definition root : Caller.t := Caller.mk "USR_root" true.

Definition json_headers (if_match : option string) : HeaderMap :=
  match if_match with
  | Some tag => {[ "content-type" := Some "application/json"; "if-match" := Some tag ]}
  | None => {[ "content-type" := Some "application/json" ]}
  end.
