(* ===== verification/ObjectHandlers.v ===== *)
(** * The generic object handlers ([objects.rs])

    [/api/objects/:type[/:id]]: every verb of a collection and of an item, for any registered
    type. A PUT or PATCH is split into what it reads ([item_write_read], which changes nothing)
    and what it writes ([item_write_commit]), so that interleavings between the two can be
    stated. Random identifiers and the clock are inputs. *)

From S2P Require Import Prelude RustStr Json AppError Closure Schema Registry Workflow State Rbac.
From S2P Require Import Caller FieldPerms Objects.

Local Open Scope Z_scope.

(** [ids::mint]: [uuid] is the fresh v4 identifier in simple form. *)
Definition mint (prefix uuid : string) : string := prefix +:+ "_" +:+ uuid.

(** *** LIST *)

Definition newer (a b : string * DataRow) : Prop := d_updated_at b.2 <= d_updated_at a.2.
#[export] Instance newer_dec : RelDecision newer.
Proof. intros a b. unfold newer. apply _. Defined.

(** [where type_id = .. [and entity_id = any(ids)] order by updated_at desc limit .. offset ..]; the
    statement leaves the order of rows with the same timestamp open, here it is always the same. *)
Definition select_rows (db : Db) (type_id : string) (ids : option (list string))
    (limit offset : Z) : list (string * DataRow) :=
  let keep (kv : string * DataRow) :=
    bool_decide (d_type_id kv.2 = type_id)
    && match ids with Some l => bool_decide (kv.1 ∈ l) | None => true end in
  take (Z.to_nat limit) (drop (Z.to_nat offset)
    (merge_sort newer (List.filter keep (map_to_list (entity_data db))))).

Definition clamp (lo hi x : Z) : Z := Z.max lo (Z.min hi x).

Section Handlers.
Context `{SerdeJson, Postgres}.

Definition coll_get (ctx : RequestCtx) (caller : Caller.t) (type_id : string)
    (q_limit q_offset : option Z) : M Response :=
  st ← get_state;
  td ← lift (resolve (registry st) type_id ctx);
  st ← get_state;
  _ ← ensure (require_action (pool st) caller td None View) (deny_404 ctx);
  let limit := clamp 1 200 (default 50 q_limit) in
  let offset := Z.max 0 (default 0 q_offset) in
  st ← get_state;
  let ids :=
    if Caller.is_platform_admin caller then None
    else Some (reachable_entity_ids (pool st) (Caller.actor_id caller) type_id) in
  st ← get_state;
  let rows := select_rows (pool st) type_id ids limit offset in
  st ← get_state;
  let items :=
    (fun r => entity_json r.1 type_id (filter_readable (pool st) caller td r.1 (d_data r.2))
                (d_version r.2)) <$> rows in
  mret (mkResponse OK []
    (Some (JObject (map_collect
       [("items", JArray items); ("limit", json_int limit); ("offset", json_int offset)])))).

Definition coll_head (ctx : RequestCtx) (caller : Caller.t) (type_id : string) : M Response :=
  st ← get_state;
  td ← lift (resolve (registry st) type_id ctx);
  st ← get_state;
  _ ← ensure (require_action (pool st) caller td None View) (deny_404 ctx);
  mret (mkResponse OK [] None).

(** The parent a create is gated on: the supplied one; none for a root type or an optional
    scope parent; a missing required one is an error. *)
Definition create_parent (td : TypeDef.t) (sp : option string) (ctx : RequestCtx)
    : AppResult (option string) :=
  match sp with
  | Some p => Ok (Some p)
  | None =>
      if bool_decide (TypeDef.scope_parents td = [])
         || negb (TypeDef.scope_parent_required td)
      then Ok None
      else Err (with_request_id (ctx_request_id ctx)
             (unprocessable ("this type requires a scope parent: "
                +:+ default "parent" (head (TypeDef.scope_parents td)))))
  end.

(** The transaction of a create: the entity, its data, the owner edge, the case mirror. *)
Definition create_txn (td : TypeDef.t) (id type_id : string) (data : Value)
    (sp : option string) (actor : string) : SqlM unit :=
  _ ← insert_entity id type_id (Some actor);
  _ ← insert_data id type_id data sp;
  _ ← grant_owner id actor;
  if decide (TypeDef.type_id td = "case") then upsert_case_mirror id data 1 else mret tt.

Definition coll_create (ctx : RequestCtx) (caller : Caller.t) (type_id : string)
    (headers : HeaderMap) (body : string) (uuid : string) : M Response :=
  st ← get_state;
  td ← lift (resolve (registry st) type_id ctx);
  payload ← lift (read_json headers body false);
  _ ← lift (check_input td payload true);
  let data := build_create_data td payload in
  _ ← lift (validate_final td data);
  _ ← (if decide (TypeDef.type_id td = "case") then
         lift (map_err (with_request_id (ctx_request_id ctx))
           (validate (wf_cache st) (default "default" (get_str "workflow_id" data)) None
              (default "" (get_str "status" data))))
       else mret tt);
  let sp := scope_parent td data in
  parent ← lift (create_parent td sp ctx);
  st ← get_state;
  _ ← ensure (require_action (pool st) caller td parent Create) (deny_404 ctx);
  let id := mint (TypeDef.id_prefix td) uuid in
  _ ← run_sql (create_txn td id type_id data sp (Caller.actor_id caller));
  _ ← record_event ctx (Caller.actor_id caller) (Some id) (type_id +:+ ".created") data;
  mret (mkResponse CREATED
    [("location", "/api/objects/" +:+ type_id +:+ "/" +:+ id); ("etag", etag 1)]
    (Some (entity_json id type_id data 1))).

Definition coll_options (ctx : RequestCtx) (caller : Caller.t) (type_id : string) : M Response :=
  st ← get_state;
  td ← lift (resolve (registry st) type_id ctx);
  st ← get_state;
  _ ← ensure (require_action (pool st) caller td None View) (deny_404 ctx);
  st ← get_state;
  let allow := join ", " (permitted_verbs (pool st) caller td None false) in
  st ← get_state;
  mret (mkResponse OK [("allow", allow)]
    (Some (options_body (pool st) td caller None false None))).

Definition m405_coll (ctx : RequestCtx) (caller : Caller.t) (type_id : string) : M Response :=
  st ← get_state;
  td ← lift (resolve (registry st) type_id ctx);
  st ← get_state;
  fail (with_request_id (ctx_request_id ctx)
    (method_not_allowed (permitted_verbs (pool st) caller td None false))).

(** *** Items *)

Definition item_get (ctx : RequestCtx) (caller : Caller.t) (type_id id : string)
    (headers : HeaderMap) : M Response :=
  st ← get_state;
  td ← lift (resolve (registry st) type_id ctx);
  st ← get_state;
  _ ← ensure (require_action (pool st) caller td (Some id) View) (deny_404 ctx);
  st ← get_state;
  row ← lift (ok_or (select_data id type_id (pool st)) (deny_404 ctx));
  let version := d_version row in
  st ← get_state;
  let data := filter_readable (pool st) caller td id (d_data row) in
  if if_none_match_hit headers version
  then mret (mkResponse NOT_MODIFIED [("etag", etag version)] None)
  else mret (mkResponse OK [("etag", etag version)]
         (Some (entity_json id type_id data version))).

Definition item_head (ctx : RequestCtx) (caller : Caller.t) (type_id id : string) : M Response :=
  st ← get_state;
  td ← lift (resolve (registry st) type_id ctx);
  st ← get_state;
  _ ← ensure (require_action (pool st) caller td (Some id) View) (deny_404 ctx);
  st ← get_state;
  row ← lift (ok_or (select_data id type_id (pool st)) (deny_404 ctx));
  mret (mkResponse OK [("etag", etag (d_version row))] None).

(** What a PUT or PATCH has decided to write. *)
Record WritePlan := mkWritePlan {
  p_td : TypeDef.t; p_data : Value; p_scope : option string; p_expected : Z }.

Definition allow_merge (u : UpdateKind) : bool := match u with Put => false | Patch => true end.
Definition event_suffix (u : UpdateKind) : string :=
  match u with Put => ".replaced" | Patch => ".patched" end.

(** Everything before the UPDATE: the gates, the checks and the candidate [data]. *)
Definition item_write_read (u : UpdateKind) (ctx : RequestCtx) (caller : Caller.t)
    (type_id id : string) (headers : HeaderMap) (body : string) : M WritePlan :=
  st ← get_state;
  td ← lift (resolve (registry st) type_id ctx);
  st ← get_state;
  _ ← ensure (require_action (pool st) caller td (Some id) Edit) (deny_404 ctx);
  st ← get_state;
  row ← lift (ok_or (select_data id type_id (pool st)) (deny_404 ctx));
  let existing := d_data row in
  expected ← lift (require_if_match headers ctx);
  payload ← lift (read_json headers body (allow_merge u));
  _ ← lift (check_input td payload false);
  let old_status := get_str "status" existing in
  let data := candidate u td existing payload in
  _ ← lift (validate_final td data);
  let written := map_keys (obj_members payload) in
  st ← get_state;
  _ ← lift (require_write (pool st) caller td id written ctx);
  st ← get_state;
  _ ← (if decide (TypeDef.type_id td = "case")
       then lift (validate_case_change st id data old_status ctx) else mret tt);
  mret (mkWritePlan td data (scope_parent td data) expected).

(** The UPDATE and what follows it, each statement on its own. *)
Definition item_write_commit (u : UpdateKind) (ctx : RequestCtx) (caller : Caller.t)
    (type_id id : string) (p : WritePlan) : M Response :=
  rows ← run_sql (update_data id type_id (p_data p) (p_scope p) (p_expected p));
  _ ← ensure (negb (rows =? 0)) (with_request_id (ctx_request_id ctx) precondition_failed);
  let new_version := p_expected p + 1 in
  _ ← (if decide (TypeDef.type_id (p_td p) = "case")
       then run_sql (upsert_case_mirror id (p_data p) new_version) else mret tt);
  _ ← record_event ctx (Caller.actor_id caller) (Some id) (type_id +:+ event_suffix u) (p_data p);
  mret (mkResponse OK [("etag", etag new_version)]
    (Some (entity_json id type_id (p_data p) new_version))).

Definition item_write (u : UpdateKind) (ctx : RequestCtx) (caller : Caller.t)
    (type_id id : string) (headers : HeaderMap) (body : string) : M Response :=
  p ← item_write_read u ctx caller type_id id headers body;
  item_write_commit u ctx caller type_id id p.

Definition item_put := item_write Put.
Definition item_patch := item_write Patch.

Definition item_delete (ctx : RequestCtx) (caller : Caller.t) (type_id id : string)
    (headers : HeaderMap) : M Response :=
  st ← get_state;
  td ← lift (resolve (registry st) type_id ctx);
  st ← get_state;
  _ ← ensure (require_action (pool st) caller td (Some id) Delete) (deny_404 ctx);
  st ← get_state;
  _ ← lift (ok_or (select_data id type_id (pool st)) (deny_404 ctx));
  expected ← lift (require_if_match headers ctx);
  rows ← run_sql (delete_object id type_id expected);
  _ ← ensure (negb (rows =? 0)) (with_request_id (ctx_request_id ctx) precondition_failed);
  _ ← record_event ctx (Caller.actor_id caller) (Some id) (type_id +:+ ".deleted") (JObject []);
  mret (mkResponse NO_CONTENT [] None).

Definition item_options (ctx : RequestCtx) (caller : Caller.t) (type_id id : string) : M Response :=
  st ← get_state;
  td ← lift (resolve (registry st) type_id ctx);
  st ← get_state;
  _ ← ensure (require_action (pool st) caller td (Some id) View) (deny_404 ctx);
  st ← get_state;
  row ← lift (ok_or (select_data id type_id (pool st)) (deny_404 ctx));
  st ← get_state;
  let allow := join ", " (permitted_verbs (pool st) caller td (Some id) true) in
  st ← get_state;
  mret (mkResponse OK [("allow", allow)]
    (Some (options_body (pool st) td caller (Some id) true (Some (d_version row))))).

Definition m405_item (ctx : RequestCtx) (caller : Caller.t) (type_id _id : string) : M Response :=
  st ← get_state;
  td ← lift (resolve (registry st) type_id ctx);
  st ← get_state;
  fail (with_request_id (ctx_request_id ctx)
    (method_not_allowed (permitted_verbs (pool st) caller td None true))).
End Handlers.
