(* ===== verification/ObjectProps.v ===== *)
(** * What the object handlers guarantee

    Leak-free denials, safe methods, optimistic concurrency, atomic and owned creation,
    reach-filtered lists, and the effect of every success on the store. *)

From S2P Require Import Prelude RustStr Json AppError Closure Schema Registry Workflow State Rbac.
From S2P Require Import Caller FieldPerms Objects Fixture ObjectHandlers.

Local Open Scope Z_scope.

(** ** Inversion lemmas *)

Section Props.
Context `{SerdeJson, Postgres}.
Implicit Types (st : AppState) (caller : Caller.t) (headers : HeaderMap).

#[export] Instance item_write_read_ro u ctx caller type_id id headers body :
  ReadOnly (item_write_read u ctx caller type_id id headers body).
Proof. unfold item_write_read. apply _. Qed.

(** What a PUT or PATCH has established when it comes to write plan [p]. *)
Definition write_checked (u : UpdateKind) (st : AppState) (ctx : RequestCtx)
    (caller : Caller.t) (type_id id : string) (headers : HeaderMap) (body : string)
    (p : WritePlan) (row : DataRow) (payload : Value) : Prop :=
  let td := p_td p in
  registry st !! type_id = Some td /\
  require_action (pool st) caller td (Some id) Edit = true /\
  select_data id type_id (pool st) = Some row /\
  require_if_match headers ctx = Ok (p_expected p) /\
  read_json headers body (allow_merge u) = Ok payload /\
  check_input td payload false = Ok tt /\
  p_data p = candidate u td (d_data row) payload /\
  p_scope p = scope_parent td (p_data p) /\
  validate_final td (p_data p) = Ok tt /\
  require_write (pool st) caller td id (map_keys (obj_members payload)) ctx = Ok tt /\
  (TypeDef.type_id td = "case" ->
     validate_case_change st id (p_data p) (get_str "status" (d_data row)) ctx = Ok tt).

Lemma item_write_read_ok u ctx caller type_id id headers body st p st' :
  item_write_read u ctx caller type_id id headers body st = (Ok p, st') ->
  st' = st /\ exists row payload,
    write_checked u st ctx caller type_id id headers body p row payload.
Proof.
  intros Hr. pose proof (read_only_run _ _ _ _ Hr) as ->. split; [done|].
  unfold item_write_read, resolve in Hr. inv_m. do 2 eexists. unfold write_checked.
  cbn [p_td p_expected p_data p_scope].
  repeat match goal with x : unit |- _ => destruct x end.
  split_and!; try done.
  intros Hc. case_decide; [|done]. by inv_m.
Qed.

Lemma item_write_commit_ok u ctx caller type_id id p st r st' :
  item_write_commit u ctx caller type_id id p st = (Ok r, st') ->
  exists row evs cs,
    select_data id type_id (pool st) = Some row /\
    d_version row = p_expected p /\ p_expected p <> i32_max /\
    fk_ok (entities (pool st)) (p_scope p) = true /\
    pool st' = set_events evs (set_cases cs (set_entity_data
      (<[id := mkDataRow type_id (p_data p) (p_scope p) (p_expected p + 1) (now (pool st))]>
         (entity_data (pool st))) (pool st))) /\
    registry st' = registry st /\ wf_cache st' = wf_cache st /\
    r = mkResponse OK [("etag", etag (p_expected p + 1))]
          (Some (entity_json id type_id (p_data p) (p_expected p + 1))).
Proof.
  unfold item_write_commit. intros Hr. inv_m.
  match goal with Hu : update_data _ _ _ _ _ _ = Ok _ |- _ =>
    apply update_data_ok in Hu as [[-> ->]|(-> & row & Hrow & Hty & Hv & Hmax & Hfk & ->)];
    [done|] end.
  match goal with He : record_event _ _ _ _ _ _ = _ |- _ =>
    apply record_event_ok in He as [evs ->] end.
  assert (Hsel : select_data id type_id (pool st) = Some row) by (by apply select_data_Some).
  case_decide.
  - inv_m. match goal with Hm : upsert_case_mirror _ _ _ _ = _ |- _ =>
      apply upsert_case_mirror_ok in Hm as -> end.
    exists row, evs. eexists. split_and!; try done.
  - inv_m. exists row, evs, (cases (pool st)). split_and!; try done.
Qed.

Lemma item_write_ok u ctx caller type_id id headers body st r st' :
  item_write u ctx caller type_id id headers body st = (Ok r, st') ->
  exists p row payload,
    write_checked u st ctx caller type_id id headers body p row payload /\
    item_write_commit u ctx caller type_id id p st = (Ok r, st').
Proof.
  unfold item_write. intros Hr. inv_m.
  match goal with H1 : item_write_read _ _ _ _ _ _ _ _ = _ |- _ =>
    apply item_write_read_ok in H1 as [-> (row & payload & Hck)] end.
  eauto.
Qed.

Lemma require_if_match_ok headers ctx v :
  require_if_match headers ctx = Ok v <-> if_match headers = Some (Some v).
Proof. unfold require_if_match. destruct (if_match headers) as [[w|]|]; split; congruence. Qed.

(** ** Leak-free denials *)

(** The caller is no admin and holds no rank of at least viewer on the object. *)
Definition no_view (db : Db) (caller : Caller.t) (id : string) : Prop :=
  Caller.is_platform_admin caller = false /\
  forall r, effective_rank db (Caller.actor_id caller) id = Some r -> r < 1.

Lemma no_view_denied db caller td id a :
  no_view db caller id -> require_action db caller td (Some id) a = false.
Proof.
  intros [Ha Hr]. apply not_true_is_false. rewrite require_action_item by done.
  intros (r & Hrank & Hmin). specialize (Hr r Hrank). pose proof (min_rank_view td a).
  simpl in *. lia.
Qed.

(** C4 Without view reach, the verbs that an item offers (GET, HEAD, PUT, PATCH, DELETE and OPTIONS)
    all answer the same 404 and change nothing, whether or not the object exists, whatever the
    headers and the body. POST, which an item does not offer, has no view gate: it answers a 405
    (or the 404 of an unknown type), but the same for every id, and changes nothing. *)
Theorem item_denial_leak_free ctx caller type_id id headers body st :
  no_view (pool st) caller id ->
  let denied := (Err (deny_404 ctx), st) in
  item_get ctx caller type_id id headers st = denied /\
  item_head ctx caller type_id id st = denied /\
  (forall u, item_write u ctx caller type_id id headers body st = denied) /\
  item_delete ctx caller type_id id headers st = denied /\
  item_options ctx caller type_id id st = denied /\
  exists answer, forall any_id, m405_item ctx caller type_id any_id st = (Err answer, st).
Proof.
  intros Hnv denied.
  assert (E : forall (a : Action) {A} (k : TypeDef.t -> M A),
    (st0 ← get_state; td ← lift (resolve (registry st0) type_id ctx);
     _ ← ensure (require_action (pool st0) caller td (Some id) a) (deny_404 ctx); k td) st
    = (Err (deny_404 ctx), st)).
  { intros a A k. run_m. unfold resolve, ok_or. destruct (registry st !! type_id) as [td|]; [|done].
    by rewrite no_view_denied. }
  split_and!; try apply (E View); try apply (E Delete).
  - intros u. unfold item_write. apply m_bind_fail. apply (E Edit).
  - unfold m405_item, resolve, ok_or. run_m. destruct (registry st !! type_id); by eexists.
Qed.

(** The 405 comes before any gate: every caller gets it, with an Allow header, for every id of a
    known type, also where they may not view the object or there is none. *)
Theorem item_post_ungated ctx caller type_id id st td :
  registry st !! type_id = Some td ->
  m405_item ctx caller type_id id st =
    (Err (with_request_id (ctx_request_id ctx)
       (method_not_allowed (permitted_verbs (pool st) caller td None true))), st).
Proof. intros Htd. unfold m405_item, resolve. run_m. by rewrite Htd. Qed.

(** The safe methods (GET, HEAD, OPTIONS) and the 405 answers leave the store as it is. *)
Theorem safe_methods_read_only ctx caller type_id id headers limit offset :
  ReadOnly (coll_get ctx caller type_id limit offset) /\
  ReadOnly (coll_head ctx caller type_id) /\
  ReadOnly (coll_options ctx caller type_id) /\
  ReadOnly (m405_coll ctx caller type_id) /\
  ReadOnly (item_get ctx caller type_id id headers) /\
  ReadOnly (item_head ctx caller type_id id) /\
  ReadOnly (item_options ctx caller type_id id) /\
  ReadOnly (m405_item ctx caller type_id id).
Proof.
  unfold coll_get, coll_head, coll_options, m405_coll, item_get, item_head, item_options, m405_item.
  split_and!; apply _.
Qed.

(** ** Conditional writes *)

(** A successful PUT or PATCH had an If-Match equal to the stored version; it writes the
    candidate under the next version, answers with that version's tag, and leaves every other
    object, all memberships and all permissions alone. *)
Theorem item_write_version u ctx caller type_id id headers body st r st' :
  item_write u ctx caller type_id id headers body st = (Ok r, st') ->
  exists row row' v,
    entity_data (pool st) !! id = Some row /\ d_version row = v /\
    if_match headers = Some (Some v) /\
    entity_data (pool st') !! id = Some row' /\ d_version row' = v + 1 /\
    d_type_id row' = d_type_id row /\
    In ("etag", etag (v + 1)) (resp_headers r) /\
    (forall id', id' <> id -> entity_data (pool st') !! id' = entity_data (pool st) !! id') /\
    entities (pool st') = entities (pool st) /\ memberships (pool st') = memberships (pool st) /\
    field_permissions (pool st') = field_permissions (pool st) /\
    roles (pool st') = roles (pool st).
Proof.
  intros Hr. apply item_write_ok in Hr as (p & row0 & payload & Hck & Hc).
  destruct Hck as (_ & _ & _ & Him & _). apply require_if_match_ok in Him.
  apply item_write_commit_ok in Hc
    as (row & evs & cs & Hsel & Hv & _ & _ & -> & _ & _ & ->).
  apply select_data_Some in Hsel as [Hrow Hty].
  exists row. eexists. exists (p_expected p). simpl.
  rewrite lookup_insert_eq. split_and!; try done; [by left|].
  intros id' Hne. by rewrite lookup_insert_ne.
Qed.

(** Without the mirror, nothing after the UPDATE can fail. *)
Lemma item_write_commit_err u ctx caller type_id id p st e st' :
  TypeDef.type_id (p_td p) <> "case" ->
  item_write_commit u ctx caller type_id id p st = (Err e, st') -> st' = st.
Proof.
  intros Hc Hr. unfold item_write_commit in Hr.
  apply m_bind_err in Hr as [Hr|(n & st1 & Hu & Hr)]; [by eapply run_sql_err|].
  apply run_sql_ok in Hu as (db & Hu & ->).
  apply m_bind_err in Hr as [Hr|(x & st2 & He & Hr)].
  - apply ensure_err in Hr as (Hn & -> & ->).
    apply update_data_ok in Hu as [[-> ->]|[-> _]]; [apply set_pool_id|done].
  - exfalso. rewrite decide_False in Hr by done.
    apply m_bind_err in Hr as [Hr|(y & st3 & _ & Hr)]; [by apply m_ret_err in Hr|].
    apply m_bind_err in Hr as [Hr|(z & st4 & _ & Hr)]; [by apply record_event_err in Hr|].
    by apply m_ret_err in Hr.
Qed.

(** A PUT or PATCH that fails leaves the store unchanged, for every type but [case] (whose
    mirror is written after the object, outside a transaction). *)
Theorem item_write_error_frame u ctx caller type_id id headers body st e st' :
  (forall td, registry st !! type_id = Some td -> TypeDef.type_id td <> "case") ->
  item_write u ctx caller type_id id headers body st = (Err e, st') -> st' = st.
Proof.
  intros Hc Hr. unfold item_write in Hr.
  apply m_bind_err in Hr as [Hr|(p & st1 & Hp & Hr)]; [by eapply read_only_run; [|exact Hr]; apply _|].
  apply item_write_read_ok in Hp as [-> (row & payload & Hck)].
  destruct Hck as (Htd & _). by eapply item_write_commit_err; [apply Hc|].
Qed.

(** C29 What is not editable stays: a successful PUT or PATCH keeps the set-once and engine-owned
    fields, and so the scope parent, of the stored object. *)
Theorem item_write_preserves u ctx caller type_id id headers body st r st' td k :
  (forall b v, from_slice b = Ok v -> value_wf v) ->
  registry st !! type_id = Some td -> fields_nodup td ->
  (forall f, TypeDef.field td k = Some f -> FieldDef.writable f = false) ->
  item_write u ctx caller type_id id headers body st = (Ok r, st') ->
  exists row row', entity_data (pool st) !! id = Some row /\
    entity_data (pool st') !! id = Some row' /\ get k (d_data row') = get k (d_data row).
Proof.
  intros Hwf Htd Hnd Hk Hr.
  apply item_write_ok in Hr as (p & row0 & payload & Hck & Hc).
  destruct Hck as (Htd' & _ & Hsel0 & _ & Hj & Hin & Hdata & _).
  apply item_write_commit_ok in Hc as (row & evs & cs & Hsel & _ & _ & _ & -> & _).
  rewrite Hsel in Hsel0. injection Hsel0 as <-. assert (Etd : p_td p = td) by congruence. rewrite Etd in *.
  apply select_data_Some in Hsel as [Hrow _]. exists row. eexists. simpl.
  rewrite lookup_insert_eq. split_and!; [done..|]. simpl. rewrite Hdata.
  unfold read_json in Hj. destruct (negb _) in Hj; [done|].
  destruct (from_slice body) as [v|] eqn:Ev; [|done].
  destruct (is_object v) eqn:Eo; [|done]. injection Hj as <-.
  apply candidate_preserves; try done. by eapply Hwf.
Qed.
End Props.
