(* ===== verification/Lifecycle.v ===== *)
(** * Creating, listing and deleting objects

    Creation is one transaction that also makes the caller the owner; a list holds exactly what
    the caller reaches; deletion removes every reference to the object. *)

From S2P Require Import Prelude RustStr Json AppError Closure Schema Registry Workflow State Rbac.
From S2P Require Import Caller FieldPerms Objects Fixture ObjectHandlers.

Local Open Scope Z_scope.

Section Lifecycle.
Context `{SerdeJson, Postgres}.
Implicit Types (st : AppState) (caller : Caller.t) (headers : HeaderMap).

(** ** Creation *)

Lemma create_txn_ok td id type_id data sp actor db x db' :
  create_txn td id type_id data sp actor db = Ok (x, db') ->
  exists label cs,
    entities db !! id = None /\ entity_data db !! id = None /\
    is_Some (type_definitions db !! type_id) /\
    fk_ok (<[id := mkEntityRow type_id (Some actor)]> (entities db)) sp = true /\
    fk_ok (<[id := mkEntityRow type_id (Some actor)]> (entities db)) (Some actor) = true /\
    is_Some (roles db !! "owner") /\
    db' = set_cases cs (set_memberships
            (<[(id, actor) := mkMemberRow "owner" label]> (memberships db))
            (set_entity_data (<[id := mkDataRow type_id data sp 1 (now db)]> (entity_data db))
              (set_entities (<[id := mkEntityRow type_id (Some actor)]> (entities db)) db))) /\
    (TypeDef.type_id td <> "case" -> cs = cases db) /\
    (TypeDef.type_id td = "case" -> cs = <[id := case_row data 1 (now db)]> (cases db)).
Proof.
  unfold create_txn, grant_owner. intros Ht. inv_sql.
  match goal with He : insert_entity _ _ _ _ = _ |- _ => apply insert_entity_ok in He as (? & ? & ->) end.
  match goal with He : insert_data _ _ _ _ _ = _ |- _ =>
    apply insert_data_ok in He as (? & ? & ? & Hsp & ->) end.
  match goal with He : upsert_membership _ _ _ _ = _ |- _ =>
    apply upsert_membership_ok in He as (? & Hactor & ? & ->) end.
  simpl in *. apply fk_ok_Some in Hactor. case_decide.
  - match goal with Hm : upsert_case_mirror _ _ _ _ = _ |- _ => apply upsert_case_mirror_ok in Hm as -> end.
    do 2 eexists. split_and!; try done.
  - inv_sql. eexists _, (cases db). split_and!; try done.
Qed.

(** What a create has established when it commits. *)
Definition create_checked (st : AppState) (ctx : RequestCtx) (caller : Caller.t)
    (type_id : string) (headers : HeaderMap) (body : string) (td : TypeDef.t)
    (payload : Value) : Prop :=
  let data := build_create_data td payload in
  registry st !! type_id = Some td /\
  read_json headers body false = Ok payload /\
  check_input td payload true = Ok tt /\
  validate_final td data = Ok tt /\
  (TypeDef.type_id td = "case" ->
     validate (wf_cache st) (default "default" (get_str "workflow_id" data)) None
       (default "" (get_str "status" data)) = Ok tt) /\
  exists parent,
    create_parent td (scope_parent td data) ctx = Ok parent /\
    require_action (pool st) caller td parent Create = true.

Lemma coll_create_ok ctx caller type_id headers body uuid st r st' :
  coll_create ctx caller type_id headers body uuid st = (Ok r, st') ->
  exists td payload db evs,
    let data := build_create_data td payload in
    let id := mint (TypeDef.id_prefix td) uuid in
    create_checked st ctx caller type_id headers body td payload /\
    create_txn td id type_id data (scope_parent td data) (Caller.actor_id caller) (pool st)
      = Ok (tt, db) /\
    st' = set_pool (set_events evs db) st /\
    r = mkResponse CREATED
          [("location", "/api/objects/" +:+ type_id +:+ "/" +:+ id); ("etag", etag 1)]
          (Some (entity_json id type_id data 1)).
Proof.
  unfold coll_create, resolve. intros Hr. inv_m.
  repeat match goal with x : unit |- _ => destruct x end.
  match goal with He : record_event _ _ _ _ _ _ = _ |- _ => apply record_event_ok in He as [evs ->] end.
  match goal with Hc : (if decide (TypeDef.type_id ?td = "case") then _ else _) ?s0 = (Ok tt, ?s1) |- _ =>
    assert (s1 = s0) as -> by (case_decide; by inv_m) end.
  do 4 eexists. split_and!; [|done|done|done].
  unfold create_checked. split_and!; try done.
  - intros ?. rewrite decide_True in * by done. by inv_m.
  - eauto.
Qed.
(** The creator holds the owner role on the new object. *)
Lemma create_txn_owner td id type_id data sp actor db x db' r :
  create_txn td id type_id data sp actor db = Ok (x, db') -> roles db !! "owner" = Some r ->
  exists r', effective_rank db' actor id = Some r' /\ r <= r'.
Proof.
  intros Ht Hr. apply create_txn_ok in Ht as (label & cs & _ & _ & _ & _ & _ & _ & -> & _).
  eapply (effective_rank_lower _ _ _ actor id (mkMemberRow "owner" label)); simpl.
  - apply rtc_refl.
  - apply scopes_self.
  - apply lookup_insert_eq.
  - done.
Qed.

(** What holds of the new object right after the create. *)
Lemma coll_create_owned ctx caller type_id headers body uuid st r st' rank td :
  roles (pool st) !! "owner" = Some rank -> 4 <= rank ->
  registry st !! type_id = Some td ->
  coll_create ctx caller type_id headers body uuid st = (Ok r, st') ->
  let id := mint (TypeDef.id_prefix td) uuid in
  exists payload label rank',
    create_checked st ctx caller type_id headers body td payload /\
    entity_data (pool st') !! id =
      Some (mkDataRow type_id (build_create_data td payload)
              (scope_parent td (build_create_data td payload)) 1 (now (pool st))) /\
    memberships (pool st') !! (id, Caller.actor_id caller) = Some (mkMemberRow "owner" label) /\
    effective_rank (pool st') (Caller.actor_id caller) id = Some rank' /\ 4 <= rank' /\
    registry st' = registry st /\
    (forall f, read_min (pool st') td f = read_min (pool st) td f).
Proof.
  intros Hrank Hle Htd Hr. apply coll_create_ok in Hr as (td' & payload & db & evs & Hck & Ht & -> & _).
  assert (td' = td) as -> by (destruct Hck; congruence). simpl.
  pose proof (create_txn_owner _ _ _ _ _ _ _ _ _ _ Ht Hrank) as (r' & Heff & Hr').
  apply create_txn_ok in Ht as (label & cs & _ & _ & _ & _ & _ & _ & -> & _).
  exists payload, label, r'. simpl. rewrite !lookup_insert_eq.
  split_and!; try done. lia.
Qed.

Lemma rank4_allows db caller td id rank a :
  effective_rank db (Caller.actor_id caller) id = Some rank -> 4 <= rank ->
  require_action db caller td (Some id) a = true.
Proof.
  intros Heff Hr. destruct (Caller.is_platform_admin caller) eqn:Ea; [by apply require_action_admin|].
  apply require_action_item; [done|]. exists rank. split; [done|].
  assert (min_rank td a <= 4) by (destruct a; simpl; try lia; destruct (String.eqb _ _); lia). lia.
Qed.

(** No object without an owner: after a successful POST the creator holds the owner role on
    the new object, and every action on it is open to them. *)
Theorem create_grants_owner ctx caller type_id headers body uuid st r st' rank td :
  roles (pool st) !! "owner" = Some rank -> 4 <= rank ->
  registry st !! type_id = Some td ->
  coll_create ctx caller type_id headers body uuid st = (Ok r, st') ->
  let id := mint (TypeDef.id_prefix td) uuid in
  is_Some (entity_data (pool st') !! id) /\
  (exists row, memberships (pool st') !! (id, Caller.actor_id caller) = Some row /\
     m_role row = "owner") /\
  forall a, require_action (pool st') caller td (Some id) a = true.
Proof.
  intros Hrank Hle Htd Hr id.
  destruct (coll_create_owned _ _ _ _ _ _ _ _ _ _ _ Hrank Hle Htd Hr)
    as (payload & label & r' & _ & Hrow & Hm & Heff & Hr' & _).
  fold id in Hrow, Hm, Heff. rewrite Hrow, Hm. split_and!; [by eexists|by eexists|].
  intros a. by eapply rank4_allows.
Qed.

Lemma coll_create_err ctx caller type_id headers body uuid st e st' :
  coll_create ctx caller type_id headers body uuid st = (Err e, st') -> st' = st.
Proof.
  unfold coll_create. intros Hr.
  repeat (apply m_bind_err in Hr as [Hr|(? & ? & Hok & Hr)];
    [ first [ by eapply read_only_run; [|exact Hr]; apply _ | by apply run_sql_err in Hr ]
    | try (apply read_only_run in Hok as ->; [|apply _]) ]).
  exfalso. apply m_bind_err in Hr as [Hr|(? & ? & _ & Hr)].
  - by apply record_event_err in Hr.
  - by apply m_ret_err in Hr.
Qed.

(** A POST that fails leaves the store unchanged: the entity, its data, the owner edge and
    the case mirror are written together or not at all. *)
Theorem create_atomic ctx caller type_id headers body uuid st e st' :
  coll_create ctx caller type_id headers body uuid st = (Err e, st') -> st' = st.
Proof. apply coll_create_err. Qed.

(** C10 Plane A on creation. Whatever a caller who is no platform admin creates is scoped under the
    parent that its data names, and there the caller held the rank of a member before; the parent
    is there. Without a parent the type must be a root type, or its scope parent optional. *)
Theorem create_requires_parent_reach ctx caller type_id headers body uuid st r st' :
  Caller.is_platform_admin caller = false ->
  coll_create ctx caller type_id headers body uuid st = (Ok r, st') ->
  exists td row, registry st !! type_id = Some td /\
    entity_data (pool st) !! mint (TypeDef.id_prefix td) uuid = None /\
    entity_data (pool st') !! mint (TypeDef.id_prefix td) uuid = Some row /\
    d_type_id row = type_id /\ d_version row = 1 /\
    d_scope_parent_id row = scope_parent td (d_data row) /\
    match scope_parent td (d_data row) with
    | Some p => is_Some (entities (pool st') !! p) /\ exists rank,
        effective_rank (pool st) (Caller.actor_id caller) p = Some rank /\ 2 <= rank
    | None => TypeDef.scope_parents td = [] \/ TypeDef.scope_parent_required td = false
    end.
Proof.
  intros Ha Hr. apply coll_create_ok in Hr as (td & payload & db & evs & Hck & Ht & -> & _).
  destruct Hck as (Htd & _ & _ & _ & _ & parent & Hp & Hra).
  apply create_txn_ok in Ht as (label & cs & _ & Hnone & _ & Hfk & _ & _ & -> & _).
  exists td. eexists. split_and!; [done|done|simpl; apply lookup_insert_eq|done..|]. cbn [d_data].
  unfold create_parent in Hp. destruct (scope_parent td _) as [p|].
  - split; [by apply fk_ok_Some in Hfk|].
    injection Hp as <-. apply require_action_item in Hra; [|done]. done.
  - destruct (bool_decide _ || _) eqn:E; [|done].
    apply orb_prop in E as [E%bool_decide_eq_true|E%negb_true_iff]; auto.
Qed.

(** C28 What was created is what is read: the creator's GET of the new object answers 200 with
    the assembled data, version 1 and its tag, unless a field's read floor is above owner. *)
Theorem create_then_get ctx caller type_id headers body uuid st r st' rank td payload :
  roles (pool st) !! "owner" = Some rank -> 4 <= rank ->
  registry st !! type_id = Some td ->
  read_json headers body false = Ok payload ->
  (forall f, f ∈ TypeDef.fields td -> read_min (pool st) td f <= 4) ->
  coll_create ctx caller type_id headers body uuid st = (Ok r, st') ->
  let id := mint (TypeDef.id_prefix td) uuid in
  item_get ctx caller type_id id ∅ st' =
    (Ok (mkResponse OK [("etag", etag 1)]
           (Some (entity_json id type_id (build_create_data td payload) 1))), st').
Proof.
  intros Hrank Hle Htd Hj Hfl Hr.
  destruct (coll_create_owned _ _ _ _ _ _ _ _ _ _ _ Hrank Hle Htd Hr)
    as (payload' & label & r' & Hck & Hrow & _ & Heff & Hr' & Hreg & Hrm).
  destruct Hck as (_ & Hj' & _). assert (payload' = payload) as -> by congruence.
  intros id. fold id in Hrow, Heff. unfold item_get, resolve. run_m. rewrite Hreg, Htd. simpl.
  rewrite (rank4_allows _ _ _ _ _ View Heff Hr').
  assert (Hsel : select_data id type_id (pool st') =
    Some (mkDataRow type_id (build_create_data td payload)
            (scope_parent td (build_create_data td payload)) 1 (now (pool st))))
    by (by apply select_data_Some).
  rewrite Hsel. simpl. rewrite filter_readable_all; [done|].
  intros f Hf. rewrite Hrm. etransitivity; [by apply Hfl|]. unfold rank_on. rewrite Heff.
  destruct (Caller.is_platform_admin caller); [unfold i32_max; lia|done].
Qed.

(** ** Lists *)

(** A page is a slice of one sorted list of the rows asked for. *)
Lemma select_rows_spec db type_id ids :
  exists all,
    (forall id row, (id, row) ∈ all <->
       entity_data db !! id = Some row /\ d_type_id row = type_id /\
       match ids with Some l => id ∈ l | None => True end) /\
    NoDup all.*1 /\ StronglySorted newer all /\
    forall limit offset, select_rows db type_id ids limit offset =
      take (Z.to_nat limit) (drop (Z.to_nat offset) all).
Proof.
  eexists. split_and!; [| | |intros limit offset; reflexivity].
  - intros id row. rewrite merge_sort_Permutation, list_elem_of_In, List.filter_In, <- list_elem_of_In,
      elem_of_map_to_list, andb_true_iff. simpl. rewrite bool_decide_eq_true.
    destruct ids; [rewrite bool_decide_eq_true|]; naive_solver.
  - rewrite merge_sort_Permutation. eapply sublist_NoDup; [apply (NoDup_fst_map_to_list (entity_data db))|].
    generalize (map_to_list (entity_data db)). intros l. apply fmap_sublist.
    induction l as [|kv l IH]; simpl; [constructor|].
    destruct (_ && _); by constructor.
  - apply StronglySorted_merge_sort; [intros a b c; unfold newer; lia|intros a b; unfold newer; lia].
Qed.

(** The item a list shows for a row. *)
Definition list_item (db : Db) (caller : Caller.t) (td : TypeDef.t) (type_id : string)
    (r : string * DataRow) : Value :=
  entity_json r.1 type_id (filter_readable db caller td r.1 (d_data r.2)) (d_version r.2).

(** C13 A list shows a caller the objects of the type within their reach, all of them and
    nothing else: there is one list of these, newest first and without repetition, of which
    every request returns the slice its limit (between 1 and 200) and offset ask for, each item
    filtered by the read floors. (Of rows with the same timestamp the statement leaves the order
    open; that all requests meet one order of these is the model's.) *)
Theorem list_exactly_reach ctx caller type_id st td :
  Caller.is_platform_admin caller = false -> registry st !! type_id = Some td ->
  exists all,
    (forall id row, (id, row) ∈ all <->
       entity_data (pool st) !! id = Some row /\ d_type_id row = type_id /\
       id ∈ reach (pool st) (Caller.actor_id caller)) /\
    NoDup all.*1 /\ StronglySorted newer all /\
    forall q_limit q_offset,
      let limit := clamp 1 200 (default 50 q_limit) in
      let offset := Z.max 0 (default 0 q_offset) in
      1 <= limit <= 200 /\
      coll_get ctx caller type_id q_limit q_offset st =
        (Ok (mkResponse OK [] (Some (JObject (map_collect
           [("items", JArray (list_item (pool st) caller td type_id <$>
               take (Z.to_nat limit) (drop (Z.to_nat offset) all)));
            ("limit", json_int limit); ("offset", json_int offset)])))), st).
Proof.
  intros Ha Htd.
  destruct (select_rows_spec (pool st) type_id
    (Some (reachable_entity_ids (pool st) (Caller.actor_id caller) type_id)))
    as (all & Hall & Hnd & Hs & Hsel).
  exists all. split_and!; [|done|done|].
  - intros id row. rewrite Hall. unfold reachable_entity_ids.
    rewrite list_elem_of_filter, elem_of_elements. split; [naive_solver|].
    intros (Hrow & Hty & Hin). split_and!; try done. rewrite Hrow. by rewrite <- Hty.
  - intros q_limit q_offset. cbv zeta. split; [unfold clamp; lia|].
    unfold coll_get, resolve. run_m. rewrite Htd. simpl. unfold require_action at 1. rewrite Ha.
    by rewrite Hsel.
Qed.

(** ** Deletion *)

(** No row of the store refers to [id] by a foreign key. ([entities.created_by] and
    [events.actor_id] are plain text, not references.) *)
Definition unreferenced (db : Db) (id : string) : Prop :=
  entities db !! id = None /\ entity_data db !! id = None /\ cases db !! id = None /\
  (forall k row, entity_data db !! k = Some row -> d_scope_parent_id row <> Some id) /\
  (forall o m, is_Some (memberships db !! (o, m)) -> o <> id /\ m <> id) /\
  (forall k row, cases db !! k = Some row ->
     c_assignee_id row <> Some id /\ c_project_id row <> Some id) /\
  (forall k r, relations db !! k = Some r ->
     r_subject_id r <> id /\ r_object_id r <> id /\ r_created_by r <> Some id) /\
  (forall k f, feature_runs db !! k = Some f -> f_case_id f <> Some id) /\
  (forall k s, sessions db !! k = Some s -> s_actor_id s <> id) /\
  (forall k i, auth_identities db !! k = Some i -> i_actor_id i <> id) /\
  (forall e, e ∈ events db -> e_entity_id e <> Some id) /\
  (forall c name, is_Some (case_close_checks db !! (c, name)) -> c <> id).

Lemma delete_entity_unreferenced id db : unreferenced (delete_entity id db) id.
Proof.
  unfold unreferenced, delete_entity; simpl.
  rewrite !lookup_fmap, !lookup_delete_eq. split_and!; try done.
  - intros k row. rewrite lookup_fmap_Some. intros (row0 & <- & _). apply null_if_ne.
  - intros o m [x Hx]. apply map_lookup_filter_Some in Hx as [_ ?]. done.
  - intros k row. rewrite lookup_fmap_Some. intros (row0 & <- & _). split; apply null_if_ne.
  - intros k r. rewrite lookup_fmap_Some. intros (r0 & <- & [_ [? ?]]%map_lookup_filter_Some).
    split_and!; [done..|apply null_if_ne].
  - intros k f. rewrite lookup_fmap_Some. intros (f0 & <- & _). apply null_if_ne.
  - intros k s [_ ?]%map_lookup_filter_Some. done.
  - intros k i [_ ?]%map_lookup_filter_Some. done.
  - intros e (e0 & -> & _)%list_elem_of_fmap. apply null_if_ne.
  - intros c name [x [_ Hx]%map_lookup_filter_Some]. exact Hx.
Qed.

(** The audit row of a deletion refers to the deleted entity: it is never written. *)
Lemma item_delete_ok ctx caller type_id id headers st r st' :
  item_delete ctx caller type_id id headers st = (Ok r, st') ->
  exists td row v,
    registry st !! type_id = Some td /\
    require_action (pool st) caller td (Some id) Delete = true /\
    entity_data (pool st) !! id = Some row /\ d_type_id row = type_id /\ d_version row = v /\
    if_match headers = Some (Some v) /\
    st' = set_pool (delete_entity id (pool st)) st /\ r = mkResponse NO_CONTENT [] None.
Proof.
  unfold item_delete, resolve. intros Hr. inv_m.
  match goal with Hd : delete_object _ _ _ _ = _ |- _ =>
    apply delete_object_ok in Hd as [[-> _]|(-> & row & Hrow & Hty & Hv & _ & ->)]; [done|] end.
  match goal with Hm : require_if_match _ _ = Ok _ |- _ =>
    unfold require_if_match in Hm; destruct (if_match headers) as [[w|]|]; simplify_eq end.
  match goal with He : record_event _ _ _ _ _ _ = _ |- _ =>
    unfold record_event in He; cbn [pool set_pool] in He;
    assert (Hf : fk_ok (entities (delete_entity id (pool st))) (Some id) = false);
      [|rewrite Hf in He; injection He as _ <-] end.
  { apply not_true_is_false. rewrite fk_ok_Some. simpl. rewrite lookup_delete_eq.
    by intros [? ?]. }
  do 3 eexists. split_and!; try done.
Qed.

(** C27 A successful DELETE had delete rank on the object and an If-Match equal to its version;
    afterwards no row of the store refers to the object by a foreign key, every other entity is
    still there with its data and version, and the item answers 404. *)
Theorem delete_complete ctx caller type_id id headers st r st' :
  item_delete ctx caller type_id id headers st = (Ok r, st') ->
  (exists row v, entity_data (pool st) !! id = Some row /\ d_version row = v /\
     if_match headers = Some (Some v)) /\
  (Caller.is_platform_admin caller = false -> exists rank,
     effective_rank (pool st) (Caller.actor_id caller) id = Some rank /\ 3 <= rank) /\
  unreferenced (pool st') id /\
  (forall id', id' <> id -> entities (pool st') !! id' = entities (pool st) !! id' /\
     ((fun row => (d_type_id row, d_data row, d_version row)) <$> entity_data (pool st') !! id')
     = ((fun row => (d_type_id row, d_data row, d_version row))
          <$> entity_data (pool st) !! id')) /\
  forall caller' headers', item_get ctx caller' type_id id headers' st' = (Err (deny_404 ctx), st').
Proof.
  intros Hr. apply item_delete_ok in Hr as (td & row & v & Htd & Hra & Hrow & Hty & Hv & Him & -> & ->).
  split_and!.
  - eauto.
  - intros Ha. apply require_action_item in Hra as (rank & Hrank & Hmin); [|done].
    exists rank. split; [done|]. simpl in Hmin. destruct (String.eqb _ _); lia.
  - apply delete_entity_unreferenced.
  - intros id' Hne. simpl. rewrite lookup_fmap, !lookup_delete_ne by done. split; [done|].
    by destruct (entity_data (pool st) !! id').
  - intros caller' headers'. unfold item_get, resolve. run_m. simpl. rewrite Htd. simpl.
    destruct (require_action _ caller' _ _ _); [|done]. unfold select_data. simpl.
    by rewrite lookup_fmap, lookup_delete_eq.
Qed.

(** The audit trail has no trace of who deleted what: a successful DELETE adds no event. *)
Theorem delete_leaves_no_audit ctx caller type_id id headers st r st' :
  item_delete ctx caller type_id id headers st = (Ok r, st') ->
  events (pool st') = cascade_event id <$> events (pool st).
Proof.
  intros Hr. apply item_delete_ok in Hr as (? & ? & ? & _ & _ & _ & _ & _ & _ & -> & _). done.
Qed.
End Lifecycle.
