(* ===== verification/RbacProps.v ===== *)
(** * What the reach resolver guarantees

    The two directions of [rbac.rs] agree as long as no scope chain is longer than the upward
    climb; beyond it they do not. Ranks are inherited down scopes and through teams. *)

From S2P Require Import Prelude RustStr Json AppError Closure Schema Registry Workflow State Rbac.
From S2P Require Import Caller FieldPerms Objects Fixture ObjectHandlers.

Local Open Scope Z_scope.

(** Every scope chain is within the depth the upward climb is cut at. *)
Definition shallow (db : Db) : Prop :=
  forall x y, rtc (scope_edge db) x y -> bsteps (scope_edge db) max_depth x y.

Lemma scopes_rtc db x y : y ∈ scopes db x -> rtc (scope_edge db) x y.
Proof. rewrite scopes_spec. apply rtc_bsteps_2. Qed.

(** The foreign key of [memberships.role]. *)
Definition roles_known (db : Db) : Prop :=
  forall k row, memberships db !! k = Some row -> is_Some (roles db !! m_role row).

(** The rank [r] is granted to [a] on [o] by a membership of one of its principals somewhere up
    the scope chain. *)
Definition grants (db : Db) (a o : string) (r : Z) : Prop :=
  exists p s row, rtc (team_edge db) a p /\ rtc (scope_edge db) o s /\
    memberships db !! (s, p) = Some row /\ roles db !! m_role row = Some r.

Lemma effective_rank_grants db a o r : effective_rank db a o = Some r -> grants db a o r.
Proof.
  intros (p & s & row & ? & ?%scopes_rtc & ? & ?)%effective_rank_inv. by exists p, s, row.
Qed.

Lemma grants_effective_rank db a o r :
  shallow db -> grants db a o r -> exists r', effective_rank db a o = Some r' /\ r <= r'.
Proof.
  intros Hs (p & s & row & Hp & Ho & Hrow & Hr).
  eapply effective_rank_lower; [exact Hp| |exact Hrow|exact Hr].
  apply scopes_spec. by apply Hs.
Qed.

Lemma grants_reach db a o r : grants db a o r -> o ∈ reach db a.
Proof.
  intros (p & s & row & Hp & Ho & Hrow & _). apply reach_spec. exists s. split; [|done].
  apply anchors_spec. eauto.
Qed.

(** Following the climb's edges, a chain that is cut at [n] steps is a chain. *)
Lemma shallow_intro db (depth : string -> nat) :
  (forall x y, scope_edge db x y -> (depth y < depth x <= max_depth)%nat) -> shallow db.
Proof.
  intros Hd x y Hxy.
  assert (Hn : forall n, (depth x <= n)%nat -> bsteps (scope_edge db) n x y).
  { induction Hxy as [x|x z y Hxz Hzy IH]; intros n Hn; [constructor|].
    specialize (Hd _ _ Hxz). destruct n as [|n]; [lia|]. eapply bsteps_l; [exact Hxz|].
    apply IH. lia. }
  inversion Hxy as [|? z ? Hxz _]; subst; [constructor|]. apply Hn. by apply Hd in Hxz as [_ ?].
Qed.

(** ** The two directions *)

(** C14 The upward gate and the downward reach agree: an object is in a caller's reach exactly
    when the caller has an effective rank on it, so lists show what GET admits. (Scope chains
    are within the climbing depth; every membership has a known role.) *)
Theorem reach_iff_rank db a o :
  shallow db -> roles_known db ->
  (o ∈ reach db a <-> exists r, effective_rank db a o = Some r).
Proof.
  intros Hsh Hro. split.
  - intros (s & (p & row & Hp & Hrow)%anchors_spec & Ho)%reach_spec.
    destruct (Hro _ _ Hrow) as [r Hr].
    destruct (grants_effective_rank db a o r Hsh) as (r' & Hr' & _); [|eauto].
    by exists p, s, row.
  - intros [r Hr]. eapply grants_reach. by apply effective_rank_grants.
Qed.

(** Ranks are inherited: an object gives at least the rank of what it is scoped under, and a
    member of a team holds at least the team's ranks. *)
Theorem rank_inherited db a t child o r :
  shallow db -> rtc (team_edge db) a t -> rtc (scope_edge db) child o ->
  effective_rank db t o = Some r -> exists r', effective_rank db a child = Some r' /\ r <= r'.
Proof.
  intros Hsh Ha Hc (p & s & row & Hp & Ho & Hrow & Hr)%effective_rank_grants.
  apply grants_effective_rank; [done|]. exists p, s, row. split_and!; try done; by etransitivity.
Qed.

(** ** Beyond the climbing depth *)

(** A chain of notes D0, scoped under D1, .., under D9; [USR_c] owns the last. *)
Definition deep_id (n : nat) : string := "D" +:+ show_Z (Z.of_nat n).
Definition deep_db : Db :=
  set_memberships (<[(deep_id 9, "USR_c") := mkMemberRow "owner" ""]> (memberships seed_db))
    (set_entities
       (list_to_map ((fun n => (deep_id n, mkEntityRow "note" (Some "USR_c"))) <$> seq 0 10)
          ∪ entities seed_db)
       (set_entity_data
          (list_to_map ((fun n => (deep_id n, mkDataRow "note" note_data
                (if decide (n = 9%nat) then None else Some (deep_id (S n))) 1 7)) <$> seq 0 10)
             ∪ entity_data seed_db) seed_db)).

(** Beyond depth 8 the two directions part: the list of notes shows an object that the item
    GET denies to the same caller. *)
Theorem deep_scope_listed_but_denied :
  deep_id 0 ∈ reach deep_db (Caller.actor_id carol) /\
  effective_rank deep_db (Caller.actor_id carol) (deep_id 0) = None /\
  (item_get ctx0 carol "note" (deep_id 0) ∅ (boot deep_db)).1 = Err (deny_404 ctx0).
Proof.
  split_and!; [|vm_compute; reflexivity..].
  apply (bool_decide_unpack _). vm_compute. exact I.
Qed.
