(* ===== verification/Members.v ===== *)
(** * Object sharing ([members.rs])

    The roster of an object, [/api/objects/:type/:id/members], and the close checks of a case.
    What the guards promise is proved below: nobody is granted more than the granter holds,
    anywhere; an object with an owner keeps one under a change or a removal; teams are never
    nested in a cycle. The POST of an existing member is the exception to the second. *)

From S2P Require Import Prelude RustStr Json AppError Closure Schema Registry Workflow State Rbac.
From S2P Require Import Caller FieldPerms Objects Fixture.

Local Open Scope Z_scope.

Definition MANAGE_RANK : Z := 3.

(** ** Queries and gates *)

(** The object exists, under that type. *)
Definition ensure_object (db : Db) (id type_id : string) (ctx : RequestCtx) : AppResult unit :=
  match select_data id type_id db with
  | None => Err (deny_404 ctx)
  | Some _ => Ok tt
  end.

(** The caller's rank on the object: 404 without reach, 403 below [min_rank]. *)
Definition require_rank (db : Db) (caller : Caller.t) (object_id : string) (min_rank : Z)
    (ctx : RequestCtx) : AppResult Z :=
  if Caller.is_platform_admin caller then Ok i32_max
  else match effective_rank db (Caller.actor_id caller) object_id with
       | None => Err (deny_404 ctx)
       | Some r => if r <? min_rank then Err (with_request_id (ctx_request_id ctx) forbidden)
                   else Ok r
       end.

Definition current_role (db : Db) (object_id member_id : string) : option string :=
  m_role <$> memberships db !! (object_id, member_id).

(** The members that own the object. *)
Definition owners (db : Db) (object_id : string) : list string :=
  select_list (fun (k : string * string) row =>
    if decide (k.1 = object_id /\ m_role row = "owner") then Some k.2 else None) (memberships db).

Definition owner_count (db : Db) (object_id : string) : Z :=
  Z.of_nat (length (owners db object_id)).

Definition str_field (v : Value) (key : string) (ctx : RequestCtx) : AppResult string :=
  ok_or (get_str key v)
    (with_request_id (ctx_request_id ctx) (bad_request (key +:+ " is required"))).

(** [update memberships set role = .., context_role = coalesce(.., context_role) where ..] *)
Definition update_membership (object_id member_id role : string) (context_role : option string)
    : SqlM unit := fun db =>
  match memberships db !! (object_id, member_id) with
  | None => Ok (tt, db)
  | Some row =>
      if fk_ok (roles db) (Some role)
      then Ok (tt, set_memberships
                     (<[(object_id, member_id) :=
                          mkMemberRow role (default (m_context_role row) context_role)]>
                        (memberships db)) db)
      else Err ForeignKeyViolation
  end.

Definition delete_membership (object_id member_id : string) : SqlM unit := fun db =>
  Ok (tt, set_memberships (delete (object_id, member_id) (memberships db)) db).

(** The close check of a case; it refers to the case's row. *)
Definition upsert_check (case_id name : string) (passed : bool) (note : option string)
    : SqlM unit := fun db =>
  if fk_ok (cases db) (Some case_id)
  then Ok (tt, set_case_close_checks
                 (<[(case_id, name) := mkCheckRow passed note]> (case_close_checks db)) db)
  else Err ForeignKeyViolation.

Section Handlers.
Context `{SerdeJson, Postgres}.

Definition record_check (ctx : RequestCtx) (caller : Caller.t) (type_id id name : string)
    (headers : HeaderMap) (body : string) : M Response :=
  st ← get_state;
  _ ← ensure (String.eqb type_id "case") (deny_404 ctx);
  _ ← lift (ensure_object (pool st) id type_id ctx);
  st ← get_state;
  _ ← lift (require_rank (pool st) caller id MANAGE_RANK ctx);
  v ← lift (read_json headers body false);
  let passed := default false (get "passed" v ≫= as_bool) in
  let note := get_str "note" v in
  _ ← run_sql (upsert_check id name passed note);
  let out := json_object [("check", JString name); ("passed", JBool passed)] in
  _ ← record_event ctx (Caller.actor_id caller) (Some id) ("case.check_" +:+ name) out;
  mret (mkResponse OK [] (Some out)).

(** [order by role desc, member_id] *)
Definition member_le (a b : string * MemberRow) : Prop :=
  match collate (m_role b.2) (m_role a.2) with
  | Lt => True
  | Eq => collate a.1 b.1 <> Gt
  | Gt => False
  end.
#[local] Instance member_le_dec : RelDecision member_le.
Proof. intros a b. unfold member_le. destruct (collate (m_role b.2) _); [|apply _..].
  destruct (collate a.1 b.1); (left; congruence) || (right; congruence). Defined.

Definition roster (db : Db) (id : string) : list (string * MemberRow) :=
  merge_sort member_le
    (select_list (fun (k : string * string) row =>
       if decide (k.1 = id) then Some (k.2, row) else None) (memberships db)).

Definition list_members (ctx : RequestCtx) (caller : Caller.t) (type_id id : string)
    : M Response :=
  st ← get_state;
  _ ← lift (ensure_object (pool st) id type_id ctx);
  st ← get_state;
  _ ← lift (require_rank (pool st) caller id 1 ctx);
  st ← get_state;
  let members := (fun r => json_object
    [("member_id", JString r.1); ("role", JString (m_role r.2));
     ("context_role", JString (m_context_role r.2))]) <$> roster (pool st) id in
  mret (mkResponse OK [] (Some (json_object [("members", JArray members)]))).

(** What a grant has decided to write. *)
Record GrantPlan := mkGrantPlan { gp_member : string; gp_role : string; gp_context_role : string }.

(** A grant's guards, each reading the store on its own. *)
Definition add_member_read (ctx : RequestCtx) (caller : Caller.t) (type_id id : string)
    (headers : HeaderMap) (body : string) : M GrantPlan :=
  st ← get_state;
  _ ← lift (ensure_object (pool st) id type_id ctx);
  st ← get_state;
  caller_rank ← lift (require_rank (pool st) caller id MANAGE_RANK ctx);
  v ← lift (read_json headers body false);
  member_id ← lift (str_field v "member_id" ctx);
  role ← lift (str_field v "role" ctx);
  let context_role := default "" (get_str "context_role" v) in
  st ← get_state;
  target_rank ← lift (ok_or (rank_of (pool st) role)
    (with_request_id (ctx_request_id ctx) (unprocessable "unknown role")));
  _ ← ensure (negb (caller_rank <? target_rank)) (with_request_id (ctx_request_id ctx) forbidden);
  st ← get_state;
  _ ← ensure (negb (principals_contain (pool st) id member_id))
        (with_request_id (ctx_request_id ctx)
           (conflict "granting this member here would create a membership cycle"));
  mret (mkGrantPlan member_id role context_role).

Definition add_member_commit (ctx : RequestCtx) (caller : Caller.t) (type_id id : string)
    (p : GrantPlan) : M Response :=
  _ ← run_sql (upsert_membership id (gp_member p) (mkMemberRow (gp_role p) (gp_context_role p)));
  _ ← record_event ctx (Caller.actor_id caller) (Some id) (type_id +:+ ".member_granted")
        (json_object [("member_id", JString (gp_member p)); ("role", JString (gp_role p))]);
  mret (mkResponse CREATED []
    (Some (json_object [("member_id", JString (gp_member p)); ("role", JString (gp_role p));
                        ("context_role", JString (gp_context_role p))]))).

Definition add_member (ctx : RequestCtx) (caller : Caller.t) (type_id id : string)
    (headers : HeaderMap) (body : string) : M Response :=
  p ← add_member_read ctx caller type_id id headers body;
  add_member_commit ctx caller type_id id p.

Definition set_member (ctx : RequestCtx) (caller : Caller.t) (type_id id member_id : string)
    (headers : HeaderMap) (body : string) : M Response :=
  st ← get_state;
  _ ← lift (ensure_object (pool st) id type_id ctx);
  st ← get_state;
  caller_rank ← lift (require_rank (pool st) caller id MANAGE_RANK ctx);
  v ← lift (read_json headers body false);
  role ← lift (str_field v "role" ctx);
  let context_role := get_str "context_role" v in
  st ← get_state;
  target_rank ← lift (ok_or (rank_of (pool st) role)
    (with_request_id (ctx_request_id ctx) (unprocessable "unknown role")));
  _ ← ensure (negb (caller_rank <? target_rank)) (with_request_id (ctx_request_id ctx) forbidden);
  st ← get_state;
  current ← lift (ok_or (current_role (pool st) id member_id) (deny_404 ctx));
  st ← get_state;
  _ ← ensure (negb (String.eqb current "owner" && negb (String.eqb role "owner")
                    && (owner_count (pool st) id <=? 1)))
        (with_request_id (ctx_request_id ctx) (conflict "cannot demote the last owner"));
  _ ← run_sql (update_membership id member_id role context_role);
  let out := json_object [("member_id", JString member_id); ("role", JString role)] in
  _ ← record_event ctx (Caller.actor_id caller) (Some id) (type_id +:+ ".member_role_changed") out;
  mret (mkResponse OK [] (Some out)).

(** A removal's guards. *)
Definition remove_member_read (ctx : RequestCtx) (caller : Caller.t)
    (type_id id member_id : string) : M unit :=
  st ← get_state;
  _ ← lift (ensure_object (pool st) id type_id ctx);
  st ← get_state;
  current ← lift (ok_or (current_role (pool st) id member_id) (deny_404 ctx));
  st ← get_state;
  _ ← (if String.eqb member_id (Caller.actor_id caller) then mret tt
       else _ ← lift (require_rank (pool st) caller id MANAGE_RANK ctx); mret tt);
  st ← get_state;
  ensure (negb (String.eqb current "owner" && (owner_count (pool st) id <=? 1)))
    (with_request_id (ctx_request_id ctx) (conflict "cannot remove the last owner")).

Definition remove_member_commit (ctx : RequestCtx) (caller : Caller.t)
    (type_id id member_id : string) : M Response :=
  _ ← run_sql (delete_membership id member_id);
  _ ← record_event ctx (Caller.actor_id caller) (Some id) (type_id +:+ ".member_revoked")
        (json_object [("member_id", JString member_id)]);
  mret (mkResponse NO_CONTENT [] None).

Definition remove_member (ctx : RequestCtx) (caller : Caller.t)
    (type_id id member_id : string) : M Response :=
  _ ← remove_member_read ctx caller type_id id member_id;
  remove_member_commit ctx caller type_id id member_id.

#[export] Instance add_member_read_ro ctx caller type_id id headers body :
  ReadOnly (add_member_read ctx caller type_id id headers body).
Proof. unfold add_member_read. apply _. Qed.
#[export] Instance remove_member_read_ro ctx caller type_id id member_id :
  ReadOnly (remove_member_read ctx caller type_id id member_id).
Proof. unfold remove_member_read. apply _. Qed.
End Handlers.
