(* ===== verification/MemberProps.v ===== *)
(** * What the roster guards guarantee

    Ranks only grow up to what the granter, or the team that is joined, holds in the same place;
    owned objects stay owned under changes and removals; the nesting of teams stays acyclic. *)

From S2P Require Import Prelude RustStr Json AppError Closure Schema Registry Workflow State Rbac.
From S2P Require Import Caller FieldPerms Objects Fixture RbacProps Members.

Local Open Scope Z_scope.

(** ** Closures over one more edge *)

Section AddEdge.
Context {A : Type} (R : relation A) (u v : A).

Definition add_edge : relation A := fun x y => R x y \/ (x = u /\ y = v).

(** A path in the larger relation is an old one, or ends with an old path from [v]. *)
Lemma rtc_add_edge x y : rtc add_edge x y -> rtc R x y \/ (rtc R v y /\ rtc add_edge x u).
Proof.
  intros Hxy. induction Hxy as [x|x z y Hxz Hzy IH]; [left; apply rtc_refl|].
  destruct IH as [Hold|[Hv Hu]].
  - destruct Hxz as [Hxz|[-> ->]].
    + left. by eapply rtc_l.
    + right. split; [done|apply rtc_refl].
  - right. split; [done|]. by eapply rtc_l.
Qed.

(** The way to [u] needs no new edge: it is cut where it first meets [u]. *)
Lemma rtc_add_edge_from x : rtc add_edge x u -> rtc R x u.
Proof.
  intros Hx. remember u as w eqn:Hw. induction Hx as [x|x z w [Hxz|[-> _]] _ IH]; [apply rtc_refl| |].
  - eapply rtc_l; [exact Hxz|]. by apply IH.
  - subst. apply rtc_refl.
Qed.

Lemma rtc_add_edge_to x : rtc add_edge x u -> rtc R x u \/ rtc R v u.
Proof. intros [?|[? _]]%rtc_add_edge; auto. Qed.

(** Adding an edge against no existing path closes no cycle. *)
Lemma add_edge_acyclic :
  (forall x y, R x y -> ~ rtc R y x) -> ~ rtc R v u ->
  forall x y, add_edge x y -> ~ rtc add_edge y x.
Proof.
  intros Hac Hvu x y [Hxy|[-> ->]] Hyx.
  - apply rtc_add_edge in Hyx as [Hyx|[Hvx Hyu]]; [by eapply Hac|].
    apply rtc_add_edge_to in Hyu as [Hyu|?]; [|done].
    apply Hvu. etransitivity; [exact Hvx|]. by eapply rtc_l.
  - apply rtc_add_edge in Hyx as [?|[_ ?]]; [done|].
    apply rtc_add_edge_to in H as [?|?]; done.
Qed.
End AddEdge.

(** ** The queries *)

Lemma elem_of_owners db o m :
  m ∈ owners db o <-> exists row, memberships db !! (o, m) = Some row /\ m_role row = "owner".
Proof.
  unfold owners. rewrite elem_of_select_list. split.
  - intros ([o' m'] & row & Hrow & Hf). simpl in Hf. case_decide as Hd; [|done].
    destruct Hd as [-> Hd]. simplify_eq. eauto.
  - intros (row & Hrow & Hd). exists (o, m), row. split; [done|]. simpl. by rewrite decide_True.
Qed.

Lemma owners_nodup db o : NoDup (owners db o).
Proof.
  unfold owners, select_list.
  pose proof (NoDup_fst_map_to_list (memberships db)) as Hnd.
  induction (map_to_list (memberships db)) as [|[[o' m'] row] l IH]; [constructor|].
  apply NoDup_cons in Hnd as [Hni Hnd]. simpl. case_decide as Hd; [|by apply IH].
  destruct Hd as [-> _]. constructor; [|by apply IH]. intros Hin. apply Hni.
  apply list_elem_of_omap in Hin as ([[o2 m2] row2] & Hin & Hf). simpl in Hf.
  case_decide as Hd; [|done]. destruct Hd as [-> _]. simplify_eq.
  apply list_elem_of_fmap. by exists (o, m', row2).
Qed.

(** With more than one owner, one of them is not [m]. *)
Lemma other_owner db o m :
  1 < owner_count db o -> exists m', m' <> m /\ m' ∈ owners db o.
Proof.
  unfold owner_count. intros Hlen. pose proof (owners_nodup db o) as Hnd.
  destruct (owners db o) as [|a [|b l]]; simpl in Hlen; [lia..|].
  apply NoDup_cons in Hnd as [Hni _]. destruct (decide (a = m)) as [->|Hne].
  - exists b. split; [|right; left]. intros ->. apply Hni. left.
  - exists a. split; [done|left].
Qed.

Definition has_owner (db : Db) (o : string) : Prop := exists m, m ∈ owners db o.

(** No team contains itself, however deep the nesting. *)
Definition team_acyclic (db : Db) : Prop := forall p q, team_edge db p q -> ~ rtc (team_edge db) q p.

(** ** What a successful request did *)

Section Runs.
Context `{SerdeJson, Postgres}.

(** Only [memberships] and the audit trail differ. *)
Definition roster_step (st st' : AppState) (ms : gmap (string * string) MemberRow) : Prop :=
  exists evs, st' = set_pool (set_events evs (set_memberships ms (pool st))) st.

Lemma str_field_ok v k ctx s : str_field v k ctx = Ok s -> get_str k v = Some s.
Proof. unfold str_field. by intros ?%ok_or_ok. Qed.

(** The authority a grant of [role] on [id] needs. *)
Definition may_grant (db : Db) (caller : Caller.t) (id role : string) : Prop :=
  exists target, roles db !! role = Some target /\
    (Caller.is_platform_admin caller = false ->
     exists rank, effective_rank db (Caller.actor_id caller) id = Some rank /\
       MANAGE_RANK <= rank /\ target <= rank).

Lemma require_rank_ok db caller id min ctx r :
  require_rank db caller id min ctx = Ok r ->
  (Caller.is_platform_admin caller = true /\ r = i32_max) \/
  (Caller.is_platform_admin caller = false /\
   effective_rank db (Caller.actor_id caller) id = Some r /\ min <= r).
Proof.
  unfold require_rank. destruct (Caller.is_platform_admin caller); [intros [= <-]; by left|].
  destruct (effective_rank db (Caller.actor_id caller) id) as [r'|]; [|done].
  destruct (Z.ltb_spec r' min); [done|]. intros [= <-]. by right.
Qed.

Lemma may_grant_intro db caller id role ctx rank target :
  require_rank db caller id MANAGE_RANK ctx = Ok rank -> rank_of db role = Some target ->
  negb (rank <? target) = true -> may_grant db caller id role.
Proof.
  intros Hr Ht Hle. apply negb_true_iff, Z.ltb_ge in Hle. exists target. split; [done|].
  intros Ha. apply require_rank_ok in Hr as [[? _]|(_ & He & Hm)]; [congruence|]. eauto.
Qed.

Lemma add_member_ok ctx caller type_id id headers body st r st' :
  add_member ctx caller type_id id headers body st = (Ok r, st') ->
  exists v member role label,
    read_json headers body false = Ok v /\
    get_str "member_id" v = Some member /\ get_str "role" v = Some role /\
    may_grant (pool st) caller id role /\
    ~ rtc (team_edge (pool st)) id member /\
    roster_step st st' (<[(id, member) := mkMemberRow role label]> (memberships (pool st))).
Proof.
  unfold add_member, add_member_read, add_member_commit. intros Hr. inv_m. simpl in *.
  match goal with He : record_event _ _ _ _ _ _ = _ |- _ => apply record_event_ok in He as [evs ->] end.
  match goal with Hu : upsert_membership _ _ _ _ = _ |- _ =>
    apply upsert_membership_ok in Hu as (_ & _ & _ & ->) end.
  do 4 eexists. split_and!; [done|by eapply str_field_ok|by eapply str_field_ok| | |].
  - by eapply may_grant_intro.
  - rewrite <- principals_contain_spec. by apply not_true_iff_false, negb_true_iff.
  - by exists evs.
Qed.

Lemma set_member_ok ctx caller type_id id member headers body st r st' :
  set_member ctx caller type_id id member headers body st = (Ok r, st') ->
  exists role old label,
    may_grant (pool st) caller id role /\
    memberships (pool st) !! (id, member) = Some old /\
    (m_role old = "owner" -> role <> "owner" -> 1 < owner_count (pool st) id) /\
    roster_step st st' (<[(id, member) := mkMemberRow role label]> (memberships (pool st))).
Proof.
  unfold set_member, current_role. intros Hr. inv_m.
  match goal with He : record_event _ _ _ _ _ _ = _ |- _ => apply record_event_ok in He as [evs ->] end.
  match goal with Hc : m_role <$> _ = Some _ |- _ => apply fmap_Some in Hc as (old & Hold & ->) end.
  match goal with Hu : update_membership _ _ _ _ _ = _ |- _ =>
    unfold update_membership in Hu; rewrite Hold in Hu; destruct (fk_ok _ _) in Hu; [|done];
    injection Hu as _ <- end.
  do 3 eexists. split_and!; [by eapply may_grant_intro|done| |by exists evs].
  intros Ho Hn. match goal with Hg : negb (_ && _ && _) = true |- _ =>
    rewrite Ho, (proj2 (String.eqb_neq _ _) Hn) in Hg; apply negb_true_iff, Z.leb_gt in Hg end. done.
Qed.

Lemma remove_member_ok ctx caller type_id id member st r st' :
  remove_member ctx caller type_id id member st = (Ok r, st') ->
  exists old,
    memberships (pool st) !! (id, member) = Some old /\
    (member = Caller.actor_id caller \/ Caller.is_platform_admin caller = true \/
     exists rank, effective_rank (pool st) (Caller.actor_id caller) id = Some rank /\
       MANAGE_RANK <= rank) /\
    (m_role old = "owner" -> 1 < owner_count (pool st) id) /\
    roster_step st st' (delete (id, member) (memberships (pool st))).
Proof.
  unfold remove_member, remove_member_read, remove_member_commit, current_role. intros Hr. inv_m.
  match goal with He : record_event _ _ _ _ _ _ = _ |- _ => apply record_event_ok in He as [evs ->] end.
  match goal with Hc : m_role <$> _ = Some _ |- _ => apply fmap_Some in Hc as (old & Hold & ->) end.
  match goal with Hu : delete_membership _ _ _ = _ |- _ => injection Hu as _ <- end.
  match goal with Hi : (if String.eqb member _ then _ else _) _ = (Ok _, ?s) |- _ =>
    assert (s = st /\ (member = Caller.actor_id caller \/ Caller.is_platform_admin caller = true \/
      exists rank, effective_rank (pool st) (Caller.actor_id caller) id = Some rank /\
        MANAGE_RANK <= rank)) as [-> Hauth]; [|clear Hi] end.
  { destruct (String.eqb_spec member (Caller.actor_id caller)); inv_m; [auto|]. split; [done|].
    match goal with Hq : require_rank _ _ _ _ _ = _ |- _ =>
      apply require_rank_ok in Hq as [[? _]|(_ & ? & ?)] end; eauto. }
  exists old. split_and!; [done|done| |by exists evs].
  intros Ho. match goal with Hg : negb (_ && _) = true |- _ =>
    rewrite Ho in Hg; apply negb_true_iff, Z.leb_gt in Hg end. done.
Qed.
End Runs.

(** ** No escalation, anywhere *)

Lemma team_edge_insert db id m row p o evs :
  team_edge (set_events evs (set_memberships (<[(id, m) := row]> (memberships db)) db)) p o ->
  add_edge (team_edge db) m id p o /\ (p = m /\ o = id -> is_team db id).
Proof.
  intros [[x Hx] Ht]. unfold add_edge, team_edge. simpl in Hx.
  apply lookup_insert_Some in Hx as [[[= -> ->] _]|[_ Hx]]; [auto|].
  split; [left; split; [by eexists|done]|]. by intros [-> ->].
Qed.

(** A role that the granter may give on [id], given to [m]: only those who are [m], or are in it,
    gain by it, and no more than the granter has in the same place, or, where [id] is a team that
    the granter manages from above without being in it, than the team has there. *)
Lemma grant_bound db evs id m role label a o r c R target :
  roles db !! role = Some target ->
  effective_rank db c id = Some R -> target <= R ->
  grants (set_events evs (set_memberships
            (<[(id, m) := mkMemberRow role label]> (memberships db)) db)) a o r ->
  grants db a o r \/
  (m ∈ principals db a /\
   ((exists r', grants db c o r' /\ r <= r') \/
    (is_team db id /\ id ∉ principals db c /\ is_Some (scope_parent_of db id) /\ grants db id o r))).
Proof.
  intros Htarget HR Hle (p & s & row & Hp & Ho & Hrow & Hr). simpl in *.
  change (rtc (scope_edge db) o s) in Ho.
  assert (Hadd : rtc (add_edge (team_edge db) m id) a p).
  { eapply rtc_subrel; [|exact Hp]. intros x y Hxy. by apply team_edge_insert in Hxy as [? _]. }
  apply effective_rank_grants in HR as (pc & sc & rowc & Hpc & Hsc & Hrowc & HRc).
  apply lookup_insert_Some in Hrow as [[[= <- <-] <-]|[_ Hrow]].
  { right. split; [by eapply principals_spec, rtc_add_edge_from|]. left. exists R. split; [|simpl in Hr; congruence].
    exists pc, sc, rowc. split_and!; try done. by etransitivity. }
  destruct (decide (is_team db id)) as [Ht|Hnt]; cycle 1.
  { left. exists p, s, row. split_and!; try done. eapply rtc_subrel; [|exact Hp].
    intros x y Hxy. apply team_edge_insert in Hxy as [[?|[-> ->]] Hnew]; [done|].
    by destruct Hnt; apply Hnew. }
  apply rtc_add_edge in Hadd as [Hold|[Hid Hu]]; [left; by exists p, s, row|].
  assert (Hteam : grants db id o r) by (by exists p, s, row).
  right. split; [by eapply principals_spec, rtc_add_edge_from|]. destruct (decide (id ∈ principals db c)) as [Hin|Hout].
  - left. exists r. split; [|lia]. apply principals_spec in Hin. exists p, s, row.
    split_and!; try done. by etransitivity.
  - right. split_and!; [done|done| |done].
    apply rtc_inv in Hsc as [->|(y & Hy & _)]; [|by exists y].
    destruct Hout. apply principals_spec. eapply rtc_r; [exact Hpc|]. split; [by eexists|done].
Qed.

Section Theorems.
Context `{SerdeJson, Postgres}.

(** C11 No escalation beyond the granter and the team. When a caller who is no platform admin gives
    [member] a role on an object, by a grant or by a change of role, the caller is an admin of the
    object; nobody but the member, and who is in it if it is a team, gains any rank; and any rank
    they gain, on any object, through teams and down scopes, is at most one the granter held there.
    The exception is a team that the granter manages through its workspace without being in it:
    there the new member gains what the team held, and no more ([team_ranks_given_away] shows
    that this may be more than the granter held). Scope chains are within the climbing depth. *)
Theorem grant_no_escalation ctx caller type_id id member headers body st r st' :
  ((exists v, read_json headers body false = Ok v /\ get_str "member_id" v = Some member /\
      add_member ctx caller type_id id headers body st = (Ok r, st')) \/
   set_member ctx caller type_id id member headers body st = (Ok r, st')) ->
  Caller.is_platform_admin caller = false ->
  shallow (pool st) ->
  (exists R, effective_rank (pool st) (Caller.actor_id caller) id = Some R /\ MANAGE_RANK <= R) /\
  forall a o rank, effective_rank (pool st') a o = Some rank ->
    exists rank0, rank <= rank0 /\
      (effective_rank (pool st) a o = Some rank0 \/
       member ∈ principals (pool st) a /\
       (effective_rank (pool st) (Caller.actor_id caller) o = Some rank0 \/
        is_team (pool st) id /\ id ∉ principals (pool st) (Caller.actor_id caller) /\
        is_Some (scope_parent_of (pool st) id) /\ effective_rank (pool st) id o = Some rank0)).
Proof.
  intros Hr Ha Hsh.
  assert (Hstep : exists role label, may_grant (pool st) caller id role /\
    roster_step st st' (<[(id, member) := mkMemberRow role label]> (memberships (pool st)))).
  { destruct Hr as [(v & Hv & Hm & Hr)|Hr].
    - apply add_member_ok in Hr as (v' & m & role & label & Hv' & Hm' & _ & ? & _ & ?).
      assert (v' = v) as -> by congruence. assert (m = member) as -> by congruence. eauto.
    - apply set_member_ok in Hr as (role & ? & label & ? & _ & _ & ?). eauto. }
  destruct Hstep as (role & label & (target & Ht & Hauth) & evs & ->).
  destruct (Hauth Ha) as (R & HR & Hmin & Hle). split; [eauto|]. intros a o rank Hrank. simpl in Hrank.
  apply effective_rank_grants, (grant_bound _ _ _ _ _ _ _ _ _ _ _ _ Ht HR Hle) in Hrank
    as [Hg|(Hm & [(r' & Hg & Hle')|(? & ? & ? & Hg)])];
    apply (grants_effective_rank _ _ _ _ Hsh) in Hg as (r0 & ? & ?); exists r0; (split; [lia|tauto]).
Qed.

(** ** Owned objects stay owned *)

Lemma has_owner_insert db o m row o' evs :
  has_owner db o' ->
  (m_role row = "owner" \/ (exists m', m' <> m /\ m' ∈ owners db o) \/ m ∉ owners db o) ->
  has_owner (set_events evs (set_memberships (<[(o, m) := row]> (memberships db)) db)) o'.
Proof.
  intros [w Hw] Hok. unfold has_owner. setoid_rewrite elem_of_owners. simpl.
  destruct (decide ((o, m) = (o', w))) as [[= -> ->]|Hne].
  - destruct Hok as [Hrole|[(m' & Hne & Hm')|?]]; [| |done].
    + exists w, row. by rewrite lookup_insert_eq.
    + apply elem_of_owners in Hm' as (row' & ? & ?). exists m', row'.
      rewrite lookup_insert_ne by congruence. done.
  - apply elem_of_owners in Hw as (row' & ? & ?). exists w, row'.
    rewrite lookup_insert_ne by done. done.
Qed.

Lemma has_owner_delete db o m o' evs :
  has_owner db o' -> (exists m', m' <> m /\ m' ∈ owners db o) \/ m ∉ owners db o ->
  has_owner (set_events evs (set_memberships (delete (o, m) (memberships db)) db)) o'.
Proof.
  intros [w Hw] Hok. unfold has_owner. setoid_rewrite elem_of_owners. simpl.
  destruct (decide ((o, m) = (o', w))) as [[= -> ->]|Hne].
  - destruct Hok as [(m' & Hne & Hm')|?]; [|done].
    apply elem_of_owners in Hm' as (row' & ? & ?). exists m', row'.
    rewrite lookup_delete_ne by congruence. done.
  - apply elem_of_owners in Hw as (row' & ? & ?). exists w, row'.
    rewrite lookup_delete_ne by done. done.
Qed.

(** C31 The last-owner guard of PATCH and DELETE on a membership, one request at a time: no role
    change and no removal (self-leave included) leaves an object that had an owner without one. A
    POST has no such guard ([add_member_demotes_last_owner]), and overlapping removals escape it
    ([last_owner_race]). *)
Theorem last_owner_kept ctx caller type_id id member headers body st r st' o :
  (set_member ctx caller type_id id member headers body st = (Ok r, st') \/
   remove_member ctx caller type_id id member st = (Ok r, st')) ->
  has_owner (pool st) o -> has_owner (pool st') o.
Proof.
  intros [Hr|Hr] Ho.
  - apply set_member_ok in Hr as (role & old & label & _ & Hold & Hguard & evs & ->).
    apply has_owner_insert; [done|]. simpl. destruct (decide (role = "owner")) as [|Hn]; [by left|].
    right. destruct (decide (m_role old = "owner")) as [Hw|Hw]; [left; by apply other_owner, Hguard|].
    right. intros Hm. apply elem_of_owners in Hm as (row & Hrow & ?). congruence.
  - apply remove_member_ok in Hr as (old & Hold & _ & Hguard & evs & ->).
    apply has_owner_delete; [done|].
    destruct (decide (m_role old = "owner")) as [Hw|Hw]; [left; by apply other_owner, Hguard|].
    right. intros Hm. apply elem_of_owners in Hm as (row & Hrow & ?). congruence.
Qed.

(** ** Team nesting *)

Lemma team_acyclic_sub db db' :
  (forall p o, team_edge db' p o -> team_edge db p o) -> team_acyclic db -> team_acyclic db'.
Proof.
  intros Hsub Hac p q Hpq Hqp. eapply Hac; [by apply Hsub|]. by eapply rtc_subrel.
Qed.

(** Teams never nest in a cycle: granting, changing and revoking memberships preserve it. *)
Lemma roster_keeps_acyclic ctx caller type_id id member headers body st r st' :
  (add_member ctx caller type_id id headers body st = (Ok r, st') \/
   set_member ctx caller type_id id member headers body st = (Ok r, st') \/
   remove_member ctx caller type_id id member st = (Ok r, st')) ->
  team_acyclic (pool st) -> team_acyclic (pool st').
Proof.
  intros [Hr|[Hr|Hr]] Hac.
  - apply add_member_ok in Hr as (_ & m & role & label & _ & _ & _ & _ & Hcyc & evs & ->).
    intros p q Hpq Hqp. simpl in *.
    assert (Hsub : forall x y, team_edge (set_events evs (set_memberships
              (<[(id, m) := mkMemberRow role label]> (memberships (pool st))) (pool st))) x y ->
              add_edge (team_edge (pool st)) m id x y).
    { intros x y Hxy. by apply team_edge_insert in Hxy as [? _]. }
    eapply (add_edge_acyclic (team_edge (pool st)) m id); [exact Hac|exact Hcyc|by apply Hsub|].
    eapply rtc_subrel; [|exact Hqp]. exact Hsub.
  - apply set_member_ok in Hr as (role & old & label & _ & Hold & _ & evs & ->).
    eapply team_acyclic_sub; [|exact Hac]. intros p o [Hs Ht]. split; [|done]. simpl in Hs.
    destruct (decide ((id, member) = (o, p))) as [[= <- <-]|Hne]; [by eexists|].
    by rewrite lookup_insert_ne in Hs.
  - apply remove_member_ok in Hr as (old & Hold & _ & _ & evs & ->).
    eapply team_acyclic_sub; [|exact Hac]. intros p o [[row Hs] Ht]. split; [|done]. simpl in Hs.
    apply lookup_delete_Some in Hs as [_ Hs]. by eexists.
Qed.

(** Nobody's roster changes without authority: a grant or a role change needs manage rank on
    the object and a role at most one's own; a removal needs manage rank or is one's own edge.
    Everything else in the store, and every other object's roster, stays as it was. *)
Theorem roster_authority ctx caller type_id id member headers body st r st' :
  (add_member ctx caller type_id id headers body st = (Ok r, st') \/
   set_member ctx caller type_id id member headers body st = (Ok r, st') \/
   remove_member ctx caller type_id id member st = (Ok r, st')) ->
  Caller.is_platform_admin caller = false ->
  (exists rank, effective_rank (pool st) (Caller.actor_id caller) id = Some rank /\
     MANAGE_RANK <= rank /\
     forall m row rowrank, memberships (pool st') !! (id, m) = Some row ->
       roles (pool st) !! m_role row = Some rowrank ->
       memberships (pool st) !! (id, m) = Some row \/ rowrank <= rank) \/
  memberships (pool st') = delete (id, Caller.actor_id caller) (memberships (pool st)).
Proof.
  intros Hr Ha.
  assert (Hins : forall role m label, may_grant (pool st) caller id role ->
    roster_step st st' (<[(id, m) := mkMemberRow role label]> (memberships (pool st))) ->
    exists rank, effective_rank (pool st) (Caller.actor_id caller) id = Some rank /\
     MANAGE_RANK <= rank /\
     forall m' row rowrank, memberships (pool st') !! (id, m') = Some row ->
       roles (pool st) !! m_role row = Some rowrank ->
       memberships (pool st) !! (id, m') = Some row \/ rowrank <= rank).
  { intros role m label (target & Ht & Hauth) (evs & ->).
    destruct (Hauth Ha) as (rank & Hrank & Hm & Hle). exists rank. split_and!; [done..|].
    intros m' row rowrank Hrow Hrr. simpl in Hrow.
    apply lookup_insert_Some in Hrow as [[_ <-]|[_ Hrow]]; [right|by left].
    simpl in Hrr. rewrite Ht in Hrr. injection Hrr as <-. done. }
  destruct Hr as [Hr|[Hr|Hr]].
  - apply add_member_ok in Hr as (_ & m & role & label & _ & _ & _ & Hg & _ & Hs). left; eauto.
  - apply set_member_ok in Hr as (role & old & label & Hg & _ & _ & Hs). left; eauto.
  - apply remove_member_ok in Hr as (old & Hold & [->|[?|(rank & Hrank & Hm)]] & _ & evs & ->);
      [by right|congruence|left].
    exists rank. split_and!; [done..|]. intros m row rowrank Hrow _. simpl in Hrow.
    apply lookup_delete_Some in Hrow as [_ ?]. by left.
Qed.
End Theorems.

(** ** The POST of an existing member *)

(** The last-owner guard is not on the POST: the sole owner of a project can re-grant
    themselves the viewer role, which leaves the project without an owner. *)
Theorem add_member_demotes_last_owner :
  let answer := add_member ctx0 alice "project" "PRJ_1" (json_headers None)
                  "{member_id:USR_a,role:viewer}" seed_state in
  is_ok answer.1 = true /\ has_owner (pool seed_state) "PRJ_1" /\ ~ has_owner (pool answer.2) "PRJ_1".
Proof.
  intros answer. split_and!; [vm_compute; reflexivity| |].
  - exists "USR_a". apply (bool_decide_unpack _). vm_compute. exact I.
  - intros [m Hm]. assert (Hnil : owners (pool answer.2) "PRJ_1" = []) by (vm_compute; reflexivity).
    rewrite Hnil in Hm. by apply elem_of_nil in Hm.
Qed.

(** ** What a workspace gives away

    The guard of a grant compares the role with the rank of the granter on the team only. *)

(** Carol owns the workspace of a team that views a project; she has no reach to the project. *)
Definition workspace_owner : AppState :=
  set_pool (set_memberships (<[("ORG_1", "USR_c") := mkMemberRow "owner" ""]> seed_memberships) seed_db)
    seed_state.

(** She makes herself a member of the team, and has the rank of the team on the project. *)
Theorem team_ranks_given_away :
  effective_rank (pool workspace_owner) "USR_c" "PRJ_1" = None /\
  let answer := add_member ctx0 carol "team" "TEM_1" (json_headers None)
                  "{member_id:USR_c,role:member}" workspace_owner in
  is_ok answer.1 = true /\ effective_rank (pool answer.2) "USR_c" "PRJ_1" = Some 1.
Proof. split; [|split]; vm_compute; reflexivity. Qed.

(** ** Guards and writes are not one transaction *)

Definition with_members (ms : gmap (string * string) MemberRow) : AppState :=
  set_pool (set_memberships ms seed_db) seed_state.

(** Alice and bob own a team. *)
Definition two_owners : AppState :=
  with_members (<[("TEM_1", "USR_b") := mkMemberRow "owner" ""]> seed_memberships).

(** The last-owner guard holds of requests in sequence, not of concurrent ones: two owners who both
    leave, each having counted two owners, leave the team without any. *)
Theorem last_owner_race :
  owners (pool two_owners) "TEM_1" = ["USR_a"; "USR_b"] /\
  remove_member_read ctx0 alice "team" "TEM_1" "USR_a" two_owners = (Ok tt, two_owners) /\
  remove_member_read ctx0 bob "team" "TEM_1" "USR_b" two_owners = (Ok tt, two_owners) /\
  let st1 := (remove_member_commit ctx0 alice "team" "TEM_1" "USR_a" two_owners).2 in
  let st2 := (remove_member_commit ctx0 bob "team" "TEM_1" "USR_b" st1).2 in
  owners (pool st2) "TEM_1" = [].
Proof. split_and!; vm_compute; reflexivity. Qed.

(** Two teams that are not nested. *)
Definition flat_teams : AppState := with_members (delete ("TEM_2", "TEM_1") seed_memberships).

Definition nest (member team : string) : AppState -> AppResult GrantPlan := fun st =>
  (add_member_read ctx0 alice "team" team (json_headers None)
     ("{member_id:" +:+ member +:+ ",role:member}") st).1.

(** Nor does the cycle guard: of two grants that each nest one team in the other both pass, and the
    teams end up in a cycle (which the queries of reach, as fixpoints, survive). *)
Theorem team_cycle_race :
  exists p q, nest "TEM_1" "TEM_2" flat_teams = Ok p /\ nest "TEM_2" "TEM_1" flat_teams = Ok q /\
  let st1 := (add_member_commit ctx0 alice "team" "TEM_2" p flat_teams).2 in
  let st2 := (add_member_commit ctx0 alice "team" "TEM_1" q st1).2 in
  team_edge (pool st2) "TEM_1" "TEM_2" /\ team_edge (pool st2) "TEM_2" "TEM_1" /\
  "TEM_2" ∈ principals (pool st2) "TEM_1".
Proof.
  do 2 eexists. split; [vm_compute; reflexivity|]. split; [vm_compute; reflexivity|]. cbv zeta.
  unfold team_edge. split_and!; apply (bool_decide_unpack _); vm_compute; exact I.
Qed.
