(* ===== verification/Orchestrator.v ===== *)
(** * The feature pipeline ([orchestrator.rs])

    Runs go through the phases spec, test, code, review and ops by handoffs. The circuit breaker
    counts rows of [role_handoffs]: at most 8 hops in a run and 3 failures on a gate. A handoff
    is split into what it reads and what it writes, so that two of them can be interleaved. *)

From S2P Require Import Prelude RustStr Json AppError Closure Schema Registry Workflow State Rbac.
From S2P Require Import Caller FieldPerms Objects Fixture ObjectHandlers.

Local Open Scope Z_scope.

Definition PHASES : list string := ["spec"; "test"; "code"; "review"; "ops"].
Definition OUTCOMES : list string := ["pass"; "fail"; "test-drift"; "escalate"].
Definition MAX_HOPS : Z := 8.
Definition MAX_RETRIES_PER_GATE : Z := 3.

Definition role_for_phase (phase : string) : string :=
  if String.eqb phase "spec" then "architect"
  else if String.eqb phase "test" then "tester"
  else if String.eqb phase "code" then "coder"
  else if String.eqb phase "review" then "reviewer"
  else if String.eqb phase "ops" then "ops"
  else "".

(** [PHASES.iter().position(..)], then [PHASES.get(i + 1)] *)
Definition next_phase (phase : string) : option string :=
  match list_find (fun p => p = phase) PHASES with
  | Some (i, _) => PHASES !! S i
  | None => None
  end.

Record StartInput := mkStartInput { si_case_id : option string; si_title : string }.
Record HandoffInput := mkHandoffInput {
  hi_role : string; hi_gate : string; hi_outcome : string; hi_note : string }.

(** [z as i32] *)
Definition as_i32 (z : Z) : Z := (z + 2147483648) mod 4294967296 - 2147483648.

(** ** Queries *)

(** [where feature_run_id = .. order by id]: the rows are in insertion order. *)
Definition handoffs_of (db : Db) (id : string) : list HandoffRow :=
  filter (fun h => h_feature_run_id h = id) (role_handoffs db).

Definition count_fails (db : Db) (id gate : string) : Z :=
  Z.of_nat (length (filter (fun h => h_gate h = gate /\ h_outcome h = "fail") (handoffs_of db id))).

(** ** Statements *)

Definition insert_run (id : string) (case_id : option string) (title : string) : SqlM unit :=
  fun db =>
    if decide (is_Some (feature_runs db !! id)) then Err UniqueViolation
    else if fk_ok (cases db) case_id
    then Ok (tt, set_feature_runs
               (<[id := mkRunRow case_id title "spec" "active" (now db) (now db)]>
                  (feature_runs db)) db)
    else Err ForeignKeyViolation.

(** The roles the check constraint of [role_handoffs] knows. *)
Definition handoff_roles : list string := ["architect"; "tester"; "coder"; "reviewer"; "ops"].

Definition insert_handoff (h : HandoffRow) : SqlM unit := fun db =>
  if negb (bool_decide (h_role h ∈ handoff_roles)) then Err (OtherDb "check violation")
  else if fk_ok (feature_runs db) (Some (h_feature_run_id h))
  then Ok (tt, set_role_handoffs (role_handoffs db ++ [h]) db)
  else Err ForeignKeyViolation.

Definition update_run (id phase status : string) : SqlM unit := fun db =>
  Ok (tt, set_feature_runs
        (alter (fun r => mkRunRow (f_case_id r) (f_title r) phase status (f_started_at r) (now db))
           id (feature_runs db)) db).

(** ** The decision of a handoff *)

Record Decision_ := mkDecision {
  dc_phase : string; dc_status : string; dc_retries : Z; dc_kind : string; dc_hop : Z }.

(** [fails] is the number of failures the gate already has, read only on ["fail"]. *)
Definition decide_handoff (phase outcome : string) (hops_so_far fails : Z) : Decision_ :=
  let this_hop := hops_so_far + 1 in
  let '(new_phase, new_status, retries, kind) :=
    if String.eqb outcome "escalate" then (phase, "escalated", 0, "gate")
    else if String.eqb outcome "pass" then
      match next_phase phase with
      | Some n => (n, "active", 0, "gate")
      | None => (phase, "landed", 0, "gate")
      end
    else if String.eqb outcome "fail" then
      let retries := fails + 1 in
      if MAX_RETRIES_PER_GATE <=? retries then (phase, "escalated", retries, "gate")
      else ("code", "active", retries, "gate")
    else if String.eqb outcome "test-drift" then ("test", "active", 0, "test-drift")
    else (phase, "active", 0, "gate") in
  let new_status :=
    if String.eqb new_status "active" && (MAX_HOPS <=? this_hop) then "escalated" else new_status in
  mkDecision new_phase new_status retries kind this_hop.

Section Handlers.
Context `{SerdeJson, Postgres, !FromSlice StartInput, !FromSlice HandoffInput}.

Definition require_run_authority (st : AppState) (caller : Caller.t) (case_id : option string)
    (action : Action) (ctx : RequestCtx) : AppResult unit :=
  let ok := match case_id with
            | Some cid => reach_action st caller cid action
            | None => Caller.is_platform_admin caller
            end in
  if ok then Ok tt else Err (deny_404 ctx).

Definition handoff_json (h : HandoffRow) : Value :=
  json_object
    [("role", JString (h_role h)); ("gate", JString (h_gate h));
     ("outcome", JString (h_outcome h)); ("kind", JString (h_kind h));
     ("attempt", json_int (h_attempt h)); ("retries", json_int (h_retries h));
     ("hops", json_int (h_hops h)); ("note", JString (h_note h));
     ("at", JString (timestamp_text (h_at h)))].

Definition load_run (db : Db) (id : string) : option Value :=
  (fun r => json_object
    [("id", JString id); ("case_id", json_opt (f_case_id r)); ("title", JString (f_title r));
     ("phase", JString (f_phase r)); ("status", JString (f_status r));
     ("started_at", JString (timestamp_text (f_started_at r)));
     ("updated_at", JString (timestamp_text (f_updated_at r)));
     ("handoffs", JArray (handoff_json <$> handoffs_of db id))]) <$> feature_runs db !! id.

Definition start_run (ctx : RequestCtx) (caller : Caller.t) (body : string) (uuid : string)
    : M Response :=
  input ← lift (map_err (fun e => with_request_id (ctx_request_id ctx)
                   (bad_request ("invalid run: " +:+ e))) (from_slice_as (A := StartInput) body));
  st ← get_state;
  _ ← lift (require_run_authority st caller (si_case_id input) Edit ctx);
  let id := mint "FRN" uuid in
  _ ← run_sql (insert_run id (si_case_id input) (si_title input));
  _ ← record_event ctx (Caller.actor_id caller) (si_case_id input) "feature_run.started"
        (json_object [("id", JString id); ("title", JString (si_title input))]);
  run ← query (fun db => load_run db id);
  mret (mkResponse CREATED [] (Some (default JNull run))).

(** What a handoff has decided to write. *)
Record HandoffPlan := mkHandoffPlan {
  hp_input : HandoffInput; hp_case : option string; hp_decision : Decision_ }.

Definition handoff_read (ctx : RequestCtx) (caller : Caller.t) (id : string) (body : string)
    : M HandoffPlan :=
  let e422 := fun d => with_request_id (ctx_request_id ctx) (unprocessable d) in
  input ← lift (map_err (fun e => with_request_id (ctx_request_id ctx)
                   (bad_request ("invalid handoff: " +:+ e)))
                   (from_slice_as (A := HandoffInput) body));
  _ ← ensure (bool_decide (hi_outcome input ∈ OUTCOMES))
        (e422 ("unknown outcome '" +:+ hi_outcome input +:+ "' (one of: "
               +:+ join ", " OUTCOMES +:+ ")"));
  st ← get_state;
  run ← lift (ok_or (feature_runs (pool st) !! id) (deny_404 ctx));
  let phase := f_phase run in
  st ← get_state;
  _ ← lift (require_run_authority st caller (f_case_id run) Edit ctx);
  _ ← ensure (String.eqb (f_status run) "active")
        (e422 ("run is '" +:+ f_status run +:+ "' — no further handoffs"));
  let expected := role_for_phase phase in
  _ ← ensure (String.eqb (hi_role input) expected)
        (e422 ("expected role '" +:+ expected +:+ "' for phase '" +:+ phase +:+ "', got '"
               +:+ hi_role input +:+ "'"));
  st ← get_state;
  let hops_so_far := Z.of_nat (length (handoffs_of (pool st) id)) in
  st ← get_state;
  mret (mkHandoffPlan input (f_case_id run)
    (decide_handoff phase (hi_outcome input) hops_so_far (count_fails (pool st) id (hi_gate input)))).

Definition handoff_commit (ctx : RequestCtx) (caller : Caller.t) (id : string)
    (p : HandoffPlan) : M Response :=
  let input := hp_input p in
  let d := hp_decision p in
  _ ← run_sql (t ← sql_now;
        insert_handoff (mkHandoffRow id (hi_role input) (hi_gate input)
          (hi_outcome input) (dc_kind d) (as_i32 (dc_retries d + 1)) (as_i32 (dc_retries d))
          (as_i32 (dc_hop d)) (hi_note input) t));
  _ ← run_sql (update_run id (dc_phase d) (dc_status d));
  _ ← record_event ctx (Caller.actor_id caller) (hp_case p) "feature_run.handoff"
        (json_object [("run", JString id); ("role", JString (hi_role input));
           ("outcome", JString (hi_outcome input)); ("phase", JString (dc_phase d));
           ("status", JString (dc_status d))]);
  run ← query (fun db => load_run db id);
  mret (mkResponse OK [] (Some (default JNull run))).

Definition record_handoff (ctx : RequestCtx) (caller : Caller.t) (id : string) (body : string)
    : M Response :=
  p ← handoff_read ctx caller id body;
  handoff_commit ctx caller id p.

Definition get_run (ctx : RequestCtx) (caller : Caller.t) (id : string) : M Response :=
  st ← get_state;
  row ← lift (ok_or (feature_runs (pool st) !! id) (deny_404 ctx));
  st ← get_state;
  _ ← lift (require_run_authority st caller (f_case_id row) View ctx);
  st ← get_state;
  run ← lift (ok_or (load_run (pool st) id) (deny_404 ctx));
  mret (mkResponse OK [] (Some run)).

(** [order by started_at desc] *)
Definition started_later (a b : string * RunRow) : Prop := f_started_at b.2 <= f_started_at a.2.
#[local] Instance started_later_dec : RelDecision started_later.
Proof. intros a b. unfold started_later. apply _. Defined.

Definition sorted_runs (db : Db) : list (string * RunRow) :=
  merge_sort started_later (map_to_list (feature_runs db)).

Definition run_json (r : string * RunRow) : Value :=
  json_object
    [("id", JString r.1); ("case_id", json_opt (f_case_id r.2)); ("title", JString (f_title r.2));
     ("phase", JString (f_phase r.2)); ("status", JString (f_status r.2));
     ("updated_at", JString (timestamp_text (f_updated_at r.2)))].

Definition list_runs (ctx : RequestCtx) (caller : Caller.t) (q_case_id : option string)
    : M Response :=
  rows ← match q_case_id with
         | Some cid =>
             st ← get_state;
             _ ← lift (require_run_authority st caller (Some cid) View ctx);
             st ← get_state;
             mret (filter (fun r => f_case_id r.2 = Some cid) (sorted_runs (pool st)))
         | None =>
             _ ← ensure (Caller.is_platform_admin caller) (deny_404 ctx);
             st ← get_state;
             mret (take 200 (sorted_runs (pool st)))
         end;
  mret (mkResponse OK [] (Some (json_object [("runs", JArray (run_json <$> rows))]))).
End Handlers.
