(* ===== verification/Pipeline.v ===== *)
(** * The pipeline as an abstract machine, and the handoff handler as its implementation

    [step] is what the header of [orchestrator.rs] promises, on phases and outcomes as
    enumerations; its bounds are proved by rule induction. [represents] relates a run of the
    store to a state of the machine; [handoff_refines] shows that the handler only takes steps
    of it. *)

From S2P Require Import Prelude RustStr Json AppError Closure Schema Registry Workflow State Rbac.
From S2P Require Import Caller FieldPerms Objects Fixture ObjectHandlers Orchestrator.

Local Open Scope Z_scope.

(** ** The machine *)

Module Machine.
Inductive Phase := Spec | Test | Code | Review | Ops.
Inductive Outcome := Pass | Fail | TestDrift | Escalate.
Inductive Status := Active | Landed | Escalated.
#[export] Instance phase_eq_dec : EqDecision Phase. Proof. solve_decision. Defined.
#[export] Instance outcome_eq_dec : EqDecision Outcome. Proof. solve_decision. Defined.
#[export] Instance status_eq_dec : EqDecision Status. Proof. solve_decision. Defined.

(** A handoff: the phase that handed off, the gate and the outcome. *)
Definition Handoff : Type := Phase * string * Outcome.

Record Run := mkRun { phase : Phase; status : Status; history : list Handoff }.

Definition next (p : Phase) : option Phase :=
  match p with
  | Spec => Some Test | Test => Some Code | Code => Some Review | Review => Some Ops
  | Ops => None
  end.

Definition fails (gate : string) (h : list Handoff) : nat :=
  length (filter (fun x => x.1.2 = gate /\ x.2 = Fail) h).

(** The hop cap: the eighth handoff leaves no active run behind. *)
Definition capped (h : list Handoff) : Status :=
  if decide (8 <= S (length h))%nat then Escalated else Active.

Inductive step : Run -> Run -> Prop :=
| step_escalate p h g :
    step (mkRun p Active h) (mkRun p Escalated (h ++ [(p, g, Escalate)]))
| step_pass p q h g :
    next p = Some q ->
    step (mkRun p Active h) (mkRun q (capped h) (h ++ [(p, g, Pass)]))
| step_land p h g :
    next p = None ->
    step (mkRun p Active h) (mkRun p Landed (h ++ [(p, g, Pass)]))
| step_retry p h g :
    (fails g h + 1 < 3)%nat ->
    step (mkRun p Active h) (mkRun Code (capped h) (h ++ [(p, g, Fail)]))
| step_strike_out p h g :
    (3 <= fails g h + 1)%nat ->
    step (mkRun p Active h) (mkRun p Escalated (h ++ [(p, g, Fail)]))
| step_drift p h g :
    step (mkRun p Active h) (mkRun Test (capped h) (h ++ [(p, g, TestDrift)])).

Definition init : Run := mkRun Spec Active [].

Definition reachable (r : Run) : Prop := rtc step init r.

(** The outcomes, phase by phase, a history ends with. *)
Definition ends_with (h : list Handoff) (tail : list (Phase * Outcome)) : Prop :=
  exists pre, (fun x => (x.1.1, x.2)) <$> h = pre ++ tail.

Lemma ends_with_snoc h x tail :
  ends_with h tail -> ends_with (h ++ [x]) (tail ++ [(x.1.1, x.2)]).
Proof. intros [pre E]. exists pre. by rewrite fmap_app, E, <- app_assoc. Qed.

(** What every reachable run satisfies. *)
Definition inv (r : Run) : Prop :=
  (length (history r) <= 8)%nat /\
  (status r = Active -> (length (history r) < 8)%nat) /\
  (forall g, (fails g (history r) <= 3)%nat) /\
  (status r = Active -> forall g, (fails g (history r) < 3)%nat) /\
  (status r = Active -> phase r = Review -> ends_with (history r) [(Code, Pass)]) /\
  (status r = Active -> phase r = Ops ->
     ends_with (history r) [(Code, Pass); (Review, Pass)]) /\
  (status r = Landed ->
     ends_with (history r) [(Code, Pass); (Review, Pass); (Ops, Pass)]).

Lemma fails_snoc g h x :
  fails g (h ++ [x]) = (fails g h + (if decide (x.1.2 = g /\ x.2 = Fail) then 1 else 0))%nat.
Proof.
  unfold fails. rewrite filter_app, length_app. f_equal. unfold filter; simpl.
  by case_decide.
Qed.

Lemma capped_active h : capped h = Active -> (S (length h) < 8)%nat.
Proof. unfold capped. case_decide; [done|lia]. Qed.

Lemma capped_landed h : capped h <> Landed.
Proof. unfold capped. by case_decide. Qed.

Lemma init_inv : inv init.
Proof. unfold inv, init, fails; simpl. split_and!; intros; try done; lia. Qed.

Lemma step_inv r r' : inv r -> step r r' -> inv r'.
Proof.
  intros (H1 & H2 & H3 & H4 & H5 & H6 & H7) Hs.
  destruct Hs as [p h g|p q h g Hq|p h g Hq|p h g Hf|p h g Hf|p h g]; unfold inv; simpl in *;
    rewrite length_app; simpl; specialize (H2 eq_refl); specialize (H4 eq_refl);
    specialize (H5 eq_refl); specialize (H6 eq_refl).
  all: split_and!; try done; try lia.
  all: try (intros Hc; apply capped_active in Hc; lia).
  all: try (intros Hc; by apply capped_landed in Hc).
  all: try (intros g0; rewrite fails_snoc; simpl; specialize (H4 g0);
            case_decide as Hd; [destruct Hd; simplify_eq|]; lia).
  all: try (intros _ g0; rewrite fails_snoc; simpl; specialize (H4 g0);
            case_decide as Hd; [destruct Hd; simplify_eq|]; lia).
  - intros _ ->. destruct p; simplify_eq/=. by exists ((fun x => (x.1.1, x.2)) <$> h); rewrite fmap_app.
  - intros _ ->. destruct p; simplify_eq/=. specialize (H5 eq_refl).
    by apply (ends_with_snoc _ (Review, g, Pass)) in H5.
  - intros _. destruct p; simplify_eq/=. specialize (H6 eq_refl).
    by apply (ends_with_snoc _ (Ops, g, Pass)) in H6.
Qed.

Lemma reachable_inv r : reachable r -> inv r.
Proof.
  intros Hr. assert (Hi := init_inv). unfold reachable in Hr. revert Hi.
  induction Hr; [done|]. intros Hi. apply IHHr. by eapply step_inv.
Qed.

Lemma step_length r r' : step r r' -> length (history r') = S (length (history r)).
Proof. intros []; simpl; rewrite length_app; simpl; lia. Qed.

Lemma step_active r r' : step r r' -> status r = Active.
Proof. by intros []. Qed.
End Machine.

(** ** The store's runs as states of the machine *)

Import Machine.

Definition phase_name (p : Phase) : string :=
  match p with
  | Spec => "spec" | Test => "test" | Code => "code" | Review => "review" | Ops => "ops"
  end.
Definition role_name (p : Phase) : string :=
  match p with
  | Spec => "architect" | Test => "tester" | Code => "coder" | Review => "reviewer" | Ops => "ops"
  end.
Definition outcome_name (o : Outcome) : string :=
  match o with
  | Pass => "pass" | Fail => "fail" | TestDrift => "test-drift" | Escalate => "escalate"
  end.
Definition status_name (s : Status) : string :=
  match s with Active => "active" | Landed => "landed" | Escalated => "escalated" end.

Definition row_key (h : HandoffRow) : string * string * string := (h_role h, h_gate h, h_outcome h).
Definition handoff_key (x : Handoff) : string * string * string :=
  (role_name x.1.1, x.1.2, outcome_name x.2).

(** The run [id] of the store is in state [r]: its handoff rows are the history, numbered from
    1 in [hops]. *)
Definition represents (db : Db) (id : string) (r : Run) : Prop :=
  exists run, feature_runs db !! id = Some run /\
    f_phase run = phase_name (phase r) /\ f_status run = status_name (status r) /\
    row_key <$> handoffs_of db id = handoff_key <$> history r /\
    h_hops <$> handoffs_of db id = Z.of_nat <$> seq 1 (length (history r)).

(** The invariant of a store, in terms of the machine: every run is in a reachable state, and every
    handoff belongs to a run. A store without runs satisfies it. *)
Definition pipeline_ok (db : Db) : Prop :=
  (forall id run, feature_runs db !! id = Some run ->
     exists r, reachable r /\ represents db id r) /\
  (forall h, h ∈ role_handoffs db -> is_Some (feature_runs db !! h_feature_run_id h)).

Lemma no_runs_pipeline_ok db : feature_runs db = ∅ -> role_handoffs db = [] -> pipeline_ok db.
Proof.
  intros Hr Hh. split; [intros id run; by rewrite Hr, lookup_empty|].
  intros h. by rewrite Hh, elem_of_nil.
Qed.

Lemma role_for_phase_name p : role_for_phase (phase_name p) = role_name p.
Proof. by destruct p. Qed.

Lemma next_phase_name p : next_phase (phase_name p) = phase_name <$> next p.
Proof. by destruct p. Qed.

Lemma status_name_inj s t : status_name s = status_name t -> s = t.
Proof. by destruct s, t. Qed.

Lemma outcome_name_surj s : s ∈ OUTCOMES -> exists o, s = outcome_name o.
Proof.
  unfold OUTCOMES. rewrite !elem_of_cons. intros [->|[->|[->|[->|[]%elem_of_nil]]]].
  - by exists Pass. - by exists Fail. - by exists TestDrift. - by exists Escalate.
Qed.

Lemma role_name_known p : role_name p ∈ handoff_roles.
Proof. apply (bool_decide_unpack _). by destruct p. Qed.

(** The count the circuit breaker selects is the machine's. *)
Lemma count_fails_represents db id h gate :
  row_key <$> handoffs_of db id = handoff_key <$> h ->
  count_fails db id gate = Z.of_nat (fails gate h).
Proof.
  unfold count_fails, fails. intros Hk. f_equal. revert h Hk.
  induction (handoffs_of db id) as [|r l IH]; intros [|x h] Hk; try done.
  injection Hk as Hr Hg Ho Hk. rewrite !filter_cons. destruct x as [[p g] o]; simpl in *. subst g.
  rewrite Ho. specialize (IH h Hk).
  destruct (decide (o = Fail /\ h_gate r = gate)) as [[-> Hg]|Hn].
  - rewrite !decide_True by done. simpl. by rewrite IH.
  - rewrite !decide_False; [done| |]; destruct o; naive_solver.
Qed.

Lemma handoffs_of_snoc db id h :
  handoffs_of (set_role_handoffs (role_handoffs db ++ [h]) db) id =
    handoffs_of db id ++ (if decide (h_feature_run_id h = id) then [h] else []).
Proof. unfold handoffs_of; simpl. by rewrite filter_app. Qed.

Lemma as_i32_small z : i32_ok z -> as_i32 z = z.
Proof.
  unfold as_i32, i32_ok, i32_min, i32_max. intros Hz. rewrite Z.mod_small by lia. lia.
Qed.

(** The decision of the handler is a step of the machine. *)
Lemma decide_handoff_step p h g o :
  exists q s,
    step (mkRun p Active h) (mkRun q s (h ++ [(p, g, o)])) /\
    let d := decide_handoff (phase_name p) (outcome_name o) (Z.of_nat (length h))
               (Z.of_nat (fails g h)) in
    dc_phase d = phase_name q /\ dc_status d = status_name s /\
    dc_hop d = Z.of_nat (length h) + 1.
Proof.
  assert (Hcap : forall q : Phase,
    (if String.eqb "active" "active" && (MAX_HOPS <=? Z.of_nat (length h) + 1)
     then "escalated" else "active") = status_name (capped h)).
  { intros _. unfold capped, MAX_HOPS. simpl.
    destruct (Z.leb_spec 8 (Z.of_nat (length h) + 1)); case_decide; done || lia. }
  unfold decide_handoff. destruct o; simpl outcome_name.
  - simpl. rewrite next_phase_name. destruct (next p) as [q|] eqn:Eq; simpl.
    + exists q, (capped h). split; [by constructor|]. split_and!; try done. by apply Hcap.
    + exists p, Landed. split; [by constructor|]. done.
  - simpl. unfold MAX_RETRIES_PER_GATE. destruct (Z.leb_spec 3 (Z.of_nat (fails g h) + 1)); simpl.
    + exists p, Escalated. split; [constructor; lia|]. done.
    + exists Code, (capped h). split; [constructor; lia|]. split_and!; try done. by apply Hcap.
  - exists Test, (capped h). split; [constructor|]. split_and!; try done. by apply Hcap.
  - exists p, Escalated. split; [constructor|]. done.
Qed.

(** ** The handler takes steps of the machine *)

Section Refinement.
Context `{SerdeJson, Postgres, !FromSlice StartInput, !FromSlice HandoffInput}.

#[export] Instance handoff_read_ro ctx caller id body : ReadOnly (handoff_read ctx caller id body).
Proof. unfold handoff_read. apply _. Qed.

Lemma require_run_authority_ok st caller cid a ctx x :
  require_run_authority st caller cid a ctx = Ok x ->
  match cid with Some c => reach_action st caller c a = true
               | None => Caller.is_platform_admin caller = true end.
Proof. unfold require_run_authority. by destruct cid as [c|]; destruct (_ : bool). Qed.

(** What a handoff has established before it writes. *)
Lemma handoff_read_ok ctx caller id body st p st' :
  handoff_read ctx caller id body st = (Ok p, st') ->
  st' = st /\ exists run,
    feature_runs (pool st) !! id = Some run /\ f_status run = "active" /\
    hi_outcome (hp_input p) ∈ OUTCOMES /\
    hi_role (hp_input p) = role_for_phase (f_phase run) /\
    hp_case p = f_case_id run /\
    match f_case_id run with
    | Some c => reach_action st caller c Edit = true
    | None => Caller.is_platform_admin caller = true
    end /\
    hp_decision p = decide_handoff (f_phase run) (hi_outcome (hp_input p))
      (Z.of_nat (length (handoffs_of (pool st) id)))
      (count_fails (pool st) id (hi_gate (hp_input p))).
Proof.
  intros Hr. pose proof (read_only_run _ _ _ _ Hr) as ->. split; [done|].
  unfold handoff_read in Hr. inv_m. simpl.
  repeat match goal with
  | Hb : bool_decide _ = true |- _ => apply bool_decide_eq_true in Hb
  | Hb : String.eqb _ _ = true |- _ => apply String.eqb_eq in Hb
  | Ha : require_run_authority _ _ _ _ _ = Ok _ |- _ => apply require_run_authority_ok in Ha
  end.
  eexists. by split_and!.
Qed.

Lemma handoff_commit_ok ctx caller id p st r st' :
  handoff_commit ctx caller id p st = (Ok r, st') ->
  exists h evs,
    h = mkHandoffRow id (hi_role (hp_input p)) (hi_gate (hp_input p)) (hi_outcome (hp_input p))
          (dc_kind (hp_decision p)) (as_i32 (dc_retries (hp_decision p) + 1))
          (as_i32 (dc_retries (hp_decision p))) (as_i32 (dc_hop (hp_decision p)))
          (hi_note (hp_input p)) (now (pool st)) /\
    is_Some (feature_runs (pool st) !! id) /\
    st' = set_pool (set_events evs
            (set_feature_runs (alter (fun r => mkRunRow (f_case_id r) (f_title r)
                 (dc_phase (hp_decision p)) (dc_status (hp_decision p)) (f_started_at r)
                 (now (pool st))) id (feature_runs (pool st)))
              (set_role_handoffs (role_handoffs (pool st) ++ [h]) (pool st)))) st.
Proof.
  unfold handoff_commit. intros Hr. inv_m. inv_sql.
  match goal with He : record_event _ _ _ _ _ _ = _ |- _ => apply record_event_ok in He as [evs ->] end.
  match goal with Hu : update_run _ _ _ _ = _ |- _ => unfold update_run in Hu; injection Hu as _ <- end.
  match goal with Hi : insert_handoff _ _ = _ |- _ =>
    unfold insert_handoff in Hi; destruct (negb _) in Hi; [done|];
    destruct (fk_ok _ _) eqn:Hf in Hi; [|done]; injection Hi as _ <- end.
  apply fk_ok_Some in Hf. subst. eexists _, evs. split_and!; done.
Qed.

(** Writing a decision taken on the present history is a step of the machine. *)
Lemma commit_refines db id r p evs h run :
  represents db id r -> inv r -> feature_runs db !! id = Some run -> f_status run = "active" ->
  hi_outcome (hp_input p) ∈ OUTCOMES -> hi_role (hp_input p) = role_for_phase (f_phase run) ->
  hp_decision p = decide_handoff (f_phase run) (hi_outcome (hp_input p))
      (Z.of_nat (length (handoffs_of db id))) (count_fails db id (hi_gate (hp_input p))) ->
  h_feature_run_id h = id ->
  row_key h = (hi_role (hp_input p), hi_gate (hp_input p), hi_outcome (hp_input p)) ->
  h_hops h = as_i32 (dc_hop (hp_decision p)) ->
  exists r', step r r' /\
    represents (set_events evs
      (set_feature_runs (alter (fun r => mkRunRow (f_case_id r) (f_title r)
           (dc_phase (hp_decision p)) (dc_status (hp_decision p)) (f_started_at r)
           (now db)) id (feature_runs db))
        (set_role_handoffs (role_handoffs db ++ [h]) db))) id r' /\
    exists o, hi_outcome (hp_input p) = outcome_name o /\
      history r' = history r ++ [(phase r, hi_gate (hp_input p), o)].
Proof.
  intros (run0 & Hrun0 & Hph & Hst & Hk & Hh) Hinv Hrun Hact Ho Hrole Hdec Hid Hkey Hhops.
  rewrite Hrun in Hrun0. injection Hrun0 as <-.
  assert (Es : status r = Active) by (apply status_name_inj; by rewrite <- Hst, Hact).
  destruct r as [ph st hist]; simpl in *. subst st.
  apply outcome_name_surj in Ho as [o Ho]. rewrite Ho in *.
  assert (Hlen : length (handoffs_of db id) = length hist).
  { apply (f_equal length) in Hk. by rewrite !length_fmap in Hk. }
  rewrite Hph, Hlen, (count_fails_represents _ _ _ _ Hk) in Hdec.
  destruct (decide_handoff_step ph hist (hi_gate (hp_input p)) o) as (q & s & Hstep & Hd).
  rewrite <- Hdec in Hd. destruct Hd as (Hdp & Hds & Hdh).
  exists (mkRun q s (hist ++ [(ph, hi_gate (hp_input p), o)])). split; [done|].
  split; [|by exists o]. eexists. simpl. rewrite lookup_alter_eq, Hrun. simpl. split; [done|]. simpl.
  split_and!; try done.
  - change (handoffs_of _ id) with (handoffs_of (set_role_handoffs (role_handoffs db ++ [h]) db) id).
    rewrite handoffs_of_snoc, decide_True, !fmap_app, Hk by done. simpl. f_equal. f_equal.
    rewrite Hkey, Hrole, Hph, role_for_phase_name. done.
  - change (handoffs_of _ id) with (handoffs_of (set_role_handoffs (role_handoffs db ++ [h]) db) id).
    rewrite handoffs_of_snoc, decide_True, !fmap_app, Hh, length_app, seq_app, fmap_app by done.
    simpl. f_equal. f_equal. rewrite Hhops, Hdh.
    destruct Hinv as (Hl & _). simpl in Hl.
    rewrite as_i32_small by (unfold i32_ok, i32_min, i32_max; lia). lia.
Qed.

(** Other runs do not see a handoff. *)
Lemma commit_frame db id id' r evs h f :
  id' <> id -> h_feature_run_id h = id -> represents db id' r ->
  represents (set_events evs (set_feature_runs (alter f id (feature_runs db))
    (set_role_handoffs (role_handoffs db ++ [h]) db))) id' r.
Proof.
  intros Hne Hid (run & Hrun & ?). exists run. simpl. rewrite lookup_alter_ne by done.
  change (handoffs_of (set_events _ _) id')
    with (handoffs_of (set_role_handoffs (role_handoffs db ++ [h]) db) id').
  rewrite handoffs_of_snoc, decide_False, app_nil_r by congruence. done.
Qed.

Lemma record_handoff_ok ctx caller id body st resp st' :
  record_handoff ctx caller id body st = (Ok resp, st') ->
  exists p, handoff_read ctx caller id body st = (Ok p, st) /\
    handoff_commit ctx caller id p st = (Ok resp, st').
Proof.
  unfold record_handoff. intros Hr. inv_m.
  match goal with H1 : handoff_read _ _ _ _ _ = _ |- _ =>
    pose proof (proj1 (handoff_read_ok _ _ _ _ _ _ _ H1)) as -> end. eauto.
Qed.

Lemma handoff_read_input ctx caller id body st p st' :
  handoff_read ctx caller id body st = (Ok p, st') ->
  from_slice_as (A := HandoffInput) body = Ok (hp_input p).
Proof. unfold handoff_read. intros Hr. inv_m. done. Qed.

(** A successful handoff as a step, with what it adds to the history. *)
Lemma record_handoff_step ctx caller id body st resp st' r :
  represents (pool st) id r -> reachable r ->
  record_handoff ctx caller id body st = (Ok resp, st') ->
  exists r' input, step r r' /\ represents (pool st') id r' /\
    from_slice_as (A := HandoffInput) body = Ok input /\
    exists o, hi_outcome input = outcome_name o /\ history r' = history r ++ [(phase r, hi_gate input, o)].
Proof.
  intros Hrep Hreach Hr. apply record_handoff_ok in Hr as (p & Hread & Hc).
  apply handoff_read_input in Hread as Hin.
  apply handoff_read_ok in Hread as (_ & run & Hrun & Hact & Ho & Hrole & _ & _ & Hdec).
  apply handoff_commit_ok in Hc as (h & evs & -> & _ & ->).
  edestruct (commit_refines (pool st) id r p evs) as (r' & Hs & Hrep' & Hh);
    [exact Hrep|by apply reachable_inv|exact Hrun|exact Hact|exact Ho|exact Hrole|exact Hdec|..].
  4: { exists r', (hp_input p). split_and!; [exact Hs|exact Hrep'|exact Hin|exact Hh]. }
  all: done.
Qed.

(** C12 Refinement: every successful handoff on a run that is in a reachable state of the
    machine is one of its steps, and leaves every other run as it was. *)
Theorem handoff_refines ctx caller id body st resp st' r :
  represents (pool st) id r -> reachable r ->
  record_handoff ctx caller id body st = (Ok resp, st') ->
  (exists r', step r r' /\ represents (pool st') id r') /\
  forall id' r0, id' <> id -> represents (pool st) id' r0 -> represents (pool st') id' r0.
Proof.
  intros Hrep Hreach Hr. split.
  - destruct (record_handoff_step _ _ _ _ _ _ _ _ Hrep Hreach Hr) as (r' & _ & Hs & Hrep' & _). eauto.
  - apply record_handoff_ok in Hr as (p & _ & Hc).
    apply handoff_commit_ok in Hc as (h & evs & -> & _ & ->).
    intros id' r0 Hne Hr0. by apply commit_frame.
Qed.

(** ** The invariant of the store *)

Lemma record_handoff_err ctx caller id body st e st' :
  record_handoff ctx caller id body st = (Err e, st') -> st' = st.
Proof.
  unfold record_handoff. intros [Hr|(p & st1 & Hp & Hr)]%m_bind_err.
  { eapply read_only_run; [|exact Hr]. apply _. }
  apply handoff_read_ok in Hp as (-> & run & Hrun & _). unfold handoff_commit in Hr.
  apply m_bind_err in Hr as [Hr|(x & st1 & Hi & Hr)]; [by apply run_sql_err in Hr|].
  exfalso. apply m_bind_err in Hr as [Hr|(y & st2 & _ & Hr)]; [done|].
  apply m_bind_err in Hr as [Hr|(z & st3 & _ & Hr)]; [by apply record_event_err in Hr|].
  by apply m_bind_err in Hr as [Hr|(z' & st4 & _ & Hr)].
Qed.

Lemma start_run_ok ctx caller body uuid st resp st' :
  start_run ctx caller body uuid st = (Ok resp, st') ->
  exists input evs,
    let id := mint "FRN" uuid in
    from_slice_as (A := StartInput) body = Ok input /\
    match si_case_id input with
    | Some c => reach_action st caller c Edit = true
    | None => Caller.is_platform_admin caller = true
    end /\
    feature_runs (pool st) !! id = None /\
    st' = set_pool (set_events evs (set_feature_runs
            (<[id := mkRunRow (si_case_id input) (si_title input) "spec" "active"
                       (now (pool st)) (now (pool st))]> (feature_runs (pool st))) (pool st))) st.
Proof.
  unfold start_run. intros Hr. inv_m.
  match goal with He : record_event _ _ _ _ _ _ = _ |- _ => apply record_event_ok in He as [evs ->] end.
  match goal with Ha : require_run_authority _ _ _ _ _ = Ok _ |- _ => apply require_run_authority_ok in Ha end.
  match goal with Hi : insert_run _ _ _ _ = _ |- _ =>
    unfold insert_run in Hi; destruct (decide _) as [|Hn] in Hi; [done|];
    destruct (fk_ok _ _) in Hi; [|done]; injection Hi as _ <- end.
  do 2 eexists. split_and!; try done. by apply eq_None_not_Some.
Qed.

Lemma start_run_err ctx caller body uuid st e st' :
  start_run ctx caller body uuid st = (Err e, st') -> st' = st.
Proof.
  unfold start_run. intros Hr.
  repeat (apply m_bind_err in Hr as [Hr|(? & ? & Hok & Hr)];
    [ first [ by eapply read_only_run; [|exact Hr]; apply _ | by apply run_sql_err in Hr ]
    | try (apply read_only_run in Hok as ->; [|apply _]) ]).
  exfalso. apply m_bind_err in Hr as [Hr|(? & ? & _ & Hr)]; [by apply record_event_err in Hr|].
  by apply m_bind_err in Hr as [Hr|(? & ? & _ & Hr)].
Qed.

Lemma start_pipeline_ok db id run evs :
  pipeline_ok db -> feature_runs db !! id = None ->
  f_phase run = "spec" -> f_status run = "active" ->
  pipeline_ok (set_events evs (set_feature_runs (<[id := run]> (feature_runs db)) db)).
Proof.
  intros [Hruns Hfk] Hnone Hph Hst. split; simpl.
  - intros id' run'. destruct (decide (id' = id)) as [->|Hne].
    + rewrite lookup_insert_eq. intros [= <-]. exists init. split; [apply rtc_refl|].
      assert (Hnil : handoffs_of db id = []).
      { apply elem_of_nil_inv. intros h [Hh Hin]%list_elem_of_filter.
        apply Hfk in Hin as [x Hx]. rewrite Hh in Hx. congruence. }
      exists run. simpl. rewrite lookup_insert_eq. split_and!; try done.
      * exact (f_equal (fmap row_key) Hnil).
      * exact (f_equal (fmap h_hops) Hnil).
    + rewrite lookup_insert_ne by done. intros Hrun'.
      destruct (Hruns _ _ Hrun') as (r & Hreach & run0 & Hrun0 & Hrep).
      exists r. split; [done|]. exists run0. simpl. by rewrite lookup_insert_ne.
  - intros h Hin. rewrite lookup_insert_is_Some'. right. by apply Hfk.
Qed.

Lemma commit_pipeline_ok db id p evs h run :
  pipeline_ok db -> feature_runs db !! id = Some run -> f_status run = "active" ->
  hi_outcome (hp_input p) ∈ OUTCOMES -> hi_role (hp_input p) = role_for_phase (f_phase run) ->
  hp_decision p = decide_handoff (f_phase run) (hi_outcome (hp_input p))
      (Z.of_nat (length (handoffs_of db id))) (count_fails db id (hi_gate (hp_input p))) ->
  h_feature_run_id h = id ->
  row_key h = (hi_role (hp_input p), hi_gate (hp_input p), hi_outcome (hp_input p)) ->
  h_hops h = as_i32 (dc_hop (hp_decision p)) ->
  pipeline_ok (set_events evs
      (set_feature_runs (alter (fun r => mkRunRow (f_case_id r) (f_title r)
           (dc_phase (hp_decision p)) (dc_status (hp_decision p)) (f_started_at r)
           (now db)) id (feature_runs db))
        (set_role_handoffs (role_handoffs db ++ [h]) db))).
Proof.
  intros [Hruns Hfk] Hrun Hact Ho Hrole Hdec Hid Hkey Hhops. split.
  - intros id' run' Hrun'. simpl in Hrun'. destruct (decide (id' = id)) as [->|Hne].
    + destruct (Hruns _ _ Hrun) as (r & Hreach & Hrep).
      edestruct (commit_refines db id r p evs h run) as (r' & Hstep & Hrep' & _);
        [done|by apply reachable_inv|done..|].
      exists r'. split; [by eapply rtc_r|exact Hrep'].
    + rewrite lookup_alter_ne in Hrun' by done.
      destruct (Hruns _ _ Hrun') as (r & Hreach & Hrep). exists r. split; [done|].
      by apply commit_frame.
  - intros h' Hin. simpl in *. rewrite lookup_alter_is_Some.
    apply elem_of_app in Hin as [Hin|Hin]; [by apply Hfk|].
    apply list_elem_of_singleton in Hin as ->. rewrite Hid. by eexists.
Qed.

(** Whatever requests start and advance runs, and however they end, every run of the store stays
    in a state the machine can reach. *)
Lemma runs_keep_pipeline ctx caller body st :
  pipeline_ok (pool st) ->
  (forall uuid, pipeline_ok (pool (start_run ctx caller body uuid st).2)) /\
  (forall id, pipeline_ok (pool (record_handoff ctx caller id body st).2)).
Proof.
  intros Hok. split.
  - intros uuid. destruct (start_run ctx caller body uuid st) as [[resp|e] st'] eqn:Hr.
    + apply start_run_ok in Hr as (input & evs & _ & _ & Hnone & ->). by apply start_pipeline_ok.
    + by apply start_run_err in Hr as ->.
  - intros id. destruct (record_handoff ctx caller id body st) as [[resp|e] st'] eqn:Hr;
      [|by apply record_handoff_err in Hr as ->].
    apply record_handoff_ok in Hr as (p & Hread & Hc).
    apply handoff_read_ok in Hread as (_ & run & Hrun & Hact & Ho & Hrole & _ & _ & Hdec).
    apply handoff_commit_ok in Hc as (h & evs & -> & _ & ->). by eapply commit_pipeline_ok.
Qed.

(** What the invariant says of the rows: the bounds of the breaker, and how a run lands. *)
Lemma pipeline_bounds db id run :
  pipeline_ok db -> feature_runs db !! id = Some run ->
  (length (handoffs_of db id) <= 8)%nat /\
  (forall gate, count_fails db id gate <= 3) /\
  (f_status run = "active" -> (length (handoffs_of db id) < 8)%nat /\
     forall gate, count_fails db id gate < 3) /\
  (f_status run = "landed" -> exists pre,
     (fun h => (h_role h, h_outcome h)) <$> handoffs_of db id =
       pre ++ [("coder", "pass"); ("reviewer", "pass"); ("ops", "pass")]).
Proof.
  intros [Hruns _] Hrun. destruct (Hruns _ _ Hrun) as (r & Hreach & run' & Hrun' & _ & Hst & Hk & _).
  rewrite Hrun in Hrun'. injection Hrun' as <-.
  apply reachable_inv in Hreach as (H1 & H2 & H3 & H4 & _ & _ & H7).
  assert (Hlen : length (handoffs_of db id) = length (history r)).
  { apply (f_equal length) in Hk. by rewrite !length_fmap in Hk. }
  rewrite Hlen. split_and!; [done| | |].
  - intros gate. rewrite (count_fails_represents _ _ _ _ Hk). specialize (H3 gate). lia.
  - intros Ha. assert (Hs : status r = Active) by (apply status_name_inj; by rewrite <- Hst, Ha).
    split; [by apply H2|]. intros gate. rewrite (count_fails_represents _ _ _ _ Hk).
    specialize (H4 Hs gate). lia.
  - intros Hl. destruct H7 as [pre Hpre]; [apply status_name_inj; by rewrite <- Hst, Hl|].
    exists ((fun x : Phase * Outcome => (role_name x.1, outcome_name x.2)) <$> pre).
    transitivity ((fun x => (x.1.1, x.2)) <$> (row_key <$> handoffs_of db id)).
    { by rewrite <- list_fmap_compose. }
    rewrite Hk, <- list_fmap_compose.
    transitivity ((fun x : Phase * Outcome => (role_name x.1, outcome_name x.2)) <$>
      ((fun x : Handoff => (x.1.1, x.2)) <$> history r)); [by rewrite <- list_fmap_compose|].
    etransitivity; [exact (f_equal (fmap _) Hpre)|]. by rewrite fmap_app.
Qed.

(** A run that is no longer active takes no handoff, whoever sends which body. *)
Lemma closed_run_refuses ctx caller id body st run :
  feature_runs (pool st) !! id = Some run -> f_status run <> "active" ->
  exists e, record_handoff ctx caller id body st = (Err e, st).
Proof.
  intros Hrun Hact. destruct (record_handoff ctx caller id body st) as [[resp|e] st'] eqn:Hr.
  - apply record_handoff_ok in Hr as (p & Hread & _).
    apply handoff_read_ok in Hread as (_ & run' & Hrun' & Hact' & _). congruence.
  - apply record_handoff_err in Hr as ->. by exists e.
Qed.

(** The role of the phase, with authority and a known outcome, is let through. *)
Lemma handoff_accepts ctx caller id body st input run p :
  feature_runs (pool st) !! id = Some run -> f_phase run = phase_name p ->
  from_slice_as (A := HandoffInput) body = Ok input ->
  f_status run = "active" -> hi_outcome input ∈ OUTCOMES ->
  hi_role input = role_for_phase (f_phase run) ->
  require_run_authority st caller (f_case_id run) Edit ctx = Ok tt ->
  exists body' st', record_handoff ctx caller id body st = (Ok (mkResponse OK [] (Some body')), st').
Proof.
  intros Hrun Hph Hin Hact Ho Hrole Hauth. unfold record_handoff.
  erewrite m_bind_run; cycle 1.
  { unfold handoff_read. run_m. rewrite Hin. simpl. rewrite bool_decide_true by done.
    rewrite Hrun. simpl. rewrite Hauth, Hact. simpl. rewrite Hrole, String.eqb_refl. reflexivity. }
  unfold handoff_commit. run_m. unfold run_sql, sql_bind, sql_now, insert_handoff; simpl.
  rewrite Hrole, Hph, role_for_phase_name, bool_decide_true by apply role_name_known. simpl.
  unfold fk_ok. rewrite bool_decide_true by (rewrite Hrun; by eexists). simpl.
  by do 2 eexists.
Qed.

(** Progress and finality: on an active run, the role of the current phase with Edit reach on
    the case hands off successfully with any known outcome; on a run that is no longer active
    every handoff is refused and nothing changes. *)
Theorem handoff_progress ctx caller id body st input run r :
  feature_runs (pool st) !! id = Some run -> represents (pool st) id r ->
  from_slice_as (A := HandoffInput) body = Ok input ->
  (f_status run = "active" -> hi_outcome input ∈ OUTCOMES ->
   hi_role input = role_for_phase (f_phase run) ->
   require_run_authority st caller (f_case_id run) Edit ctx = Ok tt ->
   exists body' st', record_handoff ctx caller id body st = (Ok (mkResponse OK [] (Some body')), st'))
  /\
  (f_status run <> "active" -> exists e, record_handoff ctx caller id body st = (Err e, st)).
Proof.
  intros Hrun (run' & Hrun' & Hph & _) Hin.
  rewrite Hrun in Hrun'. injection Hrun' as <-. split.
  - intros. by eapply handoff_accepts.
  - intros Hact. by eapply closed_run_refuses.
Qed.
End Refinement.

(** ** Concrete histories *)

Definition handoff_bodies : list (string * HandoffInput) :=
  [("architect fail", mkHandoffInput "architect" "g" "fail" "");
   ("architect pass", mkHandoffInput "architect" "g" "pass" "");
   ("tester pass", mkHandoffInput "tester" "g" "pass" "");
   ("tester drift", mkHandoffInput "tester" "g" "test-drift" "");
   ("coder pass", mkHandoffInput "coder" "g" "pass" "");
   ("reviewer pass", mkHandoffInput "reviewer" "g" "pass" "");
   ("ops pass", mkHandoffInput "ops" "g" "pass" "")].

#[export] Instance fixture_handoff : FromSlice HandoffInput := {
  from_slice_as s := match list_find (fun x => x.1 = s) handoff_bodies with
                     | Some (_, x) => Ok x.2
                     | None => Err "expected value"
                     end }.

#[export] Instance fixture_start : FromSlice StartInput := {
  from_slice_as s := if String.eqb s "{case_id:CAS_1}" then Ok (mkStartInput (Some "CAS_1") "")
                     else Err "expected value" }.

(** The handoffs [bodies], one after the other, by alice. *)
Definition hand_off (bodies : list string) (st : AppState) : AppState :=
  foldl (fun st b => (record_handoff ctx0 alice "FRN_1" b st).2) st bodies.

Definition started : AppState := (start_run ctx0 alice "{case_id:CAS_1}" "1" seed_state).2.

Definition run_summary (st : AppState) : option (string * string) * nat :=
  ((fun r => (f_phase r, f_status r)) <$> feature_runs (pool st) !! "FRN_1",
   length (handoffs_of (pool st) "FRN_1")).

(** The chain order has a hole: a failed handoff of the architect moves the run forward to the
    coder, so that a run lands without any handoff of the tester. *)
Theorem architect_fail_skips_tester :
  let st := hand_off ["architect fail"; "coder pass"; "reviewer pass"; "ops pass"] started in
  run_summary st = (Some ("ops", "landed"), 4%nat) /\
  Forall (fun h => h_role h <> "tester") (handoffs_of (pool st) "FRN_1").
Proof. split; [vm_compute; reflexivity|]. vm_compute. repeat constructor; done. Qed.

(** Seven hops, still active. *)
Definition seven_hops : AppState :=
  hand_off ("architect pass" :: repeat "tester drift" 6) started.

(** The hop cap holds of handoffs in sequence, not of concurrent ones: two handoffs that both
    read seven hops both commit, and the run has nine. *)
Theorem hop_cap_race :
  run_summary seven_hops = (Some ("test", "active"), 7%nat) /\
  exists p, (handoff_read ctx0 alice "FRN_1" "tester drift" seven_hops).1 = Ok p /\
    let st1 := (handoff_commit ctx0 alice "FRN_1" p seven_hops).2 in
    let st2 := (handoff_commit ctx0 alice "FRN_1" p st1).2 in
    run_summary st2 = (Some ("test", "escalated"), 9%nat).
Proof.
  split; [vm_compute; reflexivity|]. eexists. split; [vm_compute; reflexivity|].
  vm_compute. reflexivity.
Qed.
