(* ===== verification/Types.v ===== *)
(** * The type-registration API ([types.rs])

    [validate_spec] is the gate on a type specification, [create_type] writes the rows in one
    transaction, reloads the registry from the store and swaps the snapshot. *)

From S2P Require Import Prelude RustStr Json AppError Closure Schema Registry Workflow State Rbac.
From S2P Require Import Caller FieldPerms Objects.
From Stdlib Require Import Ascii.

Local Open Scope Z_scope.

Record FieldSpec := mkFieldSpec {
  fs_field : string; fs_label : string; fs_kind : string; fs_required : bool; fs_editable : bool;
  fs_perm_class : string; fs_options : Value; fs_searchable : bool }.

Record TypeSpec := mkTypeSpec {
  ts_type_id : string; ts_id_prefix : string; ts_display_name : string;
  ts_display_name_plural : string; ts_scope_parents : list string; ts_fields : list FieldSpec }.

Definition RESERVED_TYPES : list string :=
  ["entities"; "entity_data"; "type_definitions"; "type_fields"; "sessions"; "events";
   "memberships"; "roles"; "field_permissions"; "workflows"; "cases"; "case_close_checks";
   "auth_identities"].
Definition RESERVED_FIELDS : list string :=
  ["id"; "type"; "version"; "created_at"; "updated_at"; "scope_parent_id"].
Definition KINDS : list string := ["text"; "int"; "bool"; "date"; "json"; "ref"; "enum"].
Definition PERM_CLASSES : list string := ["system"; "readonly"; "standard"; "owner_grade"].

Definition first_is (p : Ascii.ascii -> bool) (s : string) : bool :=
  match first_char s with Some c => p c | None => false end.

Definition ident_ok (s : string) (max : Z) : bool :=
  negb (is_empty s) && (len s <=? max) && first_is is_ascii_lowercase s
  && all_chars (fun c => is_ascii_lowercase c || is_ascii_digit c || Ascii.eqb c "_"%char) s.

Definition prefix_ok (s : string) : bool :=
  (2 <=? len s) && (len s <=? 6) && first_is is_ascii_uppercase s
  && all_chars (fun c => is_ascii_uppercase c || is_ascii_digit c) s.

(** [serde_json::to_value(td)] with the derived [Serialize]. *)
Definition field_descriptor (f : FieldDef.t) : Value :=
  json_object
    [("field", JString (FieldDef.field f)); ("label", JString (FieldDef.label f));
     ("kind", JString (FieldDef.kind f)); ("required", JBool (FieldDef.required f));
     ("editable", JBool (FieldDef.editable f)); ("ordinal", json_int (FieldDef.ordinal f));
     ("perm_class", JString (FieldDef.perm_class f)); ("options", FieldDef.options f);
     ("searchable", JBool (FieldDef.searchable f))].

Definition type_descriptor (td : TypeDef.t) : Value :=
  json_object
    [("type_id", JString (TypeDef.type_id td)); ("id_prefix", JString (TypeDef.id_prefix td));
     ("display_name", JString (TypeDef.display_name td));
     ("display_name_plural", JString (TypeDef.display_name_plural td));
     ("scope_parents", json_strings (TypeDef.scope_parents td));
     ("is_builtin", JBool (TypeDef.is_builtin td)); ("method_policy", TypeDef.method_policy td);
     ("fields", JArray (field_descriptor <$> TypeDef.fields td))].

Section Validate.
Context `{SerdeJson}.

Definition known_prefix (spec : TypeSpec) (current : TypeDefCache) (r : string) : bool :=
  String.eqb r (ts_id_prefix spec)
  || existsb (fun t => String.eqb (TypeDef.id_prefix t) r) (all current).

(** The checks on the kind, class and options of one field. *)
Definition check_field (spec : TypeSpec) (current : TypeDefCache) (f : FieldSpec)
    : AppResult unit :=
  try?
    (if negb (bool_decide (fs_kind f ∈ KINDS))
     then Err (unprocessable
            ("field '" +:+ fs_field f +:+ "': unknown kind '" +:+ fs_kind f +:+ "'"))
     else Ok tt) in
  try?
    (if negb (bool_decide (fs_perm_class f ∈ PERM_CLASSES))
     then Err (unprocessable
            ("field '" +:+ fs_field f +:+ "': unknown perm_class '" +:+ fs_perm_class f +:+ "'"))
     else Ok tt) in
  try?
    (if String.eqb (fs_kind f) "enum" then
       let needs := Err (unprocessable
         ("enum field '" +:+ fs_field f +:+ "' needs a non-empty options.enum of strings")) in
       match get "enum" (fs_options f) ≫= as_array with
       | Some a =>
           if negb (match a with [] => true | _ => false end) && forallb is_string a then
             match get "default" (fs_options f) with
             | Some d =>
                 if existsb (fun v => value_eqb v d) a then Ok tt
                 else Err (unprocessable ("field '" +:+ fs_field f +:+ "': default "
                        +:+ value_display d +:+ " is not one of its enum values"))
             | None => Ok tt
             end
           else needs
       | None => needs
       end
     else Ok tt) in
  try?
    (if String.eqb (fs_kind f) "ref" then
       match get_str "ref" (fs_options f) with
       | Some r => if known_prefix spec current r then Ok tt
                   else Err (unprocessable ("field '" +:+ fs_field f +:+ "': options.ref '"
                          +:+ r +:+ "' is not a known type prefix"))
       | None => Ok tt
       end
     else Ok tt) in
  let engine_owned :=
    String.eqb (fs_perm_class f) "readonly" || String.eqb (fs_perm_class f) "system" in
  if fs_required f && engine_owned
     && (match get "default" (fs_options f) with None => true | Some _ => false end)
  then Err (unprocessable ("field '" +:+ fs_field f +:+ "' is required + "
         +:+ fs_perm_class f +:+ " but has no options.default — every create would 422"))
  else Ok tt.

(** The loop over the fields; [seen] are the names inserted so far. *)
Fixpoint check_fields (spec : TypeSpec) (current : TypeDefCache) (seen : list string)
    (fs : list FieldSpec) : AppResult unit :=
  match fs with
  | [] => Ok tt
  | f :: rest =>
      if negb (ident_ok (fs_field f) 63)
      then Err (unprocessable ("invalid field name '" +:+ fs_field f +:+ "'"))
      else if bool_decide (fs_field f ∈ RESERVED_FIELDS)
      then Err (unprocessable ("'" +:+ fs_field f +:+ "' is a reserved field name"))
      else if bool_decide (fs_field f ∈ seen)
      then Err (unprocessable ("duplicate field '" +:+ fs_field f +:+ "'"))
      else try? check_field spec current f in
           check_fields spec current (fs_field f :: seen) rest
  end.

Fixpoint check_scope_parents (fields : list FieldSpec) (sps : list string) : AppResult unit :=
  match sps with
  | [] => Ok tt
  | sp :: rest =>
      match List.find (fun f => String.eqb (fs_field f) sp) fields with
      | None => Err (unprocessable ("scope_parent '" +:+ sp +:+ "' is not a field of this type"))
      | Some f =>
          if negb (String.eqb (fs_kind f) "ref") || fs_editable f
          then Err (unprocessable ("scope_parent '" +:+ sp
                 +:+ "' must be a set-once (editable=false) ref field"))
          else check_scope_parents fields rest
      end
  end.

Definition validate_spec (spec : TypeSpec) (current : TypeDefCache) : AppResult unit :=
  if negb (ident_ok (ts_type_id spec) 31)
  then Err (unprocessable ("invalid type_id '" +:+ ts_type_id spec
         +:+ "': must match ^[a-z][a-z0-9_]*$ (<=31 chars)"))
  else if bool_decide (ts_type_id spec ∈ RESERVED_TYPES)
  then Err (unprocessable ("'" +:+ ts_type_id spec +:+ "' is a reserved SYSTEM name"))
  else if bool_decide (is_Some (current !! ts_type_id spec))
  then Err (conflict ("type '" +:+ ts_type_id spec +:+ "' is already registered"))
  else if negb (prefix_ok (ts_id_prefix spec))
  then Err (unprocessable ("invalid id_prefix '" +:+ ts_id_prefix spec
         +:+ "': must match ^[A-Z][A-Z0-9]+$ (2..=6 chars)"))
  else if existsb (fun t => String.eqb (TypeDef.id_prefix t) (ts_id_prefix spec)) (all current)
  then Err (conflict ("id_prefix '" +:+ ts_id_prefix spec +:+ "' is already taken"))
  else if is_empty (trim (ts_display_name spec))
  then Err (unprocessable "display_name is required")
  else match ts_fields spec with
       | [] => Err (unprocessable "a type needs at least one field")
       | fs =>
           try? check_fields spec current [] fs in
           check_scope_parents fs (ts_scope_parents spec)
       end.
End Validate.

(** ** Rows *)

Definition plural (spec : TypeSpec) : string :=
  if is_empty (trim (ts_display_name_plural spec)) then ts_display_name spec +:+ "s"
  else ts_display_name_plural spec.

Definition spec_row (spec : TypeSpec) : TypeDefRow :=
  mkTypeDefRow (ts_id_prefix spec) (ts_display_name spec) (plural spec)
    (json_strings (ts_scope_parents spec)) false 1000 (JObject []).

(** The [i]-th field; its ordinal is 32 bits wide, which the size of a body bounds. *)
Definition spec_field_row (i : nat) (f : FieldSpec) : TypeFieldRow :=
  mkTypeFieldRow (fs_label f) (fs_kind f) (fs_required f) (fs_editable f) (Z.of_nat i + 1)
    (fs_perm_class f) (if is_null (fs_options f) then JObject [] else fs_options f)
    (fs_searchable f).

Definition insert_type (type_id : string) (row : TypeDefRow) : SqlM unit := fun db =>
  if decide (is_Some (type_definitions db !! type_id)) then Err UniqueViolation
  else if decide (map_Exists (fun _ r => td_id_prefix r = td_id_prefix row) (type_definitions db))
  then Err UniqueViolation
  else Ok (tt, set_type_definitions (<[type_id := row]> (type_definitions db)) db).

Definition insert_type_field (type_id field : string) (row : TypeFieldRow) : SqlM unit := fun db =>
  if decide (is_Some (type_fields db !! (type_id, field))) then Err UniqueViolation
  else if fk_ok (type_definitions db) (Some type_id)
  then Ok (tt, set_type_fields (<[(type_id, field) := row]> (type_fields db)) db)
  else Err ForeignKeyViolation.

Fixpoint insert_fields (type_id : string) (i : nat) (fs : list FieldSpec) : SqlM unit :=
  match fs with
  | [] => mret tt
  | f :: rest =>
      _ ← insert_type_field type_id (fs_field f) (spec_field_row i f);
      insert_fields type_id (S i) rest
  end.

Definition create_type_txn (spec : TypeSpec) : SqlM unit :=
  _ ← insert_type (ts_type_id spec) (spec_row spec);
  insert_fields (ts_type_id spec) 0 (ts_fields spec).

Section Handlers.
Context `{SerdeJson, !FromSlice TypeSpec}.

Definition type_id_le (a b : TypeDef.t) : Prop :=
  String.compare (TypeDef.type_id a) (TypeDef.type_id b) <> Gt.
#[local] Instance type_id_le_dec : RelDecision type_id_le.
Proof. intros a b. unfold type_id_le. destruct (String.compare _ _); (left; congruence) || (right; congruence). Defined.

Definition list_types (caller : Caller.t) : M Response :=
  st ← get_state;
  let types := (fun t => json_object
    [("type_id", JString (TypeDef.type_id t)); ("id_prefix", JString (TypeDef.id_prefix t));
     ("display_name", JString (TypeDef.display_name t));
     ("display_name_plural", JString (TypeDef.display_name_plural t));
     ("scope_parents", json_strings (TypeDef.scope_parents t));
     ("is_builtin", JBool (TypeDef.is_builtin t));
     ("field_count", json_int (Z.of_nat (length (TypeDef.fields t))))])
    <$> merge_sort type_id_le (all (registry st)) in
  mret (mkResponse OK [] (Some (json_object [("types", JArray types)]))).

Definition get_type (ctx : RequestCtx) (caller : Caller.t) (type_id : string) : M Response :=
  st ← get_state;
  td ← lift (ok_or (registry st !! type_id) (with_request_id (ctx_request_id ctx) not_found));
  mret (mkResponse OK [] (Some (type_descriptor td))).

(** Storing the fresh registry: the swap of the snapshot. *)
Definition store_registry (r : TypeDefCache) : M unit := fun st => (Ok tt, set_registry r st).

Definition create_type (ctx : RequestCtx) (caller : Caller.t) (body : string) : M Response :=
  st ← get_state;
  _ ← ensure (Caller.is_platform_admin caller) (with_request_id (ctx_request_id ctx) forbidden);
  spec ← lift (map_err (fun e => with_request_id (ctx_request_id ctx)
                  (bad_request ("invalid type spec: " +:+ e))) (from_slice_as (A := TypeSpec) body));
  _ ← lift (map_err (with_request_id (ctx_request_id ctx)) (validate_spec spec (registry st)));
  _ ← run_sql (create_type_txn spec);
  fresh ← query load;
  let descriptor := match fresh !! ts_type_id spec with
                    | Some td => type_descriptor td
                    | None => JNull
                    end in
  _ ← store_registry fresh;
  _ ← record_event ctx (Caller.actor_id caller) None "type.registered"
        (json_object [("type_id", JString (ts_type_id spec));
           ("id_prefix", JString (ts_id_prefix spec));
           ("fields", json_int (Z.of_nat (length (ts_fields spec))))]);
  mret (mkResponse CREATED [("location", "/api/types/" +:+ ts_type_id spec)] (Some descriptor)).
End Handlers.
