(* ===== verification/TypeProps.v ===== *)
(** * What type registration guarantees

    [load] is characterised type by type; a successful registration makes exactly the specified
    type live and leaves the others as they were; an accepted specification is well formed. *)

From S2P Require Import Prelude RustStr Json AppError Closure Schema Registry Workflow State Rbac.
From S2P Require Import Caller FieldPerms Objects Fixture Types.

Local Open Scope Z_scope.

(** ** [load], type by type *)

Definition rows_of (db : Db) (id : string) : list (string * string * TypeFieldRow) :=
  filter (fun r => r.1.1 = id) (field_rows db).

Definition with_fields (td : TypeDef.t) (fs : list FieldDef.t) : TypeDef.t :=
  TypeDef.mk (TypeDef.type_id td) (TypeDef.id_prefix td) (TypeDef.display_name td)
    (TypeDef.display_name_plural td) (TypeDef.scope_parents td) (TypeDef.is_builtin td)
    (TypeDef.method_policy td) (TypeDef.fields td ++ fs).

Lemma with_fields_nil td : with_fields td [] = td.
Proof. destruct td. unfold with_fields; simpl. by rewrite app_nil_r. Qed.

Lemma foldl_load_field rs m id :
  foldl load_field m rs !! id =
    (fun td => with_fields td ((fun r => field_of_row r.1.2 r.2) <$> filter (fun r => r.1.1 = id) rs))
      <$> m !! id.
Proof.
  revert m. induction rs as [|r rs IH]; intros m; cbn [foldl].
  - destruct (m !! id) as [td|]; [|done]. simpl. f_equal. symmetry. apply with_fields_nil.
  - rewrite IH. unfold load_field. rewrite filter_cons. destruct (decide (r.1.1 = id)) as [<-|Hne].
    + rewrite lookup_alter_eq. destruct (m !! r.1.1) as [td|]; [|done]. simpl. f_equal.
      unfold with_fields, TypeDef.push_field; simpl. by rewrite <- app_assoc.
    + by rewrite lookup_alter_ne.
Qed.

Lemma load_lookup db id :
  load db !! id =
    (fun row => with_fields (type_of_row id row) ((fun r => field_of_row r.1.2 r.2) <$> rows_of db id))
      <$> type_definitions db !! id.
Proof.
  unfold load. rewrite foldl_load_field, map_lookup_imap.
  by destruct (type_definitions db !! id).
Qed.

(** *** The rows of a type, in the order of their ordinals *)

#[export] Instance field_row_le_trans : Transitive field_row_le.
Proof.
  intros a b c. unfold field_row_le.
  destruct (String.compare a.1.1 b.1.1) eqn:E1; try done;
  destruct (String.compare b.1.1 c.1.1) eqn:E2; try done; intros H1 H2.
  - apply compare_eq in E1, E2. rewrite E1, E2, compare_refl. lia.
  - apply compare_eq in E1. rewrite E1, E2. done.
  - apply compare_eq in E2. rewrite <- E2, E1. done.
  - assert (E3 : key_lt a.1.1 c.1.1) by (by transitivity b.1.1). by rewrite E3.
Qed.

#[export] Instance field_row_le_total : Total field_row_le.
Proof.
  intros a b. unfold field_row_le. rewrite (String.compare_antisym b.1.1 a.1.1).
  destruct (String.compare a.1.1 b.1.1); simpl; lia || auto.
Qed.

Lemma StronglySorted_filter_list {A} (R : relation A) (P : A -> Prop) `{!forall x, Decision (P x)} l :
  StronglySorted R l -> StronglySorted R (filter P l).
Proof.
  induction 1 as [|x l Hs IH Hf]; [constructor|]. rewrite filter_cons. case_decide; [|done].
  constructor; [done|]. apply Forall_forall. intros y [_ Hy]%list_elem_of_filter.
  by eapply Forall_forall in Hf.
Qed.

Lemma rows_of_sorted db id : StronglySorted field_row_le (rows_of db id).
Proof. apply StronglySorted_filter_list. unfold field_rows. apply StronglySorted_merge_sort; apply _. Qed.

Lemma elem_of_rows_of db id t f r :
  (t, f, r) ∈ rows_of db id <-> t = id /\ type_fields db !! (id, f) = Some r.
Proof.
  unfold rows_of, field_rows. rewrite list_elem_of_filter, merge_sort_Permutation. simpl.
  split; [intros [-> Hin]|intros [-> Hin]]; (split; [done|]); by apply elem_of_map_to_list in Hin || apply elem_of_map_to_list.
Qed.

Lemma rows_of_nodup db id : NoDup (rows_of db id).
Proof.
  unfold rows_of, field_rows. apply NoDup_filter. rewrite merge_sort_Permutation.
  apply NoDup_map_to_list.
Qed.

(** No two fields of a type have the same ordinal: the order of its fields is determined. *)
Definition ordinals_distinct (db : Db) : Prop :=
  forall t f1 f2 r1 r2, type_fields db !! (t, f1) = Some r1 -> type_fields db !! (t, f2) = Some r2 ->
    tf_ordinal r1 = tf_ordinal r2 -> f1 = f2.

Lemma rows_of_unique db id l :
  (forall t f r, (t, f, r) ∈ l <-> t = id /\ type_fields db !! (id, f) = Some r) ->
  NoDup l -> StronglySorted field_row_le l ->
  (forall f1 f2 r1 r2, type_fields db !! (id, f1) = Some r1 -> type_fields db !! (id, f2) = Some r2 ->
     tf_ordinal r1 = tf_ordinal r2 -> f1 = f2) ->
  rows_of db id = l.
Proof.
  intros Hl Hnd Hs Hd.
  eapply StronglySorted_unique_strong; [|apply rows_of_sorted|exact Hs|].
  - intros [[t1 f1] r1] [[t2 f2] r2] H1 H2 Hle Hge.
    apply elem_of_rows_of in H1 as [-> H1]. apply Hl in H2 as [-> H2].
    unfold field_row_le in Hle, Hge; simpl in Hle, Hge. rewrite compare_refl in Hle, Hge.
    assert (f1 = f2) as -> by (eapply Hd; [exact H1|exact H2|lia]). congruence.
  - apply NoDup_Permutation; [apply rows_of_nodup|done|].
    intros [[t f] r]. by rewrite elem_of_rows_of, Hl.
Qed.

(** ** The rows a registration inserts *)

Fixpoint field_entries (type_id : string) (i : nat) (fs : list FieldSpec)
    : list (string * string * TypeFieldRow) :=
  match fs with
  | [] => []
  | f :: rest => (type_id, fs_field f, spec_field_row i f) :: field_entries type_id (S i) rest
  end.

Lemma insert_fields_ok tid i fs db x db' :
  insert_fields tid i fs db = Ok (x, db') ->
  (forall k r, type_fields db' !! k = Some r <->
     (k.1, k.2, r) ∈ field_entries tid i fs \/ type_fields db !! k = Some r) /\
  NoDup (fs_field <$> fs) /\ (forall f, f ∈ fs_field <$> fs -> type_fields db !! (tid, f) = None) /\
  db' = set_type_fields (type_fields db') db.
Proof.
  revert i db. induction fs as [|f fs IH]; intros i db; cbn [insert_fields field_entries].
  - intros [= _ <-]. split_and!; [|constructor|by intros ? ?%elem_of_nil|by destruct db].
    intros k r. split; [by right|]. by intros [?%elem_of_nil|].
  - intros Hi. apply sql_bind_ok in Hi as (u & db1 & H1 & H2).
    unfold insert_type_field in H1. case_decide as Hd; [done|]. apply eq_None_not_Some in Hd.
    destruct (fk_ok _ _) in H1; [|done]. injection H1 as _ <-.
    apply IH in H2 as (Hl & Hnd & Hfresh & Hdb'). simpl in Hl, Hfresh, Hdb'.
    assert (Hni : fs_field f ∉ fs_field <$> fs).
    { intros Hin. specialize (Hfresh _ Hin). by rewrite lookup_insert_eq in Hfresh. }
    split_and!.
    + intros [t g] r. rewrite Hl, elem_of_cons. simpl.
      destruct (decide ((t, g) = (tid, fs_field f))) as [[= -> ->]|Hne].
      * rewrite lookup_insert_eq, Hd. split.
        -- intros [Hin|[= ->]]; [by left; right|by left; left].
        -- intros [[[= ->]|Hin]|?]; [by right|by left|done].
      * rewrite lookup_insert_ne by congruence. split; [intros [?|?]; auto|].
        intros [[[= -> -> ->]|?]|?]; [done|by left|by right].
    + by constructor.
    + intros g [->|Hg]%elem_of_cons; [done|]. specialize (Hfresh g Hg).
      rewrite lookup_insert_ne in Hfresh; [done|]. intros Heq. by injection Heq as <-.
    + rewrite Hdb'. done.
Qed.

Lemma field_entries_spec tid i fs t g r :
  (t, g, r) ∈ field_entries tid i fs <->
  t = tid /\ exists j f, fs !! j = Some f /\ g = fs_field f /\ r = spec_field_row (i + j) f.
Proof.
  revert i. induction fs as [|f fs IH]; intros i; cbn [field_entries].
  - split; [by intros ?%elem_of_nil|]. by intros (_ & j & f & Hj & _).
  - rewrite elem_of_cons, IH. split.
    + intros [[= -> -> ->]|(-> & j & f' & Hj & -> & ->)]; (split; [done|]).
      * exists O, f. by rewrite Nat.add_0_r.
      * exists (S j), f'. split_and!; [done..|]. f_equal. lia.
    + intros (-> & [|j] & f' & Hj & -> & ->); simpl in Hj.
      * injection Hj as ->. left. by rewrite Nat.add_0_r.
      * right. split; [done|]. exists j, f'. split_and!; [done..|]. f_equal. lia.
Qed.

Lemma field_entries_sorted tid i fs : StronglySorted field_row_le (field_entries tid i fs).
Proof.
  revert i. induction fs as [|f fs IH]; intros i; constructor; [apply IH|].
  apply Forall_forall. intros [[t g] r] (-> & j & f' & _ & _ & ->)%field_entries_spec.
  unfold field_row_le; simpl. rewrite compare_refl. simpl. lia.
Qed.

Lemma field_entries_nodup tid i fs : NoDup (field_entries tid i fs).
Proof.
  revert i. induction fs as [|f fs IH]; intros i; constructor; [|apply IH].
  intros (_ & j & f' & _ & _ & Hr)%field_entries_spec. apply (f_equal tf_ordinal) in Hr.
  simpl in Hr. lia.
Qed.

(** The type a specification describes. *)
Definition spec_type (spec : TypeSpec) : TypeDef.t :=
  TypeDef.mk (ts_type_id spec) (ts_id_prefix spec) (ts_display_name spec) (plural spec)
    (ts_scope_parents spec) false (JObject [])
    ((fun r => field_of_row r.1.2 r.2) <$> field_entries (ts_type_id spec) 0 (ts_fields spec)).

Lemma str_vec_json_strings l : str_vec (json_strings l) = l.
Proof. unfold str_vec, json_strings; simpl. induction l as [|s l IH]; simpl; [done|]. by f_equal. Qed.

(** ** A successful registration *)

(** The snapshot is what a fresh load would give: true at boot, kept by every handler. *)
Definition registry_coherent (st : AppState) : Prop := registry st = load (pool st).

(** Every field row belongs to a registered type (a foreign key). *)
Definition fields_fk (db : Db) : Prop :=
  forall t f, is_Some (type_fields db !! (t, f)) -> is_Some (type_definitions db !! t).

Lemma load_ext db db' :
  type_definitions db = type_definitions db' -> type_fields db = type_fields db' -> load db = load db'.
Proof. unfold load, field_rows. by intros -> ->. Qed.

Section Create.
Context `{SerdeJson, !FromSlice TypeSpec}.

Lemma create_type_ok ctx caller body st r st' :
  create_type ctx caller body st = (Ok r, st') ->
  exists spec db evs,
    Caller.is_platform_admin caller = true /\
    from_slice_as (A := TypeSpec) body = Ok spec /\
    validate_spec spec (registry st) = Ok tt /\
    create_type_txn spec (pool st) = Ok (tt, db) /\
    st' = set_pool (set_events evs db) (set_registry (load db) st).
Proof.
  unfold create_type, store_registry. intros Hr. inv_m.
  match goal with He : record_event _ _ _ _ _ _ = _ |- _ => apply record_event_ok in He as [evs ->] end.
  repeat match goal with x : unit |- _ => destruct x end. subst.
  match goal with Hs : (Ok tt, set_registry _ _) = _ |- _ => injection Hs as <- end.
  do 3 eexists. split_and!; try done.
Qed.

Lemma create_type_txn_ok spec db x db' :
  create_type_txn spec db = Ok (x, db') ->
  type_definitions db !! ts_type_id spec = None /\
  NoDup (fs_field <$> ts_fields spec) /\
  (forall k r, type_fields db' !! k = Some r <->
     (k.1, k.2, r) ∈ field_entries (ts_type_id spec) 0 (ts_fields spec) \/ type_fields db !! k = Some r) /\
  db' = set_type_fields (type_fields db')
          (set_type_definitions (<[ts_type_id spec := spec_row spec]> (type_definitions db)) db).
Proof.
  unfold create_type_txn. intros Ht. apply sql_bind_ok in Ht as (u & db1 & H1 & H2).
  unfold insert_type in H1. case_decide as Hd; [done|]. case_decide; [done|]. injection H1 as _ <-.
  apply insert_fields_ok in H2 as (Hl & Hnd & _ & Hdb'). apply eq_None_not_Some in Hd.
  split_and!; done.
Qed.

(** The registry after a registration, type by type. *)
Lemma create_type_registry spec db x db' :
  fields_fk db -> ordinals_distinct db -> create_type_txn spec db = Ok (x, db') ->
  load db' !! ts_type_id spec = Some (spec_type spec) /\
  forall id, id <> ts_type_id spec -> load db' !! id = load db !! id.
Proof.
  intros Hfk Hod Ht. apply create_type_txn_ok in Ht as (Hnone & Hnd & Hl & Hdb').
  assert (Htd : type_definitions db' = <[ts_type_id spec := spec_row spec]> (type_definitions db))
    by (rewrite Hdb'; done).
  split.
  - rewrite load_lookup, Htd, lookup_insert_eq. simpl. f_equal. unfold with_fields, spec_type; simpl.
    rewrite str_vec_json_strings. f_equal. f_equal. apply rows_of_unique.
    + intros t f r. specialize (Hl (ts_type_id spec, f) r). simpl in Hl. rewrite Hl. split.
      * intros Hin. destruct (proj1 (field_entries_spec _ _ _ _ _ _) Hin) as [Ht _]. subst t. auto.
      * intros [-> [Hin|Hold]]; [done|].
        destruct (Hfk (ts_type_id spec) f) as [y Hy]; [by eexists|]. congruence.
    + apply field_entries_nodup.
    + apply field_entries_sorted.
    + assert (Hent : forall f r, type_fields db' !! (ts_type_id spec, f) = Some r ->
        exists j g, ts_fields spec !! j = Some g /\ f = fs_field g /\ tf_ordinal r = Z.of_nat j + 1).
      { intros f r [Hin|Hold]%Hl.
        - apply field_entries_spec in Hin as (_ & j & g & Hj & Hg & ->). simpl in Hg. by exists j, g.
        - destruct (Hfk (ts_type_id spec) f) as [y Hy]; [by eexists|]. congruence. }
      intros f1 f2 r1 r2 (j1 & g1 & Hj1 & -> & O1)%Hent (j2 & g2 & Hj2 & -> & O2)%Hent Heq.
      assert (j1 = j2) as -> by lia. congruence.
  - intros id Hne. rewrite !load_lookup, Htd, lookup_insert_ne by done.
    assert (Hold : forall f r, type_fields db' !! (id, f) = Some r <-> type_fields db !! (id, f) = Some r).
    { intros f r. rewrite Hl. simpl. split; [|by right]. intros [Hin|?]; [|done].
      by apply field_entries_spec in Hin as (-> & _). }
    assert (Hrows : rows_of db' id = rows_of db id); [|by rewrite Hrows].
    apply rows_of_unique; [|apply rows_of_nodup|apply rows_of_sorted|].
    + intros t f r. by rewrite elem_of_rows_of, Hold.
    + intros f1 f2 r1 r2 H1 H2. apply Hold in H1, H2. by eapply Hod.
Qed.

(** C35 A type is a row: after a successful POST the registry holds exactly the specified type, in
    the specified field order, every other type is as it was, and the snapshot is what a restart
    would load; only a platform admin gets there. *)
Theorem create_type_live ctx caller body st r st' :
  registry_coherent st -> fields_fk (pool st) -> ordinals_distinct (pool st) ->
  create_type ctx caller body st = (Ok r, st') ->
  exists spec, from_slice_as (A := TypeSpec) body = Ok spec /\
    Caller.is_platform_admin caller = true /\
    registry st !! ts_type_id spec = None /\
    registry st' !! ts_type_id spec = Some (spec_type spec) /\
    (forall id, id <> ts_type_id spec -> registry st' !! id = registry st !! id) /\
    registry_coherent st'.
Proof.
  intros Hco Hfk Hod Hr. apply create_type_ok in Hr as (spec & db & evs & Ha & Hp & Hv & Ht & ->).
  destruct (create_type_registry _ _ _ _ Hfk Hod Ht) as [Hnew Hold].
  apply create_type_txn_ok in Ht as (Hnone & _). exists spec. simpl. split_and!; try done.
  - rewrite Hco, load_lookup, Hnone. done.
  - intros id Hne. rewrite Hco. by apply Hold.
Qed.

Lemma create_type_err ctx caller body st e st' :
  create_type ctx caller body st = (Err e, st') -> st' = st.
Proof.
  unfold create_type, store_registry. intros Hr.
  repeat (apply m_bind_err in Hr as [Hr|(? & ? & Hok & Hr)];
    [ first [ by eapply read_only_run; [|exact Hr]; apply _ | by apply run_sql_err in Hr ]
    | try (apply read_only_run in Hok as ->; [|apply _]) ]).
  exfalso. repeat (apply m_bind_err in Hr as [Hr|(? & ? & _ & Hr)];
    [first [done | by apply record_event_err in Hr]|]). by apply m_ret_err in Hr.
Qed.

(** A registration that fails changes neither the store nor the snapshot. *)
Theorem create_type_atomic ctx caller body st e st' :
  create_type ctx caller body st = (Err e, st') -> st' = st.
Proof. apply create_type_err. Qed.
End Create.

(** ** What an accepted specification looks like *)

Section Accepted.
Context `{SerdeJson}.

Lemma check_fields_ok spec current seen fs :
  check_fields spec current seen fs = Ok tt ->
  NoDup (fs_field <$> fs) /\ Forall (fun f => fs_field f ∉ seen) fs /\
  Forall (fun f => ident_ok (fs_field f) 63 = true /\ fs_field f ∉ RESERVED_FIELDS /\
            check_field spec current f = Ok tt) fs.
Proof.
  revert seen. induction fs as [|f fs IH]; intros seen; cbn [check_fields].
  - intros _. split_and!; constructor.
  - destruct (ident_ok _ _) eqn:Hid; [|done]. case_bool_decide as Hres; [done|].
    case_bool_decide as Hseen; [done|]. intros Hc. simpl in Hc.
    apply result_bind_ok in Hc as ([] & Hf & Hc). apply IH in Hc as (Hnd & Hns & Hall). split_and!.
    + constructor; [|done]. intros (g & Hg & Hin)%list_elem_of_fmap.
      eapply Forall_forall in Hns; [|exact Hin]. apply Hns. rewrite <- Hg. left.
    + constructor; [done|]. eapply Forall_impl; [exact Hns|]. intros g Hg ?. apply Hg. by right.
    + by constructor.
Qed.

Lemma check_scope_parents_ok fields sps :
  check_scope_parents fields sps = Ok tt ->
  Forall (fun sp => exists f, List.find (fun f => String.eqb (fs_field f) sp) fields = Some f /\
            fs_kind f = "ref" /\ fs_editable f = false) sps.
Proof.
  induction sps as [|sp sps IH]; cbn [check_scope_parents]; [constructor|].
  destruct (List.find _ fields) as [f|] eqn:Ef; [|done].
  destruct (String.eqb_spec (fs_kind f) "ref") as [Hk|]; simpl; [|done].
  destruct (fs_editable f) eqn:Ee; [done|]. intros Hc. constructor; [eauto|by apply IH].
Qed.

Lemma spec_type_fields spec :
  FieldDef.field <$> TypeDef.fields (spec_type spec) = fs_field <$> ts_fields spec.
Proof.
  unfold spec_type; simpl. generalize 0%nat as i.
  induction (ts_fields spec) as [|f fs IH]; intros i; [done|]. cbn. f_equal. apply IH.
Qed.

(** Looking a field up in the new type is looking it up in the specification. *)
Lemma spec_type_field spec name f :
  List.find (fun f => String.eqb (fs_field f) name) (ts_fields spec) = Some f ->
  exists i, TypeDef.field (spec_type spec) name = Some (field_of_row (fs_field f) (spec_field_row i f)).
Proof.
  unfold TypeDef.field, spec_type; simpl. generalize 0%nat as i.
  induction (ts_fields spec) as [|g fs IH]; intros i; [done|]. cbn.
  destruct (String.eqb (fs_field g) name) eqn:Eg; [intros [= ->]; by exists i|apply IH].
Qed.

(** An accepted specification makes a well-formed type: its name and prefix are new, its
    fields have distinct, unreserved names, and every scope parent is a reference that is set
    once, so that no later update of an object can move it. *)
Theorem validate_spec_wf spec current :
  validate_spec spec current = Ok tt ->
  let td := spec_type spec in
  current !! ts_type_id spec = None /\
  (forall id t, current !! id = Some t -> TypeDef.id_prefix t <> TypeDef.id_prefix td) /\
  fields_nodup td /\
  (forall f, f ∈ TypeDef.fields td -> FieldDef.field f ∉ RESERVED_FIELDS) /\
  (forall sp, sp ∈ TypeDef.scope_parents td -> exists f, TypeDef.field td sp = Some f /\
     FieldDef.kind f = "ref" /\ FieldDef.writable f = false).
Proof.
  unfold validate_spec. destruct (ident_ok _ _); [|done]. case_bool_decide; [done|]. simpl.
  case_bool_decide as Hnew; [done|]. destruct (prefix_ok _); [|done]. simpl.
  destruct (existsb _ (all current)) eqn:Hpre; [done|]. destruct (is_empty _); [done|].
  intros Hc. assert (Hc' : exists fs, ts_fields spec = fs /\
    check_fields spec current [] fs = Ok tt /\ check_scope_parents fs (ts_scope_parents spec) = Ok tt).
  { destruct (ts_fields spec) as [|f fs]; [done|]. apply result_bind_ok in Hc as ([] & ? & ?). eauto. }
  clear Hc. destruct Hc' as (fs & Hfs & Hcf & Hcs). rewrite <- Hfs in *.
  apply check_fields_ok in Hcf as (Hnd & _ & Hall). apply check_scope_parents_ok in Hcs.
  split_and!.
  - by apply eq_None_not_Some.
  - intros id t Ht Heq. apply not_true_iff_false in Hpre. apply Hpre, existsb_exists. exists t.
    split; [|by apply String.eqb_eq]. apply list_elem_of_In, elem_of_all. by exists id.
  - unfold fields_nodup. by rewrite spec_type_fields.
  - intros f Hf. assert (Hin : FieldDef.field f ∈ fs_field <$> ts_fields spec).
    { rewrite <- spec_type_fields. by apply list_elem_of_fmap_2. }
    apply list_elem_of_fmap in Hin as (g & -> & Hg). eapply Forall_forall in Hall; [|exact Hg]. tauto.
  - intros sp Hsp. simpl in Hsp. eapply Forall_forall in Hcs; [|exact Hsp].
    destruct Hcs as (f & Hf & Hk & He). apply spec_type_field in Hf as [i Hi].
    eexists. split; [exact Hi|]. split; [done|]. unfold FieldDef.writable. simpl. by rewrite He.
Qed.

(** The trap the validator means to close is open for a null default: such a type is accepted,
    and no payload whatsoever can create an object of it. *)
Theorem null_default_trap :
  exists spec, validate_spec spec ∅ = Ok tt /\
    forall payload, exists e,
      validate_final (spec_type spec) (build_create_data (spec_type spec) payload) = Err e.
Proof.
  exists (mkTypeSpec "trap" "TRP" "Trap" "" []
    [mkFieldSpec "state" "" "text" true false "system" (JObject [("default", JNull)]) false]).
  split; [vm_compute; reflexivity|]. intros payload. by eexists.
Qed.
End Accepted.
