(* ===== verification/Migrations.v ===== *)
(** * The migrations ([migrations/*.sql])

    What the migrations write: the catalog of builtin types, the ladder of roles, the default
    workflow and the bootstrap principal, as the INSERTs and UPDATEs of the scripts, with the keys
    and foreign keys that can refuse them. What they create and alter of the schema itself is the
    type [Db] and the constraints of its statements ([Schema]); a script that does only that is
    [ddl]. *)

From S2P Require Import Prelude RustStr Json AppError Closure Schema Registry Workflow State.
From S2P Require Import Objects Types.

Local Open Scope Z_scope.

(** An empty database: the schema of the migrations without a row. *)
Definition fresh (t : Z) : Db := mkDb ∅ ∅ ∅ ∅ ∅ ∅ ∅ ∅ ∅ ∅ ∅ ∅ [] ∅ ∅ [] t.

(** ** Statements *)

Definition ddl : SqlM unit := mret tt.

(** [insert into type_definitions]: the policy of a builtin is the column's default. *)
Definition builtin (id_prefix display_name display_name_plural : string)
    (scope_parents : list string) (ordinal : Z) : TypeDefRow :=
  mkTypeDefRow id_prefix display_name display_name_plural (json_strings scope_parents) true ordinal
    (json_object []).

(** A row of [type_fields]; [searchable] is the column's default. *)
Definition fld (type_id field label kind : string) (required editable : bool) (ordinal : Z)
    (perm_class : string) (options : Value) : string * string * TypeFieldRow :=
  (type_id, field, mkTypeFieldRow label kind required editable ordinal perm_class options false).

(** The shapes of [options]. *)
Definition plain : Value := json_object [].
Definition one_of (vals : list string) (dflt : string) : Value :=
  json_object [("enum", json_strings vals); ("default", JString dflt)].
Definition refers (prefix : string) : Value := json_object [("ref", JString prefix)].
Definition matching (pattern : string) : Value := json_object [("validate", JString pattern)].
Definition initially (v : Value) : Value := json_object [("default", v)].

(** One INSERT of several rows. *)
Fixpoint insert_rows (rows : list (string * string * TypeFieldRow)) : SqlM unit :=
  match rows with
  | [] => mret tt
  | r :: rest => _ ← insert_type_field r.1.1 r.1.2 r.2; insert_rows rest
  end.

(** The rank of a role is unique. *)
Definition insert_role (role : string) (rank : Z) : SqlM unit := fun db =>
  if decide (is_Some (roles db !! role)) then Err UniqueViolation
  else if decide (map_Exists (fun _ r => r = rank) (roles db)) then Err UniqueViolation
  else Ok (tt, mkDb (type_definitions db) (type_fields db) (entities db) (entity_data db)
                 (memberships db) (<[role := rank]> (roles db)) (field_permissions db)
                 (workflows db) (cases db) (case_close_checks db) (relations db) (feature_runs db)
                 (role_handoffs db) (sessions db) (auth_identities db) (events db) (now db)).

Definition insert_workflow (workflow_id : string) (row : WorkflowRow) : SqlM unit := fun db =>
  if decide (is_Some (workflows db !! workflow_id)) then Err UniqueViolation
  else Ok (tt, mkDb (type_definitions db) (type_fields db) (entities db) (entity_data db)
                 (memberships db) (roles db) (field_permissions db)
                 (<[workflow_id := row]> (workflows db)) (cases db) (case_close_checks db)
                 (relations db) (feature_runs db) (role_handoffs db) (sessions db)
                 (auth_identities db) (events db) (now db)).

(** [update type_definitions set scope_parents = .. where type_id = ..] *)
Definition set_scope_parents (type_id : string) (scope_parents : Value) : SqlM unit := fun db =>
  Ok (tt, set_type_definitions
            (alter (fun r => mkTypeDefRow (td_id_prefix r) (td_display_name r)
                               (td_display_name_plural r) scope_parents (td_is_builtin r)
                               (td_ordinal r) (td_method_policy r)) type_id (type_definitions db)) db).

(** ** The scripts *)

(** [0002_seed.sql] *)
Definition migration_0002 : SqlM unit :=
  _ ← insert_type "project" (builtin "PRJ" "Project" "Projects" [] 10);
  _ ← insert_rows
    [fld "project" "name" "Name" "text" true true 1 "standard" plain;
     fld "project" "slug" "Slug" "text" true false 2 "standard" (matching "^[a-z0-9-]+$");
     fld "project" "status" "Status" "enum" false true 3 "standard"
         (one_of ["planning"; "active"; "paused"; "archived"] "planning");
     fld "project" "description" "Description" "text" false true 4 "standard" plain;
     fld "project" "repo_url" "Repository" "text" false true 5 "standard" plain];
  _ ← insert_type "note" (builtin "NOT" "Note" "Notes" ["project_id"] 20);
  insert_rows
    [fld "note" "project_id" "Project" "ref" true false 1 "standard" (refers "PRJ");
     fld "note" "title" "Title" "text" true true 2 "standard" plain;
     fld "note" "body" "Body" "text" false true 3 "standard" plain;
     fld "note" "pinned" "Pinned" "bool" false true 4 "standard" (initially (JBool false))].

(** [0003_rbac.sql] *)
Definition migration_0003 : SqlM unit :=
  _ ← insert_role "viewer" 1;
  _ ← insert_role "member" 2;
  _ ← insert_role "admin" 3;
  _ ← insert_role "owner" 4;
  _ ← insert_type "actor" (builtin "USR" "Actor" "Actors" [] 1);
  _ ← insert_rows
    [fld "actor" "display_name" "Name" "text" true true 1 "standard" plain;
     fld "actor" "handle" "Handle" "text" true true 2 "standard" (matching "^[a-z0-9_-]+$");
     fld "actor" "email" "Email" "text" false true 3 "owner_grade" plain;
     fld "actor" "kind" "Kind" "enum" true false 4 "readonly"
         (one_of ["human"; "agent"; "service"] "human");
     fld "actor" "platform_role" "Platform role" "enum" true true 5 "owner_grade"
         (one_of ["member"; "admin"] "member");
     fld "actor" "status" "Status" "enum" true true 6 "standard"
         (one_of ["active"; "invited"; "disabled"] "active")];
  _ ← insert_entity "USR_dev" "actor" (Some "USR_dev");
  insert_data "USR_dev" "actor"
    (json_object [("display_name", JString "Dev"); ("handle", JString "dev");
                  ("kind", JString "human"); ("platform_role", JString "admin");
                  ("status", JString "active")]) None.

(** [0007_cases_engine.sql] *)
Definition migration_0007 : SqlM unit :=
  _ ← insert_workflow "default" (mkWorkflowRow
        (json_strings ["backlog"; "todo"; "in_progress"; "in_review"; "done"])
        (json_object [("backlog", json_strings ["todo"]);
                      ("todo", json_strings ["backlog"; "in_progress"]);
                      ("in_progress", json_strings ["todo"; "in_review"]);
                      ("in_review", json_strings ["in_progress"; "done"]);
                      ("done", json_strings ["in_review"])])
        "backlog" (json_strings ["docs_reconciled"]));
  _ ← insert_type "case" (builtin "CAS" "Case" "Cases" ["project_id"] 30);
  insert_rows
    [fld "case" "title" "Title" "text" true true 1 "standard" plain;
     fld "case" "description" "Description" "text" false true 2 "standard" plain;
     fld "case" "type" "Type" "enum" true true 3 "standard"
         (one_of ["bug"; "feature"; "task"; "epic"; "chore"] "task");
     fld "case" "status" "Status" "enum" true true 4 "standard"
         (one_of ["backlog"; "todo"; "in_progress"; "in_review"; "done"] "backlog");
     fld "case" "priority" "Priority" "enum" true true 5 "standard"
         (one_of ["low"; "normal"; "high"; "urgent"] "normal");
     fld "case" "origin" "Origin" "enum" false true 6 "standard"
         (one_of ["ui"; "agent"; "import"; "email"; "web"; "phone"; "chat"] "ui");
     fld "case" "visibility" "Visibility" "enum" false true 7 "standard"
         (one_of ["internal"; "public"] "internal");
     fld "case" "workflow_id" "Workflow" "ref" true false 8 "readonly"
         (json_object [("ref", JString "workflows"); ("default", JString "default")]);
     fld "case" "assignee_id" "Assignee" "ref" false true 9 "standard" (refers "USR");
     fld "case" "reporter_id" "Reporter" "ref" false false 10 "readonly" (refers "USR");
     fld "case" "project_id" "Project" "ref" true false 11 "standard" (refers "PRJ")].

(** [0009_case_family.sql] *)
Definition migration_0009 : SqlM unit :=
  _ ← insert_type "comment" (builtin "CMT" "Comment" "Comments" ["subject_id"] 40);
  _ ← insert_rows
    [fld "comment" "subject_id" "On" "ref" true false 1 "standard" plain;
     fld "comment" "author_id" "Author" "ref" false false 2 "standard" (refers "USR");
     fld "comment" "body" "Body" "text" true true 3 "standard" plain;
     fld "comment" "visibility" "Visibility" "enum" false true 4 "standard"
         (one_of ["internal"; "public"] "internal");
     fld "comment" "reply_to_id" "Reply to" "ref" false false 5 "standard" (refers "CMT")];
  _ ← insert_type "attachment" (builtin "ATT" "Attachment" "Attachments" ["subject_id"] 50);
  insert_rows
    [fld "attachment" "subject_id" "On" "ref" true false 1 "standard" plain;
     fld "attachment" "name" "Filename" "text" true false 2 "standard" plain;
     fld "attachment" "blob_ref" "Blob ref" "text" true false 3 "standard" plain;
     fld "attachment" "mime" "Type" "text" false false 4 "standard" plain;
     fld "attachment" "size_bytes" "Size" "int" false false 5 "standard" plain;
     fld "attachment" "uploaded_by" "Uploaded by" "ref" false false 6 "standard" (refers "USR")].

(** [0011_catalog.sql] *)
Definition migration_0011 : SqlM unit :=
  _ ← insert_type "workspace" (builtin "ORG" "Workspace" "Workspaces" [] 6);
  _ ← insert_rows
    [fld "workspace" "name" "Name" "text" true true 1 "standard" plain;
     fld "workspace" "slug" "Slug" "text" true false 2 "standard" (matching "^[a-z0-9-]+$");
     fld "workspace" "status" "Status" "enum" true true 3 "owner_grade"
         (one_of ["active"; "suspended"] "active")];
  _ ← insert_type "team" (builtin "TEM" "Team" "Teams" ["workspace_id"] 8);
  _ ← insert_rows
    [fld "team" "workspace_id" "Workspace" "ref" true false 1 "standard" (refers "ORG");
     fld "team" "name" "Name" "text" true true 2 "standard" plain;
     fld "team" "kind" "Kind" "enum" true false 3 "standard" (one_of ["team"; "department"] "team");
     fld "team" "description" "Description" "text" false true 4 "standard" plain];
  _ ← insert_type "spec" (builtin "SPC" "Spec" "Specs" ["case_id"] 60);
  _ ← insert_rows
    [fld "spec" "case_id" "Case" "ref" true false 1 "standard" (refers "CAS");
     fld "spec" "title" "Title" "text" true true 2 "standard" plain;
     fld "spec" "body" "Body" "text" true true 3 "standard" plain;
     fld "spec" "status" "Status" "enum" true true 4 "standard"
         (one_of ["draft"; "approved"; "superseded"] "draft");
     fld "spec" "approved_by" "Approved by" "ref" false true 5 "owner_grade" (refers "USR")];
  _ ← insert_type "acceptance_criterion" (builtin "ACR" "Acceptance criterion" "Acceptance criteria"
      ["spec_id"] 62);
  _ ← insert_rows
    [fld "acceptance_criterion" "spec_id" "Spec" "ref" true false 1 "standard" (refers "SPC");
     fld "acceptance_criterion" "ordinal" "#" "int" true true 2 "standard" plain;
     fld "acceptance_criterion" "text" "Criterion" "text" true true 3 "standard" plain;
     fld "acceptance_criterion" "verified" "Verified" "bool" false true 4 "standard"
         (initially (JBool false));
     fld "acceptance_criterion" "test_ref" "Test" "text" false true 5 "standard" plain];
  _ ← insert_type "runbook" (builtin "RBK" "Runbook" "Runbooks" ["case_id"] 64);
  _ ← insert_rows
    [fld "runbook" "case_id" "Case" "ref" false false 1 "standard" (refers "CAS");
     fld "runbook" "title" "Title" "text" true true 2 "standard" plain;
     fld "runbook" "problem" "Problem" "text" true true 3 "standard" plain;
     fld "runbook" "root_cause" "Root cause" "text" true true 4 "standard" plain;
     fld "runbook" "fix" "Fix" "text" true true 5 "standard" plain;
     fld "runbook" "status" "Status" "enum" true true 6 "standard"
         (one_of ["open"; "fixed"; "wontfix"] "open");
     fld "runbook" "date" "Date" "date" true true 7 "standard" plain];
  _ ← insert_type "decision" (builtin "DEC" "Decision" "Decisions" [] 66);
  _ ← insert_rows
    [fld "decision" "title" "Title" "text" true true 1 "standard" plain;
     fld "decision" "context" "Context" "text" true true 2 "standard" plain;
     fld "decision" "decision" "Decision" "text" true true 3 "standard" plain;
     fld "decision" "consequences" "Consequences" "text" true true 4 "standard" plain;
     fld "decision" "status" "Status" "enum" true true 5 "owner_grade"
         (one_of ["proposed"; "accepted"; "superseded"] "proposed");
     fld "decision" "supersedes_id" "Supersedes" "ref" false true 6 "standard" (refers "DEC");
     fld "decision" "date" "Date" "date" true true 7 "standard" plain];
  _ ← insert_type "capability" (builtin "CAP" "Capability" "Capabilities" ["project_id"] 68);
  insert_rows
    [fld "capability" "project_id" "Project" "ref" false false 1 "standard" (refers "PRJ");
     fld "capability" "key" "Key" "text" true false 2 "standard" plain;
     fld "capability" "status" "Status" "enum" true true 3 "standard"
         (one_of ["live"; "gap"; "deferred"] "live");
     fld "capability" "description" "Description" "text" true true 4 "standard" plain;
     fld "capability" "evidence" "Evidence" "text" false true 5 "standard" plain].

(** [0014_g7_catalog.sql] *)
Definition migration_0014 : SqlM unit :=
  _ ← insert_type "connector" (builtin "CON" "Connector" "Connectors" ["project_id"] 70);
  _ ← insert_rows
    [fld "connector" "project_id" "Project" "ref" false false 1 "standard" (refers "PRJ");
     fld "connector" "name" "Name" "text" true true 2 "standard" plain;
     fld "connector" "kind" "Kind" "enum" true true 3 "standard"
         (one_of ["http_json"; "webhook"; "sql"; "file"] "http_json");
     fld "connector" "target" "Target" "text" true true 4 "standard" plain;
     fld "connector" "status" "Status" "enum" true true 5 "standard"
         (one_of ["draft"; "active"; "disabled"; "error"] "draft");
     fld "connector" "data_contract" "Data contract" "json" false true 6 "standard"
         (initially plain);
     fld "connector" "last_run_at" "Last run" "date" false false 7 "readonly" plain;
     fld "connector" "description" "Description" "text" false true 8 "standard" plain];
  _ ← insert_type "secret" (builtin "SEC" "Secret" "Secrets" ["project_id"] 72);
  _ ← insert_rows
    [fld "secret" "project_id" "Project" "ref" false false 1 "standard" (refers "PRJ");
     fld "secret" "name" "Name" "text" true true 2 "standard" plain;
     fld "secret" "provider" "Provider" "enum" true true 3 "standard"
         (one_of ["env"; "vault"; "aws_kms"; "gcp_sm"] "env");
     fld "secret" "external_ref" "External ref" "text" true true 4 "owner_grade" plain;
     fld "secret" "status" "Status" "enum" true true 5 "standard"
         (one_of ["active"; "rotating"; "revoked"] "active");
     fld "secret" "rotation_at" "Rotates" "date" false true 6 "standard" plain;
     fld "secret" "description" "Description" "text" false true 7 "standard" plain];
  _ ← insert_type "skill" (builtin "SKL" "Skill" "Skills" ["project_id"] 74);
  _ ← insert_rows
    [fld "skill" "project_id" "Project" "ref" false false 1 "standard" (refers "PRJ");
     fld "skill" "name" "Name" "text" true true 2 "standard" plain;
     fld "skill" "description" "Description" "text" true true 3 "standard" plain;
     fld "skill" "kind" "Kind" "enum" true true 4 "standard"
         (one_of ["procedure"; "playbook"] "procedure");
     fld "skill" "definition" "Definition" "json" false true 5 "standard" (initially plain);
     fld "skill" "status" "Status" "enum" true true 6 "standard"
         (one_of ["draft"; "active"; "deprecated"] "draft")];
  _ ← insert_type "milestone" (builtin "MIL" "Milestone" "Milestones" ["subject_id"] 76);
  insert_rows
    [fld "milestone" "subject_id" "On" "ref" true false 1 "standard" plain;
     fld "milestone" "name" "Name" "text" true true 2 "standard" plain;
     fld "milestone" "kind" "Kind" "enum" true true 3 "standard"
         (one_of ["sla"; "deadline"; "checkpoint"] "deadline");
     fld "milestone" "target_at" "Target" "date" true true 4 "standard" plain;
     fld "milestone" "completed_at" "Completed" "date" false true 5 "standard" plain].

(** [0015_catalog_reconcile.sql] *)
Definition migration_0015 : SqlM unit :=
  _ ← insert_rows
    [fld "project" "workspace_id" "Workspace" "ref" false false 0 "standard" (refers "ORG");
     fld "project" "default_branch" "Default branch" "text" false true 6 "standard"
         (initially (JString "main"));
     fld "actor" "avatar_url" "Avatar" "text" false true 7 "standard" plain];
  set_scope_parents "project" (json_strings ["workspace_id"]).

(** The scripts in the order of their versions. *)
Definition migrations : list (Z * SqlM unit) :=
  [(1, ddl); (2, migration_0002); (3, migration_0003); (4, ddl); (5, ddl); (6, ddl);
   (7, migration_0007); (8, ddl); (9, migration_0009); (10, ddl); (11, migration_0011); (12, ddl);
   (13, ddl); (14, migration_0014); (15, migration_0015)].

Fixpoint run_scripts (ms : list (Z * SqlM unit)) : SqlM unit :=
  match ms with
  | [] => mret tt
  | m :: rest => _ ← m.2; run_scripts rest
  end.

(** The database of a fresh installation. *)
Definition installed (t : Z) : Db :=
  match run_scripts migrations (fresh t) with Ok (_, db) => db | Err _ => fresh t end.
