(* ===== verification/Relations.v ===== *)
(** * The relation surface ([relations.rs])

    Typed edges between entities: created by whoever may edit the subject and see the object,
    listed as far as both ends are in reach, deleted by whoever may edit the subject. *)

From S2P Require Import Prelude RustStr Json AppError Closure Schema Registry Workflow State Rbac.
From S2P Require Import Caller FieldPerms Objects Fixture ObjectHandlers RbacProps.

Local Open Scope Z_scope.

Definition RELATION_TYPES : list string :=
  ["relates-to"; "duplicates"; "blocks"; "references"; "article-of"; "parent-of"].

Record RelInput := mkRelInput {
  ri_subject_id : string; ri_object_id : string; ri_relation_type : string }.

(** The edge [r] is the unique triple of [r']. *)
Definition same_edge (r r' : RelationRow) : Prop :=
  r_subject_id r = r_subject_id r' /\ r_object_id r = r_object_id r' /\
  r_relation_type r = r_relation_type r'.
#[export] Instance same_edge_dec r r' : Decision (same_edge r r').
Proof. unfold same_edge. apply _. Defined.

Definition insert_relation (id : string) (row : RelationRow) : SqlM unit := fun db =>
  if decide (is_Some (relations db !! id)) then Err UniqueViolation
  else if decide (map_Exists (fun _ r => same_edge r row) (relations db)) then Err UniqueViolation
  else if fk_ok (entities db) (Some (r_subject_id row)) && fk_ok (entities db) (Some (r_object_id row))
          && fk_ok (entities db) (r_created_by row)
  then Ok (tt, set_relations (<[id := row]> (relations db)) db)
  else Err ForeignKeyViolation.

Definition remove_relation (id : string) : SqlM unit := fun db =>
  Ok (tt, set_relations (delete id (relations db)) db).

Section Handlers.
Context `{SerdeJson, Postgres, !FromSlice RelInput}.

Definition relation_json (r : string * RelationRow) : Value :=
  json_object
    [("id", JString r.1); ("subject_id", JString (r_subject_id r.2));
     ("object_id", JString (r_object_id r.2)); ("relation_type", JString (r_relation_type r.2));
     ("created_by", json_opt (r_created_by r.2));
     ("created_at", JString (timestamp_text (r_created_at r.2)))].

Definition create_relation (ctx : RequestCtx) (caller : Caller.t) (body : string) (uuid : string)
    : M Response :=
  let e422 := fun d => with_request_id (ctx_request_id ctx) (unprocessable d) in
  input ← lift (map_err (fun e => with_request_id (ctx_request_id ctx)
                   (bad_request ("invalid relation: " +:+ e))) (from_slice_as (A := RelInput) body));
  _ ← ensure (bool_decide (ri_relation_type input ∈ RELATION_TYPES))
        (e422 ("unknown relation_type '" +:+ ri_relation_type input +:+ "' (one of: "
               +:+ join ", " RELATION_TYPES +:+ ")"));
  _ ← ensure (negb (String.eqb (ri_subject_id input) (ri_object_id input)))
        (e422 "a relation cannot link an entity to itself");
  st ← get_state;
  let subject_ok := reach_action st caller (ri_subject_id input) Edit in
  st ← get_state;
  _ ← ensure (subject_ok && reach_action st caller (ri_object_id input) View) (deny_404 ctx);
  let id := mint "REL" uuid in
  _ ← run_sql (t ← sql_now; insert_relation id (mkRelationRow (ri_subject_id input)
        (ri_object_id input) (ri_relation_type input) (Some (Caller.actor_id caller)) t));
  _ ← record_event ctx (Caller.actor_id caller) (Some (ri_subject_id input)) "relation.created"
        (json_object [("id", JString id); ("object_id", JString (ri_object_id input));
                      ("relation_type", JString (ri_relation_type input))]);
  row ← query (fun db => relations db !! id);
  row ← lift (ok_or row (from_sqlx RowNotFound));
  mret (mkResponse CREATED [] (Some (relation_json (id, row)))).

(** [order by created_at desc] *)
Definition created_later (a b : string * RelationRow) : Prop := r_created_at b.2 <= r_created_at a.2.
#[local] Instance created_later_dec : RelDecision created_later.
Proof. intros a b. unfold created_later. apply _. Defined.

(** [($2::text is null or relation_type = $2)] *)
Definition of_type (t : option string) (r : RelationRow) : Prop :=
  match t with Some t => r_relation_type r = t | None => True end.
#[local] Instance of_type_dec t r : Decision (of_type t r).
Proof. destruct t; simpl; apply _. Defined.

(** The edges that touch the entity, of the type asked for. *)
Definition edges_of (db : Db) (entity : string) (relation_type : option string)
    : list (string * RelationRow) :=
  merge_sort created_later
    (filter (fun r => (r_subject_id r.2 = entity \/ r_object_id r.2 = entity) /\ of_type relation_type r.2)
       (map_to_list (relations db))).

(** The end of an edge that is not the anchor. *)
Definition other_end (entity : string) (r : RelationRow) : string :=
  if String.eqb (r_subject_id r) entity then r_object_id r else r_subject_id r.

Definition list_relations (ctx : RequestCtx) (caller : Caller.t)
    (q_entity q_type : option string) : M Response :=
  entity ← lift (ok_or q_entity (with_request_id (ctx_request_id ctx)
             (bad_request "the `entity` query param is required")));
  st ← get_state;
  _ ← ensure (reach_action st caller entity View) (deny_404 ctx);
  st ← get_state;
  let rows := edges_of (pool st) entity q_type in
  st ← get_state;
  let visible := fun r : string * RelationRow =>
    if Caller.is_platform_admin caller then true
    else bool_decide (other_end entity r.2
           ∈ reachable_entity_ids_any (pool st) (Caller.actor_id caller)) in
  mret (mkResponse OK []
    (Some (json_object [("relations", JArray (relation_json <$> List.filter visible rows))]))).

Definition delete_relation (ctx : RequestCtx) (caller : Caller.t) (id : string) : M Response :=
  st ← get_state;
  row ← lift (ok_or (relations (pool st) !! id) (deny_404 ctx));
  let subject := r_subject_id row in
  st ← get_state;
  _ ← ensure (reach_action st caller subject Edit) (deny_404 ctx);
  _ ← run_sql (remove_relation id);
  _ ← record_event ctx (Caller.actor_id caller) (Some subject) "relation.deleted"
        (json_object [("id", JString id)]);
  mret (mkResponse NO_CONTENT [] None).

(** ** What the relation surface guarantees *)

(** No existence oracle: when the caller cannot edit the subject or cannot view the object, a
    well-formed request gets the same 404 and changes nothing, whether or not the entities
    exist. *)
Theorem relation_no_oracle ctx caller body uuid st input :
  from_slice_as (A := RelInput) body = Ok input ->
  ri_relation_type input ∈ RELATION_TYPES -> ri_subject_id input <> ri_object_id input ->
  (reach_action st caller (ri_subject_id input) Edit = false \/
   reach_action st caller (ri_object_id input) View = false) ->
  create_relation ctx caller body uuid st = (Err (deny_404 ctx), st).
Proof.
  intros Hp Ht Hne Hr. unfold create_relation. run_m. rewrite Hp. simpl.
  rewrite bool_decide_true by done. apply String.eqb_neq in Hne. rewrite Hne. simpl.
  destruct Hr as [-> | ->]; [done|]. by rewrite andb_false_r.
Qed.

Lemma elem_of_edges_of db entity t id row :
  (id, row) ∈ edges_of db entity t <->
  relations db !! id = Some row /\ (r_subject_id row = entity \/ r_object_id row = entity) /\
  of_type t row.
Proof.
  unfold edges_of. rewrite merge_sort_Permutation, list_elem_of_filter, elem_of_map_to_list. simpl.
  tauto.
Qed.

(** C33 The list of an entity's relations leaks nothing: it is shown only to a caller who can view
    the entity, and holds exactly its edges whose other end is in the caller's reach. *)
Theorem relations_leak_free ctx caller entity t st r st' :
  Caller.is_platform_admin caller = false ->
  list_relations ctx caller (Some entity) t st = (Ok r, st') ->
  st' = st /\ reach_action st caller entity View = true /\
  exists edges, resp_body r = Some (json_object [("relations", JArray (relation_json <$> edges))]) /\
    forall id row, (id, row) ∈ edges <->
      relations (pool st) !! id = Some row /\
      (r_subject_id row = entity \/ r_object_id row = entity) /\
      of_type t row /\ other_end entity row ∈ reach (pool st) (Caller.actor_id caller).
Proof.
  intros Ha Hr. unfold list_relations in Hr. inv_m. simpl in *. simplify_eq.
  split_and!; [done|done|]. eexists. split; [done|]. intros id row.
  rewrite list_elem_of_In, List.filter_In, <- list_elem_of_In, elem_of_edges_of. simpl. rewrite Ha.
  rewrite bool_decide_eq_true. unfold reachable_entity_ids_any. rewrite elem_of_elements. tauto.
Qed.

(** Only an editor of the subject adds or removes an edge, an edge is never doubled, and its
    two ends differ. *)
Theorem relation_writes ctx caller body uuid id st r st' :
  (create_relation ctx caller body uuid st = (Ok r, st') ->
   exists row, relations (pool st') = <[mint "REL" uuid := row]> (relations (pool st)) /\
     relations (pool st) !! mint "REL" uuid = None /\
     r_subject_id row <> r_object_id row /\
     reach_action st caller (r_subject_id row) Edit = true /\
     reach_action st caller (r_object_id row) View = true /\
     forall id' row', relations (pool st) !! id' = Some row' -> ~ same_edge row' row) /\
  (delete_relation ctx caller id st = (Ok r, st') ->
   exists row, relations (pool st) !! id = Some row /\
     reach_action st caller (r_subject_id row) Edit = true /\
     relations (pool st') = delete id (relations (pool st))).
Proof.
  split; intros Hr.
  - unfold create_relation in Hr. inv_m. inv_sql.
    match goal with He : record_event _ _ _ _ _ _ = _ |- _ => apply record_event_ok in He as [evs ->] end.
    match goal with Hi : insert_relation _ _ _ = _ |- _ =>
      unfold insert_relation in Hi; destruct (decide _) as [|Hn] in Hi; [done|];
      destruct (decide _) as [|Hu] in Hi; [done|]; destruct (_ && _ && _) in Hi; [|done]; injection Hi as _ <- end.
    match goal with Hb : _ && _ = true |- _ => apply andb_prop in Hb as [? ?] end.
    match goal with Hb : negb (String.eqb _ _) = true |- _ => apply negb_true_iff, String.eqb_neq in Hb end.
    eexists. simpl. split_and!; try done; [by apply eq_None_not_Some|].
    intros id' row' Hrow' Hsame. apply Hu. by exists id', row'.
  - unfold delete_relation in Hr. inv_m.
    match goal with He : record_event _ _ _ _ _ _ = _ |- _ => apply record_event_ok in He as [evs ->] end.
    match goal with Hd : remove_relation _ _ = _ |- _ => unfold remove_relation in Hd; injection Hd as _ <- end.
    eexists. by split_and!.
Qed.
End Handlers.
