(* ===== verification/HttpClient.v ===== *)
(** * The SSRF-gated client ([http_client.rs])

    Addresses, the blocklist, and the client that resolves, checks and pins before it connects.
    URLs, the resolver and the HTTP exchange itself belong to other crates: they are parameters.
    The blocklist is proved to be the set of address ranges it stands for. *)

From S2P Require Import Prelude RustStr Json AppError Closure Schema Registry Workflow State Rbac.
From S2P Require Import Caller FieldPerms Objects.

Local Open Scope Z_scope.

(** Octets of an IPv4 address; 16-bit segments of an IPv6 address. *)
Inductive IpAddr :=
| V4 (a b c d : Z)
| V6 (s0 s1 s2 s3 s4 s5 s6 s7 : Z).

(** ** [std::net::Ipv4Addr] *)

Definition is_private (a b : Z) : bool :=
  (a =? 10) || ((a =? 172) && (16 <=? b) && (b <=? 31)) || ((a =? 192) && (b =? 168)).
Definition is_loopback (a : Z) : bool := a =? 127.
Definition is_link_local (a b : Z) : bool := (a =? 169) && (b =? 254).
Definition is_unspecified (a b c d : Z) : bool :=
  (a =? 0) && (b =? 0) && (c =? 0) && (d =? 0).
Definition is_broadcast (a b c d : Z) : bool :=
  (a =? 255) && (b =? 255) && (c =? 255) && (d =? 255).
Definition is_documentation (a b c : Z) : bool :=
  ((a =? 192) && (b =? 0) && (c =? 2)) || ((a =? 198) && (b =? 51) && (c =? 100))
  || ((a =? 203) && (b =? 0) && (c =? 113)).
Definition is_multicast (a : Z) : bool := (224 <=? a) && (a <=? 239).

(** ** The blocklist *)

Definition is_blocked_v4 (a b c d : Z) : bool :=
  is_private a b || is_loopback a || is_link_local a b || is_unspecified a b c d
  || is_broadcast a b c d || is_documentation a b c || is_multicast a
  || (a =? 0) || ((a =? 100) && (Z.land b 192 =? 64)).

Definition is_blocked_ip (ip : IpAddr) : bool :=
  match ip with
  | V4 a b c d => is_blocked_v4 a b c d
  | V6 s0 s1 s2 s3 s4 s5 s6 s7 =>
      if (s0 =? 0) && (s1 =? 0) && (s2 =? 0) && (s3 =? 0) && (s4 =? 0) && (s5 =? 65535)
      then (* [to_ipv4_mapped] *)
        is_blocked_v4 (Z.shiftr s6 8) (Z.land s6 255) (Z.shiftr s7 8) (Z.land s7 255)
      else
        let zeros := (s0 =? 0) && (s1 =? 0) && (s2 =? 0) && (s3 =? 0) && (s4 =? 0) && (s5 =? 0)
                     && (s6 =? 0) in
        (zeros && (s7 =? 1)) || (zeros && (s7 =? 0))
        || (Z.land s0 65280 =? 65280)
        || (Z.land s0 65024 =? 64512)
        || (Z.land s0 65472 =? 65152)
  end.

(** ** The client *)

Definition MAX_BODY : Z := Z.shiftl 1 20.

Definition GATEWAY_TIMEOUT : Z := 504.
Definition BAD_GATEWAY : Z := 502.

(** A transport error: whether it was a timeout. *)
Definition net_err (is_timeout : bool) : AppError :=
  if is_timeout then new GATEWAY_TIMEOUT "upstream_timeout" "upstream timed out"
  else new BAD_GATEWAY "upstream_error" "upstream request failed".

Record Url := mkUrl { u_text : string; u_scheme : string; u_host : option string; u_port : option Z }.

Record HttpResponse := mkHttpResponse {
  hr_success : bool; hr_status : string; hr_bytes : Result bool string }.

(** A client that connects to the pinned address whatever the host resolves to later. *)
Record Client := mkClient { cl_host : string; cl_pinned : IpAddr }.

(** [reqwest] and the resolver. *)
Class Reqwest := {
  parse_url : string -> option Url;
  lookup_host : string -> Z -> option (list IpAddr);
  build_client : string -> IpAddr -> Result string Client;
  send_post : Client -> Url -> list (string * string) -> Result bool HttpResponse;
  send_get : Client -> Url -> option string -> Result bool HttpResponse }.

(** What the code relies on: the client is pinned to the address it was built with. *)
Class ReqwestPins `{Reqwest} := {
  build_client_pins : forall host ip c, build_client host ip = Ok c -> cl_pinned c = ip }.

Section Client.
Context `{SerdeJson, Reqwest}.

Definition guarded_client (url : string) : AppResult (Client * Url) :=
  let? parsed := ok_or (parse_url url) (bad_request "invalid url") in
  try? (if negb (String.eqb (u_scheme parsed) "https")
        then Err (bad_request "only https outbound is allowed") else Ok tt) in
  let? host := ok_or (u_host parsed) (bad_request "url has no host") in
  let port := default 443 (u_port parsed) in
  let? addrs := ok_or (lookup_host host port) (bad_request "dns resolution failed") in
  match addrs with
  | [] => Err (bad_request "host did not resolve")
  | first :: _ =>
      if existsb is_blocked_ip addrs
      then Err (new FORBIDDEN "ssrf_blocked" "destination not allowed")
      else let? client := map_err internal (build_client host first) in
           Ok (client, parsed)
  end.

Definition read_response (resp : HttpResponse) : AppResult Value :=
  if negb (hr_success resp)
  then Err (bad_request ("upstream returned " +:+ hr_status resp))
  else let? bytes := map_err net_err (hr_bytes resp) in
       if MAX_BODY <? len bytes then Err (bad_request "upstream body too large")
       else map_err (fun _ => bad_request "upstream returned non-JSON") (from_slice bytes).

Definition post_form (url : string) (form : list (string * string)) : AppResult Value :=
  let? cu := guarded_client url in
  let? resp := map_err net_err (send_post cu.1 cu.2 form) in
  read_response resp.

Definition get_json (url : string) (bearer : option string) : AppResult Value :=
  let? cu := guarded_client url in
  let? resp := map_err net_err (send_get cu.1 cu.2 bearer) in
  read_response resp.

(** C37 The gate: a client is only built for an https URL all of whose resolved addresses pass the
    blocklist, and it is pinned to the first of them; so every fetch of the server goes to an
    address that was checked. *)
Theorem guarded_client_safe `{!ReqwestPins} url c u :
  guarded_client url = Ok (c, u) ->
  parse_url url = Some u /\ u_scheme u = "https" /\
  exists host addrs, u_host u = Some host /\ lookup_host host (default 443 (u_port u)) = Some addrs /\
    head addrs = Some (cl_pinned c) /\ Forall (fun ip => is_blocked_ip ip = false) addrs /\
    is_blocked_ip (cl_pinned c) = false.
Proof.
  unfold guarded_client. intros Hg.
  apply result_bind_ok in Hg as (parsed & Hp%ok_or_ok & Hg).
  apply result_bind_ok in Hg as ([] & Hs & Hg).
  destruct (String.eqb_spec (u_scheme parsed) "https") as [Hhttps|]; [|done].
  apply result_bind_ok in Hg as (host & Hh%ok_or_ok & Hg).
  apply result_bind_ok in Hg as (addrs & Ha%ok_or_ok & Hg).
  destruct addrs as [|first rest]; [done|]. destruct (existsb _ _) eqn:Hb; [done|].
  apply result_bind_ok in Hg as (cl & Hc%map_err_ok & [= -> ->]).
  pose proof (build_client_pins _ _ _ Hc) as Hpin.
  assert (Hall : Forall (fun ip => is_blocked_ip ip = false) (first :: rest)).
  { apply Forall_forall. intros ip Hip. apply not_true_is_false. intros Hbl.
    apply not_true_iff_false in Hb. apply Hb, existsb_exists. exists ip.
    split; [by apply list_elem_of_In|done]. }
  split_and!; [done|done|]. exists host, (first :: rest). rewrite Hpin.
  split_and!; [done|done|done|done|]. by apply Forall_inv in Hall.
Qed.

(** A fetch that was answered went through such a client. *)
Lemma get_json_guarded url bearer v :
  get_json url bearer = Ok v -> exists c u, guarded_client url = Ok (c, u) /\ is_ok (send_get c u bearer) = true.
Proof.
  unfold get_json. intros ([c u] & Hg & Hr)%result_bind_ok. exists c, u. split; [done|].
  apply result_bind_ok in Hr as (resp & Hs%map_err_ok & _). simpl in Hs. by rewrite Hs.
Qed.
End Client.

(** ** The blocklist as address ranges *)

Definition octet (x : Z) : Prop := 0 <= x <= 255.
Definition addr32 (a b c d : Z) : Z := ((a * 256 + b) * 256 + c) * 256 + d.

(** [net/len] *)
Definition in_cidr (net : Z) (len : Z) (x : Z) : bool :=
  Z.shiftr x (32 - len) =? Z.shiftr net (32 - len).

Definition blocked_ranges : list (Z * Z) :=
  [(addr32 0 0 0 0, 8); (addr32 10 0 0 0, 8); (addr32 100 64 0 0, 10); (addr32 127 0 0 0, 8);
   (addr32 169 254 0 0, 16); (addr32 172 16 0 0, 12); (addr32 192 0 2 0, 24);
   (addr32 192 168 0 0, 16); (addr32 198 51 100 0, 24); (addr32 203 0 113 0, 24);
   (addr32 224 0 0 0, 4); (addr32 255 255 255 255, 32)].

Lemma land_192 b : octet b -> (Z.land b 192 =? 64) = (b / 64 =? 1).
Proof.
  unfold octet. intros Hb.
  assert (Hall : forallb (fun n => Bool.eqb (Z.land (Z.of_nat n) 192 =? 64) (Z.of_nat n / 64 =? 1))
                   (seq 0 256) = true) by (vm_compute; reflexivity).
  apply forallb_forall with (x := Z.to_nat b) in Hall.
  - rewrite Z2Nat.id in Hall by lia. by apply eqb_prop.
  - apply in_seq. lia.
Qed.

Lemma in_cidr_div net len x :
  0 <= len <= 32 -> in_cidr net len x = (x / 2 ^ (32 - len) =? net / 2 ^ (32 - len)).
Proof. intros Hl. unfold in_cidr. by rewrite !Z.shiftr_div_pow2 by lia. Qed.

(** The leading bits of an address, from its octets. *)
Lemma addr32_prefixes a b c d :
  octet a -> octet b -> octet c -> octet d ->
  let x := addr32 a b c d in
  x / 2 ^ (32 - 4) = a / 16 /\ x / 2 ^ (32 - 8) = a /\ x / 2 ^ (32 - 10) = a * 4 + b / 64 /\
  x / 2 ^ (32 - 12) = a * 16 + b / 16 /\ x / 2 ^ (32 - 16) = a * 256 + b /\
  x / 2 ^ (32 - 24) = (a * 256 + b) * 256 + c /\ x / 2 ^ (32 - 32) = x.
Proof.
  unfold octet, addr32. intros Ha Hb Hc Hd.
  repeat match goal with |- context [2 ^ ?e] =>
    let v := eval vm_compute in (2 ^ e) in change (2 ^ e) with v end.
  cbv zeta. split_and!; Z.to_euclidean_division_equations; lia.
Qed.

(** Prove one disjunct. *)
Ltac pick :=
  lazymatch goal with
  | |- _ \/ _ => first [left; pick | right; pick]
  | |- _ => lia
  end.

(** On IPv4 the blocklist is exactly the union of the ranges the SSRF gate must refuse: this
    network, private, carrier-grade NAT, loopback, link-local, documentation, multicast and
    broadcast. *)
Theorem blocked_v4_ranges a b c d :
  octet a -> octet b -> octet c -> octet d ->
  is_blocked_v4 a b c d = existsb (fun r => in_cidr r.1 r.2 (addr32 a b c d)) blocked_ranges.
Proof.
  intros Ha Hb Hc Hd. apply eq_true_iff_eq. unfold is_blocked_v4. rewrite land_192 by done.
  unfold blocked_ranges. cbn [existsb fst snd]. rewrite !in_cidr_div by lia.
  destruct (addr32_prefixes a b c d Ha Hb Hc Hd) as (E4 & E8 & E10 & E12 & E16 & E24 & E32).
  rewrite E4, E8, E10, E12, E16, E24, E32.
  clear E4 E8 E10 E12 E16 E24 E32.
  repeat match goal with |- context [addr32 ?w ?x ?y ?z / 2 ^ ?e] =>
    let v := eval vm_compute in (addr32 w x y z / 2 ^ e) in
    change (addr32 w x y z / 2 ^ e) with v end.
  unfold is_private, is_loopback, is_link_local, is_unspecified, is_broadcast, is_documentation,
    is_multicast, addr32, octet in *.
  rewrite !orb_true_iff, !andb_true_iff, !Z.eqb_eq, !Z.leb_le.
  assert (Eb : 16 * (b / 16) <= b < 16 * (b / 16) + 16) by (Z.to_euclidean_division_equations; lia).
  assert (Eb' : 64 * (b / 64) <= b < 64 * (b / 64) + 64) by (Z.to_euclidean_division_equations; lia).
  assert (Ea : 16 * (a / 16) <= a < 16 * (a / 16) + 16) by (Z.to_euclidean_division_equations; lia).
  generalize dependent (b / 16). generalize dependent (b / 64). generalize dependent (a / 16).
  intros a16 Ea b64 Eb' b16 Eb. split.
  - intros Hblock. repeat (destruct Hblock as [Hblock|Hblock]); pick.
  - intros Hblock. repeat (destruct Hblock as [Hblock|Hblock]); [pick..|discriminate].
Qed.

(** The IPv6 side checks mapped addresses, but neither the well-known NAT64 prefix nor the
    IPv4-compatible form: the metadata endpoint and loopback pass when embedded that way. *)
Lemma embedded_v4_not_blocked :
  is_blocked_ip (V6 0x64 0xff9b 0 0 0 0 0xa9fe 0xa9fe) = false /\
  is_blocked_ip (V6 0 0 0 0 0 0 0x7f00 1) = false /\
  is_blocked_ip (V6 0 0 0 0 0 65535 0xa9fe 0xa9fe) = true.
Proof. by vm_compute. Qed.
