(* ===== verification/Connectors.v ===== *)
(** * Running a connector ([connectors.rs])

    [POST /api/connectors/:id/run] fetches the connector's target through the SSRF gate and
    stamps the outcome on the connector, whatever it was. *)

From S2P Require Import Prelude RustStr Json AppError Closure Schema Registry Workflow State Rbac.
From S2P Require Import Caller FieldPerms Objects Fixture ObjectHandlers HttpClient.

Local Open Scope Z_scope.

(** [jsonb_set(data, '{key}', v)] on an object; another value has no such path. *)
Definition jsonb_set (k : string) (v : Value) (data : Value) : option Value :=
  match data with JObject m => Some (JObject (map_insert k v m)) | _ => None end.

Section Run.
Context `{SerdeJson, Postgres, Reqwest}.

(** The UPDATE, returning the new version. *)
Definition stamp_run (id status : string) : SqlM Z := fun db =>
  match select_data id "connector" db with
  | None => Err RowNotFound
  | Some row =>
      match jsonb_set "last_run_at" (JString (timestamp_text (now db))) (d_data row)
              ≫= jsonb_set "status" (JString status) with
      | None => Err (OtherDb "cannot set path in scalar")
      | Some data =>
          if d_version row =? i32_max then Err (OtherDb "integer out of range")
          else let version := d_version row + 1 in
               Ok (version, set_entity_data
                  (<[id := mkDataRow "connector" data (d_scope_parent_id row) version (now db)]>
                     (entity_data db)) db)
      end
  end.

(** [let _ = stamp_run(..)]: the outcome is dropped. *)
Definition ignore {A} (m : M A) : M unit := fun st => (Ok tt, (m st).2).

Definition run_connector (ctx : RequestCtx) (caller : Caller.t) (id : string) : M Response :=
  st ← get_state;
  row ← lift (ok_or (select_data id "connector" (pool st)) (deny_404 ctx));
  st ← get_state;
  _ ← ensure (reach_action st caller id Edit) (deny_404 ctx);
  let data := d_data row in
  let kind := default "" (get_str "kind" data) in
  let target := default "" (get_str "target" data) in
  _ ← ensure (String.eqb kind "http_json") (with_request_id (ctx_request_id ctx)
        (unprocessable ("connector kind '" +:+ kind +:+ "' is not runnable in v1 (only http_json)")));
  _ ← ensure (negb (is_empty target))
        (with_request_id (ctx_request_id ctx) (unprocessable "connector has no target"));
  result ← match get_json target None with
           | Ok v => mret v
           | Err e => _ ← ignore (run_sql (stamp_run id "error"));
                      fail (with_request_id (ctx_request_id ctx) e)
           end;
  version ← run_sql (stamp_run id "active");
  _ ← record_event ctx (Caller.actor_id caller) (Some id) "connector.ran"
        (json_object [("id", JString id); ("target", JString target)]);
  mret (mkResponse OK [("etag", etag version)]
    (Some (json_object [("connector", JString id); ("ran", JBool true);
                        ("version", json_int version); ("result", result)]))).

Lemma stamp_run_ok id status db v db' :
  stamp_run id status db = Ok (v, db') ->
  exists row m, entity_data db !! id = Some row /\ d_type_id row = "connector" /\
    d_data row = JObject m /\ v = d_version row + 1 /\ d_version row <> i32_max /\
    db' = set_entity_data
      (<[id := mkDataRow "connector"
                 (JObject (map_insert "status" (JString status)
                    (map_insert "last_run_at" (JString (timestamp_text (now db))) m)))
                 (d_scope_parent_id row) (d_version row + 1) (now db)]> (entity_data db)) db.
Proof.
  unfold stamp_run. destruct (select_data _ _ _) as [row|] eqn:E; [|done].
  apply select_data_Some in E as [Hrow Hty]. destruct (d_data row) as [| | | | |m] eqn:Ed; try done.
  simpl. destruct (Z.eqb_spec (d_version row) i32_max); [done|]. intros [= <- <-].
  exists row, m. by split_and!.
Qed.

(** Running a connector: only an editor of an [http_json] connector runs it, its target went
    through the gate, and the run changes the connector's status and time of last run and
    nothing else, under the next version, which the answer carries. *)
Theorem run_connector_ok ctx caller id st r st' :
  run_connector ctx caller id st = (Ok r, st') ->
  exists row row' target v,
    reach_action st caller id Edit = true /\
    entity_data (pool st) !! id = Some row /\ get_str "kind" (d_data row) = Some "http_json" /\
    get_str "target" (d_data row) = Some target /\ get_json target None = Ok v /\
    entity_data (pool st') !! id = Some row' /\ d_version row' = d_version row + 1 /\
    In ("etag", etag (d_version row')) (resp_headers r) /\
    get_str "status" (d_data row') = Some "active" /\
    (forall k, k <> "status" -> k <> "last_run_at" -> get k (d_data row') = get k (d_data row)) /\
    forall id', id' <> id -> entity_data (pool st') !! id' = entity_data (pool st) !! id'.
Proof.
  unfold run_connector. intros Hr. inv_m.
  match goal with He : record_event _ _ _ _ _ _ = _ |- _ => apply record_event_ok in He as [evs ->] end.
  match goal with Hg : (match get_json ?t None with Ok _ => _ | Err _ => _ end) _ = (Ok ?y, ?s) |- _ =>
    destruct (get_json t None) as [v|e] eqn:Hget; inv_m end.
  match goal with Hs : stamp_run _ _ _ = _ |- _ =>
    apply stamp_run_ok in Hs as (row' & m & Hrow & Hty & Hd & -> & _ & ->) end.
  match goal with Hs : select_data _ _ _ = Some ?r |- _ => rename r into row;
    apply select_data_Some in Hs as [Hrow' _] end.
  assert (row' = row) as -> by congruence. simpl.
  match goal with Hk : String.eqb _ "http_json" = true |- _ => apply String.eqb_eq in Hk as Hkind end.
  match goal with Ht : negb (is_empty _) = true |- _ => rename Ht into Htarget end.
  destruct (get_str "kind" (d_data row)) as [kind|] eqn:Ek; [|done]. simpl in Hkind. subst kind.
  destruct (get_str "target" (d_data row)) as [target|] eqn:Et; [|done].
  exists row. eexists. exists target, v. rewrite lookup_insert_eq.
  split_and!; try done.
  - simpl. auto.
  - simpl. unfold get_str, get. by rewrite map_get_insert.
  - intros k Hs Hl. simpl. rewrite Hd. simpl. by rewrite !map_get_insert_ne by congruence.
  - intros id' Hne. by rewrite lookup_insert_ne.
Qed.

(** A failed fetch is reported and recorded: the request fails with the gate's error, and the
    connector is left marked as in error under its next version; nothing else changed. *)
Theorem run_connector_error ctx caller id st row m target e :
  select_data id "connector" (pool st) = Some row -> d_data row = JObject m ->
  d_version row <> i32_max -> reach_action st caller id Edit = true ->
  get_str "kind" (d_data row) = Some "http_json" ->
  get_str "target" (d_data row) = Some target -> target <> "" ->
  get_json target None = Err e ->
  exists row' db', run_connector ctx caller id st =
      (Err (with_request_id (ctx_request_id ctx) e), set_pool db' st) /\
    db' = set_entity_data (<[id := row']> (entity_data (pool st))) (pool st) /\
    get_str "status" (d_data row') = Some "error" /\ d_version row' = d_version row + 1.
Proof.
  intros Hsel Hd Hv Ha Hk Ht Hne Hg. unfold run_connector. run_m. rewrite Hsel. simpl.
  rewrite Ha, Hk, Ht. simpl. destruct target as [|c t]; [done|]. simpl. rewrite Hg. unfold ignore.
  unfold run_sql, stamp_run. rewrite Hsel, Hd. cbn [jsonb_set mbind option_bind].
  destruct (Z.eqb_spec (d_version row) i32_max); [done|]. simpl.
  do 2 eexists. split_and!; [done|done| |done]. simpl. unfold get_str, get. by rewrite map_get_insert.
Qed.
End Run.
