(* ===== verification/Auth.v ===== *)
(** * Sessions and the caller ([auth.rs])

    Opaque session tokens of which the store keeps the digest, the extractor that turns a request
    into a [Caller], the claim of the first admin, and logout. Tokens, identifiers and the clock
    are inputs; SHA-256 is a parameter. *)

From S2P Require Import Prelude RustStr Encoding Json AppError Closure Schema Registry Workflow.
From S2P Require Import State Rbac Caller FieldPerms Objects Fixture ObjectHandlers Connectors.
From Stdlib Require Import Ascii.

Local Open Scope Z_scope.

(** SHA-256 (32 bytes), and whether this is a debug build. *)
Class Sha2 := { sha256 : string -> string }.
Class Build := { debug_assertions : bool }.

Definition SESSION_COOKIE : string := "numu_session".

(** [now() + interval '30 days'], in microseconds. *)
Definition session_ttl : Z := 30 * 86400 * 1000000.

Section Auth.
Context `{Postgres, Sha2, Build}.

Definition SECURE : string := if debug_assertions then "" else "; Secure".

Definition sha256_hex (s : string) : string := hex (sha256 s).

Definition cookie_token (header_value : string) : option string :=
  cookie_named SESSION_COOKIE header_value.

Definition insert_session (sid : string) (row : SessionRow) : SqlM unit := fun db =>
  if decide (is_Some (sessions db !! sid)) then Err UniqueViolation
  else if decide (map_Exists (fun _ r => s_token_hash r = s_token_hash row) (sessions db))
  then Err UniqueViolation
  else if fk_ok (entities db) (Some (s_actor_id row))
  then Ok (tt, set_sessions (<[sid := row]> (sessions db)) db)
  else Err ForeignKeyViolation.

(** [token] is two fresh v4 identifiers, [uuid] another one. *)
Definition mint_session (actor_id token uuid : string) : M string :=
  let hash := sha256_hex token in
  let sid := mint "SES" uuid in
  _ ← run_sql (t ← sql_now; insert_session sid (mkSessionRow actor_id hash (t + session_ttl)));
  mret (SESSION_COOKIE +:+ "=" +:+ token +:+ "; HttpOnly; SameSite=Lax; Path=/; Max-Age=2592000"
        +:+ SECURE).

(** [data->>'platform_role'] *)
Definition platform_role (data : Value) : option string := get "platform_role" data ≫= jsonb_text.

(** The live sessions with that digest whose actor is an actor object. *)
Definition live_sessions (db : Db) (hash : string) : list (string * option string) :=
  select_list (fun (_ : string) row =>
    if decide (s_token_hash row = hash /\ now db < s_expires_at row) then
      (fun d => (s_actor_id row, platform_role (d_data d)))
        <$> select_data (s_actor_id row) "actor" db
    else None) (sessions db).

Definition from_request_parts (headers : HeaderMap) : M Caller.t :=
  token ← lift (ok_or (header_str headers "cookie" ≫= cookie_token) unauthorized);
  let hash := sha256_hex token in
  st ← get_state;
  row ← lift (ok_or (head (live_sessions (pool st) hash)) unauthorized);
  mret (Caller.mk row.1 (bool_decide (row.2 = Some "admin"))).

Definition dev_login (body_actor : option string) (token uuid : string) : M Response :=
  st ← get_state;
  let actor_id := default "USR_dev" body_actor in
  _ ← lift (ok_or (select_data actor_id "actor" (pool st)) not_found);
  cookie ← mint_session actor_id token uuid;
  mret (mkResponse OK [("set-cookie", cookie)] (Some (json_object [("actor_id", JString actor_id)]))).

(** An actor other than the seeded one that is already an admin. *)
Definition real_admin (id : string) (row : DataRow) : Prop :=
  d_type_id row = "actor" /\ id <> "USR_dev" /\ platform_role (d_data row) = Some "admin".
#[export] Instance real_admin_dec id row : Decision (real_admin id row).
Proof. unfold real_admin. apply _. Defined.

(** The one UPDATE of the claim: the number of rows it changed. *)
Definition claim_update (actor_id : string) : SqlM Z := fun db =>
  match select_data actor_id "actor" db with
  | None => Ok (0, db)
  | Some row =>
      if decide (map_Exists real_admin (entity_data db)) then Ok (0, db)
      else match jsonb_set "platform_role" (JString "admin") (d_data row) with
           | None => Err (OtherDb "cannot set path in scalar")
           | Some data =>
               Ok (1, set_entity_data
                 (<[actor_id := mkDataRow "actor" data (d_scope_parent_id row) (d_version row)
                                  (d_updated_at row)]> (entity_data db)) db)
           end
  end.

Definition claim_admin (caller : Caller.t) : M Response :=
  rows ← run_sql (claim_update (Caller.actor_id caller));
  _ ← ensure (negb (rows =? 0)) (conflict "an admin already exists");
  mret (mkResponse OK []
    (Some (json_object [("actor_id", JString (Caller.actor_id caller));
                        ("platform_role", JString "admin")]))).

Definition delete_sessions (actor_id : string) : SqlM unit := fun db =>
  Ok (tt, set_sessions (filter (fun kv => s_actor_id kv.2 <> actor_id) (sessions db)) db).

Definition logout (caller : Caller.t) : M Response :=
  _ ← run_sql (delete_sessions (Caller.actor_id caller));
  let cleared := SESSION_COOKIE +:+ "=; HttpOnly; SameSite=Lax; Path=/; Max-Age=0" +:+ SECURE in
  mret (mkResponse NO_CONTENT [("set-cookie", cleared)] None).

(** ** Who a request speaks for *)

Lemma from_request_parts_found headers st token row :
  ok_or (header_str headers "cookie" ≫= cookie_token) unauthorized = Ok token ->
  ok_or (head (live_sessions (pool st) (sha256_hex token))) unauthorized = Ok row ->
  from_request_parts headers st = (Ok (Caller.mk row.1 (bool_decide (row.2 = Some "admin"))), st).
Proof. intros Ht Hr. unfold from_request_parts. rewrite Ht. run_m. by rewrite Hr. Qed.

Lemma elem_of_live_sessions db hash x :
  x ∈ live_sessions db hash <->
  exists sid row d, sessions db !! sid = Some row /\ s_token_hash row = hash /\
    now db < s_expires_at row /\ select_data (s_actor_id row) "actor" db = Some d /\
    x = (s_actor_id row, platform_role (d_data d)).
Proof.
  unfold live_sessions. rewrite elem_of_select_list. split.
  - intros (sid & row & Hrow & Hf). case_decide as Hd; [|done]. destruct Hd as [Hh Ht].
    apply fmap_Some in Hf as (d & Hd & ->). eauto 10.
  - intros (sid & row & d & Hrow & Hh & Ht & Hd & ->). exists sid, row. split; [done|].
    rewrite decide_True by done. by rewrite Hd.
Qed.

(** C38 Authentication is sound: a request speaks for an actor only with a cookie whose digest is
    that of an unexpired session of that actor, it is a platform admin exactly when the stored
    role of the actor says so, and every other request gets a 401. *)
Theorem authentication_sound headers st :
  ReadOnly (from_request_parts headers) /\
  match (from_request_parts headers st).1 with
  | Ok c => exists token sid row d,
      header_str headers "cookie" ≫= cookie_token = Some token /\
      sessions (pool st) !! sid = Some row /\ s_token_hash row = sha256_hex token /\
      now (pool st) < s_expires_at row /\ s_actor_id row = Caller.actor_id c /\
      select_data (Caller.actor_id c) "actor" (pool st) = Some d /\
      (Caller.is_platform_admin c = true <-> platform_role (d_data d) = Some "admin")
  | Err e => e = unauthorized
  end.
Proof.
  split; [unfold from_request_parts; apply _|]. unfold from_request_parts.
  destruct (header_str headers "cookie" ≫= cookie_token) as [token|] eqn:Ht; [|done]. run_m. simpl.
  destruct (head (live_sessions (pool st) (sha256_hex token))) as [[a p]|] eqn:Hh; [|done]. simpl.
  assert (Hin : (a, p) ∈ live_sessions (pool st) (sha256_hex token)).
  { destruct (live_sessions _ _); [done|]. injection Hh as ->. left. }
  apply elem_of_live_sessions in Hin as (sid & row & d & Hrow & Hhash & Hexp & Hd & [= -> ->]).
  exists token, sid, row, d. split_and!; try done. apply bool_decide_eq_true.
Qed.

(** ** The life of a session *)

(** Digests are unique (a constraint of the table). *)
Definition tokens_unique (db : Db) : Prop :=
  forall i j ri rj, sessions db !! i = Some ri -> sessions db !! j = Some rj ->
    s_token_hash ri = s_token_hash rj -> i = j.

Lemma mint_session_ok actor token uuid st cookie st' :
  mint_session actor token uuid st = (Ok cookie, st') ->
  let row := mkSessionRow actor (sha256_hex token) (now (pool st) + session_ttl) in
  sessions (pool st) !! mint "SES" uuid = None /\
  (forall i r, sessions (pool st) !! i = Some r -> s_token_hash r <> sha256_hex token) /\
  is_Some (entities (pool st) !! actor) /\
  st' = set_pool (set_sessions (<[mint "SES" uuid := row]> (sessions (pool st))) (pool st)) st /\
  starts_with (SESSION_COOKIE +:+ "=" +:+ token +:+ ";") cookie = true.
Proof.
  unfold mint_session. intros Hr. inv_m. inv_sql.
  match goal with Hi : insert_session _ _ _ = _ |- _ =>
    unfold insert_session in Hi; destruct (decide _) as [|Hn] in Hi; [done|];
    destruct (decide _) as [|Hu] in Hi; [done|]; destruct (fk_ok _ _) eqn:Hf in Hi; [|done];
    injection Hi as _ <- end.
  apply fk_ok_Some in Hf. split_and!; try done.
  - by apply eq_None_not_Some.
  - intros i r Hi Heq. apply Hu. by exists i, r.
  - unfold starts_with.
    assert (E : SESSION_COOKIE +:+ "=" +:+ token +:+ "; HttpOnly; SameSite=Lax; Path=/; Max-Age=2592000" +:+ SECURE
      = (SESSION_COOKIE +:+ "=" +:+ token +:+ ";") +:+ (" HttpOnly; SameSite=Lax; Path=/; Max-Age=2592000" +:+ SECURE)).
    { rewrite !append_assoc. done. }
    by rewrite E, strip_prefix_app.
Qed.

(** A login is a session: with the cookie of a successful login, every request before the
    session's 30 days are over speaks for that actor, also after any other change of the store
    that keeps the session and the actor. *)
Theorem session_roundtrip actor token uuid st cookie st' st'' d :
  tokens_unique (pool st) ->
  all_chars token_char token = true ->
  mint_session actor token uuid st = (Ok cookie, st') ->
  sessions (pool st'') = sessions (pool st') ->
  select_data actor "actor" (pool st'') = Some d ->
  now (pool st'') < now (pool st) + session_ttl ->
  from_request_parts {[ "cookie" := Some (SESSION_COOKIE +:+ "=" +:+ token) ]} st'' =
    (Ok (Caller.mk actor (bool_decide (platform_role (d_data d) = Some "admin"))), st'').
Proof.
  intros Huniq Htok Hm Hs Hd Hnow. apply mint_session_ok in Hm as (Hnone & Hfresh & _ & -> & _).
  unfold from_request_parts. run_m. unfold header_str. rewrite lookup_singleton_eq. cbn [mbind option_bind id].
  unfold cookie_token. rewrite cookie_named_single by done. cbn [ok_or].
  set (row := mkSessionRow actor (sha256_hex token) (now (pool st) + session_ttl)) in *.
  simpl in Hs.
  assert (Hin : (actor, platform_role (d_data d)) ∈ live_sessions (pool st'') (sha256_hex token)).
  { apply elem_of_live_sessions. exists (mint "SES" uuid), row, d. rewrite Hs, lookup_insert_eq.
    by split_and!. }
  assert (Hall : forall x, x ∈ live_sessions (pool st'') (sha256_hex token) ->
    x = (actor, platform_role (d_data d))).
  { intros x (sid & r & d' & Hr & Hh & _ & Hd' & ->)%elem_of_live_sessions. rewrite Hs in Hr.
    apply lookup_insert_Some in Hr as [[<- <-]|[_ Hr]]; [|by apply Hfresh in Hr].
    simpl in *. congruence. }
  destruct (live_sessions (pool st'') (sha256_hex token)) as [|x l]; [by apply elem_of_nil in Hin|].
  rewrite (Hall x) by left. done.
Qed.

Lemma from_request_parts_ok headers st c st' :
  from_request_parts headers st = (Ok c, st') ->
  st' = st /\ exists sid row, sessions (pool st) !! sid = Some row /\
    s_actor_id row = Caller.actor_id c /\ now (pool st) < s_expires_at row /\
    is_Some (entity_data (pool st) !! Caller.actor_id c).
Proof.
  unfold from_request_parts. intros Hf. inv_m. simpl. split; [done|].
  match goal with Hh : head ?l = Some ?x |- _ =>
    assert (Hin : x ∈ l) by (destruct l; [done|]; injection Hh as ->; left) end.
  apply elem_of_live_sessions in Hin as (sid & row & d & Hrow & _ & Hexp & Hd & ->).
  apply select_data_Some in Hd as [Hd _]. exists sid, row. by split_and!.
Qed.

Lemma logout_ok caller st r st' :
  logout caller st = (Ok r, st') ->
  st' = set_pool (set_sessions (filter (fun kv => s_actor_id kv.2 <> Caller.actor_id caller)
                                  (sessions (pool st))) (pool st)) st.
Proof.
  unfold logout. intros Hr. inv_m.
  match goal with Hd : delete_sessions _ _ = _ |- _ => unfold delete_sessions in Hd; by injection Hd as _ <- end.
Qed.

(** Logout revokes at once: afterwards no cookie whatsoever speaks for the actor. *)
Theorem logout_revokes caller st r st' headers c st'' :
  logout caller st = (Ok r, st') ->
  from_request_parts headers st' = (Ok c, st'') -> Caller.actor_id c <> Caller.actor_id caller.
Proof.
  intros ->%logout_ok (_ & sid & row & Hrow & <- & _)%from_request_parts_ok. simpl in Hrow.
  by apply map_lookup_filter_Some in Hrow as [_ ?].
Qed.

(** ** The claim of the first admin *)

Lemma jsonb_set_role m v :
  jsonb_set "platform_role" (JString "admin") (JObject m) = Some v ->
  platform_role v = Some "admin".
Proof. intros [= <-]. unfold platform_role, get. by rewrite map_get_insert. Qed.

(** The bootstrap closes behind itself: a successful claim makes the caller's actor an admin
    when no other actor than the seeded one was, and every later claim, by whomever, is
    refused with a 409 and changes nothing (unless the seeded actor itself was the claimant). *)
Theorem claim_admin_once caller st r st' :
  claim_admin caller st = (Ok r, st') ->
  (exists row, select_data (Caller.actor_id caller) "actor" (pool st') = Some row /\
     platform_role (d_data row) = Some "admin") /\
  (forall id row, entity_data (pool st) !! id = Some row -> ~ real_admin id row) /\
  (Caller.actor_id caller <> "USR_dev" ->
   forall caller', claim_admin caller' st' = (Err (conflict "an admin already exists"), st')).
Proof.
  unfold claim_admin at 1. intros Hr. inv_m.
  match goal with Hu : claim_update _ _ = _ |- _ =>
    unfold claim_update in Hu; destruct (select_data _ _ _) as [row|] eqn:Hsel in Hu; [|by simplify_eq];
    destruct (decide _) as [|Hn] in Hu; [by simplify_eq|];
    destruct (jsonb_set _ _ _) as [data|] eqn:Hj in Hu; [|done]; injection Hu as <- <- end.
  assert (Hrole : platform_role data = Some "admin").
  { destruct (d_data row) as [| | | | |m]; try done. by eapply jsonb_set_role. }
  split_and!.
  - eexists. split; [apply select_data_Some; split; [simpl; apply lookup_insert_eq|done]|done].
  - intros id row' Hrow' Hreal. apply Hn. by exists id, row'.
  - intros Hdev caller'. unfold claim_admin. run_m. unfold run_sql. cbn [pool set_pool].
    assert (Hex : map_Exists real_admin (entity_data (set_entity_data
      (<[Caller.actor_id caller := mkDataRow "actor" data (d_scope_parent_id row) (d_version row)
            (d_updated_at row)]> (entity_data (pool st))) (pool st)))).
    { eexists _, _. split; [simpl; apply lookup_insert_eq|]. by split_and!. }
    unfold claim_update at 1. destruct (select_data (Caller.actor_id caller') _ _); [|done].
    rewrite decide_True by done. done.
Qed.

End Auth.

(** The claim can be closed by anyone: creating an actor is open to every caller, and its
    [platform_role] is settable on creation, so that a caller without any membership creates an
    admin actor, after which the first claim of a real admin is refused. *)
Theorem created_admin_blocks_claim :
  is_ok (claim_admin alice seed_state).1 = true /\
  exists r st', coll_create ctx0 carol "actor" (json_headers None)
      "{display_name:m,platform_role:admin}" "9" seed_state = (Ok r, st') /\
    (claim_admin alice st').1 = Err (conflict "an admin already exists").
Proof.
  split; [vm_compute; reflexivity|]. do 2 eexists. split; vm_compute; reflexivity.
Qed.
