(* ===== verification/OAuth.v ===== *)
(** * The OAuth login ([oauth.rs])

    Signed, stateless login state; the exchange of a code for an identity through a [Fetcher];
    the link from (provider, subject) to an actor; the callback. The environment, HMAC, the JWT
    library and the fetcher are parameters; random tokens and the clock are inputs. *)

From S2P Require Import Prelude RustStr Encoding Json AppError Closure Schema Registry Workflow.
From S2P Require Import State Rbac Caller FieldPerms Objects Fixture ObjectHandlers HttpClient.
From S2P Require Import Connectors Auth Config.
From Stdlib Require Import Ascii.

Local Open Scope Z_scope.

Definition STATE_COOKIE : string := "numu_oauth".
Definition STATE_TTL_SECS : Z := 600.

Inductive ProviderKind :=
| Userinfo
| IdToken (jwks_url issuer : string).

Record Provider := mkProvider {
  p_name : string; p_authorize_url : string; p_token_url : string; p_userinfo_url : string;
  p_scopes : string; p_client_id : string; p_client_secret : string; p_redirect_uri : string;
  p_kind : ProviderKind }.

(** The trait [Fetcher]. *)
Record Fetcher := mkFetcher {
  f_post_form : string -> list (string * string) -> AppResult Value;
  f_get_json : string -> option string -> AppResult Value }.

Definition SsrfFetcher `{SerdeJson, Reqwest} : Fetcher := mkFetcher post_form get_json.

Record IdClaims := mkIdClaims {
  ic_sub : string; ic_email : option string; ic_nonce : option string }.

(** HMAC-SHA-256, [jsonwebtoken], URLs with parameters. *)
Class Hmac := { hmac_sha256 : string -> string -> string }.
Class Jwt := {
  jwt_key : Type;
  decode_kid : string -> option (option string);
  rsa_key : string -> string -> option jwt_key;
  decode_claims : string -> jwt_key -> string -> string -> option IdClaims }.
Class UrlParams := { url_with_params : string -> list (string * string) -> option string }.

(** ** Providers *)

Section Providers.
Context `{Env}.

(** [Some(Provider { .. env::var(..).ok()? .. })] *)
Definition configured (name authorize_url token_url userinfo_url scopes id secret redirect : string)
    (kind : ProviderKind) : option Provider :=
  client_id ← env_var id;
  client_secret ← env_var secret;
  redirect_uri ← env_var redirect;
  Some (mkProvider name authorize_url token_url userinfo_url scopes client_id client_secret
          redirect_uri kind).

Definition google : option Provider :=
  configured "google" "https://accounts.google.com/o/oauth2/v2/auth"
    "https://oauth2.googleapis.com/token" "https://openidconnect.googleapis.com/v1/userinfo"
    "openid email profile" "GOOGLE_CLIENT_ID" "GOOGLE_CLIENT_SECRET" "GOOGLE_REDIRECT_URI" Userinfo.

Definition apple : option Provider :=
  configured "apple" "https://appleid.apple.com/auth/authorize"
    "https://appleid.apple.com/auth/token" "" "name email" "APPLE_CLIENT_ID" "APPLE_CLIENT_SECRET"
    "APPLE_REDIRECT_URI"
    (IdToken "https://appleid.apple.com/auth/keys" "https://appleid.apple.com").

Definition facebook : option Provider :=
  configured "facebook" "https://www.facebook.com/v19.0/dialog/oauth"
    "https://graph.facebook.com/v19.0/oauth/access_token"
    "https://graph.facebook.com/me?fields=id,name,email" "email public_profile"
    "FACEBOOK_CLIENT_ID" "FACEBOOK_CLIENT_SECRET" "FACEBOOK_REDIRECT_URI" Userinfo.

Definition tiktok : option Provider :=
  configured "tiktok" "https://www.tiktok.com/v2/auth/authorize/"
    "https://open.tiktokapis.com/v2/oauth/token/"
    "https://open.tiktokapis.com/v2/user/info/?fields=open_id,display_name" "user.info.basic"
    "TIKTOK_CLIENT_KEY" "TIKTOK_CLIENT_SECRET" "TIKTOK_REDIRECT_URI" Userinfo.

Definition provider (name : string) : option Provider :=
  if String.eqb name "google" then google
  else if String.eqb name "apple" then apple
  else if String.eqb name "facebook" then facebook
  else if String.eqb name "tiktok" then tiktok
  else None.

Definition secret : string := default "dev-insecure-secret-change-me" (env_var "NUMU_SECRET").
End Providers.

(** ** Signed state *)

Section SignedState.
Context `{Env, Hmac}.

Definition sign_state (payload : string) : string :=
  payload +:+ "." +:+ hex (hmac_sha256 secret payload).

(** [verify_slice] compares the whole digest. *)
Definition verify_state (signed : string) : option string :=
  '(payload, sig_hex) ← rsplit_once "."%char signed;
  sig ← unhex sig_hex;
  if String.eqb sig (hmac_sha256 secret payload) then Some payload else None.

(** Login state round-trips: what was signed verifies to the same payload, and nothing
    verifies that does not carry the HMAC of its payload under the server's secret. *)
Theorem state_roundtrip :
  (forall payload, verify_state (sign_state payload) = Some payload) /\
  forall signed payload, verify_state signed = Some payload ->
    exists sig_hex, signed = payload +:+ String "."%char sig_hex /\
      unhex sig_hex = Some (hmac_sha256 secret payload).
Proof.
  split.
  - intros payload. unfold verify_state, sign_state.
    change ("." +:+ hex (hmac_sha256 secret payload))
      with (String "."%char (hex (hmac_sha256 secret payload))).
    rewrite rsplit_once_app; cycle 1.
    { eapply all_chars_impl; [|apply hex_chars]. intros c Hc.
      by rewrite (hex_char_not c "."%char Hc eq_refl). }
    cbn [mbind option_bind]. rewrite unhex_hex. cbn [mbind option_bind]. by rewrite String.eqb_refl.
  - intros signed payload. unfold verify_state.
    destruct (rsplit_once "."%char signed) as [[p q]|] eqn:E; [|done]. cbn [mbind option_bind].
    destruct (unhex q) as [sig|] eqn:Eu; [|done]. cbn [mbind option_bind].
    destruct (String.eqb_spec sig (hmac_sha256 secret p)) as [->|]; [|done]. intros [= <-].
    exists q. split; [by apply rsplit_once_join|done].
Qed.
End SignedState.

(** ** The identity a provider vouches for *)

(** [a.or_else(|| b)] *)
Definition or_else {A} (a b : option A) : option A := match a with Some x => Some x | None => b end.

Definition extract_identity (userinfo : Value) : AppResult (string * option string * string) :=
  let root := default userinfo (get "data" userinfo ≫= get "user") in
  let? sub := ok_or (or_else (get "sub" root) (or_else (get "id" root) (get "open_id" root)) ≫= as_str)
                (bad_request "provider returned no subject") in
  let email := get_str "email" root in
  let name := default "" (or_else (get "name" root) (get "display_name" root) ≫= as_str) in
  Ok (sub, email, name).

Definition insert_identity (provider sub actor_id : string) (email : option string) : SqlM unit :=
  fun db =>
    if decide (is_Some (auth_identities db !! (provider, sub))) then Err UniqueViolation
    else if fk_ok (entities db) (Some actor_id)
    then Ok (tt, set_auth_identities
                   (<[(provider, sub) := mkIdentityRow actor_id email]> (auth_identities db)) db)
    else Err ForeignKeyViolation.

(** [&actor_id[4..14.min(len)]] *)
Definition handle_of (actor_id : string) : string :=
  "u_" +:+ slice 4 (Nat.min 14 (String.length actor_id)) actor_id.

Definition new_actor_data (actor_id : string) (email : option string) (name : string) : Value :=
  let handle := handle_of actor_id in
  json_object
    [("display_name", JString (if is_empty name then handle else name));
     ("handle", JString handle); ("email", json_opt email); ("kind", JString "human");
     ("platform_role", JString "member"); ("status", JString "active")].

Definition upsert_identity (provider sub : string) (email : option string) (name : string)
    (uuid : string) : M string :=
  st ← get_state;
  match auth_identities (pool st) !! (provider, sub) with
  | Some row => mret (i_actor_id row)
  | None =>
      let actor_id := mint "USR" uuid in
      _ ← run_sql (
        _ ← insert_entity actor_id "actor" (Some actor_id);
        _ ← insert_data actor_id "actor" (new_actor_data actor_id email name) None;
        insert_identity provider sub actor_id email);
      mret actor_id
  end.

Section Flow.
Context `{SerdeJson, Reqwest, Postgres, Env, Hmac, Jwt, Sha2, Build, UrlParams}.

Definition verify_id_token (id_token client_id issuer jwks_url : string) (fetcher : Fetcher)
    (expected_nonce : string) : AppResult (string * option string) :=
  let? header := ok_or (decode_kid id_token) unauthorized in
  let? kid := ok_or header unauthorized in
  let? jwks := f_get_json fetcher jwks_url None in
  let? ks := ok_or (get "keys" jwks ≫= as_array) unauthorized in
  let? jwk := ok_or (List.find (fun k => bool_decide (get_str "kid" k = Some kid)) ks) unauthorized in
  let? n := ok_or (get_str "n" jwk) unauthorized in
  let? e := ok_or (get_str "e" jwk) unauthorized in
  let? key := ok_or (rsa_key n e) unauthorized in
  let? claims := ok_or (decode_claims id_token key client_id issuer) unauthorized in
  if bool_decide (ic_nonce claims = Some expected_nonce)
  then Ok (ic_sub claims, ic_email claims)
  else Err unauthorized.

(** What the provider answers to the code: the subject, the email and the name. *)
Definition login_identity (p : Provider) (fetcher : Fetcher) (code nonce : string)
    : AppResult (string * option string * string) :=
  let? token := f_post_form fetcher (p_token_url p)
    [("grant_type", "authorization_code"); ("code", code); ("client_id", p_client_id p);
     ("client_secret", p_client_secret p); ("redirect_uri", p_redirect_uri p)] in
  match p_kind p with
  | Userinfo =>
      let? access := ok_or (get_str "access_token" token)
                       (bad_request "token endpoint returned no access_token") in
      let? userinfo := f_get_json fetcher (p_userinfo_url p) (Some access) in
      extract_identity userinfo
  | IdToken jwks_url issuer =>
      let? id_token := ok_or (get_str "id_token" token)
                         (bad_request "token endpoint returned no id_token") in
      let? se := verify_id_token id_token (p_client_id p) issuer jwks_url fetcher nonce in
      Ok (se.1, se.2, "")
  end.

(** The randomness of a login: the actor's, the session's and its token. *)
Record LoginRandom := mkLoginRandom { lr_actor : string; lr_session : string; lr_token : string }.

Definition complete_login (p : Provider) (fetcher : Fetcher) (code nonce : string)
    (rnd : LoginRandom) : M string :=
  who ← lift (login_identity p fetcher code nonce);
  let '(sub, email, name) := who in
  actor_id ← upsert_identity (p_name p) sub email name (lr_actor rnd);
  mint_session actor_id (lr_token rnd) (lr_session rnd).

(** ** Handlers *)

Definition start (name : string) (uuid : string) (now_unix : Z) : M Response :=
  p ← lift (ok_or (provider name) not_found);
  let nonce := mint "st" uuid in
  let payload := nonce +:+ ":" +:+ show_Z (now_unix + STATE_TTL_SECS) in
  let signed := sign_state payload in
  url ← lift (ok_or (url_with_params (p_authorize_url p)
          [("response_type", "code"); ("client_id", p_client_id p);
           ("redirect_uri", p_redirect_uri p); ("scope", p_scopes p); ("state", nonce);
           ("nonce", nonce)]) (internal "bad authorize url"));
  let cookie := STATE_COOKIE +:+ "=" +:+ signed +:+ "; HttpOnly; SameSite=Lax; Path=/; Max-Age="
                  +:+ show_Z STATE_TTL_SECS +:+ SECURE in
  mret (mkResponse FOUND [("location", url); ("set-cookie", cookie)] None).

Definition cookie_value (headers : HeaderMap) (name : string) : option string :=
  header_str headers "cookie" ≫= cookie_named name.

Definition callback (name code state : string) (headers : HeaderMap)
    (now_unix : Z) (rnd : LoginRandom) : M Response :=
  p ← lift (ok_or (provider name) not_found);
  signed ← lift (ok_or (cookie_value headers STATE_COOKIE) unauthorized);
  payload ← lift (ok_or (verify_state signed) unauthorized);
  ne ← lift (ok_or (split_once ":"%char payload) unauthorized);
  let nonce := ne.1 in
  let exp := default 0 (parse_u64 ne.2) in
  _ ← ensure (negb (negb (String.eqb nonce state) || (exp <? now_unix))) unauthorized;
  session ← complete_login p SsrfFetcher code nonce rnd;
  let cleared := STATE_COOKIE +:+ "=; HttpOnly; SameSite=Lax; Path=/; Max-Age=0" +:+ SECURE in
  mret (mkResponse OK (header_parts [("set-cookie", session); ("set-cookie", cleared)])
    (Some (json_object [("ok", JBool true)]))).

(** ** What a login establishes *)

Lemma upsert_identity_ok provider sub email name uuid st a st' :
  upsert_identity provider sub email name uuid st = (Ok a, st') ->
  (exists row, auth_identities (pool st) !! (provider, sub) = Some row /\ i_actor_id row = a /\ st' = st)
  \/
  (auth_identities (pool st) !! (provider, sub) = None /\ a = mint "USR" uuid /\
   entities (pool st) !! a = None /\ entity_data (pool st) !! a = None /\
   pool st' = set_auth_identities
     (<[(provider, sub) := mkIdentityRow a email]> (auth_identities (pool st)))
     (set_entity_data (<[a := mkDataRow "actor" (new_actor_data a email name) None 1 (now (pool st))]>
                         (entity_data (pool st)))
       (set_entities (<[a := mkEntityRow "actor" (Some a)]> (entities (pool st))) (pool st)))).
Proof.
  unfold upsert_identity. intros Hr. inv_m.
  destruct (auth_identities (pool st) !! (provider, sub)) as [row|] eqn:E.
  { left. inv_m. eauto. }
  right. inv_m. inv_sql.
  match goal with He : insert_entity _ _ _ _ = _ |- _ => apply insert_entity_ok in He as (? & _ & ->) end.
  match goal with He : insert_data _ _ _ _ _ = _ |- _ => apply insert_data_ok in He as (? & _ & _ & _ & ->) end.
  match goal with Hi : insert_identity _ _ _ _ _ = _ |- _ =>
    unfold insert_identity in Hi; destruct (decide _) in Hi; [done|];
    destruct (fk_ok _ _) in Hi; [|done]; injection Hi as _ <- end.
  by split_and!.
Qed.

Lemma new_actor_role a email name : platform_role (new_actor_data a email name) = Some "member".
Proof. reflexivity. Qed.

(** Identity is by (provider, subject), never by email: a known pair gives its actor, whatever
    email or name the provider sends, and changes nothing; an unknown pair makes a new actor that
    is no admin, and leaves every existing actor and identity as it was. *)
Theorem identity_by_subject provider sub email name uuid st a st' :
  upsert_identity provider sub email name uuid st = (Ok a, st') ->
  (i_actor_id <$> auth_identities (pool st') !! (provider, sub) = Some a) /\
  (forall k, k <> (provider, sub) -> auth_identities (pool st') !! k = auth_identities (pool st) !! k) /\
  (forall row, auth_identities (pool st) !! (provider, sub) = Some row -> st' = st /\ i_actor_id row = a) /\
  (auth_identities (pool st) !! (provider, sub) = None ->
   entities (pool st) !! a = None /\
   (exists d, select_data a "actor" (pool st') = Some d /\ platform_role (d_data d) = Some "member") /\
   forall id, id <> a -> entity_data (pool st') !! id = entity_data (pool st) !! id).
Proof.
  intros [(row & Hrow & <- & ->)|(Hnone & -> & He & Hd & Hp)]%upsert_identity_ok.
  - rewrite Hrow. split_and!; try done. intros row' [= <-]. done.
  - rewrite Hp. simpl. rewrite lookup_insert_eq. split_and!; try done.
    + intros k Hk. by rewrite lookup_insert_ne.
    + intros row Hrow. congruence.
    + intros _. split_and!; [done| |].
      * eexists. split; [apply select_data_Some; split; [simpl; apply lookup_insert_eq|done]|].
        apply new_actor_role.
      * intros id Hid. by rewrite lookup_insert_ne.
Qed.

(** C39 No forged login: the callback mints a session only when the state cookie verifies under the
    server's secret, carries the very [state] of the query and is not expired, and when the
    provider vouched for a subject; the session belongs to the actor linked to it. *)
Theorem callback_authentic name code state headers now_unix rnd st r st' :
  callback name code state headers now_unix rnd st = (Ok r, st') ->
  exists p signed payload exp sub email nm actor row,
    provider name = Some p /\ cookie_value headers STATE_COOKIE = Some signed /\
    verify_state signed = Some payload /\ split_once ":"%char payload = Some (state, exp) /\
    now_unix <= default 0 (parse_u64 exp) /\
    login_identity p SsrfFetcher code state = Ok (sub, email, nm) /\
    i_actor_id <$> auth_identities (pool st') !! (p_name p, sub) = Some actor /\
    sessions (pool st') !! mint "SES" (lr_session rnd) = Some row /\ s_actor_id row = actor /\
    s_token_hash row = sha256_hex (lr_token rnd).
Proof.
  unfold callback, complete_login. intros Hr. inv_m.
  match goal with Hs : split_once _ _ = Some ?x |- _ => destruct x as [nonce exp]; simpl in * end.
  match goal with Hb : negb (negb (String.eqb _ _) || _) = true |- _ =>
    rewrite negb_orb, negb_involutive in Hb;
    apply andb_prop in Hb as [->%String.eqb_eq Hexp%negb_true_iff%Z.ltb_ge] end.
  match goal with Hl : login_identity _ _ _ _ = Ok ?w |- _ => destruct w as [[sub email] nm] end.
  inv_m.
  match goal with Hu : upsert_identity _ _ _ _ _ _ = _ |- _ => apply upsert_identity_ok in Hu as Hu' end.
  match goal with Hm : mint_session _ _ _ _ = _ |- _ => apply mint_session_ok in Hm as (_ & _ & _ & -> & _) end.
  do 9 eexists. simpl. rewrite lookup_insert_eq. split_and!; try done.
  destruct Hu' as [(row & Hrow & <- & ->)|(_ & -> & _ & _ & Hp)]; [by rewrite Hrow|].
  rewrite Hp. simpl. by rewrite lookup_insert_eq.
Qed.

(** The login does not reach the browser: the two cookies of the callback's response are one array
    of headers with the same name, of which the second, that clears the login state, replaces the
    first, the session's. *)
Theorem callback_session_cookie_lost name code state headers now_unix rnd st r st' :
  callback name code state headers now_unix rnd st = (Ok r, st') ->
  resp_headers r =
    [("set-cookie", STATE_COOKIE +:+ "=; HttpOnly; SameSite=Lax; Path=/; Max-Age=0" +:+ SECURE)].
Proof. unfold callback. intros Hr. inv_m. done. Qed.

(** An OIDC token counts only if a key of the provider's JWKS with the token's key id verifies
    it for this client and issuer, and its nonce is that of the login; anything else is a 401
    (or the fetch's own error). *)
Theorem id_token_bound id_token client_id issuer jwks_url fetcher nonce :
  match verify_id_token id_token client_id issuer jwks_url fetcher nonce with
  | Ok (sub, email) => exists kid jwks ks jwk n e key claims,
      decode_kid id_token = Some (Some kid) /\ f_get_json fetcher jwks_url None = Ok jwks /\
      get "keys" jwks = Some (JArray ks) /\ jwk ∈ ks /\ get_str "kid" jwk = Some kid /\
      get_str "n" jwk = Some n /\ get_str "e" jwk = Some e /\ rsa_key n e = Some key /\
      decode_claims id_token key client_id issuer = Some claims /\
      ic_nonce claims = Some nonce /\ ic_sub claims = sub /\ ic_email claims = email
  | Err err => err = unauthorized \/ f_get_json fetcher jwks_url None = Err err
  end.
Proof.
  unfold verify_id_token. destruct (decode_kid id_token) as [[kid|]|] eqn:Ek; simpl; [|by left..].
  destruct (f_get_json fetcher jwks_url None) as [jwks|err] eqn:Ej; simpl; [|by right].
  destruct (get "keys" jwks) as [[| | | |ks|]|] eqn:Eks; simpl; try (by left).
  destruct (List.find _ ks) as [jwk|] eqn:Ef; simpl; [|by left].
  apply List.find_some in Ef as [Hin%list_elem_of_In Hkid%bool_decide_eq_true].
  destruct (get_str "n" jwk) as [n|] eqn:En; simpl; [|by left].
  destruct (get_str "e" jwk) as [e|] eqn:Ee; simpl; [|by left].
  destruct (rsa_key n e) as [key|] eqn:Er; simpl; [|by left].
  destruct (decode_claims id_token key client_id issuer) as [claims|] eqn:Ed; simpl; [|by left].
  case_bool_decide as Hn; [|by left].
  exists kid, jwks, ks, jwk, n, e, key, claims. by split_and!.
Qed.
End Flow.
