(* ===== verification/RateLimit.v ===== *)
(** * The rate limiter of the auth routes ([ratelimit.rs])

    A fixed window per client key. The lock makes each [allow] one atomic step, so a concurrent
    run is a sequence of hits in the order they take the lock; instants are the monotonic clock.
    Counters are 32 bits wide. *)

From S2P Require Import Prelude RustStr Json AppError Closure Schema Registry Workflow State Rbac.
From S2P Require Import Caller FieldPerms Objects Encoding Config.
From Stdlib Require Import Ascii.

Local Open Scope Z_scope.

Abbreviation Buckets := (gmap string (Z * Z)).

Record RateLimiter := mkRateLimiter { rl_max : Z; rl_window : Z }.

(** [now.duration_since(start)]: zero when [start] is later. *)
Definition duration_since (now start : Z) : Z := Z.max 0 (now - start).

(** [count + 1] on [u32]: it wraps in a release build (a debug build panics instead). *)
Definition u32_succ (c : Z) : Z := (c + 1) mod 2 ^ 32.

(** Bound the memory: with many keys, drop the expired buckets. *)
Definition evict (rl : RateLimiter) (now : Z) (m : Buckets) : Buckets :=
  if 100000 <? Z.of_nat (size m)
  then filter (fun kv => duration_since now kv.2.1 <= rl_window rl) m
  else m.

Definition allow (rl : RateLimiter) (key : string) (now : Z) (m : Buckets) : bool * Buckets :=
  let m := evict rl now m in
  let entry := default (now, 0) (m !! key) in
  let entry := if rl_window rl <? duration_since now entry.1 then (now, 0) else entry in
  let count := u32_succ entry.2 in
  (count <=? rl_max rl, <[key := (entry.1, count)]> m).

(** What the limiter reads of a request: the forwarded header and the socket's peer. *)
Record ClientInfo := mkClientInfo {
  ci_forwarded_for : option string; ci_peer : option string }.

Definition client_key `{Env} (req : ClientInfo) : string :=
  let forwarded :=
    if env_flag "NUMU_TRUST_PROXY"
    then ci_forwarded_for req ≫= fun s => head (split ","%char s) ≫= fun ip =>
           let ip := trim ip in if is_empty ip then None else Some ip
    else None in
  match forwarded with
  | Some ip => ip
  | None => default "global" (ci_peer req)
  end.

(** The middleware: the request goes through, or is answered 429 with its request id. *)
Definition enforce `{Env} (rl : RateLimiter) (req : ClientInfo) (now : Z)
    (ctx : option RequestCtx) (m : Buckets) : option AppError * Buckets :=
  let '(ok, m') := allow rl (client_key req) now m in
  (if ok then None
   else Some (with_request_id (default "" (ctx_request_id <$> ctx)) too_many_requests), m').

(** A sequence of hits, with the verdict on each. *)
Fixpoint serve (rl : RateLimiter) (hits : list (string * Z)) (m : Buckets)
    : list (string * Z * bool) :=
  match hits with
  | [] => []
  | (k, t) :: rest => let '(ok, m') := allow rl k t m in (k, t, ok) :: serve rl rest m'
  end.

(** The buckets a sequence of hits leaves. *)
Definition after_hits (rl : RateLimiter) (hits : list (string * Z)) (m : Buckets) : Buckets :=
  fold_left (fun m h => (allow rl h.1 h.2 m).2) hits m.

(** ** The bounds *)

(** The hits of [k] within [a, b], and those of them let through. *)
Definition hits_in (k : string) (a b : Z) (l : list (string * Z)) : Z :=
  Z.of_nat (length (filter (fun h => h.1 = k /\ a <= h.2 <= b) l)).
Definition admitted (k : string) (a b : Z) (l : list (string * Z * bool)) : Z :=
  Z.of_nat (length (filter (fun h => h.1.1 = k /\ a <= h.1.2 <= b /\ h.2 = true) l)).

(** The bucket of [k] a hit at [t] meets: the old one while its window is open, or none. *)
Lemma evict_lookup rl t m k :
  evict rl t m !! k = m !! k \/
  (evict rl t m !! k = None /\ exists s c, m !! k = Some (s, c) /\ rl_window rl < duration_since t s).
Proof.
  unfold evict. destruct (_ <? _); [|by left].
  destruct (m !! k) as [[s c]|] eqn:E.
  - destruct (decide (duration_since t s <= rl_window rl)) as [Hle|Hgt].
    + left. by apply map_lookup_filter_Some.
    + right. split; [|exists s, c; split; [done|lia]].
      apply map_lookup_filter_None. right. intros [s' c'] Hs. rewrite E in Hs. by injection Hs as <- <-.
  - left. apply map_lookup_filter_None. by left.
Qed.

Section Bounds.
Variable rl : RateLimiter.
Hypothesis window_nonneg : 0 <= rl_window rl.
Hypothesis max_nonneg : 0 <= rl_max rl.

(** The bucket of [k] is missing, or its window is over at [t]. *)
Definition expired (m : Buckets) (k : string) (t : Z) : Prop :=
  m !! k = None \/ exists s c, m !! k = Some (s, c) /\ rl_window rl < duration_since t s.

(** One hit on [k]: it opens a new bucket, or counts on the open one. *)
Lemma allow_self k t m ok m' :
  allow rl k t m = (ok, m') ->
  exists s c, m' !! k = Some (s, u32_succ c) /\ ok = (u32_succ c <=? rl_max rl) /\
    ((s = t /\ c = 0 /\ expired m k t) \/ (m !! k = Some (s, c) /\ duration_since t s <= rl_window rl)).
Proof.
  unfold allow, expired. intros [= <- <-]. rewrite lookup_insert_eq.
  assert (Hself : duration_since t t = 0) by (unfold duration_since; lia).
  destruct (evict_lookup rl t m k) as [->|(-> & s & c & Hm & Hw)].
  - destruct (m !! k) as [[s c]|] eqn:Hm; simpl.
    + destruct (Z.ltb_spec (rl_window rl) (duration_since t s)); simpl.
      * exists t, 0. split_and!; try done. left. split_and!; try done. right. eauto.
      * exists s, c. split_and!; try done. right. split; [done|lia].
    + rewrite Hself. destruct (Z.ltb_spec (rl_window rl) 0); [lia|]. simpl.
      exists t, 0. split_and!; try done. left. auto.
  - simpl. rewrite Hself. destruct (Z.ltb_spec (rl_window rl) 0); [lia|]. simpl.
    exists t, 0. split_and!; try done. left. split_and!; try done. right. eauto.
Qed.

(** A hit on another key keeps the bucket of [k], or drops it when its window is over. *)
Lemma allow_other k k' t m ok m' :
  k' <> k -> allow rl k' t m = (ok, m') ->
  m' !! k = m !! k \/ (m' !! k = None /\ expired m k t).
Proof.
  unfold allow, expired. intros Hne [= <- <-]. rewrite lookup_insert_ne by done.
  destruct (evict_lookup rl t m k) as [->|(-> & ?)]; [by left|right]. eauto.
Qed.

Lemma admitted_cons k a b e l :
  admitted k a b (e :: l) =
    (if decide (e.1.1 = k /\ a <= e.1.2 <= b /\ e.2 = true) then 1 else 0) + admitted k a b l.
Proof. unfold admitted. rewrite filter_cons. case_decide; simpl; lia. Qed.

Lemma sorted_times_inv (h : string * Z) (l : list (string * Z)) :
  StronglySorted Z.le (h :: l).*2 -> StronglySorted Z.le l.*2 /\ Forall (fun h' => h.2 <= h'.2) l.
Proof.
  rewrite fmap_cons. intros [Hs Hge]%StronglySorted_inv. split; [done|].
  apply Forall_forall. intros h' Hin. rewrite Forall_forall in Hge. apply Hge. by apply list_elem_of_fmap_2.
Qed.

(** What is known after [n] hits, the last at [t], of which [A] on [k] were admitted in
    [a, a + window]: at most one bucket of [k] opens in that interval. *)
Definition counted (k : string) (a t n A : Z) (m : Buckets) : Prop :=
  0 <= A /\ A <= 2 * rl_max rl /\ (t < a -> A = 0) /\
  (t <= a + rl_window rl ->
   match m !! k with
   | None => A <= rl_max rl
   | Some (s, c) => 0 <= c <= n /\
       (if s <? a then A <= c /\ A <= rl_max rl else A <= rl_max rl + c)
   end) /\
  match m !! k with None => True | Some (s, c) => 0 <= c <= n end.

Lemma counted_step k a t0 n A m k' t ok m' :
  counted k a t0 n A m -> t0 <= t -> 0 <= n < 2 ^ 32 - 1 -> allow rl k' t m = (ok, m') ->
  counted k a t (n + 1)
    (A + if decide (k' = k /\ a <= t <= a + rl_window rl /\ ok = true) then 1 else 0) m'.
Proof.
  intros (H0 & H1 & H2 & H3 & H4) Ht Hn Hall. unfold counted.
  destruct (decide (k' = k)) as [->|Hne].
  - apply allow_self in Hall as (s & c & -> & -> & Hcase).
    assert (Hc : u32_succ c = c + 1 /\ 0 <= c <= n).
    { assert (0 <= c <= n) as Hcn.
      { destruct Hcase as [(_ & -> & _)|[Hm _]]; [lia|]. by rewrite Hm in H4. }
      split; [|done]. unfold u32_succ. apply Z.mod_small. lia. }
    destruct Hc as [-> Hcn].
    assert (Hexp : t <= a + rl_window rl -> (s = t /\ c = 0 /\ expired m k t) -> A <= rl_max rl).
    { intros Htb (-> & -> & Hex). specialize (H3 ltac:(lia)).
      destruct Hex as [Hnone|(s0 & c0 & Hs0 & Hw)]; [by rewrite Hnone in H3|].
      rewrite Hs0 in H3. unfold duration_since in Hw. destruct (Z.ltb_spec s0 a); lia. }
    assert (Hcont : t <= a + rl_window rl -> m !! k = Some (s, c) ->
              if s <? a then A <= c /\ A <= rl_max rl else A <= rl_max rl + c).
    { intros Htb Hm. specialize (H3 ltac:(lia)). rewrite Hm in H3. tauto. }
    destruct (Z.leb_spec (c + 1) (rl_max rl)) as [Hok|Hno].
    + destruct (decide (a <= t <= a + rl_window rl)) as [Hin|Hout].
      * rewrite decide_True by done. specialize (Hexp ltac:(lia)). specialize (Hcont ltac:(lia)).
        assert (Hb : if s <? a then A + 1 <= c + 1 /\ A + 1 <= rl_max rl else A + 1 <= rl_max rl + (c + 1)).
        { destruct Hcase as [(-> & -> & Hex)|[Hm Hw]].
          - specialize (Hexp (conj eq_refl (conj eq_refl Hex))). destruct (Z.ltb_spec t a); lia.
          - specialize (Hcont Hm). destruct (Z.ltb_spec s a); lia. }
        split; [lia|]. split; [destruct (s <? a); lia|]. split; [lia|]. split; [|lia].
        intros _. split; [lia|exact Hb].
      * rewrite decide_False by tauto. rewrite Z.add_0_r. split; [lia|]. split; [lia|].
        split; [intros; apply H2; lia|]. split; [|lia].
        intros Htb. split; [lia|]. assert (A = 0) by (apply H2; lia). destruct (s <? a); lia.
    + rewrite decide_False by (intros (_ & _ & [=])). rewrite Z.add_0_r.
      split; [lia|]. split; [lia|]. split; [intros; apply H2; lia|]. split; [|lia].
      intros Htb. split; [lia|]. specialize (Hexp Htb). specialize (Hcont Htb).
      destruct Hcase as [(-> & -> & Hex)|[Hm Hw]].
      * specialize (Hexp (conj eq_refl (conj eq_refl Hex))). destruct (Z.ltb_spec t a); [|lia].
        assert (A = 0) by (apply H2; lia). lia.
      * specialize (Hcont Hm). destruct (s <? a); lia.
  - rewrite decide_False by tauto. rewrite Z.add_0_r.
    split; [lia|]. split; [lia|]. split; [intros; apply H2; lia|].
    apply (allow_other k) in Hall as [->|[-> Hex]]; [| |done].
    + split; [|destruct (m !! k) as [[s c]|]; [lia|done]].
      intros Htb. specialize (H3 ltac:(lia)). destruct (m !! k) as [[s c]|]; [|done].
      destruct H3. split; [lia|done].
    + split; [|done]. intros Htb. specialize (H3 ltac:(lia)).
      destruct Hex as [Hnone|(s0 & c0 & Hs0 & Hw)]; [by rewrite Hnone in H3|].
      rewrite Hs0 in H3. unfold duration_since in Hw. destruct (Z.ltb_spec s0 a); lia.
Qed.

Lemma counted_serve k a hits : forall t0 n A m,
  counted k a t0 n A m -> Forall (fun h => t0 <= h.2) hits -> StronglySorted Z.le hits.*2 ->
  0 <= n -> n + Z.of_nat (length hits) < 2 ^ 32 ->
  A + admitted k a (a + rl_window rl) (serve rl hits m) <= 2 * rl_max rl.
Proof.
  induction hits as [|[k' t] hits IH]; intros t0 n A m Hc Hlow Hs Hn Hlen.
  - unfold admitted; simpl. destruct Hc as (_ & ? & _). lia.
  - cbn [serve]. destruct (allow rl k' t m) as [ok m'] eqn:Hall. rewrite admitted_cons. simpl fst; simpl snd.
    apply Forall_cons in Hlow as [Ht0 _]. simpl in Ht0.
    apply sorted_times_inv in Hs as [Hs Hge]. simpl length in Hlen.
    rewrite Z.add_assoc. eapply (IH t (n + 1)); [|..|lia|lia].
    + eapply counted_step; [exact Hc|done|lia|done].
    + exact Hge.
    + done.
Qed.

(** A bucket counts no more than the hits of its key since it opened. *)
Definition honest (m : Buckets) (t : Z) (pre : list (string * Z)) : Prop :=
  forall k s c, m !! k = Some (s, c) -> s <= t /\ 0 <= c <= hits_in k s t pre.

Lemma hits_in_app k a b l1 l2 : hits_in k a b (l1 ++ l2) = hits_in k a b l1 + hits_in k a b l2.
Proof. unfold hits_in. rewrite filter_app, length_app. lia. Qed.

Lemma hits_in_mono k a b a' b' l : a' <= a -> b <= b' -> hits_in k a b l <= hits_in k a' b' l.
Proof.
  intros Ha Hb. unfold hits_in. induction l as [|h l IH]; [done|]. rewrite !filter_cons.
  case_decide as E1; case_decide as E2; simpl; try lia. exfalso. apply E2. split; [tauto|lia].
Qed.

Lemma hits_in_one k a t : a <= t -> hits_in k a t [(k, t)] = 1.
Proof. intros Ha. unfold hits_in. rewrite filter_cons, decide_True by (simpl; split; [done|lia]). done. Qed.

Lemma hits_in_nonneg k a b l : 0 <= hits_in k a b l.
Proof. unfold hits_in. lia. Qed.

Lemma u32_succ_le c : 0 <= c -> 0 <= u32_succ c <= c + 1.
Proof. intros Hc. unfold u32_succ. split; [apply Z.mod_pos_bound; lia|apply Z.mod_le; lia]. Qed.

Lemma honest_step k t0 t m ok m' pre :
  honest m t0 pre -> t0 <= t -> allow rl k t m = (ok, m') -> honest m' t (pre ++ [(k, t)]).
Proof.
  intros Hh Ht Hall k' s c Hk'.
  destruct (decide (k = k')) as [<-|Hne].
  - apply allow_self in Hall as (s0 & c0 & Hm' & _ & Hcase). rewrite Hm' in Hk'. injection Hk' as <- <-.
    rewrite hits_in_app. pose proof (hits_in_nonneg k s0 t pre).
    destruct Hcase as [(-> & -> & _)|[Hm _]].
    + rewrite hits_in_one by lia. pose proof (u32_succ_le 0). lia.
    + apply Hh in Hm as [Hs Hc]. rewrite hits_in_one by lia.
      pose proof (hits_in_mono k s0 t0 s0 t pre). pose proof (u32_succ_le c0). lia.
  - destruct (allow_other k' k t m ok m' Hne Hall) as [Hsame|[Hnone _]]; [|by rewrite Hnone in Hk'].
    rewrite Hsame in Hk'. apply Hh in Hk' as [Hs Hc]. rewrite hits_in_app.
    pose proof (hits_in_mono k' s t0 s t pre). pose proof (hits_in_nonneg k' s t [(k, t)]). lia.
Qed.

Lemma honest_after hits : forall t0 m pre,
  honest m t0 pre -> Forall (fun h => t0 <= h.2) hits -> StronglySorted Z.le hits.*2 ->
  honest (after_hits rl hits m) (default t0 (last hits.*2)) (pre ++ hits).
Proof.
  induction hits as [|[k t] hits IH]; intros t0 m pre Hh Hlow Hs; [by rewrite app_nil_r|].
  apply Forall_cons in Hlow as [Ht0 _]. apply sorted_times_inv in Hs as [Hs Hge].
  unfold after_hits. cbn [fold_left fst snd]. rewrite cons_middle, app_assoc.
  destruct (allow rl k t m) as [ok m'] eqn:Hall.
  replace (default t0 (last ((k, t) :: hits).*2)) with (default t (last hits.*2))
    by (rewrite fmap_cons, last_cons; by destruct (last hits.*2)).
  apply IH; [by eapply honest_step|exact Hge|done].
Qed.

Lemma last_le (l : list Z) (t x : Z) : StronglySorted Z.le (l ++ [t]) -> last l = Some x -> x <= t.
Proof.
  intros Hs Hl. apply last_Some in Hl as [l' ->].
  eapply (StronglySorted_app_1_elem_of Z.le); [exact Hs|set_solver|set_solver].
Qed.

Lemma admitted_bound hits k a :
  Z.of_nat (length hits) < 2 ^ 32 -> StronglySorted Z.le hits.*2 ->
  admitted k a (a + rl_window rl) (serve rl hits ∅) <= 2 * rl_max rl.
Proof.
  intros Hlen Hs. destruct hits as [|h l]; [unfold admitted; simpl; lia|].
  rewrite <-(Z.add_0_l (admitted _ _ _ _)). apply (counted_serve k a (h :: l) h.2 0 0 ∅); [| |done|lia|lia].
  - unfold counted. rewrite lookup_empty. lia.
  - apply sorted_times_inv in Hs as [_ Hge]. constructor; [lia|exact Hge].
Qed.

Lemma refused_bound pre k t :
  StronglySorted Z.le (pre ++ [(k, t)]).*2 ->
  (allow rl k t (after_hits rl pre ∅)).1 = false ->
  rl_max rl < hits_in k (t - rl_window rl) t (pre ++ [(k, t)]).
Proof.
  intros Hs Hno. rewrite hits_in_app, hits_in_one by lia.
  destruct (allow rl k t (after_hits rl pre ∅)) as [ok m'] eqn:Hall. simpl in Hno. subst ok.
  apply allow_self in Hall as (s & c & _ & Hden & Hcase).
  symmetry in Hden. apply Z.leb_gt in Hden. pose proof (hits_in_nonneg k (t - rl_window rl) t pre).
  destruct Hcase as [(-> & -> & _)|[Hm Hopen]]; [pose proof (u32_succ_le 0); lia|].
  destruct pre as [|h pre]; [done|].
  rewrite fmap_app in Hs. pose proof (StronglySorted_app_1_l _ _ _ Hs) as Hsp.
  destruct (sorted_times_inv _ _ Hsp) as [_ Hge].
  apply (honest_after (h :: pre) h.2 ∅ []) in Hm as [Hst Hc]; [|by intros ???|by constructor|done].
  pose proof (u32_succ_le c). simpl app in Hc. unfold duration_since in Hopen.
  destruct (last (h :: pre).*2) as [x|] eqn:Ex.
  - pose proof (last_le _ _ _ Hs Ex) as Hxt. simpl in Hxt, Hst, Hc.
    pose proof (hits_in_mono k s x (t - rl_window rl) t (h :: pre)). lia.
  - rewrite fmap_cons, last_cons in Ex. by destruct (last pre.*2).
Qed.
End Bounds.

(** C40 The limiter is neither too lax nor too strict. For hits in the order of the clock from an
    empty table: of the hits of one client in any window at most twice the maximum go through, and
    a hit is refused only when its client made more than the maximum of hits in the window
    ending there, however many clients share the table and whenever it is purged. *)
Theorem limiter_bounds (rl : RateLimiter) (pre : list (string * Z)) (key : string) (t : Z) :
  0 <= rl_window rl -> 0 <= rl_max rl ->
  Z.of_nat (length (pre ++ [(key, t)])) < 2 ^ 32 ->
  StronglySorted Z.le (pre ++ [(key, t)]).*2 ->
  (forall k a, admitted k a (a + rl_window rl) (serve rl (pre ++ [(key, t)]) ∅) <= 2 * rl_max rl) /\
  ((allow rl key t (after_hits rl pre ∅)).1 = false ->
     rl_max rl < hits_in key (t - rl_window rl) t (pre ++ [(key, t)])).
Proof.
  intros Hw Hmax Hlen Hs. split; [intros k a; by apply admitted_bound|by apply refused_bound].
Qed.
