(* ===== verification/Platform.v ===== *)
(** * Request ids, health and the debug surface ([ids.rs], [request_id.rs], [health.rs], [debug.rs])

    The correlation id every request carries, liveness and readiness, the echo of a request with
    its sensitive headers redacted, and the change of the log filter. Fresh identifiers are inputs;
    the header type of the [http] crate and the installed reloader of the filter are parameters. *)

From S2P Require Import Prelude RustStr Json AppError Closure Schema Registry Workflow State Rbac.
From S2P Require Import Caller FieldPerms Objects Config.
From Stdlib Require Import Ascii.

Local Open Scope Z_scope.

(** ** Request ids *)

Definition request_id (uuid : string) : string := "req_" +:+ uuid.

Definition valid_request_id (s : string) : bool :=
  negb (is_empty s) && (len s <=? 128)
  && all_chars (fun b => is_ascii_alphanumeric b || Ascii.eqb b "_" || Ascii.eqb b "-") s.

(** The documentation of [HeaderValue::from_str]: visible ASCII is accepted. *)
Class HeaderValuesDoc `{HttpCrate} := {
  visible_ok : forall s, all_chars visible s = true -> header_from_str s = Some s }.

Definition request_ctx (headers : HeaderMap) (uuid_request uuid_trace : string) : RequestCtx :=
  mkRequestCtx
    (match header_str headers "x-request-id" with
     | Some s => if valid_request_id s then s else request_id uuid_request
     | None => request_id uuid_request
     end)
    (request_id uuid_trace).

(** The middleware around the rest of the stack, [next]. *)
Definition request_id_layer `{HttpCrate} (headers : HeaderMap)
    (uuid_request uuid_trace : string) (next : RequestCtx -> Response) : Response :=
  let ctx := request_ctx headers uuid_request uuid_trace in
  let resp := next ctx in
  match header_from_str (ctx_request_id ctx) with
  | Some v => mkResponse (resp_status resp) (header_insert "x-request-id" v (resp_headers resp))
                (resp_body resp)
  | None => resp
  end.

(** ** Health *)

Definition healthz (version : string) : Response :=
  mkResponse OK [] (Some (json_object [("status", JString "ok"); ("version", JString version)])).

(** [ping]: the store answered [select 1]. *)
Definition readyz (version : string) (ping : bool) : Response :=
  if ping
  then mkResponse OK [] (Some (json_object [("status", JString "ready"); ("version", JString version)]))
  else mkResponse SERVICE_UNAVAILABLE []
         (Some (json_object [("status", JString "degraded"); ("db", JString "down")])).

(** ** [String::from_utf8_lossy] *)

Definition byte_in (lo hi : N) (b : ascii) : bool := (lo <=? code b)%N && (code b <=? hi)%N.

(** U+FFFD *)
Definition replacement : string :=
  String "239"%char (String "191"%char (String "189"%char EmptyString)).

(** A sequence begun: its bytes, how many more it needs, and the range of the next one. *)
Record Utf8State := mkUtf8 { u_seen : string; u_need : nat; u_lo : N; u_hi : N }.

Definition utf8_start (b : ascii) : string * option Utf8State :=
  let one := String b EmptyString in
  if byte_in 0 127 b then (one, None)
  else if byte_in 194 223 b then ("", Some (mkUtf8 one 1 128 191))
  else if byte_in 224 224 b then ("", Some (mkUtf8 one 2 160 191))
  else if byte_in 225 236 b || byte_in 238 239 b then ("", Some (mkUtf8 one 2 128 191))
  else if byte_in 237 237 b then ("", Some (mkUtf8 one 2 128 159))
  else if byte_in 240 240 b then ("", Some (mkUtf8 one 3 144 191))
  else if byte_in 241 243 b then ("", Some (mkUtf8 one 3 128 191))
  else if byte_in 244 244 b then ("", Some (mkUtf8 one 3 128 143))
  else (replacement, None).

(** An invalid sequence is replaced as far as it was valid. *)
Definition utf8_step (st : option Utf8State) (b : ascii) : string * option Utf8State :=
  match st with
  | None => utf8_start b
  | Some u =>
      if byte_in (u_lo u) (u_hi u) b then
        let seen := u_seen u +:+ String b EmptyString in
        match u_need u with
        | S (S n) => ("", Some (mkUtf8 seen (S n) 128 191))
        | _ => (seen, None)
        end
      else let '(out, st') := utf8_start b in (replacement +:+ out, st')
  end.

Fixpoint utf8_go (st : option Utf8State) (s : string) : string :=
  match s with
  | EmptyString => match st with None => EmptyString | Some _ => replacement end
  | String b rest => let '(out, st') := utf8_step st b in out +:+ utf8_go st' rest
  end.

Definition from_utf8_lossy (s : string) : string := utf8_go None s.

(** ** Debug *)

Definition REDACT : list string :=
  ["cookie"; "set-cookie"; "authorization"; "proxy-authorization"; "x-api-key"].

(** One header as it is echoed; [None] is a value that is not visible ASCII. *)
Definition echo_header (kv : string * option string) : string * Value :=
  (kv.1, JString (if decide (kv.1 ∈ REDACT) then "<redacted>" else default "<binary>" kv.2)).

(** [headers] lists every value of every header, as [HeaderMap::iter] does. *)
Definition echo `{Env} (ctx : RequestCtx) (caller : Caller.t)
    (headers : list (string * option string)) (body : string) : M Response :=
  _ ← ensure (env_flag "NUMU_DEBUG") (with_request_id (ctx_request_id ctx) not_found);
  _ ← ensure (Caller.is_platform_admin caller) (with_request_id (ctx_request_id ctx) forbidden);
  let hdrs := map_collect (echo_header <$> headers) in
  mret (mkResponse OK []
    (Some (json_object [("request_id", JString (ctx_request_id ctx)); ("headers", JObject hdrs);
                        ("body", JString (from_utf8_lossy body))]))).

(** [LOG_RELOAD.set(f)]: the cell is written once. *)
Definition set_log_reloader (f : string -> bool) (cell : option (string -> bool))
    : option (string -> bool) :=
  match cell with None => Some f | Some g => Some g end.

Record LevelInput := mkLevelInput { li_level : string }.

(** The start of the message of a body that does not parse; the quotes are written by code. *)
Definition expected_level : string :=
  let q := String quote "" in
  "expected {" +:+ q +:+ "level" +:+ q +:+ ":" +:+ q +:+ "..." +:+ q +:+ "}: ".

(** [reload] is the closure set at boot, if one was; it tells whether the filter was swapped. *)
Definition set_log_level `{FromSlice LevelInput} (reload : option (string -> bool))
    (ctx : RequestCtx) (caller : Caller.t) (body : string) : M Response :=
  _ ← ensure (Caller.is_platform_admin caller) (with_request_id (ctx_request_id ctx) forbidden);
  input ← lift (map_err (fun e => with_request_id (ctx_request_id ctx)
            (bad_request (expected_level +:+ e)))
          (from_slice_as (A := LevelInput) body));
  match reload with
  | None => fail (with_request_id (ctx_request_id ctx) unavailable)
  | Some r =>
      _ ← ensure (r (li_level input)) (with_request_id (ctx_request_id ctx)
            (bad_request ("invalid log filter: " +:+ li_level input)));
      let payload := json_object [("level", JString (li_level input))] in
      _ ← record_event ctx (Caller.actor_id caller) None "debug.log_level_changed" payload;
      mret (mkResponse OK [] (Some payload))
  end.

(** ** What they guarantee *)

Definition request_id_char (b : ascii) : bool :=
  is_ascii_alphanumeric b || Ascii.eqb b "_" || Ascii.eqb b "-".

(** A v4 or v7 identifier in simple form. *)
Definition uuid_simple (u : string) : Prop := String.length u = 32%nat /\ all_chars request_id_char u = true.

Lemma request_id_valid u : uuid_simple u -> valid_request_id (request_id u) = true.
Proof.
  intros [Hlen Hch]. unfold valid_request_id, request_id, len. rewrite all_chars_app.
  fold request_id_char. change (all_chars request_id_char "req_") with true.
  change (is_empty ("req_" +:+ u)) with false.
  change (String.length ("req_" +:+ u)) with (4 + String.length u)%nat. by rewrite Hlen, Hch.
Qed.

Lemma request_id_char_visible b : request_id_char b = true -> visible b = true.
Proof.
  unfold request_id_char. destruct b as [[] [] [] [] [] [] [] []]; vm_compute; congruence.
Qed.

Lemma all_chars_weaken (p q : ascii -> bool) s :
  (forall c, p c = true -> q c = true) -> all_chars p s = true -> all_chars q s = true.
Proof.
  intros Hpq. induction s as [|c s IH]; [done|]. cbn [all_chars]. intros [H1 H2]%andb_prop.
  by rewrite (Hpq _ H1), (IH H2).
Qed.

Lemma header_insert_lookup k v l : filter (fun kv => kv.1 = k) (header_insert k v l) = [(k, v)].
Proof.
  unfold header_insert. rewrite filter_app, filter_cons, decide_True by done.
  change (filter _ []) with (@nil (string * string)). rewrite <- (app_nil_l [(k, v)]) at 2. f_equal.
  apply elem_of_nil_inv. intros [k' v'] [Hk [Hne _]%list_elem_of_filter]%list_elem_of_filter. by apply Hne.
Qed.

(** Every request runs under a well-formed request id: the client's own when it is well
    formed, a fresh one otherwise. Whatever the handlers answer, the response carries exactly that
    id, once. *)
Theorem request_id_echoed `{HeaderValuesDoc} headers u1 u2 next :
  uuid_simple u1 ->
  let id := ctx_request_id (request_ctx headers u1 u2) in
  valid_request_id id = true /\
  (forall s, header_str headers "x-request-id" = Some s -> valid_request_id s = true -> id = s) /\
  filter (fun kv => kv.1 = "x-request-id") (resp_headers (request_id_layer headers u1 u2 next))
    = [("x-request-id", id)].
Proof.
  intros Hu id.
  assert (Hid : valid_request_id id = true).
  { unfold id, request_ctx; simpl. destruct (header_str headers "x-request-id") as [s|];
      [destruct (valid_request_id s) eqn:Es; [done|]|]; by apply request_id_valid. }
  split; [done|]. split.
  - intros s Hs Hv. unfold id, request_ctx; simpl. by rewrite Hs, Hv.
  - unfold request_id_layer. fold id. rewrite visible_ok; [apply header_insert_lookup|].
    unfold valid_request_id in Hid. apply andb_prop in Hid as [_ Hid].
    eapply all_chars_weaken; [|exact Hid]. apply request_id_char_visible.
Qed.

(** Two lists of headers that differ at most in the values of the sensitive ones. *)
Definition same_but_secrets (h h' : string * option string) : Prop :=
  h.1 = h'.1 /\ (h.1 ∉ REDACT -> h.2 = h'.2).

(** The echo reveals nothing of the credentials of a request: its answer, and whether there
    is one, is a function of the other headers. It is off for everyone unless enabled. *)
Theorem echo_redacts `{Env} ctx caller h h' body st :
  Forall2 same_but_secrets h h' ->
  echo ctx caller h body st = echo ctx caller h' body st /\
  (env_flag "NUMU_DEBUG" = false ->
   echo ctx caller h body st = (Err (with_request_id (ctx_request_id ctx) not_found), st)).
Proof.
  intros Hh. assert (E : echo_header <$> h = echo_header <$> h').
  { induction Hh as [|[k v] [k' v'] l l' [Hk Hv] _ IH]; [done|]. simpl in Hk, Hv. subst k'.
    rewrite !fmap_cons, IH. f_equal. unfold echo_header. simpl. case_decide; [done|]. by rewrite Hv. }
  split; [unfold echo; by rewrite E|]. intros Hoff. unfold echo. run_m. by rewrite Hoff.
Qed.

(** The log filter is changed by admins only, and each change is in the audit trail; any
    other outcome leaves the store as it is. *)
Theorem set_log_level_audited `{FromSlice LevelInput} reload ctx caller body st :
  match set_log_level reload ctx caller body st with
  | (Ok _, st') =>
      Caller.is_platform_admin caller = true /\
      exists r input, reload = Some r /\ from_slice_as body = Ok input /\ r (li_level input) = true /\
        st' = set_pool (set_events (events (pool st) ++
          [mkEventRow None (Caller.actor_id caller) "debug.log_level_changed"
             (json_object [("level", JString (li_level input))])
             (ctx_request_id ctx) (ctx_trace_id ctx)]) (pool st)) st
  | (Err _, st') => st' = st
  end.
Proof.
  unfold set_log_level. run_m. destruct (Caller.is_platform_admin caller); [|done]. simpl.
  destruct (from_slice_as body) as [input|e]; [|done]. simpl.
  destruct reload as [r|]; [|done]. destruct (r (li_level input)) eqn:Er; [|done]. simpl.
  split; [done|]. by exists r, input.
Qed.

(** ASCII text is decoded as it is. *)
Lemma utf8_ascii s : all_chars (byte_in 0 127) s = true -> from_utf8_lossy s = s.
Proof.
  unfold from_utf8_lossy. induction s as [|b s IH]; [done|]. cbn [all_chars utf8_go utf8_step].
  intros [Hb Hs]%andb_prop. unfold utf8_start. rewrite Hb. rewrite IH by done. done.
Qed.
