(* ===== verification/Search.v ===== *)
(** * Omnisearch ([search.rs])

    One reach-filtered full-text search over every type. The text search of the store (the parsed
    query, the match, the rank and the order of ranks) is a parameter. *)

From S2P Require Import Prelude RustStr Json AppError Closure Schema Registry Workflow State Rbac.
From S2P Require Import Caller FieldPerms Objects Fixture ObjectHandlers.

Local Open Scope Z_scope.

(** [search_vector] is generated from [data]; ranks are compared by the store and printed. *)
Class FullText := {
  Tsquery : Type;
  Rank : Type;
  websearch_to_tsquery : string -> Tsquery;
  ts_matches : Value -> Tsquery -> bool;
  ts_rank : Value -> Tsquery -> Rank;
  rank_leb : Rank -> Rank -> bool;
  rank_json : Rank -> Value }.

Section Search.
Context `{Postgres, FullText}.

(** [coalesce(data->>'title', data->>'name', data->>'display_name', entity_id)] *)
Definition title_of (id : string) (data : Value) : string :=
  let text k := get k data ≫= jsonb_text in
  match text "title", text "name", text "display_name" with
  | Some s, _, _ => s
  | None, Some s, _ => s
  | None, None, Some s => s
  | None, None, None => id
  end.

Record SearchRow := mkSearchRow {
  sr_entity_id : string; sr_type_id : string; sr_rank : Rank; sr_title : string }.

(** [order by rank desc] *)
Definition better (a b : SearchRow) : Prop := rank_leb (sr_rank b) (sr_rank a) = true.
#[export] Instance better_dec : RelDecision better.
Proof. intros a b. unfold better. apply _. Defined.

(** One row of [SELECT], when the object matches. *)
Definition search_row (q : string) (type_filter : option string) (id : string) (row : DataRow)
    : option SearchRow :=
  let query := websearch_to_tsquery q in
  if ts_matches (d_data row) query
     && match type_filter with None => true | Some t => String.eqb (d_type_id row) t end
  then Some (mkSearchRow id (d_type_id row) (ts_rank (d_data row) query) (title_of id (d_data row)))
  else None.

(** [SELECT .. [and d.entity_id = any(reach)] order by rank desc limit ..]; rows of the same rank
    come in one fixed order, which the statement leaves open. *)
Definition search_rows (db : Db) (q : string) (type_filter : option string)
    (ids : option (list string)) (limit : Z) : list SearchRow :=
  take (Z.to_nat limit) (merge_sort better (select_list (fun id row =>
    if match ids with Some l => bool_decide (id ∈ l) | None => true end
    then search_row q type_filter id row else None) (entity_data db))).

Definition search_json (r : SearchRow) : Value :=
  json_object [("entity_id", JString (sr_entity_id r)); ("type", JString (sr_type_id r));
               ("title", JString (sr_title r)); ("rank", rank_json (sr_rank r))].

Definition search (ctx : RequestCtx) (caller : Caller.t) (q_q q_type : option string)
    (q_limit : option Z) : M Response :=
  let q := default "" q_q in
  _ ← ensure (negb (is_empty (trim q)))
        (with_request_id (ctx_request_id ctx) (bad_request "the `q` query param is required"));
  let limit := clamp 1 100 (default 20 q_limit) in
  st ← get_state;
  let ids := if Caller.is_platform_admin caller then None
             else Some (reachable_entity_ids_any (pool st) (Caller.actor_id caller)) in
  st ← get_state;
  let rows := search_rows (pool st) q q_type ids limit in
  mret (mkResponse OK []
    (Some (json_object [("query", JString q); ("results", JArray (search_json <$> rows))]))).

(** ** What it guarantees *)

(** The matching objects among [ids], best first. *)
Lemma search_rows_spec db q tf ids :
  (forall a b, rank_leb a b = true \/ rank_leb b a = true) -> Transitive (fun a b => rank_leb a b = true) ->
  exists all,
    (forall r, r ∈ all <-> exists row, entity_data db !! sr_entity_id r = Some row /\
       search_row q tf (sr_entity_id r) row = Some r /\
       match ids with Some l => sr_entity_id r ∈ l | None => True end) /\
    Sorted better all /\
    forall limit, search_rows db q tf ids limit = take (Z.to_nat limit) all.
Proof.
  intros Htot Htr. eexists. split; [|split; [|by intros limit]].
  - intros r. rewrite merge_sort_Permutation, elem_of_select_list. split.
    + intros (id & row & Hrow & Hr).
      assert (Hid : sr_entity_id r = id).
      { unfold search_row in Hr. destruct ids; [case_bool_decide; [|done]|];
        destruct (_ && _); try done; by injection Hr as <-. }
      rewrite Hid. exists row. split; [done|].
      destruct ids as [l|]; [case_bool_decide; [|done]|]; done.
    + intros (row & Hrow & Hr & Hids). exists (sr_entity_id r), row. split; [done|].
      destruct ids as [l|]; [|done]. by rewrite bool_decide_eq_true_2.
  - apply Sorted_merge_sort. intros a b. unfold better. apply Htot.
Qed.

(** C32 Search finds exactly what matches within the caller's reach, and nothing else: there is
    one ranked list of these, of which a search returns the best ones, between 1 and 100; a
    search without a query is refused, and no search changes anything. *)
Theorem search_exactly_reach ctx caller q tf st :
  (forall a b, rank_leb a b = true \/ rank_leb b a = true) ->
  Transitive (fun a b => rank_leb a b = true) ->
  Caller.is_platform_admin caller = false -> is_empty (trim q) = false ->
  exists all,
    (forall r, r ∈ all <->
       sr_entity_id r ∈ reach (pool st) (Caller.actor_id caller) /\
       exists row, entity_data (pool st) !! sr_entity_id r = Some row /\
                   search_row q tf (sr_entity_id r) row = Some r) /\
    Sorted better all /\
    forall q_limit,
      let limit := clamp 1 100 (default 20 q_limit) in
      1 <= limit <= 100 /\
      search ctx caller (Some q) tf q_limit st =
        (Ok (mkResponse OK [] (Some (json_object
           [("query", JString q); ("results", JArray (search_json <$> take (Z.to_nat limit) all))]))), st).
Proof.
  intros Htot Htr Ha Hq.
  destruct (search_rows_spec (pool st) q tf
    (Some (reachable_entity_ids_any (pool st) (Caller.actor_id caller))) Htot Htr)
    as (all & Hall & Hs & Hsel).
  exists all. split_and!; [|done|].
  - intros r. rewrite Hall. unfold reachable_entity_ids_any. setoid_rewrite elem_of_elements. naive_solver.
  - intros q_limit limit. split; [unfold limit, clamp; lia|].
    unfold search. run_m. simpl. rewrite Hq, Ha. simpl. by rewrite Hsel.
Qed.
End Search.

(** ** Beside the read floors *)

(** A text search that finds the word it is asked for in the title. *)
#[export] Instance fixture_fulltext : FullText := {
  Tsquery := string;
  Rank := Z;
  websearch_to_tsquery q := q;
  ts_matches data q := bool_decide (get_str "title" data = Some q);
  ts_rank _ _ := 1;
  rank_leb := Z.leb;
  rank_json := json_int }.

(** Only owners may read the titles of notes. *)
Definition secret_titles : AppState :=
  set_pool (mkDb (type_definitions seed_db) (type_fields seed_db) (entities seed_db)
    (entity_data seed_db) (memberships seed_db) (roles seed_db)
    {[("note", "title", "owner") := (true, true)]} (workflows seed_db) (cases seed_db)
    (case_close_checks seed_db) (relations seed_db) (feature_runs seed_db) (role_handoffs seed_db)
    (sessions seed_db) (auth_identities seed_db) (events seed_db) (now seed_db)) seed_state.

(** The members of the body of an answer. *)
Definition body_of (r : AppResult Response) : Value :=
  match r with Ok resp => default JNull (resp_body resp) | Err _ => JNull end.

(** A search shows the title of an object to a caller for whom GET drops it, and finds the
    object by it. *)
Theorem search_shows_unreadable_title :
  get "title" (default JNull (get "data" (body_of
    (item_get ctx0 bob "note" "NOT_1" ∅ secret_titles).1))) = None /\
  body_of (search ctx0 bob (Some "first") None None secret_titles).1 =
    json_object [("query", JString "first"); ("results", JArray
      [json_object [("entity_id", JString "NOT_1"); ("type", JString "note");
                    ("title", JString "first"); ("rank", json_int 1)]])].
Proof. split; vm_compute; reflexivity. Qed.
