(* ===== verification/Steps.v ===== *)
(** * Requests as sequences of statements

    A compositional way to show that a handler moves the state along a preorder: [Respects R m].
    Its rules follow the monad, so that the handlers of the whole server are covered by the rules
    of their statements. The first use is [data_step], what a single statement can do to the
    objects: everything between two points of an execution, whoever sent it and however requests
    interleave, is a sequence of such steps. *)

From S2P Require Import Prelude RustStr Json AppError Closure Schema Registry Workflow State Rbac.
From S2P Require Import Caller FieldPerms Objects Fixture ObjectHandlers.

Local Open Scope Z_scope.

(** ** Respecting a preorder *)

Class Respects (R : relation AppState) {A} (m : M A) : Prop :=
  respects : forall st, R st (m st).2.
Class SqlRespects (R : relation AppState) {A} (m : SqlM A) : Prop :=
  sql_respects : forall st a db, m (pool st) = Ok (a, db) -> R st (set_pool db st).
#[global] Hint Mode Respects ! - ! : typeclass_instances.

Section Rules.
Context (R : relation AppState) `{!PreOrder R}.

#[export] Instance respects_ro {A} (m : M A) `{!ReadOnly m} : Respects R m | 10.
Proof. intros st. rewrite (read_only (m := m) st). reflexivity. Qed.

#[export] Instance respects_bind {A B} (m : M A) (k : A -> M B) :
  Respects R m -> (forall a, Respects R (k a)) -> Respects R (m ≫= k).
Proof.
  intros Hm Hk st. unfold mbind, m_bind. specialize (Hm st). destruct (m st) as [[a|e] st1]; [|done].
  etransitivity; [exact Hm|apply Hk].
Qed.

#[export] Instance respects_run_sql {A} (m : SqlM A) : SqlRespects R m -> Respects R (run_sql m).
Proof.
  intros Hm st. unfold run_sql. destruct (m (pool st)) as [[a db]|e] eqn:E; [by eapply Hm|reflexivity].
Qed.

#[export] Instance respects_decide {A} (P : Prop) `{Decision P} (m1 m2 : M A) :
  Respects R m1 -> Respects R m2 -> Respects R (if decide P then m1 else m2).
Proof. by case_decide. Qed.

#[export] Instance respects_if {A} (b : bool) (m1 m2 : M A) :
  Respects R m1 -> Respects R m2 -> Respects R (if b then m1 else m2).
Proof. by destruct b. Qed.

#[export] Instance sql_respects_bind {A B} (m : SqlM A) (k : A -> SqlM B) :
  SqlRespects R m -> (forall a, SqlRespects R (k a)) -> SqlRespects R (m ≫= k).
Proof.
  intros Hm Hk st b db (a & db1 & H1 & H2)%sql_bind_ok.
  etransitivity; [by eapply Hm|]. exact (Hk a (set_pool db1 st) b db H2).
Qed.

#[export] Instance sql_respects_ret {A} (a : A) : SqlRespects R (mret a : SqlM A).
Proof. intros st b db [= _ <-]. by rewrite set_pool_id. Qed.

#[export] Instance sql_respects_now : SqlRespects R sql_now.
Proof. intros st b db [= _ <-]. by rewrite set_pool_id. Qed.

#[export] Instance sql_respects_decide {A} (P : Prop) `{Decision P} (m1 m2 : SqlM A) :
  SqlRespects R m1 -> SqlRespects R m2 -> SqlRespects R (if decide P then m1 else m2).
Proof. by case_decide. Qed.
End Rules.

(** Step through a handler: the rules, and a case for each [match]. *)
Ltac respects_tac :=
  repeat (first
    [ progress intros
    | progress cbv zeta
    | apply _
    | apply respects_bind
    | match goal with |- Respects _ (match ?x with _ => _ end) => destruct x end ]).

(** ** Relations that depend on part of the store *)

(** The part [proj] of the state is left as it is. *)
Definition keeps {X} (proj : AppState -> X) : relation AppState := fun st st' => proj st' = proj st.
#[export] Instance keeps_preorder {X} (proj : AppState -> X) : PreOrder (keeps proj).
Proof. split; [by intros ?|]. intros x y z H1 H2. unfold keeps in *. congruence. Qed.

(** ** What one statement does to the objects *)

Definition set_data (data : Value) (row : DataRow) : DataRow :=
  mkDataRow (d_type_id row) data (d_scope_parent_id row) (d_version row) (d_updated_at row).

Inductive data_step (minted : string -> Prop) : relation (gmap string DataRow) :=
| step_insert t id row :
    minted id -> t !! id = None -> d_version row = 1 -> data_step minted t (<[id := row]> t)
| step_update t id row row' :
    t !! id = Some row -> d_type_id row' = d_type_id row -> d_version row' = d_version row + 1 ->
    data_step minted t (<[id := row']> t)
| step_delete t id : data_step minted t (cascade_data id <$> delete id t)
| step_claim t id row data :
    t !! id = Some row -> d_type_id row = "actor" -> data_step minted t (<[id := set_data data row]> t).

Definition data_steps (minted : string -> Prop) : relation AppState := fun st st' =>
  rtc (data_step minted) (entity_data (pool st)) (entity_data (pool st')).

#[export] Instance data_steps_preorder minted : PreOrder (data_steps minted).
Proof.
  split; [by intros ?; apply rtc_refl|]. intros x y z H1 H2. unfold data_steps in *. by etransitivity.
Qed.

(** A statement that leaves the objects alone. *)
Lemma data_steps_frame minted {A} (m : SqlM A) :
  (forall db a db', m db = Ok (a, db') -> entity_data db' = entity_data db) ->
  SqlRespects (data_steps minted) m.
Proof. intros Hm st a db Hr. unfold data_steps. rewrite set_pool_pool, (Hm _ _ _ Hr). apply rtc_refl. Qed.

Section Statements.
Context `{Postgres}.
Variable minted : string -> Prop.

#[export] Instance record_event_steps ctx a e k p :
  Respects (data_steps minted) (record_event ctx a e k p).
Proof.
  intros st. destruct (record_event_entities ctx a e k p st) as [evs ->]. apply rtc_refl.
Qed.

#[export] Instance insert_entity_steps id t by_ : SqlRespects (data_steps minted) (insert_entity id t by_).
Proof. apply data_steps_frame. intros db a db' (_ & _ & ->)%insert_entity_ok. done. Qed.

#[export] Instance grant_owner_steps o m : SqlRespects (data_steps minted) (grant_owner o m).
Proof.
  apply data_steps_frame. intros db a db' Hr. unfold grant_owner in Hr.
  by apply upsert_membership_ok in Hr as (_ & _ & _ & ->).
Qed.

#[export] Instance upsert_membership_steps o m row :
  SqlRespects (data_steps minted) (upsert_membership o m row).
Proof. apply data_steps_frame. by intros db a db' (_ & _ & _ & ->)%upsert_membership_ok. Qed.

#[export] Instance upsert_case_mirror_steps id data v :
  SqlRespects (data_steps minted) (upsert_case_mirror id data v).
Proof. apply data_steps_frame. by intros db a db' ->%upsert_case_mirror_ok. Qed.

Lemma insert_data_steps id t data sp :
  minted id -> SqlRespects (data_steps minted) (insert_data id t data sp).
Proof.
  intros Hid st a db (Hnone & _ & _ & _ & ->)%insert_data_ok. apply rtc_once. by apply step_insert.
Qed.

#[export] Instance update_data_steps id t data sp v :
  SqlRespects (data_steps minted) (update_data id t data sp v).
Proof.
  intros st a db [[_ ->]|(_ & row & Hrow & Ht & Hv & _ & _ & ->)]%update_data_ok; [apply rtc_refl|].
  apply rtc_once. subst. by eapply step_update.
Qed.

#[export] Instance delete_object_steps id t v : SqlRespects (data_steps minted) (delete_object id t v).
Proof.
  intros st a db [[_ ->]|(_ & row & _ & _ & _ & _ & ->)]%delete_object_ok; [apply rtc_refl|].
  apply rtc_once. apply step_delete.
Qed.

#[export] Instance item_write_commit_steps `{SerdeJson} u ctx caller t id p :
  Respects (data_steps minted) (item_write_commit u ctx caller t id p).
Proof. unfold item_write_commit. respects_tac. Qed.

#[export] Instance item_delete_steps `{SerdeJson} ctx caller t id headers :
  Respects (data_steps minted) (item_delete ctx caller t id headers).
Proof. unfold item_delete. respects_tac. Qed.
End Statements.

(** ** What a version says about an object *)

(** Over any steps an object that was not minted meanwhile keeps its type, its version never
    decreases, and while it stays the same so does the content; actors aside, whose role the
    first-admin claim sets in place. *)
Definition no_newer (r r' : DataRow) : Prop :=
  d_type_id r' = d_type_id r /\ d_version r <= d_version r' /\
  (d_type_id r <> "actor" -> d_version r' = d_version r -> d_data r' = d_data r).

Lemma no_newer_trans r1 r2 r3 : no_newer r1 r2 -> no_newer r2 r3 -> no_newer r1 r3.
Proof.
  intros (Ht & Hv & Hd) (Ht' & Hv' & Hd'). split_and!; [congruence|lia|].
  intros Hne He. rewrite Hd', Hd; [done|done|lia|congruence|lia].
Qed.

Lemma data_step_row minted t t' id row' :
  data_step minted t t' -> ~ minted id -> t' !! id = Some row' ->
  exists row, t !! id = Some row /\ no_newer row row'.
Proof.
  intros Hs Hid Hrow'. destruct Hs as [t i row Hm _ _|t i row row1 Hrow Ht Hv|t i|t i row data Hrow Ht].
  - assert (i <> id) by (by intros ->). rewrite lookup_insert_ne in Hrow' by done.
    exists row'. split; [done|]. unfold no_newer. split_and!; [done|lia|done].
  - destruct (decide (i = id)) as [->|Hne].
    + rewrite lookup_insert_eq in Hrow'. injection Hrow' as <-. exists row. split; [done|].
      split_and!; [done|lia|lia].
    + rewrite lookup_insert_ne in Hrow' by done. exists row'. split; [done|]. split_and!; [done|lia|done].
  - rewrite lookup_fmap in Hrow'. apply fmap_Some in Hrow' as (row & Hrow & ->).
    apply lookup_delete_Some in Hrow as [_ Hrow]. exists row. split; [done|]. split_and!; [done|simpl; lia|done].
  - destruct (decide (i = id)) as [->|Hne].
    + rewrite lookup_insert_eq in Hrow'. injection Hrow' as <-. exists row. split; [done|].
      split_and!; [done|simpl; lia|done].
    + rewrite lookup_insert_ne in Hrow' by done. exists row'. split; [done|]. split_and!; [done|lia|done].
Qed.

Lemma data_steps_row minted t t' id row' :
  rtc (data_step minted) t t' -> ~ minted id -> t' !! id = Some row' ->
  exists row, t !! id = Some row /\ no_newer row row'.
Proof.
  intros Hs Hid. revert row'. induction Hs as [t|t t1 t' H1 _ IH]; intros row' Hrow'.
  - exists row'. split; [done|]. split_and!; [done|lia|done].
  - destruct (IH _ Hrow') as (row1 & Hrow1 & Hn1).
    destruct (data_step_row _ _ _ _ _ H1 Hid Hrow1) as (row & Hrow & Hn). exists row. split; [done|].
    by eapply no_newer_trans.
Qed.
