(* ===== verification/FieldProps.v ===== *)
(** * What the per-field permissions guarantee

    Plane B on the item routes: what a caller may not read does not influence what GET answers
    them, and every field an update writes is one the caller may write. *)

From S2P Require Import Prelude RustStr Json AppError Closure Schema Registry Workflow State Rbac.
From S2P Require Import Caller FieldPerms Objects Fixture ObjectHandlers ObjectProps Steps.

Local Open Scope Z_scope.

(** ** Ranks do not depend on the data of objects *)

(** Tables of objects with the same scope parents. *)
Definition same_scopes (x : gmap string DataRow) (db : Db) : Prop :=
  forall id, (x !! id ≫= d_scope_parent_id) = scope_parent_of db id.

Lemma scopes_same x db o : same_scopes x db -> scopes (set_entity_data x db) o = scopes db o.
Proof.
  intros Hx. unfold scopes. generalize max_depth as n. intros n. revert o.
  induction n as [|n IH]; intros o; cbn [scopes_up]; [done|]. f_equal.
  assert (E : scope_parent_of (set_entity_data x db) o = scope_parent_of db o) by apply Hx.
  rewrite E. destruct (scope_parent_of db o); [apply IH|done].
Qed.

Lemma effective_rank_same x db a o :
  same_scopes x db -> effective_rank (set_entity_data x db) a o = effective_rank db a o.
Proof. intros Hx. unfold effective_rank, ranks_on. by rewrite scopes_same. Qed.

Lemma rank_on_same x db caller o :
  same_scopes x db -> rank_on (set_entity_data x db) caller o = rank_on db caller o.
Proof. intros Hx. unfold rank_on. by rewrite effective_rank_same. Qed.

Lemma require_action_same x db caller td o a :
  same_scopes x db -> require_action (set_entity_data x db) caller td o a = require_action db caller td o a.
Proof. intros Hx. unfold require_action. destruct o; [by rewrite effective_rank_same|done]. Qed.

Lemma set_data_same_scopes db id row data :
  entity_data db !! id = Some row -> same_scopes (<[id := set_data data row]> (entity_data db)) db.
Proof.
  intros Hrow i. unfold scope_parent_of. destruct (decide (id = i)) as [<-|Hne].
  - by rewrite lookup_insert_eq, Hrow.
  - by rewrite lookup_insert_ne.
Qed.

(** ** Reading *)

Lemma drop_unreadable_wf db td rank m : map_wf m -> map_wf (drop_unreadable db td rank m).
Proof.
  unfold drop_unreadable. revert m. induction (TypeDef.fields td) as [|f l IH]; intros m Hm; [done|].
  cbn [foldl]. apply IH. destruct (field_floors _ _ _ _) as [rm wm].
  destruct (rank <? rm); [by apply map_remove_wf|done].
Qed.

(** The caller may read the key: every field of that name is at or above its read floor. *)
Definition readable_key (db : Db) (td : TypeDef.t) (rank : Z) (k : string) : Prop :=
  forall f, f ∈ TypeDef.fields td -> FieldDef.field f = k -> read_min db td f <= rank.

Lemma unreadable_exists db td rank k :
  existsb (fun f => String.eqb (FieldDef.field f) k && (rank <? read_min db td f)) (TypeDef.fields td)
    = false <-> readable_key db td rank k.
Proof.
  unfold readable_key. induction (TypeDef.fields td) as [|f l IH]; cbn [existsb].
  - split; [|done]. by intros _ ? ?%elem_of_nil.
  - rewrite orb_false_iff, IH. split.
    + intros [Hf Hl] g [->|Hg]%elem_of_cons Hk; [|by apply Hl].
      rewrite Hk, String.eqb_refl in Hf. simpl in Hf. apply Z.ltb_ge in Hf. lia.
    + intros Hall. split; [|intros g Hg; apply Hall; by right].
      destruct (String.eqb_spec (FieldDef.field f) k) as [Hk|]; [|done]. simpl.
      apply Z.ltb_ge. apply Hall; [by left|done].
Qed.

Lemma drop_unreadable_agree db td rank m m' :
  map_wf m -> map_wf m' -> (forall k, readable_key db td rank k -> map_get k m = map_get k m') ->
  drop_unreadable db td rank m = drop_unreadable db td rank m'.
Proof.
  intros Hm Hm' Hag. apply map_ext; [by apply drop_unreadable_wf..|]. intros k.
  rewrite !drop_unreadable_get. destruct (existsb _ _) eqn:E; [done|]. by apply Hag, unreadable_exists.
Qed.

Section FieldProps.
Context `{SerdeJson, Postgres}.

(** C23 What a caller may not read does not leak: if the content of an object is changed in any
    way at keys the caller may not read, GET gives the same answer. Keys that may be read are in
    it as they are stored, the others are not. *)
Theorem unreadable_leak_free ctx caller type_id id headers st td row m m' :
  registry st !! type_id = Some td -> rank_on (pool st) caller id <> i32_max ->
  entity_data (pool st) !! id = Some row -> d_data row = JObject m -> map_wf m -> map_wf m' ->
  (forall k, readable_key (pool st) td (rank_on (pool st) caller id) k -> map_get k m = map_get k m') ->
  let st' := set_pool (set_entity_data
    (<[id := set_data (JObject m') row]> (entity_data (pool st))) (pool st)) st in
  (item_get ctx caller type_id id headers st').1 = (item_get ctx caller type_id id headers st).1 /\
  forall k, get k (filter_readable (pool st) caller td id (JObject m)) =
    if existsb (fun f => String.eqb (FieldDef.field f) k
                         && (rank_on (pool st) caller id <? read_min (pool st) td f)) (TypeDef.fields td)
    then None else map_get k m.
Proof.
  intros Htd Hrank Hrow Hd Hm Hm' Hag st'.
  assert (Hfr : forall db data, filter_readable db caller td id (JObject data) =
    if rank_on db caller id =? i32_max then JObject data
    else JObject (drop_unreadable db td (rank_on db caller id) data)) by done.
  apply Z.eqb_neq in Hrank. split.
  - pose proof (set_data_same_scopes (pool st) id row (JObject m') Hrow) as Hs.
    unfold item_get, resolve. run_m. cbn [registry set_pool st' pool]. rewrite Htd. simpl.
    rewrite (require_action_same _ _ _ _ _ _ Hs).
    destruct (require_action (pool st) caller td (Some id) View); [|done].
    unfold select_data. cbn [entity_data set_entity_data registry set_pool st' pool]. rewrite lookup_insert_eq, Hrow. simpl.
    case_decide; [|done]. simpl. destruct (if_none_match_hit headers (d_version row)); [done|].
    rewrite Hd, !Hfr, (rank_on_same _ _ _ _ Hs), Hrank.
    rewrite (drop_unreadable_agree (pool st) td _ m m' Hm Hm' Hag). done.
  - intros k. rewrite Hfr, Hrank. apply drop_unreadable_get.
Qed.

(** A write respects the write floors: every field the body of a successful PUT or PATCH
    names is a field of the type, is editable, and has a write floor within the caller's rank on
    the object (or the rank is the maximum, a platform admin's). *)
Theorem write_floors_kept u ctx caller type_id id headers body st r st' :
  item_write u ctx caller type_id id headers body st = (Ok r, st') ->
  exists td payload,
    registry st !! type_id = Some td /\ read_json headers body (allow_merge u) = Ok payload /\
    forall k, k ∈ map_keys (obj_members payload) ->
      exists f, TypeDef.field td k = Some f /\ FieldDef.writable f = true /\
        (rank_on (pool st) caller id = i32_max \/ write_min (pool st) td f <= rank_on (pool st) caller id).
Proof.
  intros Hr. apply item_write_ok in Hr as (p & row & payload & Hck & _).
  destruct Hck as (Htd & _ & _ & _ & Hj & Hin & _ & _ & _ & Hrw & _).
  exists (p_td p), payload. split_and!; [done..|]. intros k Hk.
  destruct (proj1 (check_input_ok _ _ _) Hin k Hk) as (f & Hf & Hw). exists f. split_and!; [done..|].
  unfold require_write in Hrw. destruct (Z.eqb_spec (rank_on (pool st) caller id) i32_max); [by left|right].
  destruct (refused_field _ _ _ _) eqn:E; [done|]. by eapply (proj1 (refused_field_None _ _ _ _) E).
Qed.
End FieldProps.
