(* ===== verification/CaseFlow.v ===== *)
(** * Cases follow their workflow

    What a successful write of a case has checked and mirrored, the status of every case as a
    state its workflow can reach, and the write that fails half way. *)

From S2P Require Import Prelude RustStr Json AppError Closure Schema Registry Workflow State Rbac.
From S2P Require Import Caller FieldPerms Objects Fixture ObjectHandlers ObjectProps Lifecycle.

Local Open Scope Z_scope.

(** The workflow and the status of a case's [data], with the defaults of the handlers. *)
Definition workflow_of (data : Value) : string := default "default" (get_str "workflow_id" data).
Definition status_of (data : Value) : string := default "" (get_str "status" data).

(** Every close check of the workflow has a passing row for the case. *)
Definition checks_passed (db : Db) (id : string) (wf : Workflow.t) : Prop :=
  forall name, name ∈ Workflow.close_checks wf ->
    exists row, case_close_checks db !! (id, name) = Some row /\ k_passed row = true.

Lemma validate_ok wfs wid from to :
  validate wfs wid from to = Ok tt ->
  exists wf, wfs !! wid = Some wf /\ to ∈ Workflow.states wf /\
    match from with
    | None => to = Workflow.initial wf
    | Some f => f = to \/ wf_step wf f to
    end.
Proof.
  destruct from as [f|].
  - intros (wf & Hwf & Hto & Hstep)%validate_update_ok. by exists wf.
  - intros (wf & Hwf & Hto & Heq)%validate_create_ok. by exists wf.
Qed.

Lemma validate_case_change_ok st id data old ctx :
  validate_case_change st id data old ctx = Ok tt ->
  exists wf, wf_cache st !! workflow_of data = Some wf /\ status_of data ∈ Workflow.states wf /\
    match old with
    | None => status_of data = Workflow.initial wf
    | Some f => f = status_of data \/ wf_step wf f (status_of data)
    end /\
    (Workflow.is_terminal wf (status_of data) = true -> old <> Some (status_of data) ->
       checks_passed (pool st) id wf).
Proof.
  unfold validate_case_change. fold (workflow_of data) (status_of data). intros Hr.
  apply result_bind_ok in Hr as ([] & Hv & Hr). apply map_err_ok in Hv.
  apply validate_ok in Hv as (wf & Hwf & Hst & Hold). exists wf. split_and!; [done..|].
  intros Hterm Hne. rewrite Hwf, Hterm in Hr. simpl in Hr. rewrite bool_decide_eq_false_2 in Hr by done.
  destruct (unmet_close_checks _ _ _) eqn:E; [|done]. unfold checks_passed. by apply unmet_close_checks_nil.
Qed.

(** ** The commit, whatever its outcome *)

Section CaseFlow.
Context `{SerdeJson, Postgres}.

Lemma item_write_commit_any u ctx caller type_id id p st res st' :
  item_write_commit u ctx caller type_id id p st = (res, st') ->
  st' = st \/
  exists row evs cs,
    select_data id type_id (pool st) = Some row /\ d_version row = p_expected p /\
    fk_ok (entities (pool st)) (p_scope p) = true /\
    st' = set_pool (set_events evs (set_cases cs (set_entity_data
      (<[id := mkDataRow type_id (p_data p) (p_scope p) (p_expected p + 1) (now (pool st))]>
         (entity_data (pool st))) (pool st)))) st.
Proof.
  destruct res as [r|e]; intros Hr.
  - right. apply item_write_commit_ok in Hr as (row & evs & cs & Hsel & Hv & _ & Hfk & Hp & Hreg & Hwf & _).
    exists row, evs, cs. split_and!; [done..|]. destruct st', st; simpl in *. by subst.
  - unfold item_write_commit in Hr.
    apply m_bind_err in Hr as [Hr|(n & st1 & Hu & Hr)]; [left; by eapply run_sql_err|].
    apply run_sql_ok in Hu as (db & Hu & ->).
    apply update_data_ok in Hu as [[-> ->]|(-> & row & Hrow & Hty & Hv & _ & Hfk & ->)].
    + left. apply m_bind_err in Hr as [Hr|(x & st2 & He & _)]; [|by inv_m].
      apply ensure_err in Hr as (_ & _ & ->). apply set_pool_id.
    + right. exists row, (events (pool st)), (cases (pool st)). split_and!; [by apply select_data_Some|done..|].
      apply m_bind_err in Hr as [Hr|(x & st2 & He & Hr)]; [by apply ensure_err in Hr as (? & _ & _)|].
      inv_m. apply m_bind_err in Hr as [Hr|(y & st3 & _ & Hr)].
      * destruct (decide (TypeDef.type_id (p_td p) = "case")); [|by apply m_ret_err in Hr].
        apply run_sql_err in Hr as ->. by destruct st as [[] ? ?].
      * apply m_bind_err in Hr as [Hr|(z & st4 & _ & Hr)]; [by apply record_event_err in Hr|].
        by apply m_ret_err in Hr.
Qed.

(** C30 A case moves as its workflow says: after a successful PUT or PATCH the status is the old
    one or one the workflow permits from it; it is the terminal one, newly, only with every close
    check passed; and the typed mirror holds what the object holds. *)
Theorem case_write_legal u ctx caller type_id id headers body st r st' td :
  registry st !! type_id = Some td -> TypeDef.type_id td = "case" ->
  item_write u ctx caller type_id id headers body st = (Ok r, st') ->
  exists row row' wf,
    entity_data (pool st) !! id = Some row /\ entity_data (pool st') !! id = Some row' /\
    wf_cache st !! workflow_of (d_data row') = Some wf /\
    status_of (d_data row') ∈ Workflow.states wf /\
    match get_str "status" (d_data row) with
    | None => status_of (d_data row') = Workflow.initial wf
    | Some old => old = status_of (d_data row') \/ wf_step wf old (status_of (d_data row'))
    end /\
    (Workflow.is_terminal wf (status_of (d_data row')) = true ->
     get_str "status" (d_data row) <> Some (status_of (d_data row')) -> checks_passed (pool st) id wf) /\
    cases (pool st') !! id = Some (case_row (d_data row') (d_version row') (now (pool st))).
Proof.
  intros Htd Hcase Hr. apply item_write_ok in Hr as (p & row & payload & Hck & Hc).
  destruct Hck as (Htd' & _ & Hsel & _ & _ & _ & _ & _ & _ & _ & Hval).
  assert (Ep : p_td p = td) by congruence. rewrite Ep in *. specialize (Hval Hcase).
  apply validate_case_change_ok in Hval as (wf & Hwf & Hst & Hmove & Hchk).
  assert (Hmirror : cases (pool st') !! id = Some (case_row (p_data p) (p_expected p + 1) (now (pool st)))).
  { unfold item_write_commit in Hc. inv_m. rewrite Ep, decide_True in * by done. inv_m.
    match goal with Hu : update_data _ _ _ _ _ _ = Ok _ |- _ =>
      apply update_data_ok in Hu as [[-> ->]|(-> & ? & _ & _ & _ & _ & _ & ->)]; [done|] end.
    match goal with Hm : upsert_case_mirror _ _ _ _ = Ok _ |- _ => apply upsert_case_mirror_ok in Hm as -> end.
    match goal with He : record_event _ _ _ _ _ _ = _ |- _ => apply record_event_ok in He as [evs ->] end.
    simpl. apply lookup_insert_eq. }
  apply item_write_commit_ok in Hc as (row1 & evs & cs & Hsel1 & _ & _ & _ & Hp & _).
  exists row. eexists. exists wf. rewrite Hp. simpl. rewrite lookup_insert_eq.
  apply select_data_Some in Hsel as [Hrow _]. split_and!; try done.
  by rewrite Hp in Hmirror.
Qed.
End CaseFlow.

(** ** A write that fails half way *)

(** Assigning a case to an entity that does not exist: the object is written, then the mirror
    refuses the reference. *)
Definition ghost_patch : AppResult Response * AppState :=
  item_patch ctx0 alice "case" "CAS_1" (json_headers (Some (etag 1))) "{assignee_id:ghost}" seed_state.

(** The request is answered 422, yet the object has the new assignee and the next version, the
    mirror has neither, and there is no audit event. *)
Theorem case_write_not_atomic :
  ghost_patch.1 = Err (from_sqlx ForeignKeyViolation) /\
  (fun row => (get_str "assignee_id" (d_data row), d_version row))
     <$> entity_data (pool ghost_patch.2) !! "CAS_1" = Some (Some "ghost", 2) /\
  (fun c => (c_assignee_id c, c_version c)) <$> cases (pool ghost_patch.2) !! "CAS_1" = Some (None, 1) /\
  events (pool ghost_patch.2) = [].
Proof. split_and!; vm_compute; reflexivity. Qed.
