(* ===== verification/Concurrency.v ===== *)
(** * Interleaved writes

    A PUT or PATCH reads, decides and then writes with a condition on the version; between the
    two, anything may happen that the statements of the server can do ([data_step]). *)

From S2P Require Import Prelude RustStr Json AppError Closure Schema Registry Workflow State Rbac.
From S2P Require Import Caller FieldPerms Objects Fixture ObjectHandlers ObjectProps Steps.

Local Open Scope Z_scope.

Section Concurrency.
Context `{SerdeJson, Postgres}.

(** C9 No lost update, for a tag that is not ahead. A PUT or PATCH of an object that is no actor, and
    whose If-Match names the version that the request itself read, commits, after any interleaving
    with other requests (none of which mints the same id anew), only if it finds the object as it
    had read it: what it writes is computed from the content it replaces. The condition on the tag
    is needed, see [ahead_tag_loses_update]: the handler does not compare the tag with the version
    it reads, only with the version at the write. *)
Theorem no_lost_update u ctx caller type_id id headers body st p st0 row minted st1 r st2 :
  type_id <> "actor" ->
  item_write_read u ctx caller type_id id headers body st = (Ok p, st0) ->
  select_data id type_id (pool st) = Some row -> if_match headers = Some (Some (d_version row)) ->
  data_steps minted st st1 -> ~ minted id ->
  item_write_commit u ctx caller type_id id p st1 = (Ok r, st2) ->
  exists row1 row2 payload,
    entity_data (pool st1) !! id = Some row1 /\ d_data row1 = d_data row /\
    d_version row1 = d_version row /\
    read_json headers body (allow_merge u) = Ok payload /\
    entity_data (pool st2) !! id = Some row2 /\
    d_data row2 = candidate u (p_td p) (d_data row1) payload.
Proof.
  intros Hact Hread Hrow Him Hsteps Hfresh Hcommit.
  apply item_write_read_ok in Hread as [-> (row0 & payload & Hck)].
  destruct Hck as (_ & _ & Hrow0 & Him0 & Hj & _ & Hdata & _).
  assert (row0 = row) as -> by congruence.
  apply require_if_match_ok in Him0. assert (Hv : p_expected p = d_version row) by congruence.
  apply item_write_commit_ok in Hcommit as (row1 & evs & cs & Hrow1 & Hv1 & _ & _ & -> & _).
  apply select_data_Some in Hrow as [Hrow Hty], Hrow1 as [Hrow1 Hty1].
  destruct (data_steps_row _ _ _ _ _ Hsteps Hfresh Hrow1) as (row' & Hrow' & _ & _ & Hsame).
  assert (row' = row) as -> by congruence.
  assert (Hd : d_data row1 = d_data row) by (apply Hsame; congruence).
  eexists row1, _, payload. cbn [pool set_pool entity_data set_events set_cases set_entity_data].
  rewrite lookup_insert_eq. split_and!; try done; [congruence|]. simpl. by rewrite Hdata, Hd.
Qed.

Lemma update_data_stale id t data sp v db :
  (forall row, entity_data db !! id = Some row -> d_version row <> v) ->
  update_data id t data sp v db = Ok (0, db).
Proof.
  intros Hv. unfold update_data. destruct (entity_data db !! id) as [row|]; [|done].
  specialize (Hv row eq_refl). destruct (Z.eqb_spec (d_version row) v); [done|]. by rewrite andb_false_r.
Qed.

(** First writer wins. Once a write under a version has committed, every other write that
    named the same version or an older one is refused with 412 and changes nothing, whatever
    happened in between and whoever sends it. *)
Theorem first_writer_wins u u' ctx ctx' caller caller' type_id id p p' minted st r st1 st2 :
  item_write_commit u ctx caller type_id id p st = (Ok r, st1) ->
  data_steps minted st1 st2 -> ~ minted id -> p_expected p' <= p_expected p ->
  item_write_commit u' ctx' caller' type_id id p' st2 =
    (Err (with_request_id (ctx_request_id ctx') precondition_failed), st2).
Proof.
  intros Hc Hsteps Hfresh Hle.
  apply item_write_commit_ok in Hc as (row & evs & cs & Hrow & Hv & _ & _ & Hst1 & _).
  assert (Hnew : exists row1, entity_data (pool st1) !! id = Some row1 /\ d_version row1 = p_expected p + 1).
  { rewrite Hst1. cbn [entity_data set_events set_cases set_entity_data]. rewrite lookup_insert_eq. eauto. }
  destruct Hnew as (row1 & Hrow1 & Hv1).
  unfold item_write_commit.
  assert (Hu : run_sql (update_data id type_id (p_data p') (p_scope p') (p_expected p')) st2 = (Ok 0, st2)).
  { unfold run_sql. rewrite update_data_stale; [by rewrite set_pool_id|].
    intros row2 Hrow2. destruct (data_steps_row _ _ _ _ _ Hsteps Hfresh Hrow2) as (row' & Hrow' & _ & Hge & _).
    assert (row' = row1) as -> by congruence. lia. }
  by rewrite (m_bind_run _ _ _ _ _ Hu).
Qed.
End Concurrency.

(** ** A tag ahead of the version read *)

(** Alice sends the tag of a version that does not exist yet and reads; Bob's edit makes it
    exist; Alice's write then commits over it. *)
Definition note_patch (caller : Caller.t) (tag : Z) (body : string) : M WritePlan :=
  item_write_read Patch ctx0 caller "note" "NOT_1" (json_headers (Some (etag tag))) body.

Definition ahead_run : AppResult Response * AppState :=
  (p ← note_patch alice 4 "{title:hello}";
   _ ← item_write Patch ctx0 root "note" "NOT_1" (json_headers (Some (etag 3))) "{body:x}";
   item_write_commit Patch ctx0 alice "note" "NOT_1" p) seed_state.

(** The condition is on the version at the time of the write, not of the read: a write whose tag
    is ahead of what it read overwrites an edit made in between, and both answer 200. *)
Theorem ahead_tag_loses_update :
  is_ok ahead_run.1 = true /\
  get_str "body" (default JNull (d_data <$> entity_data (pool ahead_run.2) !! "NOT_1")) = Some "b".
Proof. split; vm_compute; reflexivity. Qed.
