(* ===== verification/Liveness.v ===== *)
(** * What a client can always bring to an end

    Liveness of the pipeline: an active run, handed off by whoever may, always ends, and lands
    when every gate passes. Liveness of conditional writes: the tag a GET answered is one a
    write is not refused for. *)

From S2P Require Import Prelude RustStr Json AppError Closure Schema Registry Workflow State Rbac.
From S2P Require Import Caller FieldPerms Objects Fixture ObjectHandlers ObjectProps Lifecycle.
From S2P Require Import Orchestrator Pipeline.

Local Open Scope Z_scope.

Import Machine.

Section Drive.
Context `{SerdeJson, Postgres, !FromSlice StartInput, !FromSlice HandoffInput}.
Variables (ctx : RequestCtx) (caller : Caller.t) (id : string).

(** A client: what it posts as handoff from a phase, with so many handoffs to go. *)
Variable client : string -> nat -> string.

(** It speaks for the role of the phase, and tells an outcome the server knows. *)
Definition competent : Prop := forall p n, exists input,
  from_slice_as (A := HandoffInput) (client (phase_name p) n) = Ok input /\
  hi_role input = role_for_phase (phase_name p) /\ hi_outcome input ∈ OUTCOMES.

(** It never has a complaint. *)
Definition satisfied : Prop := forall p n, exists input,
  from_slice_as (A := HandoffInput) (client (phase_name p) n) = Ok input /\
  hi_role input = role_for_phase (phase_name p) /\ hi_outcome input = "pass".

(** Post handoffs, at most [n], while the run is active: the answers and the store. *)
Fixpoint drive (n : nat) (st : AppState) : list (AppResult Response) * AppState :=
  match n, feature_runs (pool st) !! id with
  | S n, Some run =>
      if String.eqb (f_status run) "active" then
        let '(out, st1) := record_handoff ctx caller id (client (f_phase run) n) st in
        let '(outs, st2) := drive n st1 in
        (out :: outs, st2)
      else ([], st)
  | _, _ => ([], st)
  end.

(** One turn of the client: the answer is a 200, the run is one step further and its case, on
    which the authority of the client rests, is the same. *)
Lemma drive_turn st run r body input :
  feature_runs (pool st) !! id = Some run -> represents (pool st) id r -> reachable r ->
  f_status run = "active" -> require_run_authority st caller (f_case_id run) Edit ctx = Ok tt ->
  from_slice_as (A := HandoffInput) body = Ok input ->
  hi_role input = role_for_phase (f_phase run) -> hi_outcome input ∈ OUTCOMES ->
  exists resp st1 run1 r1, record_handoff ctx caller id body st = (Ok resp, st1) /\
    feature_runs (pool st1) !! id = Some run1 /\ f_case_id run1 = f_case_id run /\
    represents (pool st1) id r1 /\ step r r1 /\
    require_run_authority st1 caller (f_case_id run1) Edit ctx = Ok tt /\
    (hi_outcome input = "pass" ->
       history r1 = history r ++ [(phase r, hi_gate input, Pass)]).
Proof.
  intros Hrun Hrep Hreach Hact Hauth Hin Hrole Ho.
  pose proof Hrep as (run' & Hrun' & Hph & _). rewrite Hrun in Hrun'. injection Hrun' as <-.
  destruct (handoff_accepts ctx caller id body st input run (phase r) Hrun Hph Hin Hact Ho Hrole Hauth)
    as (b & st1 & Hr).
  destruct (record_handoff_step _ _ _ _ _ _ _ _ Hrep Hreach Hr)
    as (r1 & input' & Hs & Hrep1 & Hin' & o & Ho' & Hh).
  assert (input' = input) as -> by congruence.
  apply record_handoff_ok in Hr as Hc. destruct Hc as (p & _ & Hc).
  apply handoff_commit_ok in Hc as (h & evs & _ & _ & ->).
  do 2 eexists. eexists _, r1. split; [exact Hr|]. cbn [pool set_pool feature_runs set_events set_feature_runs].
  rewrite lookup_alter_eq, Hrun. split; [done|]. split; [done|]. split; [exact Hrep1|].
  split; [exact Hs|]. split; [exact Hauth|].
  intros Hp. rewrite Hh. rewrite Hp in Ho'. by destruct o.
Qed.

(** The phases left until a run can land. *)
Definition remaining (p : Phase) : nat :=
  match p with Spec => 5 | Test => 4 | Code => 3 | Review => 2 | Ops => 1 end.

Lemma remaining_next p q : next p = Some q -> remaining p = S (remaining q).
Proof. by destruct p; intros [= <-]. Qed.

Lemma drive_done n st run :
  feature_runs (pool st) !! id = Some run -> f_status run <> "active" -> drive n st = ([], st).
Proof. intros Hrun Ha. destruct n; [done|]. simpl. rewrite Hrun. by apply String.eqb_neq in Ha as ->. Qed.

(** One more handoff of [drive], as [drive_turn] describes it. *)
Lemma drive_step n st run r input :
  feature_runs (pool st) !! id = Some run -> represents (pool st) id r -> reachable r ->
  status r = Active -> require_run_authority st caller (f_case_id run) Edit ctx = Ok tt ->
  from_slice_as (A := HandoffInput) (client (phase_name (phase r)) n) = Ok input ->
  hi_role input = role_for_phase (phase_name (phase r)) -> hi_outcome input ∈ OUTCOMES ->
  exists resp st1 run1 r1, drive (S n) st = (Ok resp :: (drive n st1).1, (drive n st1).2) /\
    feature_runs (pool st1) !! id = Some run1 /\ f_case_id run1 = f_case_id run /\
    represents (pool st1) id r1 /\ reachable r1 /\ step r r1 /\
    require_run_authority st1 caller (f_case_id run1) Edit ctx = Ok tt /\
    (hi_outcome input = "pass" -> history r1 = history r ++ [(phase r, hi_gate input, Pass)]).
Proof.
  intros Hrun Hrep Hreach Hst Hauth Hin Hrole Ho.
  pose proof Hrep as (run' & Hrun' & Hph & Hs & _). rewrite Hrun in Hrun'. injection Hrun' as <-.
  assert (Hact : f_status run = "active") by (by rewrite Hs, Hst). rewrite <- Hph in Hin, Hrole.
  destruct (drive_turn st run r _ input Hrun Hrep Hreach Hact Hauth Hin Hrole Ho)
    as (resp & st1 & run1 & r1 & Hr & H1 & H2 & H3 & H4 & H5 & H6).
  exists resp, st1, run1, r1. simpl. rewrite Hrun, Hact, String.eqb_refl, Hr.
  destruct (drive n st1). split_and!; try done. by eapply rtc_r.
Qed.

Lemma status_of_represents st run r :
  feature_runs (pool st) !! id = Some run -> represents (pool st) id r ->
  f_status run = status_name (status r).
Proof. intros Hrun (run' & Hrun' & _ & Hs & _). congruence. Qed.

Lemma drive_ends n : forall st run r,
  competent -> feature_runs (pool st) !! id = Some run -> represents (pool st) id r -> reachable r ->
  require_run_authority st caller (f_case_id run) Edit ctx = Ok tt ->
  (8 - length (history r) <= n)%nat ->
  Forall (fun out => is_ok out = true) (drive n st).1 /\
  exists run', feature_runs (pool (drive n st).2) !! id = Some run' /\ f_status run' <> "active".
Proof.
  induction n as [|n IH]; intros st run r Hcl Hrun Hrep Hreach Hauth Hn;
    pose proof (status_of_represents st run r Hrun Hrep) as Hs;
    destruct (decide (status r = Active)) as [Ha|Ha].
  - exfalso. apply reachable_inv in Hreach as (_ & Hlen & _). specialize (Hlen Ha). lia.
  - split; [constructor|]. exists run. split; [done|]. rewrite Hs. by destruct (status r).
  - destruct (Hcl (phase r) n) as (input & Hin & Hrole & Ho).
    destruct (drive_step n st run r input Hrun Hrep Hreach Ha Hauth Hin Hrole Ho)
      as (resp & st1 & run1 & r1 & -> & Hrun1 & _ & Hrep1 & Hreach1 & Hstep & Hauth1 & _).
    destruct (IH st1 run1 r1 Hcl Hrun1 Hrep1 Hreach1 Hauth1) as [Hall Hend];
      [rewrite (step_length _ _ Hstep); lia|].
    split; [by constructor|exact Hend].
  - rewrite (drive_done _ st run) by (rewrite ?Hs; by destruct (status r)). split; [constructor|].
    exists run. split; [done|]. rewrite Hs. by destruct (status r).
Qed.

(** The machine passes on to the next phase, or lands. *)
Lemma step_passes r r1 g :
  step r r1 -> history r1 = history r ++ [(phase r, g, Pass)] ->
  match next (phase r) with
  | Some q => phase r1 = q /\ status r1 = capped (history r)
  | None => status r1 = Landed
  end.
Proof.
  intros [p h g'|p q h g' Hq|p h g' Hq|p h g' Hf|p h g' Hf|p h g'] Hh; simpl in *;
    apply app_inv_head in Hh; injection Hh as Hh; try discriminate; by rewrite Hq.
Qed.

Lemma drive_lands n : forall st run r,
  satisfied -> feature_runs (pool st) !! id = Some run -> represents (pool st) id r -> reachable r ->
  status r = Active -> require_run_authority st caller (f_case_id run) Edit ctx = Ok tt ->
  (length (history r) + remaining (phase r) <= 8)%nat -> remaining (phase r) = n ->
  exists run', feature_runs (pool (drive n st).2) !! id = Some run' /\ f_status run' = "landed".
Proof.
  induction n as [|n IH]; intros st run r Hcl Hrun Hrep Hreach Ha Hauth Hroom Hn;
    [by destruct (phase r)|].
  destruct (Hcl (phase r) n) as (input & Hin & Hrole & Ho).
  assert (Hout : hi_outcome input ∈ OUTCOMES) by (rewrite Ho; left).
  destruct (drive_step n st run r input Hrun Hrep Hreach Ha Hauth Hin Hrole Hout)
    as (resp & st1 & run1 & r1 & -> & Hrun1 & _ & Hrep1 & Hreach1 & Hstep & Hauth1 & Hh).
  specialize (Hh Ho). pose proof (step_passes _ _ _ Hstep Hh) as Hnext.
  assert (Hlen : length (history r1) = S (length (history r))) by exact (step_length _ _ Hstep).
  destruct (next (phase r)) as [q|] eqn:Hq.
  - apply remaining_next in Hq as Hrem. destruct Hnext as [Hp1 Hs1].
    assert (status r1 = Active).
    { rewrite Hs1. unfold capped. case_decide; [|done]. destruct q; simpl in *; lia. }
    eapply IH; try done; rewrite ?Hp1, ?Hlen; lia.
  - assert (n = 0)%nat as -> by (destruct (phase r); simpl in *; try done; lia). simpl.
    exists run1. split; [done|]. by rewrite (status_of_represents st1 run1 r1), Hnext.
Qed.

(** C22 Every run comes to an end, and good work lands: a client with authority on the case of a
    run, which speaks for the role of each phase and tells any known outcomes, has every handoff
    answered 200 until, after at most 8 handoffs of the run, the run is no longer active; and when
    every gate passes and the hop cap leaves room for the remaining phases, it has landed after
    exactly one handoff per remaining phase. *)
Theorem run_always_ends st run p :
  pipeline_ok (pool st) -> feature_runs (pool st) !! id = Some run ->
  require_run_authority st caller (f_case_id run) Edit ctx = Ok tt -> competent ->
  let left := (8 - length (handoffs_of (pool st) id))%nat in
  (Forall (fun out => is_ok out = true) (drive left st).1 /\
   exists run', feature_runs (pool (drive left st).2) !! id = Some run' /\
     f_status run' <> "active") /\
  (satisfied -> f_status run = "active" -> f_phase run = phase_name p -> (remaining p <= left)%nat ->
   exists run', feature_runs (pool (drive (remaining p) st).2) !! id = Some run' /\
     f_status run' = "landed").
Proof.
  intros [Hruns _] Hrun Hauth Hcl left. destruct (Hruns _ _ Hrun) as (r & Hreach & Hrep).
  pose proof Hrep as (run' & Hrun' & Hph & Hs & Hk & _). rewrite Hrun in Hrun'. injection Hrun' as <-.
  assert (Hlen : length (handoffs_of (pool st) id) = length (history r)).
  { apply (f_equal length) in Hk. by rewrite !length_fmap in Hk. }
  split; [eapply drive_ends; try done; unfold left; lia|].
  intros Hsat Hact Hp Hroom. assert (phase r = p) as <-.
  { rewrite Hph in Hp. destruct (phase r), p; done. }
  pose proof (reachable_inv _ Hreach) as (Hcap & _).
  eapply drive_lands; try done; [|unfold left in Hroom; lia].
  apply status_name_inj. by rewrite <- Hs, Hact.
Qed.
End Drive.

(** ** Conditional writes *)

Section Writes.
Context `{SerdeJson, Postgres}.

Lemma item_get_tag ctx caller type_id id headers st resp st' row tag :
  item_get ctx caller type_id id headers st = (Ok resp, st') ->
  select_data id type_id (pool st) = Some row -> In ("etag", tag) (resp_headers resp) ->
  tag = etag (d_version row).
Proof.
  unfold item_get. intros Hr Hrow Hin. inv_m.
  assert (Hresp : resp_headers resp = [("etag", etag (d_version row))])
    by (destruct (if_none_match_hit _ _); inv_m; simplify_eq; done).
  rewrite Hresp in Hin. by destruct Hin as [[= <-]|[]].
Qed.

(** Nothing stands in the way of a plan that meets its version. *)
Lemma item_write_commit_runs u ctx caller type_id id p st row :
  TypeDef.type_id (p_td p) <> "case" ->
  select_data id type_id (pool st) = Some row -> d_version row = p_expected p ->
  d_version row <> i32_max -> fk_ok (entities (pool st)) (p_scope p) = true ->
  exists st', item_write_commit u ctx caller type_id id p st =
    (Ok (mkResponse OK [("etag", etag (p_expected p + 1))]
           (Some (entity_json id type_id (p_data p) (p_expected p + 1)))), st').
Proof.
  intros Hc [Hrow Hty]%select_data_Some Hv Hmax Hfk. unfold item_write_commit. run_m. unfold run_sql.
  unfold update_data. rewrite Hrow, bool_decide_true, Hv, Z.eqb_refl by done. cbn [andb].
  rewrite Hv in Hmax. apply Z.eqb_neq in Hmax. rewrite Hmax, Hfk. cbn [Z.eqb negb].
  rewrite decide_False by done.
  destruct (record_event_entities ctx (Caller.actor_id caller) (Some id) (type_id +:+ event_suffix u)
    (p_data p) (set_pool (set_entity_data (<[id := mkDataRow type_id (p_data p) (p_scope p)
       (p_expected p + 1) (now (pool st))]> (entity_data (pool st))) (pool st)) st)) as [evs ->].
  by eexists.
Qed.

(** C34 A read lets one write: with the tag a GET answered, a PUT or PATCH whose payload passes the
    checks of its type, by a caller who may edit the object and the fields, succeeds as long as
    the object still has that version and its scope parent still exists; it answers the next
    version. (Types other than [case], whose workflow has its say too.) *)
Theorem read_then_write u ctx ctx' caller caller' type_id id headers0 st0 resp st0' row0 tag
    headers body st row td payload :
  item_get ctx' caller' type_id id headers0 st0 = (Ok resp, st0') ->
  select_data id type_id (pool st0) = Some row0 -> In ("etag", tag) (resp_headers resp) ->
  i32_ok (d_version row0) -> d_version row0 <> i32_max ->
  headers !! "if-match" = Some (Some tag) ->
  select_data id type_id (pool st) = Some row -> d_version row = d_version row0 ->
  registry st !! type_id = Some td -> TypeDef.type_id td <> "case" ->
  require_action (pool st) caller td (Some id) Edit = true ->
  read_json headers body (allow_merge u) = Ok payload -> check_input td payload false = Ok tt ->
  let data := candidate u td (d_data row) payload in
  validate_final td data = Ok tt ->
  require_write (pool st) caller td id (map_keys (obj_members payload)) ctx = Ok tt ->
  fk_ok (entities (pool st)) (scope_parent td data) = true ->
  exists st', item_write u ctx caller type_id id headers body st =
    (Ok (mkResponse OK [("etag", etag (d_version row + 1))]
           (Some (entity_json id type_id data (d_version row + 1)))), st').
Proof.
  intros Hget Hrow0 Htag Hi32 Hmax Him Hrow Hv Htd Hc Hedit Hj Hin data Hval Hw Hfk.
  pose proof (item_get_tag _ _ _ _ _ _ _ _ _ _ Hget Hrow0 Htag) as Et.
  assert (Hexp : require_if_match headers ctx = Ok (d_version row)).
  { apply require_if_match_ok. unfold if_match. rewrite Him, Et. simpl. by rewrite etag_roundtrip, Hv. }
  assert (Hread : item_write_read u ctx caller type_id id headers body st =
    (Ok (mkWritePlan td data (scope_parent td data) (d_version row)), st)).
  { unfold item_write_read, resolve. run_m. rewrite Htd. simpl. rewrite Hedit, Hrow. simpl.
    rewrite Hexp, Hj. simpl. rewrite Hin. fold data. rewrite Hval, Hw. by rewrite decide_False. }
  unfold item_write. rewrite (m_bind_run _ _ _ _ _ Hread).
  destruct (item_write_commit_runs u ctx caller type_id id
    (mkWritePlan td data (scope_parent td data) (d_version row)) st row) as [st' Hst']; try done.
  - congruence.
  - by exists st'.
Qed.
End Writes.
