(* ===== verification/Server.v ===== *)
(** * The server: routing, authentication and middleware ([lib.rs] and the [router()]s)

    Every endpoint of the assembled router, its dispatch by method and path, the extraction of
    the caller in front of the handlers that ask for one, the rate limit of the auth routes and
    the request id and CORS around everything. The framework (its extraction of query strings, its
    own 404 and 405 answers, its CORS and trace layers) is not modelled beyond its parameters. *)

From S2P Require Import Prelude RustStr Encoding Config Json AppError Closure Schema Registry.
From S2P Require Import Workflow State Rbac Caller FieldPerms Objects Fixture ObjectHandlers.
From S2P Require Import Members Orchestrator Types Relations HttpClient Connectors Auth OAuth.
From S2P Require Import RateLimit Platform Search.

Local Open Scope Z_scope.

(** The query parameters the handlers name, extracted. *)
Record Query := mkQuery {
  q_limit : option Z; q_offset : option Z; q_q : option string; q_type : option string;
  q_entity : option string; q_case_id : option string; q_code : string; q_state : string }.

Record HttpRequest := mkHttpRequest {
  rq_method : string; rq_path : list string; rq_query : Query; rq_headers : HeaderMap;
  rq_raw_headers : list (string * option string); rq_body : string; rq_peer : option string;
  rq_dev_actor : option string }.

(** The random identifiers and the wall clock a request meets. *)
Record Fresh := mkFresh {
  fr_uuid : string; fr_session : string; fr_token : string; fr_unix : Z;
  fr_request : string; fr_trace : string; fr_instant : Z }.

(** A request method on a resource, with the path's parameters. *)
Inductive Endpoint :=
| CollGet (type_id : string) | CollHead (type_id : string) | CollCreate (type_id : string)
| CollOptions (type_id : string) | M405Coll (type_id : string)
| ItemGet (type_id id : string) | ItemHead (type_id id : string) | ItemPut (type_id id : string)
| ItemPatch (type_id id : string) | ItemDelete (type_id id : string)
| ItemOptions (type_id id : string) | M405Item (type_id id : string)
| ListMembers (type_id id : string) | AddMember (type_id id : string)
| SetMember (type_id id member_id : string) | RemoveMember (type_id id member_id : string)
| RecordCheck (type_id id name : string)
| ListTypes | CreateType | GetType (type_id : string)
| CreateRelation | ListRelations | DeleteRelation (id : string)
| SearchAll
| StartRun | ListRuns | GetRun (id : string) | RecordHandoff (id : string)
| RunConnector (id : string)
| ClaimAdmin | Logout | DevLogin
| OauthStart (provider : string) | OauthCallback (provider : string)
| Echo | SetLogLevel | Healthz | Readyz.

Inductive Routed := NoRoute | NoMethod | Found (e : Endpoint).

(** A method router: HEAD falls back on GET. *)
Definition by_method (method : string) (l : list (string * Endpoint)) : Routed :=
  match List.find (fun p => String.eqb p.1 method) l with
  | Some p => Found p.2
  | None =>
      if String.eqb method "HEAD"
      then match List.find (fun p => String.eqb p.1 "GET") l with
           | Some p => Found p.2
           | None => NoMethod
           end
      else NoMethod
  end.

(** [a.merge(b)], for routers without a path in common. *)
Definition merge (a b : Routed) : Routed := match a with NoRoute => b | _ => a end.

(** [objects::router()], nested under [/api/objects]. *)
Definition objects_router (method : string) (path : list string) : Routed :=
  match path with
  | [t] => by_method method
      [("GET", CollGet t); ("HEAD", CollHead t); ("POST", CollCreate t); ("PUT", M405Coll t);
       ("PATCH", M405Coll t); ("DELETE", M405Coll t); ("OPTIONS", CollOptions t)]
  | [t; id] => by_method method
      [("GET", ItemGet t id); ("HEAD", ItemHead t id); ("PUT", ItemPut t id);
       ("PATCH", ItemPatch t id); ("DELETE", ItemDelete t id); ("POST", M405Item t id);
       ("OPTIONS", ItemOptions t id)]
  | _ => NoRoute
  end.

(** [members::router()], nested under [/api/objects]. *)
Definition members_router (method : string) (path : list string) : Routed :=
  match path with
  | [t; id; "members"] => by_method method [("GET", ListMembers t id); ("POST", AddMember t id)]
  | [t; id; "members"; m] =>
      by_method method [("PATCH", SetMember t id m); ("DELETE", RemoveMember t id m)]
  | [t; id; "checks"; name] => by_method method [("POST", RecordCheck t id name)]
  | _ => NoRoute
  end.

Definition types_router (method : string) (path : list string) : Routed :=
  match path with
  | ["api"; "types"] => by_method method [("GET", ListTypes); ("POST", CreateType)]
  | ["api"; "types"; t] => by_method method [("GET", GetType t)]
  | _ => NoRoute
  end.

Definition relations_router (method : string) (path : list string) : Routed :=
  match path with
  | ["api"; "relations"] => by_method method [("POST", CreateRelation); ("GET", ListRelations)]
  | ["api"; "relations"; id] => by_method method [("DELETE", DeleteRelation id)]
  | _ => NoRoute
  end.

Definition search_router (method : string) (path : list string) : Routed :=
  match path with
  | ["api"; "search"] => by_method method [("GET", SearchAll)]
  | _ => NoRoute
  end.

Definition orchestrator_router (method : string) (path : list string) : Routed :=
  match path with
  | ["api"; "feature-runs"] => by_method method [("POST", StartRun); ("GET", ListRuns)]
  | ["api"; "feature-runs"; id] => by_method method [("GET", GetRun id)]
  | ["api"; "feature-runs"; id; "handoffs"] => by_method method [("POST", RecordHandoff id)]
  | _ => NoRoute
  end.

Definition connectors_router (method : string) (path : list string) : Routed :=
  match path with
  | ["api"; "connectors"; id; "run"] => by_method method [("POST", RunConnector id)]
  | _ => NoRoute
  end.

(** [auth::router()]: the login shortcut is compiled in debug builds only. *)
Definition auth_router `{Build} (method : string) (path : list string) : Routed :=
  match path with
  | ["auth"; "claim-admin"] => by_method method [("POST", ClaimAdmin)]
  | ["auth"; "logout"] => by_method method [("POST", Logout)]
  | ["auth"; "dev-login"] => if debug_assertions then by_method method [("POST", DevLogin)] else NoRoute
  | _ => NoRoute
  end.

Definition oauth_router (method : string) (path : list string) : Routed :=
  match path with
  | ["auth"; p; "start"] => by_method method [("GET", OauthStart p)]
  | ["auth"; p; "callback"] => by_method method [("GET", OauthCallback p)]
  | _ => NoRoute
  end.

Definition debug_router (method : string) (path : list string) : Routed :=
  match path with
  | ["api"; "_debug"; "echo"] => by_method method [("POST", Echo)]
  | ["api"; "_debug"; "log-level"] => by_method method [("PATCH", SetLogLevel)]
  | _ => NoRoute
  end.

Definition health_routes (method : string) (path : list string) : Routed :=
  match path with
  | ["healthz"] => by_method method [("GET", Healthz)]
  | ["readyz"] => by_method method [("GET", Readyz)]
  | _ => NoRoute
  end.

(** The routes of the application. *)
Definition route `{Build} (method : string) (path : list string) : Routed :=
  let nested := match path with
                | "api" :: "objects" :: rest =>
                    merge (objects_router method rest) (members_router method rest)
                | _ => NoRoute
                end in
  fold_left (fun r router => merge r (router method path))
    [types_router; relations_router; search_router; orchestrator_router; connectors_router;
     auth_router; oauth_router; debug_router; health_routes] nested.

(** The endpoints whose handlers take no [Caller]. *)
Definition is_public (e : Endpoint) : bool :=
  match e with
  | DevLogin | OauthStart _ | OauthCallback _ | Healthz | Readyz => true
  | _ => false
  end.

(** The routes behind the rate limiter. *)
Definition is_limited (e : Endpoint) : bool :=
  match e with ClaimAdmin | Logout | DevLogin => true | _ => false end.

(** What is fixed when the server is built and started: its version, its configuration, whether
    the store answers a ping, the reloader of the log filter. *)
Class Deployment := {
  version : string;
  cfg : Config;
  ping : bool;
  log_reload : option (string -> bool) }.

(** [RateLimiter::new(cfg.auth_rate_limit, Duration::from_secs(..))], in nanoseconds. *)
Definition limiter `{Deployment} : RateLimiter :=
  mkRateLimiter (auth_rate_limit cfg) (auth_rate_window_secs cfg * 1000000000).

(** How [tower_http::cors::CorsLayer] is configured. *)
Record CorsLayer := mkCorsLayer {
  allow_origin : list string; allow_credentials : bool; allow_methods : list string;
  allow_headers : list string; expose_headers : list string }.

(** The layer of [run()]: credentials need explicit origins, so the configured list is allowed, as
    far as its entries are header values. *)
Definition cors_layer `{HttpCrate} (cfg : Config) : CorsLayer :=
  mkCorsLayer (omap header_from_str (cors_origins cfg)) true
    ["GET"; "HEAD"; "POST"; "PUT"; "PATCH"; "DELETE"; "OPTIONS"]
    ["content-type"; "if-match"; "if-none-match"; "cookie"]
    ["etag"; "location"].

(** The framework's own answers, and the CORS layer of a configuration: the requests it answers
    itself, and the headers it adds to the other answers. *)
Class Framework := {
  fallback_404 : Response;
  fallback_405 : Response;
  cors_preflight : CorsLayer -> HttpRequest -> option Response;
  cors_headers : CorsLayer -> HttpRequest -> list (string * string) -> list (string * string) }.

Section Server.
Context `{SerdeJson, Postgres, !FromSlice TypeSpec, !FromSlice RelInput, !FromSlice StartInput}.
Context `{!FromSlice HandoffInput, !FromSlice LevelInput, Reqwest, Env, Hmac, Jwt, Sha2, Build}.
Context `{UrlParams, FullText, HttpCrate, Deployment, Framework}.

(** The handlers without a caller. *)
Definition exec_public (fr : Fresh) (ctx : RequestCtx) (rq : HttpRequest) (e : Endpoint)
    : M Response :=
  match e with
  | DevLogin => dev_login (rq_dev_actor rq) (fr_token fr) (fr_session fr)
  | OauthStart p => start p (fr_uuid fr) (fr_unix fr)
  | OauthCallback p => callback p (q_code (rq_query rq)) (q_state (rq_query rq)) (rq_headers rq)
      (fr_unix fr) (mkLoginRandom (fr_uuid fr) (fr_session fr) (fr_token fr))
  | Healthz => mret (healthz version)
  | Readyz => mret (readyz version ping)
  | _ => fail not_found
  end.

Definition exec (fr : Fresh) (ctx : RequestCtx) (rq : HttpRequest) (caller : Caller.t)
    (e : Endpoint) : M Response :=
  let q := rq_query rq in
  let h := rq_headers rq in
  let body := rq_body rq in
  let uuid := fr_uuid fr in
  match e with
  | CollGet t => coll_get ctx caller t (q_limit q) (q_offset q)
  | CollHead t => coll_head ctx caller t
  | CollCreate t => coll_create ctx caller t h body uuid
  | CollOptions t => coll_options ctx caller t
  | M405Coll t => m405_coll ctx caller t
  | ItemGet t id => item_get ctx caller t id h
  | ItemHead t id => item_head ctx caller t id
  | ItemPut t id => item_put ctx caller t id h body
  | ItemPatch t id => item_patch ctx caller t id h body
  | ItemDelete t id => item_delete ctx caller t id h
  | ItemOptions t id => item_options ctx caller t id
  | M405Item t id => m405_item ctx caller t id
  | ListMembers t id => list_members ctx caller t id
  | AddMember t id => add_member ctx caller t id h body
  | SetMember t id m => set_member ctx caller t id m h body
  | RemoveMember t id m => remove_member ctx caller t id m
  | RecordCheck t id name => record_check ctx caller t id name h body
  | ListTypes => list_types caller
  | CreateType => create_type ctx caller body
  | GetType t => get_type ctx caller t
  | CreateRelation => create_relation ctx caller body uuid
  | ListRelations => list_relations ctx caller (q_entity q) (q_type q)
  | DeleteRelation id => delete_relation ctx caller id
  | SearchAll => search ctx caller (q_q q) (q_type q) (q_limit q)
  | StartRun => start_run ctx caller body uuid
  | ListRuns => list_runs ctx caller (q_case_id q)
  | GetRun id => get_run ctx caller id
  | RecordHandoff id => record_handoff ctx caller id body
  | RunConnector id => run_connector ctx caller id
  | ClaimAdmin => claim_admin caller
  | Logout => logout caller
  | Echo => echo ctx caller (rq_raw_headers rq) body
  | SetLogLevel => set_log_level log_reload ctx caller body
  | _ => fail not_found
  end.

(** The handler of an endpoint, its caller extracted first. *)
Definition handle (fr : Fresh) (ctx : RequestCtx) (rq : HttpRequest) (e : Endpoint) : M Response :=
  if is_public e then exec_public fr ctx rq e
  else caller ← from_request_parts (rq_headers rq); exec fr ctx rq caller e.

(** The process: the state of the handlers and the limiter's table. *)
Record Process := mkProcess { app : AppState; buckets : Buckets }.

Definition limited (fr : Fresh) (ctx : RequestCtx) (rq : HttpRequest) (e : Endpoint) (p : Process)
    : AppResult unit * Process :=
  if is_limited e then
    let '(refusal, b) :=
      enforce limiter (mkClientInfo (header_str (rq_headers rq) "x-forwarded-for") (rq_peer rq))
        (fr_instant fr) (Some ctx) (buckets p) in
    (match refusal with Some er => Err er | None => Ok tt end, mkProcess (app p) b)
  else (Ok tt, p).

(** A request inside the request-id layer. *)
Definition respond (fr : Fresh) (rq : HttpRequest) (p : Process) (ctx : RequestCtx)
    : Response * Process :=
  match route (rq_method rq) (rq_path rq) with
  | NoRoute => (fallback_404, p)
  | NoMethod => (fallback_405, p)
  | Found e =>
      let '(ok, p1) := limited fr ctx rq e p in
      match ok with
      | Err er => (into_response er, p1)
      | Ok _ =>
          let '(out, st) := handle fr ctx rq e (app p1) in
          (render out, mkProcess st (buckets p1))
      end
  end.

(** A request through the whole stack: CORS, the request id, the routes; the response to HEAD is
    stripped of its body. *)
Definition serve_http (fr : Fresh) (rq : HttpRequest) (p : Process) : Response * Process :=
  match cors_preflight (cors_layer cfg) rq with
  | Some resp => (resp, p)
  | None =>
      let run := respond fr rq p in
      let ctx := request_ctx (rq_headers rq) (fr_request fr) (fr_trace fr) in
      let resp := request_id_layer (rq_headers rq) (fr_request fr) (fr_trace fr) (fun c => (run c).1) in
      (mkResponse (resp_status resp) (cors_headers (cors_layer cfg) rq (resp_headers resp))
         (if String.eqb (rq_method rq) "HEAD" then None else resp_body resp),
       (run ctx).2)
  end.

(** A run of the server on a sequence of requests. *)
Definition serve_all (rqs : list (Fresh * HttpRequest)) (p : Process) : Process :=
  fold_left (fun p r => (serve_http r.1 r.2 p).2) rqs p.
End Server.
