(* ===== verification/Boot.v ===== *)
(** * Starting and stopping ([lib.rs], [main.rs])

    [run()] from the environment to the shutdown signal: the configuration, the log filter, the
    connection, the migrations, the loads of the registry and the workflows, the layers, the
    listener, and the requests served until one of the two signals. A [Life] is one run of the
    process; an installation is a history of lives over one database.

    The connection, the listener, the log filter, the migrator of [sqlx] and the CORS layer of
    [tower_http] are parameters. *)

From S2P Require Import Prelude RustStr Encoding Config Json AppError Closure Schema Registry.
From S2P Require Import Workflow State Rbac Caller FieldPerms Objects Fixture ObjectHandlers.
From S2P Require Import Members Orchestrator Types Migrations Relations HttpClient Connectors Auth.
From S2P Require Import OAuth RateLimit Platform Search Server.

Local Open Scope Z_scope.

(** ** What the start relies on *)

(** [tracing_subscriber]'s filters: [filter_try_new] is [EnvFilter::try_new], [filter_new] is the
    lenient [EnvFilter::new], [filter_reload] tells whether the handle swapped the filter. *)
Class Tracing := {
  Filter : Type;
  filter_try_new : string -> option Filter;
  filter_new : string -> Filter;
  filter_reload : Filter -> bool }.

(** The connection to the database and the listener of an address. *)
Class Network := {
  pg_connect : string -> Result string unit;
  tcp_bind : string -> Result string unit }.

(** The database server's side: the versions that the migrator has recorded, and the data. *)
Record Stored := mkStored { applied : list Z; data : Db }.

(** [sqlx::migrate!(..).run(&pool)] on a list of versioned scripts. *)
Class Migrator := { migrate : list (Z * SqlM unit) -> Stored -> Result string unit * Stored }.

(** Its documentation: versions already recorded are skipped, the pending ones are run in order,
    each in a transaction of its own that also records it, and the first that fails ends it. *)
Class MigratorDoc `{Migrator} := {
  migrate_done : forall ms s, applied s = ms.*1 -> migrate ms s = (Ok tt, s);
  migrate_next : forall old v m rest db db',
    NoDup (old ++ (v, m) :: rest).*1 -> m db = Ok (tt, db') ->
    migrate (old ++ (v, m) :: rest) (mkStored old.*1 db)
    = migrate (old ++ (v, m) :: rest) (mkStored (old.*1 ++ [v]) db');
  migrate_fails : forall old v m rest db e,
    NoDup (old ++ (v, m) :: rest).*1 -> m db = Err e ->
    exists msg, migrate (old ++ (v, m) :: rest) (mkStored old.*1 db) = (Err msg, mkStored old.*1 db) }.

(** Whether the CORS layer can be built: it panics on what browsers would refuse. *)
Class Tower := { cors_usable : CorsLayer -> bool }.

(** The documentation of [AllowOrigin::list]: a wildcard in the list panics. *)
Class TowerDoc `{Tower} := {
  wildcard_panics : forall l, "*" ∈ allow_origin l -> cors_usable l = false;
  explicit_usable : forall l,
    "*" ∉ allow_origin l ++ allow_methods l ++ allow_headers l ++ expose_headers l ->
    cors_usable l = true }.

(** ** Starting *)

Inductive BootError :=
| ConfigError (e : string) | ConnectError (e : string) | MigrateError (e : string) | CorsPanic
| BindError (e : string).

(** A started server: what the closures of [run()] captured, and the process. *)
Record Started := mkStarted {
  st_cfg : Config; st_reloader : option (string -> bool); st_process : Process }.

Section Start.
Context `{Env, Tracing, Network, Migrator, Tower, HttpCrate}.

Definition default_filter : string := "info,numu_api=debug".

(** The filter of the subscriber: the one of [RUST_LOG] if it parses. *)
Definition boot_filter : Filter :=
  default (filter_new default_filter) (env_var "RUST_LOG" ≫= filter_try_new).

(** The closure that [PATCH /api/_debug/log-level] calls. *)
Definition log_reloader (level : string) : bool :=
  match filter_try_new level with
  | Some f => filter_reload f
  | None => false
  end.

(** [run()] up to the listener; [cell] is [LOG_RELOAD], empty in a new process. *)
Definition start_up (cell : option (string -> bool)) (s : Stored) : Result BootError Started * Stored :=
  match from_env with
  | Err e => (Err (ConfigError e), s)
  | Ok cfg =>
      let cell := set_log_reloader log_reloader cell in
      match pg_connect (database_url cfg) with
      | Err e => (Err (ConnectError e), s)
      | Ok _ =>
          let '(migrated, s) := migrate migrations s in
          match migrated with
          | Err e => (Err (MigrateError e), s)
          | Ok _ =>
              let state := boot (data s) in
              if negb (cors_usable (cors_layer cfg)) then (Err CorsPanic, s)
              else match tcp_bind (bind cfg) with
                   | Err e => (Err (BindError e), s)
                   | Ok _ => (Ok (mkStarted cfg cell (mkProcess state ∅)), s)
                   end
          end
      end
  end.
End Start.

(** ** Stopping *)

(** Installing the handler of a signal: refused by the system, or the signal arrives after a
    number of events, if ever. *)
Inductive Registration := Refused | Listening (arrival : option nat).

Record Signals := mkSignals { sigint : Registration; sigterm : Registration }.

(** [let _ = tokio::signal::ctrl_c().await]: the future ends with the error too. *)
Definition ctrl_c (r : Registration) : option nat :=
  match r with Refused => Some O | Listening n => n end.

(** Without its handler the other future never ends. *)
Definition terminate (r : Registration) : option nat :=
  match r with Refused => None | Listening n => n end.

(** [tokio::select!]: the first of the two. *)
Definition shutdown_signal (sg : Signals) : option nat :=
  union_with (fun a b => Some (Nat.min a b)) (ctrl_c (sigint sg)) (terminate (sigterm sg)).

(** ** Lives *)

(** What happens to a running server: requests, and the clock of the database. *)
Inductive Stimulus := Request (fr : Fresh) (rq : HttpRequest) | Tick (t : Z).

(** One run of the process. *)
Record Life := mkLife {
  l_env : Env; l_network : Network; l_version : string; l_ping : bool; l_signals : Signals;
  l_stimuli : list Stimulus }.

Inductive Outcome := Failed (e : BootError) | Stopped | Running.

(** [main]'s exit code. *)
Definition exit_code (o : Outcome) : option Z :=
  match o with
  | Failed CorsPanic => Some 101
  | Failed _ => Some 1
  | Stopped => Some 0
  | Running => None
  end.

Section Lives.
Context `{SerdeJson, Postgres, !FromSlice TypeSpec, !FromSlice RelInput, !FromSlice StartInput}.
Context `{!FromSlice HandoffInput, !FromSlice LevelInput, Reqwest, Hmac, Jwt, Sha2, Build}.
Context `{UrlParams, FullText, HttpCrate, Framework, Tracing, Migrator, Tower}.

Definition tick (t : Z) (p : Process) : Process :=
  mkProcess (set_pool (set_now t (pool (app p))) (app p)) (buckets p).

Definition stimulate `{Env, Deployment} (p : Process) (x : Stimulus) : Process :=
  match x with
  | Request fr rq => (serve_http fr rq p).2
  | Tick t => tick t p
  end.

(** The server takes no new request after the signal, and finishes those it has. *)
Definition heard (sg : Signals) (l : list Stimulus) : list Stimulus :=
  match shutdown_signal sg with Some n => take n l | None => l end.

Definition deployment (l : Life) (x : Started) : Deployment :=
  Build_Deployment (l_version l) (st_cfg x) (l_ping l) (st_reloader x).

(** The process when it stops, or as far as it got. *)
Definition serve_life (l : Life) (x : Started) : Process :=
  let _ := l_env l in
  let _ := deployment l x in
  fold_left stimulate (heard (l_signals l) (l_stimuli l)) (st_process x).

(** [run()] *)
Definition run (l : Life) (s : Stored) : Outcome * Stored :=
  let _ := l_env l in
  let _ := l_network l in
  let '(r, s1) := start_up None s in
  match r with
  | Err e => (Failed e, s1)
  | Ok x => (match shutdown_signal (l_signals l) with Some _ => Stopped | None => Running end,
             mkStored (applied s1) (pool (app (serve_life l x))))
  end.

(** A handler of Ctrl-C that cannot be installed ends the server before its first request; one of
    SIGTERM only leaves Ctrl-C to stop it. *)
Lemma unlistened_signals l x :
  (sigint (l_signals l) = Refused -> serve_life l x = st_process x) /\
  (sigterm (l_signals l) = Refused -> shutdown_signal (l_signals l) = ctrl_c (sigint (l_signals l))).
Proof.
  unfold serve_life, heard, shutdown_signal. destruct (l_signals l) as [i t]; cbn [sigint sigterm].
  split; intros ->; [by destruct (terminate t)|by destruct (ctrl_c i)].
Qed.

(** A database over many runs of the process. *)
Definition history (ls : list Life) (s : Stored) : Stored := fold_left (fun s l => (run l s).2) ls s.
End Lives.
