(* ===== verification/ServerProps.v ===== *)
(** * What the server guarantees as a whole

    Properties of arbitrary sequences of requests, by the rules of [Steps] over every endpoint,
    and of the stack in front of the handlers. *)

From S2P Require Import Prelude RustStr Encoding Config Json AppError Closure Schema Registry.
From S2P Require Import Workflow State Rbac Caller FieldPerms Objects Fixture ObjectHandlers.
From S2P Require Import Members Orchestrator Types TypeProps Relations HttpClient Connectors Auth.
From S2P Require Import OAuth RateLimit Platform Search Steps Server.

Local Open Scope Z_scope.

(** ** The statements of the other components leave the objects alone *)

(** Every path of a statement that ends well: the new store, by computation. *)
Ltac frame_tac :=
  apply data_steps_frame; intros ? ? ? Hframe;
  repeat first [progress simplify_eq/= | case_match]; try done.

Section Frames.
Variable minted : string -> Prop.

#[export] Instance update_membership_steps o m r c :
  SqlRespects (data_steps minted) (update_membership o m r c).
Proof. unfold update_membership. frame_tac. Qed.
#[export] Instance delete_membership_steps o m :
  SqlRespects (data_steps minted) (delete_membership o m).
Proof. unfold delete_membership. frame_tac. Qed.
#[export] Instance upsert_check_steps id n p o :
  SqlRespects (data_steps minted) (upsert_check id n p o).
Proof. unfold upsert_check. frame_tac. Qed.
#[export] Instance insert_run_steps id c t : SqlRespects (data_steps minted) (insert_run id c t).
Proof. unfold insert_run. frame_tac. Qed.
#[export] Instance insert_handoff_steps h : SqlRespects (data_steps minted) (insert_handoff h).
Proof. unfold insert_handoff. frame_tac. Qed.
#[export] Instance update_run_steps id p s : SqlRespects (data_steps minted) (update_run id p s).
Proof. unfold update_run. frame_tac. Qed.
#[export] Instance insert_relation_steps id r : SqlRespects (data_steps minted) (insert_relation id r).
Proof. unfold insert_relation. frame_tac. Qed.
#[export] Instance remove_relation_steps id : SqlRespects (data_steps minted) (remove_relation id).
Proof. unfold remove_relation. frame_tac. Qed.
#[export] Instance insert_session_steps sid r : SqlRespects (data_steps minted) (insert_session sid r).
Proof. unfold insert_session. frame_tac. Qed.
#[export] Instance delete_sessions_steps a : SqlRespects (data_steps minted) (delete_sessions a).
Proof. unfold delete_sessions. frame_tac. Qed.
#[export] Instance insert_identity_steps p s a e :
  SqlRespects (data_steps minted) (insert_identity p s a e).
Proof. unfold insert_identity. frame_tac. Qed.

#[export] Instance create_type_txn_steps spec : SqlRespects (data_steps minted) (create_type_txn spec).
Proof. apply data_steps_frame. by intros db a db' (_ & _ & _ & ->)%create_type_txn_ok. Qed.

#[export] Instance store_registry_steps r : Respects (data_steps minted) (store_registry r).
Proof. intros st. apply rtc_refl. Qed.

#[export] Instance ignore_steps {A} (m : M A) :
  Respects (data_steps minted) m -> Respects (data_steps minted) (ignore m).
Proof. intros Hm st. apply Hm. Qed.

#[export] Instance stamp_run_steps `{SerdeJson, Postgres} id s :
  SqlRespects (data_steps minted) (stamp_run id s).
Proof.
  intros st v db (row & m & Hrow & Hty & _ & _ & _ & ->)%stamp_run_ok. apply rtc_once.
  eapply step_update; [exact Hrow|done|done].
Qed.

#[export] Instance claim_update_steps `{Postgres} a : SqlRespects (data_steps minted) (claim_update a).
Proof.
  intros st n db. unfold claim_update. destruct (select_data a "actor" (pool st)) as [row|] eqn:Hrow.
  - apply select_data_Some in Hrow as [Hrow Hty]. case_decide; [intros [= _ <-]; apply rtc_refl|].
    destruct (jsonb_set _ _ _) as [data|]; [|done]. intros [= _ <-]. apply rtc_once.
    cbn [pool set_pool entity_data set_entity_data].
    replace (mkDataRow "actor" data (d_scope_parent_id row) (d_version row) (d_updated_at row))
      with (set_data data row) by (unfold set_data; by rewrite Hty).
    by eapply step_claim.
  - intros [= _ <-]. apply rtc_refl.
Qed.
End Frames.

(** ** Every request is a sequence of steps *)

Section Server.
Context `{SerdeJson, Postgres, !FromSlice TypeSpec, !FromSlice RelInput, !FromSlice StartInput}.
Context `{!FromSlice HandoffInput, !FromSlice LevelInput, Reqwest, Env, Hmac, Jwt, Sha2, Build}.
Context `{UrlParams, FullText, HttpCrate, Deployment, Framework}.

(** The identifiers a request may give to a new object. *)
Definition minted_by (fr : Fresh) (id : string) : Prop := exists prefix, id = mint prefix (fr_uuid fr).

Lemma coll_create_steps fr ctx caller t h body :
  Respects (data_steps (minted_by fr)) (coll_create ctx caller t h body (fr_uuid fr)).
Proof.
  unfold coll_create, create_txn. respects_tac. apply respects_run_sql; [apply _|].
  apply sql_respects_bind; [apply _..|intros _].
  apply sql_respects_bind; [apply _|apply insert_data_steps; by eexists|intros _]. apply _.
Qed.

Lemma upsert_identity_steps fr provider sub email name :
  Respects (data_steps (minted_by fr)) (upsert_identity provider sub email name (fr_uuid fr)).
Proof.
  unfold upsert_identity. respects_tac. apply respects_run_sql; [apply _|].
  apply sql_respects_bind; [apply _..|intros _].
  apply sql_respects_bind; [apply _|apply insert_data_steps; by eexists|intros _]. apply _.
Qed.

#[local] Existing Instances coll_create_steps upsert_identity_steps.

Lemma exec_public_steps fr ctx rq e :
  Respects (data_steps (minted_by fr)) (exec_public fr ctx rq e).
Proof.
  destruct e; simpl; try apply _. respects_tac.
Qed.

Lemma exec_steps fr ctx rq caller e : Respects (data_steps (minted_by fr)) (exec fr ctx rq caller e).
Proof.
  destruct e; cbn [exec]; try apply _; respects_tac.
Qed.

#[export] Instance from_request_parts_ro headers : ReadOnly (from_request_parts headers).
Proof. unfold from_request_parts. apply _. Qed.

Lemma handle_steps fr ctx rq e : Respects (data_steps (minted_by fr)) (handle fr ctx rq e).
Proof.
  unfold handle. destruct (is_public e); [apply exec_public_steps|].
  apply respects_bind; [apply _..|]. intros caller. apply exec_steps.
Qed.

(** A request leaves the state of the handlers alone, or runs the handler it is routed to. *)
Lemma serve_http_app fr rq p :
  app (serve_http fr rq p).2 = app p \/
  exists e ctx, route (rq_method rq) (rq_path rq) = Found e /\
    app (serve_http fr rq p).2 = (handle fr ctx rq e (app p)).2.
Proof.
  unfold serve_http, respond. destruct (cors_preflight _ _); [by left|]. cbn [snd].
  destruct (route _ _) as [| |e]; [by left..|].
  set (ctx := request_ctx _ _ _).
  assert (Hrun : forall q, app q = app p ->
    app (let '(out, st) := handle fr ctx rq e (app q) in (render out, mkProcess st (buckets q))).2
    = (handle fr ctx rq e (app p)).2) by (intros q ->; by destruct (handle fr ctx rq e (app p))).
  unfold limited. destruct (is_limited e); [|right; exists e, ctx; split; [done|by apply Hrun]].
  destruct (enforce _ _ _ _ _) as [[er|] b]; [by left|right]. exists e, ctx. split; [done|by apply Hrun].
Qed.

(** A relation on the states of the handlers holds across a request when it holds across the
    handler of every endpoint. *)
Lemma serve_http_respects (R : relation AppState) `{!PreOrder R} fr rq p :
  (forall ctx e, Respects R (handle fr ctx rq e)) -> R (app p) (app (serve_http fr rq p).2).
Proof.
  intros Hh. destruct (serve_http_app fr rq p) as [->|(e & ctx & _ & ->)]; [reflexivity|apply Hh].
Qed.

Lemma serve_all_respects (R : relation AppState) `{!PreOrder R} rqs p :
  (forall fr rq ctx e, (fr, rq) ∈ rqs -> Respects R (handle fr ctx rq e)) ->
  R (app p) (app (serve_all rqs p)).
Proof.
  unfold serve_all. revert p. induction rqs as [|[fr rq] rqs IH]; intros p Hh; [reflexivity|].
  cbn [fold_left fst snd].
  transitivity (app (serve_http fr rq p).2); [apply serve_http_respects; [done|]|apply IH].
  - intros ctx e. apply (Hh fr). set_solver.
  - intros fr' rq' ctx e Hin. apply (Hh fr'). set_solver.
Qed.

Lemma data_step_mono (P Q : string -> Prop) t t' :
  (forall id, P id -> Q id) -> data_step P t t' -> data_step Q t t'.
Proof.
  intros HPQ [t0 id row Hm Hn Hv|t0 id row row1 Hr Hty Hv|t0 id|t0 id row data Hr Hty].
  - by apply step_insert; [apply HPQ|..].
  - by eapply step_update.
  - apply step_delete.
  - by eapply step_claim.
Qed.

Lemma data_steps_mono (P Q : string -> Prop) st st' :
  (forall id, P id -> Q id) -> data_steps P st st' -> data_steps Q st st'.
Proof. intros HPQ. apply rtc_subrel. intros t t'. by apply data_step_mono. Qed.

(** The identifiers a sequence of requests may give to new objects. *)
Definition minted_in (rqs : list (Fresh * HttpRequest)) (id : string) : Prop :=
  exists r, r ∈ rqs /\ minted_by r.1 id.

Lemma serve_all_steps rqs p : data_steps (minted_in rqs) (app p) (app (serve_all rqs p)).
Proof.
  apply (serve_all_respects _). intros fr rq ctx e Hin st.
  eapply data_steps_mono; [|apply handle_steps]. intros id Hid. by exists (fr, rq).
Qed.

(** A version identifies a content. Whatever requests are served, by whomever and with
    whatever outcome: an object that is there before and after has kept its type, its version has
    not decreased, and if it is the same then so is the content (actors aside, whose role the
    first-admin claim sets in place). So an ETag is never reused for another content. *)
Theorem version_identifies_content rqs p id row row' :
  ~ minted_in rqs id ->
  entity_data (pool (app p)) !! id = Some row ->
  entity_data (pool (app (serve_all rqs p))) !! id = Some row' ->
  d_type_id row' = d_type_id row /\ d_version row <= d_version row' /\
  (d_type_id row <> "actor" -> d_version row' = d_version row -> d_data row' = d_data row).
Proof.
  intros Hid Hrow Hrow'.
  destruct (data_steps_row _ _ _ _ _ (serve_all_steps rqs p) Hid Hrow') as (row0 & Hrow0 & Hn).
  by assert (row0 = row) as -> by congruence.
Qed.

(** C16 Authentication is required everywhere: a request to any endpoint but the login routes
    and the health probes that does not carry the cookie of a live session is answered 401 (or
    429 by the limiter), the same whatever it asks for, and changes nothing. *)
Theorem authentication_required fr rq p e :
  route (rq_method rq) (rq_path rq) = Found e -> is_public e = false ->
  (forall token, header_str (rq_headers rq) "cookie" ≫= cookie_token = Some token ->
     live_sessions (pool (app p)) (sha256_hex token) = []) ->
  let ctx := request_ctx (rq_headers rq) (fr_request fr) (fr_trace fr) in
  exists refusal b,
    respond fr rq p ctx = (into_response refusal, mkProcess (app p) b) /\
    (refusal = unauthorized \/
     refusal = with_request_id (ctx_request_id ctx) too_many_requests /\ is_limited e = true).
Proof.
  intros Hroute Hpub Hno ctx.
  assert (Hauth : from_request_parts (rq_headers rq) (app p) = (Err unauthorized, app p)).
  { unfold from_request_parts.
    destruct (header_str (rq_headers rq) "cookie" ≫= cookie_token) as [token|] eqn:Et; [|done].
    run_m. simpl. by rewrite (Hno token eq_refl). }
  assert (Hh : handle fr ctx rq e (app p) = (Err unauthorized, app p)).
  { unfold handle. rewrite Hpub. by apply m_bind_fail. }
  unfold respond. rewrite Hroute. unfold limited, enforce.
  destruct (is_limited e) eqn:El.
  - destruct (allow _ _ _ _) as [[] b]; simpl.
    + rewrite Hh. simpl. do 2 eexists. split; [done|by left].
    + do 2 eexists. split; [done|by right].
  - rewrite Hh. simpl. do 2 eexists. split; [done|by left].
Qed.
End Server.
