(* ===== verification/Footprint.v ===== *)
(** * What each endpoint may change

    The tables of the store, and the registry snapshot, that the handler of an endpoint writes,
    whatever the request and its outcome. Everything else is as it was: the invariants of one
    component survive the requests of the others. *)

From S2P Require Import Prelude RustStr Encoding Config Json AppError Closure Schema Registry.
From S2P Require Import Workflow State Rbac Caller FieldPerms Objects Fixture ObjectHandlers.
From S2P Require Import Members Orchestrator Types TypeProps Relations HttpClient Connectors Auth.
From S2P Require Import OAuth RateLimit Platform Search Steps Server ServerProps.

Local Open Scope Z_scope.

Inductive Table :=
| Ttypes | Tfields | Tentities | Tdata | Tmemberships | Tcases | Tchecks | Trelations | Truns
| Thandoffs | Tsessions | Tidentities | Tevents | Tregistry.

Definition same_table (t : Table) (st st' : AppState) : Prop :=
  match t with
  | Ttypes => type_definitions (pool st') = type_definitions (pool st)
  | Tfields => type_fields (pool st') = type_fields (pool st)
  | Tentities => entities (pool st') = entities (pool st)
  | Tdata => entity_data (pool st') = entity_data (pool st)
  | Tmemberships => memberships (pool st') = memberships (pool st)
  | Tcases => cases (pool st') = cases (pool st)
  | Tchecks => case_close_checks (pool st') = case_close_checks (pool st)
  | Trelations => relations (pool st') = relations (pool st)
  | Truns => feature_runs (pool st') = feature_runs (pool st)
  | Thandoffs => role_handoffs (pool st') = role_handoffs (pool st)
  | Tsessions => sessions (pool st') = sessions (pool st)
  | Tidentities => auth_identities (pool st') = auth_identities (pool st)
  | Tevents => events (pool st') = events (pool st)
  | Tregistry => registry st' = registry st
  end.

(** The tables no request writes. *)
Definition same_fixed (st st' : AppState) : Prop :=
  roles (pool st') = roles (pool st) /\ field_permissions (pool st') = field_permissions (pool st) /\
  workflows (pool st') = workflows (pool st) /\ wf_cache st' = wf_cache st.

(** At most the tables of [T] change. *)
Definition touches (T : list Table) : relation AppState := fun st st' =>
  (forall t, t ∉ T -> same_table t st st') /\ same_fixed st st'.

#[export] Instance touches_preorder T : PreOrder (touches T).
Proof.
  split.
  - intros st. split; [by intros []|by unfold same_fixed].
  - intros x y z [H1 F1] [H2 F2]. split.
    + intros t Ht. specialize (H1 t Ht). specialize (H2 t Ht). destruct t; simpl in *; congruence.
    + unfold same_fixed in *. destruct F1 as (? & ? & ? & ?), F2 as (? & ? & ? & ?).
      split_and!; congruence.
Qed.

#[export] Instance table_eq_dec : EqDecision Table.
Proof. solve_decision. Defined.

(** The tables of [L] are among those of [T]: decided by evaluation. *)
Class Within (L T : list Table) : Prop := within : forallb (fun t => bool_decide (t ∈ T)) L = true.
#[export] Hint Extern 0 (Within _ _) => (vm_compute; reflexivity) : typeclass_instances.

Lemma within_subset L T t : Within L T -> t ∈ L -> t ∈ T.
Proof.
  unfold Within. rewrite forallb_forall. intros Hw Hin. apply list_elem_of_In, Hw in Hin.
  by apply bool_decide_eq_true in Hin.
Qed.

Lemma touches_within L T st st' : Within L T -> touches L st st' -> touches T st st'.
Proof. intros Hw [H1 H2]. split; [|done]. intros t Ht. apply H1. intros Hin. by eapply Ht, within_subset. Qed.

Lemma touch_stmt {A} (L T : list Table) (m : SqlM A) :
  Within L T -> (forall st a db, m (pool st) = Ok (a, db) -> touches L st (set_pool db st)) ->
  SqlRespects (touches T) m.
Proof. intros Hw Hm st a db Hr. eapply touches_within; [done|]. by eapply Hm. Qed.

(** All but the tables of [L] are computed to be the same. *)
Ltac same_tac :=
  split; [intros [] Hnot; simpl; try reflexivity; exfalso; apply Hnot; set_solver|done].
Ltac cases_tac H := repeat first [progress simplify_eq/= | case_match]; try same_tac.

Section Statements.
Variable T : list Table.

#[export] Instance record_event_touches ctx a e k p :
  Within [Tevents] T -> Respects (touches T) (record_event ctx a e k p).
Proof.
  intros HT st. destruct (record_event_entities ctx a e k p st) as [evs ->].
  eapply touches_within; [exact HT|]. same_tac.
Qed.
#[export] Instance insert_entity_touches id t by_ :
  Within [Tentities] T -> SqlRespects (touches T) (insert_entity id t by_).
Proof. intros HT. eapply touch_stmt; [exact HT|]. intros st a db (_ & _ & ->)%insert_entity_ok. same_tac. Qed.
#[export] Instance insert_data_touches id t data sp :
  Within [Tdata] T -> SqlRespects (touches T) (insert_data id t data sp).
Proof.
  intros HT. eapply touch_stmt; [exact HT|]. intros st a db (_ & _ & _ & _ & ->)%insert_data_ok. same_tac.
Qed.
#[export] Instance update_data_touches id t data sp v :
  Within [Tdata] T -> SqlRespects (touches T) (update_data id t data sp v).
Proof.
  intros HT. eapply touch_stmt; [exact HT|].
  intros st a db [[_ ->]|(_ & row & _ & _ & _ & _ & _ & ->)]%update_data_ok; same_tac.
Qed.
#[export] Instance upsert_membership_touches o m row :
  Within [Tmemberships] T -> SqlRespects (touches T) (upsert_membership o m row).
Proof.
  intros HT. eapply touch_stmt; [exact HT|]. intros st a db (_ & _ & _ & ->)%upsert_membership_ok. same_tac.
Qed.
#[export] Instance grant_owner_touches o m :
  Within [Tmemberships] T -> SqlRespects (touches T) (grant_owner o m).
Proof. intros HT st a db Hr. unfold grant_owner in Hr. by eapply upsert_membership_touches. Qed.
#[export] Instance upsert_case_mirror_touches `{Postgres} id data v :
  Within [Tcases] T -> SqlRespects (touches T) (upsert_case_mirror id data v).
Proof. intros HT. eapply touch_stmt; [exact HT|]. intros st a db ->%upsert_case_mirror_ok. same_tac. Qed.
#[export] Instance update_membership_touches o m r c :
  Within [Tmemberships] T -> SqlRespects (touches T) (update_membership o m r c).
Proof. intros HT. eapply touch_stmt; [exact HT|]. unfold update_membership. intros st a db Hr. cases_tac Hr. Qed.
#[export] Instance delete_membership_touches o m :
  Within [Tmemberships] T -> SqlRespects (touches T) (delete_membership o m).
Proof. intros HT. eapply touch_stmt; [exact HT|]. unfold delete_membership. intros st a db Hr. cases_tac Hr. Qed.
#[export] Instance upsert_check_touches id n p o :
  Within [Tchecks] T -> SqlRespects (touches T) (upsert_check id n p o).
Proof. intros HT. eapply touch_stmt; [exact HT|]. unfold upsert_check. intros st a db Hr. cases_tac Hr. Qed.
#[export] Instance insert_run_touches id c t :
  Within [Truns] T -> SqlRespects (touches T) (insert_run id c t).
Proof. intros HT. eapply touch_stmt; [exact HT|]. unfold insert_run. intros st a db Hr. cases_tac Hr. Qed.
#[export] Instance insert_handoff_touches h :
  Within [Thandoffs] T -> SqlRespects (touches T) (insert_handoff h).
Proof. intros HT. eapply touch_stmt; [exact HT|]. unfold insert_handoff. intros st a db Hr. cases_tac Hr. Qed.
#[export] Instance update_run_touches id p s :
  Within [Truns] T -> SqlRespects (touches T) (update_run id p s).
Proof. intros HT. eapply touch_stmt; [exact HT|]. unfold update_run. intros st a db Hr. cases_tac Hr. Qed.
#[export] Instance insert_relation_touches id r :
  Within [Trelations] T -> SqlRespects (touches T) (insert_relation id r).
Proof. intros HT. eapply touch_stmt; [exact HT|]. unfold insert_relation. intros st a db Hr. cases_tac Hr. Qed.
#[export] Instance remove_relation_touches id :
  Within [Trelations] T -> SqlRespects (touches T) (remove_relation id).
Proof. intros HT. eapply touch_stmt; [exact HT|]. unfold remove_relation. intros st a db Hr. cases_tac Hr. Qed.
#[export] Instance insert_session_touches sid r :
  Within [Tsessions] T -> SqlRespects (touches T) (insert_session sid r).
Proof. intros HT. eapply touch_stmt; [exact HT|]. unfold insert_session. intros st a db Hr. cases_tac Hr. Qed.
#[export] Instance delete_sessions_touches a0 :
  Within [Tsessions] T -> SqlRespects (touches T) (delete_sessions a0).
Proof. intros HT. eapply touch_stmt; [exact HT|]. unfold delete_sessions. intros st a db Hr. cases_tac Hr. Qed.
#[export] Instance insert_identity_touches p s a0 e :
  Within [Tidentities] T -> SqlRespects (touches T) (insert_identity p s a0 e).
Proof. intros HT. eapply touch_stmt; [exact HT|]. unfold insert_identity. intros st a db Hr. cases_tac Hr. Qed.
#[export] Instance create_type_txn_touches spec :
  Within [Ttypes; Tfields] T -> SqlRespects (touches T) (create_type_txn spec).
Proof.
  intros HT. eapply touch_stmt; [exact HT|]. intros st a db (_ & _ & _ & ->)%create_type_txn_ok. same_tac.
Qed.
#[export] Instance store_registry_touches r :
  Within [Tregistry] T -> Respects (touches T) (store_registry r).
Proof. intros HT st. eapply touches_within; [exact HT|]. same_tac. Qed.
#[export] Instance ignore_touches {A} (m : M A) :
  Respects (touches T) m -> Respects (touches T) (ignore m).
Proof. intros Hm st. apply Hm. Qed.
#[export] Instance stamp_run_touches `{SerdeJson, Postgres} id s :
  Within [Tdata] T -> SqlRespects (touches T) (stamp_run id s).
Proof.
  intros HT. eapply touch_stmt; [exact HT|].
  intros st v db (row & m & _ & _ & _ & _ & _ & ->)%stamp_run_ok. same_tac.
Qed.
#[export] Instance claim_update_touches `{Postgres} a0 :
  Within [Tdata] T -> SqlRespects (touches T) (claim_update a0).
Proof. intros HT. eapply touch_stmt; [exact HT|]. unfold claim_update. intros st a db Hr. cases_tac Hr. Qed.

(** Deletion follows every reference. *)
Definition deletion : list Table :=
  [Tentities; Tdata; Tmemberships; Tcases; Tchecks; Trelations; Truns; Tsessions; Tidentities; Tevents].
#[export] Instance delete_object_touches id t v :
  Within deletion T -> SqlRespects (touches T) (delete_object id t v).
Proof.
  intros HT. eapply touch_stmt; [exact HT|].
  intros st a db [[_ ->]|(_ & row & _ & _ & _ & _ & ->)]%delete_object_ok; same_tac.
Qed.
End Statements.

(** ** The footprint of an endpoint *)

Definition footprint (e : Endpoint) : list Table :=
  match e with
  | CollCreate _ => [Tentities; Tdata; Tmemberships; Tcases; Tevents]
  | ItemPut _ _ | ItemPatch _ _ => [Tdata; Tcases; Tevents]
  | ItemDelete _ _ => deletion
  | AddMember _ _ | SetMember _ _ _ | RemoveMember _ _ _ => [Tmemberships; Tevents]
  | RecordCheck _ _ _ => [Tchecks; Tevents]
  | CreateType => [Ttypes; Tfields; Tregistry; Tevents]
  | CreateRelation | DeleteRelation _ => [Trelations; Tevents]
  | StartRun => [Truns; Tevents]
  | RecordHandoff _ => [Truns; Thandoffs; Tevents]
  | RunConnector _ => [Tdata; Tevents]
  | ClaimAdmin => [Tdata]
  | Logout | DevLogin => [Tsessions]
  | OauthCallback _ => [Tentities; Tdata; Tidentities; Tsessions]
  | SetLogLevel => [Tevents]
  | _ => []
  end.

Section Server.
Context `{SerdeJson, Postgres, !FromSlice TypeSpec, !FromSlice RelInput, !FromSlice StartInput}.
Context `{!FromSlice HandoffInput, !FromSlice LevelInput, Reqwest, Env, Hmac, Jwt, Sha2, Build}.
Context `{UrlParams, FullText, HttpCrate, Deployment, Framework}.

Lemma handle_touches fr ctx rq e : Respects (touches (footprint e)) (handle fr ctx rq e).
Proof.
  unfold handle. destruct e; cbn [is_public exec exec_public];
    try apply respects_bind; try apply _; respects_tac.
Qed.

(** C17 Every endpoint writes its own tables only: whatever the request, whoever sends it and
    whether it succeeds, nothing outside the endpoint's footprint changes. In particular every
    GET, HEAD and OPTIONS (the OAuth callback aside), every 404 and 405, and the search change
    nothing at all, and no request changes the roles, the field permissions or the workflows. *)
Theorem endpoint_footprint fr rq p :
  touches match route (rq_method rq) (rq_path rq) with Found e => footprint e | _ => [] end
    (app p) (app (serve_http fr rq p).2).
Proof.
  destruct (serve_http_app fr rq p) as [->|(e & ctx & -> & ->)]; [reflexivity|apply handle_touches].
Qed.
End Server.
