(* ===== verification/Staging.v ===== *)
(** * Handlers, statement by statement

    A handler in the monad [M] runs without interruption. On the server its statements are
    separate round trips to the store, and the statements of other requests come in between; a
    request may end early and the process may crash.
    [Prog] is a handler as a tree of its statements, [Staged m] derives it from the binds of the
    definition of [m], and shows that the tree run [alone] is [m]. [all_steps] and [safe] reason
    about the steps of a tree, the second with what the environment may change between them. *)

From S2P Require Import Prelude RustStr Encoding Config Json AppError Closure Schema Registry.
From S2P Require Import Workflow State Rbac Caller FieldPerms Objects Fixture ObjectHandlers.
From S2P Require Import Members Orchestrator Types Relations HttpClient Connectors Auth OAuth.
From S2P Require Import RateLimit Platform Search Steps Server.

Local Open Scope Z_scope.

(** ** Trees of statements *)

Inductive Prog (A : Type) : Type :=
| Done (r : AppResult A)
| Step {X : Type} (m : M X) (k : AppResult X -> Prog A).
Arguments Done {A} r.
Arguments Step {A X} m k.

Fixpoint pbind {A B} (p : Prog A) (q : A -> Prog B) : Prog B :=
  match p with
  | Done (Ok a) => q a
  | Done (Err e) => Done (Err e)
  | Step m k => Step m (fun r => pbind (k r) q)
  end.

(** A run without interruptions. *)
Fixpoint alone {A} (p : Prog A) : M A := fun st =>
  match p with
  | Done r => (r, st)
  | Step m k => let '(r, st1) := m st in alone (k r) st1
  end.

Lemma alone_pbind {A B} (p : Prog A) (q : A -> Prog B) st :
  alone (pbind p q) st = (alone p ≫= fun a => alone (q a)) st.
Proof.
  revert st. unfold mbind, m_bind. induction p as [[a|e]|X m k IH]; intros st; [done..|]. cbn.
  destruct (m st) as [r st1]. apply IH.
Qed.

(** ** The tree of a handler *)

Class Staged {A} (m : M A) := { prog : Prog A; prog_ok : forall st, alone prog st = m st }.
Arguments prog {A} m {_}.
#[global] Hint Mode Staged ! ! : typeclass_instances.

(** A statement. *)
Definition statement {A} (m : M A) : Staged m.
Proof. refine {| prog := Step m Done |}. intros st. cbn. by destruct (m st). Defined.

#[export] Instance staged_get : Staged get_state := statement _.
#[export] Instance staged_query {A} (q : Db -> A) : Staged (query q) := statement _.
#[export] Instance staged_run_sql {A} (m : SqlM A) : Staged (run_sql m) := statement _.
#[export] Instance staged_ignore {A} (m : M A) : Staged (ignore m) := statement _.
#[export] Instance staged_event ctx a e k p : Staged (record_event ctx a e k p) := statement _.
#[export] Instance staged_store r : Staged (store_registry r) := statement _.

(** What does not meet the store is not a step. *)
#[export] Instance staged_ret {A} (a : A) : Staged (mret a : M A) :=
  {| prog := Done (Ok a); prog_ok st := eq_refl |}.
#[export] Instance staged_lift {A} (r : AppResult A) : Staged (lift r) :=
  {| prog := Done r; prog_ok st := eq_refl |}.
#[export] Instance staged_fail {A} e : Staged (fail (A := A) e) :=
  {| prog := Done (Err e); prog_ok st := eq_refl |}.
#[export] Instance staged_ensure b e : Staged (ensure b e).
Proof. refine {| prog := Done (if b then Ok tt else Err e) |}. intros st. by destruct b. Defined.

Definition staged_bind {A B} (m : M A) (k : A -> M B) `{!Staged m, !forall a, Staged (k a)} :
  Staged (m ≫= k).
Proof.
  refine {| prog := pbind (prog m) (fun a => prog (k a)) |}. intros st.
  rewrite alone_pbind. unfold mbind, m_bind. rewrite prog_ok. destruct (m st) as [[a|e] st1]; [|done].
  apply prog_ok.
Defined.

Definition staged_if {A} (b : bool) (m1 m2 : M A) `{!Staged m1, !Staged m2} :
  Staged (if b then m1 else m2).
Proof. refine {| prog := if b then prog m1 else prog m2 |}. intros st. destruct b; apply prog_ok. Defined.
Definition staged_decide {A} (P : Prop) `{Decision P} (m1 m2 : M A) `{!Staged m1, !Staged m2} :
  Staged (if decide P then m1 else m2).
Proof.
  refine {| prog := if decide P then prog m1 else prog m2 |}. intros st. destruct (decide P); apply prog_ok.
Defined.

(** Derive the tree along the definition, with a case for each [match]. *)
Ltac stage :=
  repeat (first
    [ progress intros
    | progress cbv zeta
    | match goal with
      | |- Staged (_ ≫= _) => apply staged_bind
      | |- Staged (if decide _ then _ else _) => apply staged_decide
      | |- Staged (if _ then _ else _) => apply staged_if
      | |- Staged (match ?x with _ => _ end) => destruct x
      end
    | apply _ ]).

(** ** Statements about every step *)

Fixpoint all_steps (P : forall X, M X -> Prop) {A} (p : Prog A) : Prop :=
  match p with
  | Done _ => True
  | Step m k => P _ m /\ forall r, all_steps P (k r)
  end.

Lemma all_steps_pbind P {A B} (p : Prog A) (q : A -> Prog B) :
  all_steps P p -> (forall a, all_steps P (q a)) -> all_steps P (pbind p q).
Proof.
  intros Hp Hq. induction p as [[a|e]|X m k IH]; [apply Hq|done|]. destruct Hp as [Hm Hk].
  split; [done|]. intros r. apply IH, Hk.
Qed.

(** ** Rely and guarantee

    A relation [R] and an invariant [I] of the state that every statement of every request keeps:
    between two steps of a tree the others may do anything within [R] that keeps [I]. Of the states
    that are met, [A] may be assumed as well. *)

Section Rely.
Context (A I : AppState -> Prop) (R : relation AppState) `{!PreOrder R}.

(** What a statement has to show. *)
Definition guarantee : relation AppState := fun st st' => I st -> I st' /\ R st st'.

#[export] Instance guarantee_preorder : PreOrder guarantee.
Proof.
  split; [by intros ? ?|]. intros x y z H1 H2 Hx. destruct (H1 Hx) as [Hy Hxy].
  destruct (H2 Hy) as [Hz Hyz]. split; [done|]. by etransitivity.
Qed.

(** From [st] on, every step of the tree keeps [I] and stays within [R], whatever the others do
    in between; a successful end meets [Q]. *)
Fixpoint safe {X} (p : Prog X) (Q : X -> AppState -> Prop) (st : AppState) : Prop :=
  match p with
  | Done (Ok a) => Q a st
  | Done (Err _) => True
  | Step m k => forall st1, A st1 -> I st1 -> R st st1 ->
      let st2 := (m st1).2 in I st2 /\ R st1 st2 /\ safe (k (m st1).1) Q st2
  end.

Lemma safe_pbind {X Y} (p : Prog X) (q : X -> Prog Y) Q st :
  safe p (fun a => safe (q a) Q) st -> safe (pbind p q) Q st.
Proof.
  revert st. induction p as [[a|e]|Z m k IH]; intros st; [done..|]. cbn. intros Hp st1 HA HI HR.
  destruct (Hp st1 HA HI HR) as (H1 & H2 & H3). split_and!; [done..|]. by apply IH.
Qed.

Lemma safe_done {X} (r : AppResult X) Q st : (forall a, r = Ok a -> Q a st) -> safe (Done r) Q st.
Proof. destruct r; cbn; auto. Qed.

Lemma safe_decide {X} (P : Prop) `{Decision P} (r1 r2 : AppResult X) Q st :
  (forall a, (P -> r1 = Ok a) -> (~ P -> r2 = Ok a) -> Q a st) ->
  safe (if decide P then Done r1 else Done r2) Q st.
Proof. intros HQ. destruct (decide P); apply safe_done; intros a Ha; by apply HQ. Qed.

Lemma safe_statement {X} (m : M X) (Q : X -> AppState -> Prop) st :
  (forall st1, A st1 -> I st1 -> R st st1 -> guarantee st1 (m st1).2 /\
     forall a st2, m st1 = (Ok a, st2) -> I st2 -> R st1 st2 -> Q a st2) ->
  safe (Step m Done) Q st.
Proof.
  intros Hm st1 HA HI HR. destruct (Hm st1 HA HI HR) as [Hg Hq]. destruct (Hg HI) as [HI2 HR2].
  split_and!; [done..|]. destruct (m st1) as [[a|e] st2]; cbn in *; [by apply Hq|done].
Qed.

(** A read of the state. *)
Lemma safe_get (Q : AppState -> AppState -> Prop) st :
  (forall st1, A st1 -> I st1 -> R st st1 -> Q st1 st1) -> safe (Step get_state Done) Q st.
Proof.
  intros Hq. apply safe_statement. intros st1 HA HI HR. split; [by intros ?|].
  intros a st2 [= <- <-] _ _. auto.
Qed.

Lemma safe_weaken {X} (p : Prog X) (Q Q' : X -> AppState -> Prop) st :
  (forall a st', Q a st' -> Q' a st') -> safe p Q st -> safe p Q' st.
Proof.
  intros HQ. revert st. induction p as [[a|e]|Z m k IH]; intros st; [apply HQ|done|].
  intros Hp st1 HA HI HR. destruct (Hp st1 HA HI HR) as (H1 & H2 & H3). split_and!; [done..|]. by apply IH.
Qed.

Abbreviation ends_safely := (fun p st => safe p (fun _ _ => True) st).

Lemma safe_calm_then {X} (p : Prog X) (Q : X -> AppState -> Prop) st :
  all_steps (fun Y m => Respects guarantee m) p -> (forall a st', Q a st') -> safe p Q st.
Proof.
  intros Hp HQ. revert st Hp. induction p as [[a|e]|Z m k IH]; intros st Hp; [apply HQ|done|].
  destruct Hp as [Hm Hk]. intros st1 HA HI HR. destruct (Hm st1 HI) as [HI2 HR2].
  split_and!; [done..|]. apply IH, Hk.
Qed.

Lemma safe_calm {X} (p : Prog X) st :
  all_steps (fun Y m => Respects guarantee m) p -> ends_safely p st.
Proof. intros Hp. by apply safe_calm_then. Qed.

Lemma safe_stable {X} (p : Prog X) st st' : R st st' -> ends_safely p st -> ends_safely p st'.
Proof.
  intros HR. destruct p as [r|Z m k]; [by destruct r|]. intros Hp st1 HA HI HR'. apply Hp; [done..|].
  by etransitivity.
Qed.
End Rely.

(** ** The concurrent server *)

(** A request that ends early: its client is gone, or the connection to the database is. *)
Definition cut {A} (e : AppError) (p : Prog A) : Prog A :=
  match p with Done r => Done r | Step _ _ => Done (Err e) end.

(** A step of the server: a statement of one of the requests in flight, the arrival of a request
    (a tree that is [admitted]), the passing of time, the early end of a request, or the crash of
    the process, which ends every request and starts again from the store. *)
Inductive server_step (admitted : Prog Response -> Prop)
    : relation (list (Prog Response) * AppState) :=
| step_statement l1 l2 X (m : M X) k st :
    server_step admitted (l1 ++ Step m k :: l2, st) (l1 ++ k (m st).1 :: l2, (m st).2)
| step_arrival p l st : admitted p -> server_step admitted (l, st) (p :: l, st)
| step_tick t l st : server_step admitted (l, st) (l, set_pool (set_now t (pool st)) st)
| step_cut e p l1 l2 st : server_step admitted (l1 ++ p :: l2, st) (l1 ++ cut e p :: l2, st)
| step_crash e l st : server_step admitted (l, st) (cut e <$> l, boot (pool st)).

(** A request that runs without interruption is one of the interleavings. *)
Lemma steps_alone admitted {A} (p : Prog A) (k : A -> Prog Response) l1 l2 st a st' :
  alone p st = (Ok a, st') ->
  rtc (server_step admitted) (l1 ++ pbind p k :: l2, st) (l1 ++ k a :: l2, st').
Proof.
  revert st. induction p as [r|X m q IH]; intros st Hp; cbn in *.
  - injection Hp as -> ->. apply rtc_refl.
  - eapply rtc_l; [apply step_statement|]. destruct (m st) as [r st1]. by apply IH.
Qed.

Lemma steps_staged admitted {A} (m : M A) `{!Staged m} (k : A -> Prog Response) l1 l2 st a st' :
  m st = (Ok a, st') ->
  rtc (server_step admitted) (l1 ++ pbind (prog m) k :: l2, st) (l1 ++ k a :: l2, st').
Proof. intros Hm. apply steps_alone. by rewrite prog_ok. Qed.

Lemma steps_all admitted (p : Prog Response) l1 l2 st :
  rtc (server_step admitted) (l1 ++ p :: l2, st) (l1 ++ Done (alone p st).1 :: l2, (alone p st).2).
Proof.
  revert st. induction p as [r|X m q IH]; intros st; cbn; [apply rtc_refl|].
  eapply rtc_l; [apply step_statement|]. destruct (m st) as [r st1]. apply IH.
Qed.

(** A run whose states are all among [A]. *)
Definition step_within (A : AppState -> Prop) (admitted : Prog Response -> Prop)
    : relation (list (Prog Response) * AppState) := fun s s' => A s.2 /\ server_step admitted s s'.

(** If requests are safe when they arrive, the invariant survives every interleaving. *)
Lemma rely_guarantee (A I : AppState -> Prop) (R : relation AppState) `{!PreOrder R} admitted s s' :
  (forall p st, admitted p -> safe A I R p (fun _ _ => True) st) ->
  (forall t st, guarantee I R st (set_pool (set_now t (pool st)) st)) ->
  (forall st, guarantee I R st (boot (pool st))) ->
  rtc (step_within A admitted) s s' ->
  I s.2 -> Forall (fun p => safe A I R p (fun _ _ => True) s.2) s.1 ->
  I s'.2 /\ R s.2 s'.2 /\ Forall (fun p => safe A I R p (fun _ _ => True) s'.2) s'.1.
Proof.
  intros Hadm Htick Hboot Hrun. induction Hrun as [s|s1 s2 s3 [HA H1] _ IH]; [done|]. intros HI Hall.
  assert (Hstep : I s2.2 /\ R s1.2 s2.2 /\ Forall (fun p => safe A I R p (fun _ _ => True) s2.2) s2.1).
  { destruct H1 as [l1 l2 X m k st|p l st Hp|t l st|e p l1 l2 st|e l st]; cbn [fst snd] in *.
    - apply Forall_app in Hall as [Hl1 [Hm Hl2]%Forall_cons].
      destruct (Hm st HA HI) as (HI2 & HR2 & Hk); [done|]. split_and!; [done..|].
      apply Forall_app; split; [|constructor; [done|]];
        (eapply Forall_impl; [eassumption|]; intros p; by apply safe_stable).
    - split_and!; [done..|]. constructor; [by apply Hadm|done].
    - destruct (Htick t st HI) as [HI2 HR2]. split_and!; [done..|].
      eapply Forall_impl; [eassumption|]. intros p. by apply safe_stable.
    - split_and!; [done..|]. apply Forall_app in Hall as [Hl1 [Hp Hl2]%Forall_cons].
      apply Forall_app; split; [done|]. constructor; [by destruct p|done].
    - destruct (Hboot st HI) as [HI2 HR2]. split_and!; [done..|]. apply Forall_fmap.
      eapply Forall_impl; [exact Hall|]. intros p _. by destruct p as [[]|]. }
  destruct Hstep as (HI2 & HR2 & Hall2). destruct (IH HI2 Hall2) as (HI3 & HR3 & Hall3).
  split_and!; [done| |done]. by etransitivity.
Qed.

(** ** The handlers of the server *)

Section Handlers.
Context `{SerdeJson, Postgres, !FromSlice TypeSpec, !FromSlice RelInput, !FromSlice StartInput}.
Context `{!FromSlice HandoffInput, !FromSlice LevelInput, Reqwest, Env, Hmac, Jwt, Sha2, Build}.
Context `{UrlParams, FullText, HttpCrate, Deployment, Framework}.

(** A handler is found by its name. *)
#[export] Typeclasses Opaque add_member callback claim_admin coll_create coll_get coll_head coll_options create_relation
  create_type delete_relation dev_login echo from_request_parts get_run get_type item_delete item_get
  item_head item_options item_write item_write_commit item_write_read list_members list_relations
  list_runs list_types logout m405_coll m405_item mint_session record_check record_handoff
  remove_member run_connector search set_log_level set_member start start_run upsert_identity.

#[export] Instance from_request_parts_staged h : Staged (from_request_parts h).
Proof. unfold from_request_parts. stage. Defined.
#[export] Instance coll_get_staged ctx c t l o : Staged (coll_get ctx c t l o).
Proof. unfold coll_get. stage. Defined.
#[export] Instance coll_head_staged ctx c t : Staged (coll_head ctx c t).
Proof. unfold coll_head. stage. Defined.
#[export] Instance coll_create_staged ctx c t h b u : Staged (coll_create ctx c t h b u).
Proof. unfold coll_create. stage. Defined.
#[export] Instance coll_options_staged ctx c t : Staged (coll_options ctx c t).
Proof. unfold coll_options. stage. Defined.
#[export] Instance m405_coll_staged ctx c t : Staged (m405_coll ctx c t).
Proof. unfold m405_coll. stage. Defined.
#[export] Instance item_get_staged ctx c t id h : Staged (item_get ctx c t id h).
Proof. unfold item_get. stage. Defined.
#[export] Instance item_head_staged ctx c t id : Staged (item_head ctx c t id).
Proof. unfold item_head. stage. Defined.
#[export] Instance item_write_read_staged u ctx c t id h b : Staged (item_write_read u ctx c t id h b).
Proof. unfold item_write_read. stage. Defined.
#[export] Instance item_write_commit_staged u ctx c t id p : Staged (item_write_commit u ctx c t id p).
Proof. unfold item_write_commit. stage. Defined.
#[export] Instance item_write_staged u ctx c t id h b : Staged (item_write u ctx c t id h b).
Proof. unfold item_write. stage. Defined.
#[export] Instance item_delete_staged ctx c t id h : Staged (item_delete ctx c t id h).
Proof. unfold item_delete. stage. Defined.
#[export] Instance item_options_staged ctx c t id : Staged (item_options ctx c t id).
Proof. unfold item_options. stage. Defined.
#[export] Instance m405_item_staged ctx c t id : Staged (m405_item ctx c t id).
Proof. unfold m405_item. stage. Defined.
#[export] Instance list_members_staged ctx c t id : Staged (list_members ctx c t id).
Proof. unfold list_members. stage. Defined.
#[export] Instance add_member_staged ctx c t id h b : Staged (add_member ctx c t id h b).
Proof. unfold add_member, add_member_read, add_member_commit. stage. Defined.
#[export] Instance set_member_staged ctx c t id m h b : Staged (set_member ctx c t id m h b).
Proof. unfold set_member. stage. Defined.
#[export] Instance remove_member_staged ctx c t id m : Staged (remove_member ctx c t id m).
Proof. unfold remove_member, remove_member_read, remove_member_commit. stage. Defined.
#[export] Instance record_check_staged ctx c t id n h b : Staged (record_check ctx c t id n h b).
Proof. unfold record_check. stage. Defined.
#[export] Instance list_types_staged c : Staged (list_types c).
Proof. unfold list_types. stage. Defined.
#[export] Instance create_type_staged ctx c b : Staged (create_type ctx c b).
Proof. unfold create_type. stage. Defined.
#[export] Instance get_type_staged ctx c t : Staged (get_type ctx c t).
Proof. unfold get_type. stage. Defined.
#[export] Instance create_relation_staged ctx c b u : Staged (create_relation ctx c b u).
Proof. unfold create_relation. stage. Defined.
#[export] Instance list_relations_staged ctx c e t : Staged (list_relations ctx c e t).
Proof. unfold list_relations. stage. Defined.
#[export] Instance delete_relation_staged ctx c id : Staged (delete_relation ctx c id).
Proof. unfold delete_relation. stage. Defined.
#[export] Instance search_staged ctx c q t l : Staged (search ctx c q t l).
Proof. unfold search. stage. Defined.
#[export] Instance start_run_staged ctx c b u : Staged (start_run ctx c b u).
Proof. unfold start_run. stage. Defined.
#[export] Instance list_runs_staged ctx c q : Staged (list_runs ctx c q).
Proof. unfold list_runs. stage. Defined.
#[export] Instance get_run_staged ctx c id : Staged (get_run ctx c id).
Proof. unfold get_run. stage. Defined.
#[export] Instance record_handoff_staged ctx c id b : Staged (record_handoff ctx c id b).
Proof. unfold record_handoff, handoff_read, handoff_commit. stage. Defined.
#[export] Instance run_connector_staged ctx c id : Staged (run_connector ctx c id).
Proof. unfold run_connector. stage. Defined.
#[export] Instance claim_admin_staged c : Staged (claim_admin c).
Proof. unfold claim_admin. stage. Defined.
#[export] Instance logout_staged c : Staged (logout c).
Proof. unfold logout. stage. Defined.
#[export] Instance mint_session_staged a t u : Staged (mint_session a t u).
Proof. unfold mint_session. stage. Defined.
#[export] Instance dev_login_staged a t u : Staged (dev_login a t u).
Proof. unfold dev_login. stage. Defined.
#[export] Instance start_staged n u t : Staged (start n u t).
Proof. unfold start. stage. Defined.
#[export] Instance upsert_identity_staged p s e n u : Staged (upsert_identity p s e n u).
Proof. unfold upsert_identity. stage. Defined.
#[export] Instance callback_staged n c s h t r : Staged (callback n c s h t r).
Proof. unfold callback, complete_login. stage. Defined.
#[export] Instance echo_staged ctx c h b : Staged (echo ctx c h b).
Proof. unfold echo. stage. Defined.
#[export] Instance set_log_level_staged r ctx c b : Staged (set_log_level r ctx c b).
Proof. unfold set_log_level. stage. Defined.

(** The tree of a request: its caller is looked up first. *)
#[export] Instance handle_staged fr ctx rq e : Staged (handle fr ctx rq e).
Proof. unfold handle, item_put, item_patch. destruct e; cbn [is_public exec exec_public]; stage. Defined.

(** What arrives at the server: any request at all. *)
Definition any_request (p : Prog Response) : Prop :=
  exists fr ctx rq e, p = prog (handle fr ctx rq e).

(** Or some of them. *)
Definition sends (Sent : HttpRequest -> Prop) (p : Prog Response) : Prop :=
  exists fr ctx rq e, Sent rq /\ p = prog (handle fr ctx rq e).
End Handlers.

(** Look at a tree: reduce the instances it was derived by. *)
Ltac open_tree :=
  cbn [prog staged_bind statement staged_get staged_query staged_run_sql staged_ignore staged_event
       staged_store staged_ret staged_lift staged_fail staged_ensure staged_if staged_decide
       from_request_parts_staged coll_get_staged coll_head_staged coll_create_staged
       coll_options_staged m405_coll_staged item_get_staged item_head_staged item_write_staged
       item_write_read_staged item_write_commit_staged
       item_delete_staged item_options_staged m405_item_staged list_members_staged add_member_staged
       set_member_staged remove_member_staged record_check_staged list_types_staged
       create_type_staged get_type_staged create_relation_staged list_relations_staged
       delete_relation_staged search_staged start_run_staged list_runs_staged get_run_staged
       record_handoff_staged run_connector_staged claim_admin_staged logout_staged
       mint_session_staged dev_login_staged start_staged upsert_identity_staged callback_staged
       echo_staged set_log_level_staged handle_staged is_public].

(** Prove something of every statement of a tree, branch by branch; [tac] is for the statements. *)
Ltac each_statement tac :=
  repeat (first
    [ progress intros
    | exact I
    | apply all_steps_pbind
    | progress cbn [all_steps]
    | progress open_tree
    | match goal with
      | |- _ /\ _ => split
      | |- all_steps _ (match ?x with _ => _ end) => destruct x
      | |- all_steps _ (prog (match ?x with _ => _ end)) => destruct x
      end
    | tac ]).
