(* ===== verification/Authority.v ===== *)
(** * Who may change an object

    Nothing about an object changes unless a request asks for it by an endpoint that addresses the
    object and its caller holds the rank that endpoint needs on it: of one request, and of any run
    of the server. The rules of [Steps] are refined by the state a handler starts from, so that
    what its guards have found is at hand where it writes. *)

From S2P Require Import Prelude RustStr Encoding Config Json AppError Closure Schema Registry.
From S2P Require Import Workflow State Rbac Caller FieldPerms Objects Fixture ObjectHandlers.
From S2P Require Import ObjectProps Lifecycle Members MemberProps Orchestrator Pipeline Types Relations.
From S2P Require Import HttpClient Connectors Auth OAuth RateLimit Platform Search Steps Server.
From S2P Require Import ServerProps Footprint.

Local Open Scope Z_scope.

(** ** Handlers from a given state *)

Definition steps_at (R : relation AppState) {A} (m : M A) (st : AppState) : Prop := R st (m st).2.

Section At.
Context (R : relation AppState) `{!PreOrder R}.

Lemma at_respects {A} (m : M A) st : Respects R m -> steps_at R m st.
Proof. intros Hm. apply Hm. Qed.

(** A step that reads: what it found holds in the rest. *)
Lemma at_read {A B} (m : M A) (k : A -> M B) st :
  ReadOnly m -> (forall a, m st = (Ok a, st) -> steps_at R (k a) st) -> steps_at R (m ≫= k) st.
Proof.
  intros Hm Hk. unfold steps_at, mbind, m_bind in *. pose proof (Hm st) as E.
  destruct (m st) as [[a|e] st1]; simpl in E; subst; [by apply Hk|reflexivity].
Qed.
End At.

(** Read on up to the first write, with the outcomes of the guards as hypotheses. *)
Ltac read_tac :=
  cbv zeta; unfold resolve;
  repeat (refine (at_read _ _ _ _ _ _); [intros ? ?; cbv zeta]);
  repeat match goal with
  | H : get_state _ = (Ok _, _) |- _ => apply get_state_ok in H as [-> _]
  | H : lift _ _ = (Ok _, _) |- _ => apply lift_ok in H as [H _]
  | H : ensure _ _ _ = (Ok _, _) |- _ => apply ensure_ok in H as [H _]
  end.

(** ** What is kept of an object *)

(** The object [id], what it holds and who holds it: the deletion of another object may clear its
    scope parent and drop the edges and the memberships of the deleted one. *)
Record kept (id : string) (db db' : Db) : Prop := {
  kp_entity : entities db' !! id = entities db !! id;
  kp_data : forall row, entity_data db !! id = Some row ->
    exists row', entity_data db' !! id = Some row' /\ d_type_id row' = d_type_id row /\
      d_data row' = d_data row /\ d_version row' = d_version row /\
      (d_scope_parent_id row' = d_scope_parent_id row \/ d_scope_parent_id row' = None);
  kp_members : forall m row, memberships db' !! (id, m) = Some row ->
    memberships db !! (id, m) = Some row;
  kp_case : forall c, cases db !! id = Some c ->
    exists c', cases db' !! id = Some c' /\ c_title c' = c_title c /\ c_status c' = c_status c /\
      c_workflow_id c' = c_workflow_id c /\ c_priority c' = c_priority c /\ c_version c' = c_version c;
  kp_checks : forall n k, case_close_checks db' !! (id, n) = Some k ->
    case_close_checks db !! (id, n) = Some k;
  kp_edges : forall e r, relations db' !! e = Some r -> r_subject_id r = id ->
    exists r0, relations db !! e = Some r0 /\ same_edge r0 r;
  kp_runs : forall f r, feature_runs db' !! f = Some r -> f_case_id r = Some id ->
    feature_runs db !! f = Some r }.

Definition untouched (id : string) : relation AppState := fun st st' =>
  is_Some (entities (pool st) !! id) -> kept id (pool st) (pool st').

Lemma kept_refl id db : kept id db db.
Proof. constructor; try done; [intros row Hrow; exists row; split_and!; auto|by eauto 10|by eexists]. Qed.

Lemma kept_trans id db1 db2 db3 : kept id db1 db2 -> kept id db2 db3 -> kept id db1 db3.
Proof.
  intros [A1 A2 A3 A4 A5 A6 A7] [B1 B2 B3 B4 B5 B6 B7]. constructor; [congruence|..|eauto|eauto| |eauto].
  - intros row (row1 & Hr1 & ? & ? & ? & Hs1)%A2. destruct (B2 _ Hr1) as (row2 & Hr2 & ? & ? & ? & Hs2).
    exists row2. split_and!; try congruence. destruct Hs2 as [->|]; auto.
  - eauto.
  - intros c (c1 & Hr1 & Hc1)%A4. destruct (B4 _ Hr1) as (c2 & Hr2 & Hc2). exists c2.
    destruct Hc1 as (? & ? & ? & ? & ?), Hc2 as (? & ? & ? & ? & ?). split_and!; congruence.
  - intros e r Hr Hid. destruct (B6 _ _ Hr Hid) as (r1 & H1 & Hs1).
    assert (Hid1 : r_subject_id r1 = id) by (destruct Hs1; congruence).
    destruct (A6 _ _ H1 Hid1) as (r0 & H0 & Hs0). exists r0. split; [done|].
    destruct Hs0 as (? & ? & ?), Hs1 as (? & ? & ?). split_and!; congruence.
Qed.

#[export] Instance untouched_preorder id : PreOrder (untouched id).
Proof.
  split; [intros st _; apply kept_refl|]. intros x y z H1 H2 Hid. specialize (H1 Hid).
  eapply kept_trans; [exact H1|]. apply H2. by rewrite (kp_entity _ _ _ H1).
Qed.

(** ** What statements keep *)

Definition others : list Table :=
  [Ttypes; Tfields; Thandoffs; Tsessions; Tidentities; Tevents; Tregistry].

Lemma touches_untouched id st st' : touches others st st' -> untouched id st st'.
Proof.
  intros [Ht _] _.
  assert (E1 : entities (pool st') = entities (pool st)) by (apply (Ht Tentities); set_solver).
  assert (E2 : entity_data (pool st') = entity_data (pool st)) by (apply (Ht Tdata); set_solver).
  assert (E3 : memberships (pool st') = memberships (pool st)) by (apply (Ht Tmemberships); set_solver).
  assert (E4 : cases (pool st') = cases (pool st)) by (apply (Ht Tcases); set_solver).
  assert (E5 : case_close_checks (pool st') = case_close_checks (pool st)) by (apply (Ht Tchecks); set_solver).
  assert (E6 : relations (pool st') = relations (pool st)) by (apply (Ht Trelations); set_solver).
  assert (E7 : feature_runs (pool st') = feature_runs (pool st)) by (apply (Ht Truns); set_solver).
  destruct (kept_refl id (pool st)) as [A1 A2 A3 A4 A5 A6 A7].
  constructor; rewrite ?E1, ?E2, ?E3, ?E4, ?E5, ?E6, ?E7; done.
Qed.

(** Another object than the one observed. *)
Class Other (i id : string) : Prop := other : i <> id.
#[export] Hint Mode Other ! ! : typeclass_instances.

(** What is found at the object is what was there. *)
Lemma kept_ext id db db' :
  entities db' !! id = entities db !! id -> entity_data db' !! id = entity_data db !! id ->
  (forall m row, memberships db' !! (id, m) = Some row -> memberships db !! (id, m) = Some row) ->
  cases db' !! id = cases db !! id ->
  (forall n k, case_close_checks db' !! (id, n) = Some k -> case_close_checks db !! (id, n) = Some k) ->
  (forall e r, relations db' !! e = Some r -> r_subject_id r = id -> relations db !! e = Some r) ->
  (forall f r, feature_runs db' !! f = Some r -> f_case_id r = Some id -> feature_runs db !! f = Some r) ->
  kept id db db'.
Proof.
  intros E1 E2 E3 E4 E5 E6 E7. destruct (kept_refl id db) as [A1 A2 A3 A4 A5 A6 A7].
  constructor; rewrite ?E1, ?E2, ?E4; eauto.
Qed.

(** An insertion or a deletion elsewhere. *)
Ltac kept_tac :=
  intros _; apply kept_ext; cbn; try done;
  try (by rewrite lookup_insert_ne);
  try (intros ? ?; rewrite lookup_insert_ne by congruence; done).

Section Statements.
Context `{SerdeJson, Postgres}.
Variables (id i : string).

#[export] Instance others_untouched {A} (m : M A) :
  Respects (touches others) m -> Respects (untouched id) m | 20.
Proof. intros Hm st. apply touches_untouched, Hm. Qed.
#[export] Instance sql_others_untouched {A} (m : SqlM A) :
  SqlRespects (touches others) m -> SqlRespects (untouched id) m | 20.
Proof. intros Hm st a db Hr. apply touches_untouched. by eapply Hm. Qed.
#[export] Instance ignore_untouched {A} (m : M A) :
  Respects (untouched id) m -> Respects (untouched id) (ignore m).
Proof. intros Hm st. apply Hm. Qed.

#[export] Instance insert_entity_untouched t by_ : SqlRespects (untouched id) (insert_entity i t by_).
Proof.
  intros st a db (Hnone & _ & ->)%insert_entity_ok [e He]. assert (i <> id) by (intros ->; congruence).
  apply kept_ext; cbn; try done. by rewrite lookup_insert_ne.
Qed.
#[export] Instance insert_data_untouched t data sp : SqlRespects (untouched id) (insert_data i t data sp).
Proof.
  intros st a db (Hnone & _ & _ & _ & ->)%insert_data_ok _. destruct (kept_refl id (pool st)). constructor; try done.
  intros row Hrow. cbn. rewrite lookup_insert_ne by (intros ->; congruence). auto.
Qed.
#[export] Instance update_data_untouched t data sp v :
  Other i id -> SqlRespects (untouched id) (update_data i t data sp v).
Proof.
  intros Hne st a db [[_ ->]|(_ & row & _ & _ & _ & _ & _ & ->)]%update_data_ok; [by rewrite set_pool_id|kept_tac].
Qed.
#[export] Instance upsert_case_mirror_untouched data v :
  Other i id -> SqlRespects (untouched id) (upsert_case_mirror i data v).
Proof. intros Hne st a db ->%upsert_case_mirror_ok. kept_tac. Qed.
#[export] Instance upsert_membership_untouched m row :
  Other i id -> SqlRespects (untouched id) (upsert_membership i m row).
Proof. intros Hne st a db (_ & _ & _ & ->)%upsert_membership_ok. kept_tac. Qed.
#[export] Instance update_membership_untouched m r c :
  Other i id -> SqlRespects (untouched id) (update_membership i m r c).
Proof.
  intros Hne st a db Hr. unfold update_membership in Hr. repeat case_match; simplify_eq; rewrite ?set_pool_id; [|done].
  kept_tac.
Qed.
#[export] Instance delete_membership_untouched m : SqlRespects (untouched id) (delete_membership i m).
Proof. intros st a db [= _ <-]. kept_tac. by intros m' row [_ ?]%lookup_delete_Some. Qed.
#[export] Instance upsert_check_untouched n b o :
  Other i id -> SqlRespects (untouched id) (upsert_check i n b o).
Proof. intros Hne st a db Hr. unfold upsert_check in Hr. case_match; [|done]. injection Hr as _ <-. kept_tac. Qed.
#[export] Instance insert_relation_untouched r :
  Other (r_subject_id r) id -> SqlRespects (untouched id) (insert_relation i r).
Proof.
  intros Hne st a db Hr. unfold insert_relation in Hr. repeat case_match; simplify_eq. kept_tac.
  intros e r' [[_ <-]|[_ ?]]%lookup_insert_Some; [by intros ?|done].
Qed.
#[export] Instance remove_relation_untouched : SqlRespects (untouched id) (remove_relation i).
Proof. intros st a db [= _ <-]. kept_tac. by intros e r [_ ?]%lookup_delete_Some. Qed.
#[export] Instance stamp_run_untouched s : Other i id -> SqlRespects (untouched id) (stamp_run i s).
Proof. intros Hne st v db (row & m & _ & _ & _ & _ & _ & ->)%stamp_run_ok. kept_tac. Qed.
#[export] Instance claim_update_untouched : Other i id -> SqlRespects (untouched id) (claim_update i).
Proof.
  intros Hne st a db Hr. unfold claim_update in Hr. repeat case_match; simplify_eq; rewrite ?set_pool_id; try done.
  kept_tac.
Qed.

(** Deleting another object: what referred to it is cleared, the rest stays. *)
#[export] Instance delete_object_untouched t v :
  Other i id -> SqlRespects (untouched id) (delete_object i t v).
Proof.
  intros Hne st a db [[_ ->]|(_ & row & _ & _ & _ & _ & ->)]%delete_object_ok; [by rewrite set_pool_id|].
  intros _. constructor; cbn.
  - by rewrite lookup_delete_ne.
  - intros r Hr. rewrite lookup_fmap, lookup_delete_ne, Hr by done. eexists. split; [done|].
    split_and!; try done. cbn. unfold null_if. case_decide; auto.
  - by intros m r [? _]%map_lookup_filter_Some.
  - intros c Hc. rewrite lookup_fmap, lookup_delete_ne, Hc by done. by eexists.
  - by intros n k [? _]%map_lookup_filter_Some.
  - intros e r Hr _. rewrite lookup_fmap in Hr.
    apply fmap_Some in Hr as (r0 & [Hr _]%map_lookup_filter_Some & ->). by exists r0.
  - intros f r Hr Hid. rewrite lookup_fmap in Hr. apply fmap_Some in Hr as (r0 & Hr & ->).
    cbn in Hid. apply null_if_Some in Hid as [Hid Hne']. rewrite Hr. f_equal.
    destruct r0; unfold cascade_run; cbn in *. subst. unfold null_if. by rewrite decide_False by congruence.
Qed.
End Statements.

(** ** The rank an endpoint needs *)

(** The caller is a platform admin or holds at least [min] on the object. *)
Definition holds_rank (db : Db) (caller : Caller.t) (id : string) (min : Z) : Prop :=
  Caller.is_platform_admin caller = true \/
  match effective_rank db (Caller.actor_id caller) id with Some r => min <= r | None => False end.
#[export] Instance holds_rank_dec db caller id min : Decision (holds_rank db caller id min).
Proof. unfold holds_rank. destruct (effective_rank _ _ _); apply _. Defined.

Lemma require_rank_holds db caller id min ctx r :
  require_rank db caller id min ctx = Ok r -> holds_rank db caller id min.
Proof. unfold holds_rank. intros [[? _]|(_ & -> & ?)]%require_rank_ok; auto. Qed.

(** The least rank any type's policy lets perform the action. *)
Definition action_floor (a : Action) : Z :=
  match a with View => 1 | Create | Edit => 2 | Delete => MANAGE_RANK end.

Lemma require_action_holds db caller td id a min :
  require_action db caller td (Some id) a = true -> action_floor a = min ->
  holds_rank db caller id min.
Proof.
  intros Hr <-. revert Hr. unfold holds_rank. destruct (Caller.is_platform_admin caller) eqn:Ha; [by left|].
  intros (r & -> & Hle)%require_action_item; [|done]. right. unfold action_floor, MANAGE_RANK.
  destruct a; simpl in *; try lia. destruct (String.eqb _ _) in Hle; lia.
Qed.

Lemma reach_action_holds st caller id a min :
  reach_action st caller id a = true -> action_floor a = min -> holds_rank (pool st) caller id min.
Proof. intros (_ & td & _ & _ & Hr)%reach_action_true. by eapply require_action_holds. Qed.

Section Handlers.
Context `{SerdeJson, Postgres, !FromSlice RelInput, !FromSlice StartInput, !FromSlice HandoffInput}.
Context `{Reqwest}.
Implicit Types (st : AppState) (caller : Caller.t) (id i : string).

(** Either the handler is about another object, or its guard contradicts the hypothesis. *)
Ltac other_tac i id Hno :=
  destruct (decide (i = id)) as [->|Hne];
    [exfalso; apply (Hno eq_refl); first
      [ by eapply require_action_holds | by eapply require_rank_holds | by eapply reach_action_holds ]
    |change (Other i id) in Hne].

Lemma item_write_untouched u ctx caller t i headers body id st :
  (i = id -> ~ holds_rank (pool st) caller id 2) ->
  steps_at (untouched id) (item_write u ctx caller t i headers body) st.
Proof.
  intros Hno. unfold item_write. refine (at_read _ _ _ _ _ _).
  intros p (_ & row & payload & _ & Hra & _)%item_write_read_ok. other_tac i id Hno.
  apply at_respects. unfold item_write_commit. respects_tac.
Qed.

Lemma item_delete_untouched ctx caller t i headers id st :
  (i = id -> ~ holds_rank (pool st) caller id MANAGE_RANK) ->
  steps_at (untouched id) (item_delete ctx caller t i headers) st.
Proof.
  intros Hno. unfold item_delete. read_tac. other_tac i id Hno. apply at_respects. respects_tac.
Qed.

Lemma add_member_untouched ctx caller t i headers body id st :
  (i = id -> ~ holds_rank (pool st) caller id MANAGE_RANK) ->
  steps_at (untouched id) (add_member ctx caller t i headers body) st.
Proof.
  intros Hno. unfold add_member. refine (at_read _ _ _ _ _ _). intros p Hp. unfold add_member_read in Hp.
  inv_m. other_tac i id Hno. apply at_respects. unfold add_member_commit. respects_tac.
Qed.

Lemma set_member_untouched ctx caller t i m headers body id st :
  (i = id -> ~ holds_rank (pool st) caller id MANAGE_RANK) ->
  steps_at (untouched id) (set_member ctx caller t i m headers body) st.
Proof.
  intros Hno. unfold set_member. read_tac. other_tac i id Hno. apply at_respects. respects_tac.
Qed.

Lemma record_check_untouched ctx caller t i n headers body id st :
  (i = id -> ~ holds_rank (pool st) caller id MANAGE_RANK) ->
  steps_at (untouched id) (record_check ctx caller t i n headers body) st.
Proof.
  intros Hno. unfold record_check. read_tac. other_tac i id Hno. apply at_respects. respects_tac.
Qed.

Lemma run_connector_untouched ctx caller i id st :
  (i = id -> ~ holds_rank (pool st) caller id 2) ->
  steps_at (untouched id) (run_connector ctx caller i) st.
Proof.
  intros Hno. unfold run_connector. read_tac. other_tac i id Hno. apply at_respects. respects_tac.
Qed.

Lemma create_relation_untouched ctx caller body uuid id st :
  (forall input, from_slice_as (A := RelInput) body = Ok input -> ri_subject_id input = id ->
     ~ holds_rank (pool st) caller id 2) ->
  steps_at (untouched id) (create_relation ctx caller body uuid) st.
Proof.
  intros Hno. unfold create_relation. read_tac.
  match goal with Hb : _ && _ = true |- _ => apply andb_prop in Hb as [Hra _] end.
  match goal with Hi : map_err _ _ = Ok ?input |- _ => apply map_err_ok in Hi;
    assert (Other (ri_subject_id input) id)
      by (intros E; apply (Hno _ Hi E); rewrite <- E; by eapply reach_action_holds) end.
  apply at_respects. respects_tac.
Qed.

Lemma start_run_untouched ctx caller body uuid id st :
  (forall input, from_slice_as (A := StartInput) body = Ok input -> si_case_id input = Some id ->
     ~ holds_rank (pool st) caller id 2) ->
  steps_at (untouched id) (start_run ctx caller body uuid) st.
Proof.
  intros Hno. unfold steps_at. destruct (start_run ctx caller body uuid st) as [[r|e] st'] eqn:Hr;
    [|by apply start_run_err in Hr as ->].
  apply start_run_ok in Hr as (input & evs & Hin & Hauth & Hnone & ->). kept_tac.
  intros f run [[_ <-]|[_ ?]]%lookup_insert_Some; [|done]. cbn. intros E. rewrite E in Hauth.
  exfalso. apply (Hno _ Hin E). by eapply reach_action_holds.
Qed.

Lemma record_handoff_untouched ctx caller run body id st :
  (feature_runs (pool st) !! run ≫= f_case_id = Some id -> ~ holds_rank (pool st) caller id 2) ->
  steps_at (untouched id) (record_handoff ctx caller run body) st.
Proof.
  intros Hno. unfold steps_at. destruct (record_handoff ctx caller run body st) as [[r|e] st'] eqn:Hr;
    [|by apply record_handoff_err in Hr as ->].
  apply record_handoff_ok in Hr as (p & (_ & row & Hrow & _ & _ & _ & _ & Hauth & _)%handoff_read_ok & Hc).
  apply handoff_commit_ok in Hc as (h & evs & _ & _ & ->). kept_tac.
  intros f r' Hf Hid. destruct (decide (run = f)) as [->|Hne]; [|by rewrite lookup_alter_ne in Hf].
  rewrite lookup_alter_eq, Hrow in Hf. cbn in Hf. injection Hf as <-. cbn in Hid. rewrite Hid in Hauth.
  exfalso. apply Hno; [by rewrite Hrow|by eapply reach_action_holds].
Qed.

(** A new object is none of those that exist. *)
Lemma coll_create_untouched ctx caller t headers body uuid id st :
  steps_at (untouched id) (coll_create ctx caller t headers body uuid) st.
Proof.
  unfold steps_at. destruct (coll_create ctx caller t headers body uuid st) as [[r|e] st'] eqn:Hr;
    [|by apply coll_create_err in Hr as ->].
  apply coll_create_ok in Hr as (td & payload & db & evs & _ & Ht & -> & _). simpl in *.
  apply create_txn_ok in Ht as (label & cs & Hnone & _ & _ & _ & _ & _ & -> & Hnc & Hc). intros [e He].
  set (i := mint _ _) in *. assert (Hne : i <> id) by (intros E; rewrite E in Hnone; congruence).
  assert (Hcs : cs !! id = cases (pool st) !! id).
  { destruct (decide (TypeDef.type_id td = "case")) as [E|E]; [rewrite (Hc E); by rewrite lookup_insert_ne|].
    by rewrite (Hnc E). }
  apply kept_ext; cbn; try done; try by rewrite lookup_insert_ne.
  intros m row. rewrite lookup_insert_ne by congruence. done.
Qed.
End Handlers.

(** ** Licences *)

Section Licence.
Context `{!FromSlice RelInput, !FromSlice StartInput}.

(** The object whose edges, runs or rows an endpoint writes: the one of its path; the subject of the
    edge or the case of the run its body describes; the case of the run it hands off. *)
Definition addressed (db : Db) (body : string) (e : Endpoint) : option string :=
  match e with
  | ItemPut _ i | ItemPatch _ i | ItemDelete _ i | RunConnector i | AddMember _ i | SetMember _ i _
  | RecordCheck _ i _ => Some i
  | CreateRelation =>
      match from_slice_as (A := RelInput) body with Ok input => Some (ri_subject_id input) | Err _ => None end
  | StartRun =>
      match from_slice_as (A := StartInput) body with Ok input => si_case_id input | Err _ => None end
  | RecordHandoff r => feature_runs db !! r ≫= f_case_id
  | _ => None
  end.

(** The rank it needs there. *)
Definition rank_needed (e : Endpoint) : Z :=
  match e with
  | ItemDelete _ _ | AddMember _ _ | SetMember _ _ _ | RecordCheck _ _ _ => MANAGE_RANK
  | _ => 2
  end.

(** [e] may change [id] for [caller]; the first admin's claim changes the caller's own actor. *)
Definition licensed (db : Db) (caller : Caller.t) (body : string) (e : Endpoint) (id : string) : Prop :=
  match e with
  | ClaimAdmin => Caller.actor_id caller = id
  | _ => addressed db body e = Some id /\ holds_rank db caller id (rank_needed e)
  end.
#[export] Instance licensed_dec db caller body e id : Decision (licensed db caller body e id).
Proof. destruct e; unfold licensed; apply _. Defined.
End Licence.

(** ** Every request *)

Section Server.
Context `{SerdeJson, Postgres, !FromSlice TypeSpec, !FromSlice RelInput, !FromSlice StartInput}.
Context `{!FromSlice HandoffInput, !FromSlice LevelInput, Reqwest, Env, Hmac, Jwt, Sha2, Build}.
Context `{UrlParams, FullText, HttpCrate, Deployment, Framework}.

(** The path names the object observed. *)
Ltac path_tac Hs Hd Hno := by intros ?%Hs%(Hd _ Hno).

Lemma exec_untouched fr ctx rq caller e id st :
  ~ licensed (pool st) caller (rq_body rq) e id -> steps_at (untouched id) (exec fr ctx rq caller e) st.
Proof.
  intros Hno.
  assert (Hd : forall P, ~ (P /\ holds_rank (pool st) caller id (rank_needed e)) ->
    P -> ~ holds_rank (pool st) caller id (rank_needed e)) by tauto.
  assert (Hs : forall i : string, i = id -> Some i = Some id) by congruence.
  destruct e; cbn [exec];
    lazymatch goal with
    | |- steps_at _ (coll_create _ _ _ _ _ _) _ => apply coll_create_untouched
    | |- steps_at _ (item_put _ _ _ _ _ _) _ => apply item_write_untouched; path_tac Hs Hd Hno
    | |- steps_at _ (item_patch _ _ _ _ _ _) _ => apply item_write_untouched; path_tac Hs Hd Hno
    | |- steps_at _ (item_delete _ _ _ _ _) _ => apply item_delete_untouched; path_tac Hs Hd Hno
    | |- steps_at _ (add_member _ _ _ _ _ _) _ => apply add_member_untouched; path_tac Hs Hd Hno
    | |- steps_at _ (set_member _ _ _ _ _ _ _) _ => apply set_member_untouched; path_tac Hs Hd Hno
    | |- steps_at _ (record_check _ _ _ _ _ _ _) _ => apply record_check_untouched; path_tac Hs Hd Hno
    | |- steps_at _ (run_connector _ _ _) _ => apply run_connector_untouched; path_tac Hs Hd Hno
    | |- steps_at _ (create_relation _ _ _ _) _ =>
        apply create_relation_untouched; intros input Hin E; apply (Hd _ Hno); cbn; by rewrite Hin, E
    | |- steps_at _ (start_run _ _ _ _) _ =>
        apply start_run_untouched; intros input Hin E; apply (Hd _ Hno); cbn; by rewrite Hin, E
    | |- steps_at _ (record_handoff _ _ _ _) _ => by apply record_handoff_untouched, (Hd _ Hno)
    | |- steps_at _ (claim_admin _) _ =>
        change (Other (Caller.actor_id caller) id) in Hno; apply at_respects; respects_tac
    | |- _ => apply at_respects; first [apply _ | respects_tac]
    end.
Qed.

Lemma exec_public_untouched fr ctx rq e id : Respects (untouched id) (exec_public fr ctx rq e).
Proof. destruct e; cbn [exec_public]; first [apply _ | respects_tac]. Qed.

(** Who a request speaks for in a state, and by which endpoint. *)
Definition speaks (st : AppState) (rq : HttpRequest) (e : Endpoint) (caller : Caller.t) : Prop :=
  route (rq_method rq) (rq_path rq) = Found e /\
  from_request_parts (rq_headers rq) st = (Ok caller, st).

(** One request keeps an object, or was licensed to change it. *)
Lemma serve_http_untouched fr rq p id :
  untouched id (app p) (app (serve_http fr rq p).2) \/
  exists e caller, speaks (app p) rq e caller /\ licensed (pool (app p)) caller (rq_body rq) e id.
Proof.
  destruct (serve_http_app fr rq p) as [->|(e & ctx & Hroute & ->)]; [by left|].
  unfold handle. destruct (is_public e); [left; apply exec_public_untouched|].
  pose proof (read_only (m := from_request_parts (rq_headers rq)) (app p)) as Hro.
  unfold mbind, m_bind. destruct (from_request_parts (rq_headers rq) (app p)) as [[caller|er] st] eqn:Hf;
    simpl in Hro; subst; [|by left].
  destruct (decide (licensed (pool (app p)) caller (rq_body rq) e id)) as [Hl|Hl].
  - right. exists e, caller. by split.
  - left. by apply exec_untouched.
Qed.

(** C2 Nothing about an object changes unless somebody may change it. Over any run of the server an
    object that exists keeps its content, its version, its case row and its scope parent (or loses
    the latter with the parent), and no membership, close check, outgoing edge or run on it is
    added or changed; or else the run has a first request licensed to do so: one whose endpoint
    addresses the object, by a caller that a live session identifies, who is a platform admin or
    holds on the object the rank the endpoint needs (or claims the first admin role, on their own
    actor). Changes and grants are meant: that a membership or an edge is removed is not. *)
Theorem every_change_licensed rqs p id :
  is_Some (entities (pool (app p)) !! id) ->
  kept id (pool (app p)) (pool (app (serve_all rqs p))) \/
  exists before fr rq after e caller,
    rqs = before ++ (fr, rq) :: after /\
    let st := app (serve_all before p) in
    kept id (pool (app p)) (pool st) /\ speaks st rq e caller /\
    licensed (pool st) caller (rq_body rq) e id.
Proof.
  revert p. induction rqs as [|[fr rq] rqs IH]; intros p Hid; [left; apply kept_refl|].
  destruct (serve_http_untouched fr rq p id) as [Hk|(e & caller & Hs & Hl)].
  - specialize (Hk Hid). unfold serve_all. cbn [fold_left fst snd].
    destruct (IH (serve_http fr rq p).2) as [Hk'|(before & fr' & rq' & after & e & caller & -> & Hk' & Hs)].
    + by rewrite (kp_entity _ _ _ Hk).
    + left. by eapply kept_trans.
    + right. exists ((fr, rq) :: before), fr', rq', after, e, caller. split; [done|].
      split; [by eapply kept_trans|done].
  - right. exists [], fr, rq, rqs, e, caller. split; [done|]. cbv zeta.
    split_and!; [apply kept_refl|done..].
Qed.
End Server.
