(* ===== verification/Confidentiality.v ===== *)
(** * What a caller cannot see

    An object outside a caller's reach has no influence on what the caller is answered. The proof
    runs every handler twice: on a store and on the same store with the content of one object
    replaced ([hide]). What a handler reads is the same in both, unless it is that content, which
    the gates keep it from; what it writes differs only there. *)

From S2P Require Import Prelude RustStr Encoding Config Json AppError Closure Schema Registry.
From S2P Require Import Workflow State Rbac Caller FieldPerms Objects Fixture ObjectHandlers.
From S2P Require Import ObjectProps Lifecycle RbacProps Members MemberProps Orchestrator Pipeline.
From S2P Require Import Types Relations HttpClient Connectors Auth OAuth RateLimit Platform Search.
From S2P Require Import Steps Server ServerProps Footprint Authority.

Local Open Scope Z_scope.

(** ** Selections from a table with one row replaced *)

Section Tables.
Context {A : Type}.
Implicit Types (m : gmap string A) (g : A -> A).

(** Two tables with the same keys are listed in the same order. *)
Lemma same_keys_list m1 m2 :
  (forall k, is_Some (m1 !! k) <-> is_Some (m2 !! k)) ->
  exists l : list (string * (A * A)),
    map_to_list m1 = (fun x => (x.1, x.2.1)) <$> l /\ map_to_list m2 = (fun x => (x.1, x.2.2)) <$> l /\
    forall x, x ∈ l -> m1 !! x.1 = Some x.2.1 /\ m2 !! x.1 = Some x.2.2.
Proof.
  intros Hk. exists (map_to_list (map_zip m1 m2)).
  assert (E1 : fst <$> map_zip m1 m2 = m1) by (apply fst_map_zip; intros k Hs; by apply Hk).
  assert (E2 : snd <$> map_zip m1 m2 = m2) by (apply snd_map_zip; intros k Hs; by apply Hk).
  split_and!.
  - rewrite <- E1 at 1. by rewrite map_to_list_fmap.
  - rewrite <- E2 at 1. by rewrite map_to_list_fmap.
  - intros [k [a b]] Hin%elem_of_map_to_list. by apply map_lookup_zip_Some in Hin.
Qed.

Lemma alter_keys g i m k : is_Some (alter g i m !! k) <-> is_Some (m !! k).
Proof. apply lookup_alter_is_Some. Qed.

Lemma select_list_alter {B} (f : string -> A -> option B) g i m :
  (forall r, m !! i = Some r -> f i (g r) = f i r) ->
  select_list f (alter g i m) = select_list f m.
Proof.
  intros Hf. unfold select_list.
  destruct (same_keys_list (alter g i m) m (alter_keys g i m)) as (l & -> & -> & Hl).
  induction l as [|[k [a b]] l IH]; [done|].
  destruct (Hl (k, (a, b))) as [H1 H2]; [left|]. simpl in H1, H2.
  assert (E : f k a = f k b).
  { destruct (decide (i = k)) as [->|Hne].
    - rewrite lookup_alter_eq, H2 in H1. injection H1 as <-. by apply Hf.
    - rewrite lookup_alter_ne, H2 in H1 by done. congruence. }
  cbn. rewrite E. destruct (f k b); [f_equal|]; apply IH; intros x Hx; apply Hl; by right.
Qed.

Lemma filter_rows_alter (keep : string * A -> bool) g i m :
  (forall r, keep (i, r) = false) ->
  List.filter keep (map_to_list (alter g i m)) = List.filter keep (map_to_list m).
Proof.
  intros Hi. destruct (same_keys_list (alter g i m) m (alter_keys g i m)) as (l & -> & -> & Hl).
  induction l as [|[k [a b]] l IH]; [done|].
  destruct (Hl (k, (a, b))) as [H1 H2]; [left|]. simpl in H1, H2. cbn.
  assert (IH' := IH (fun x Hx => Hl x (list_elem_of_further _ _ _ Hx))).
  destruct (decide (i = k)) as [->|Hne]; [by rewrite !Hi|].
  rewrite lookup_alter_ne, H2 in H1 by done. injection H1 as ->.
  destruct (keep (k, a)); [f_equal|]; exact IH'.
Qed.
End Tables.

Lemma cte_ext `{Countable K} (f g : gset K -> gset K) n seed :
  (forall X, f X = g X) -> cte f n seed = cte g n seed.
Proof.
  intros Hfg. unfold cte. generalize seed at 1 3 as w. generalize seed as acc.
  induction (S n) as [|k IH]; intros acc w; simpl; [done|]. rewrite Hfg. case_decide; [done|apply IH].
Qed.

Lemma omap_ext {A B} (f g : A -> option B) (l : list A) : (forall x, f x = g x) -> omap f l = omap g l.
Proof. intros Hfg. induction l as [|x l IH]; [done|]. cbn. rewrite Hfg. by destruct (g x); [f_equal|]. Qed.

(** ** The store with the content of an object replaced *)

Section Hide.
Variables (id : string) (v : Value).

(** Actors stay as they are: a session and the claim of the first admin read them. *)
Definition veil (row : DataRow) : DataRow :=
  if decide (d_type_id row = "actor") then row else set_data v row.
Definition hide (db : Db) : Db := set_entity_data (alter veil id (entity_data db)) db.
Definition hide_st (st : AppState) : AppState := set_pool (hide (pool st)) st.

Lemma veil_same row :
  d_type_id (veil row) = d_type_id row /\ d_scope_parent_id (veil row) = d_scope_parent_id row /\
  d_version (veil row) = d_version row /\ d_updated_at (veil row) = d_updated_at row.
Proof. unfold veil. by case_decide. Qed.

Lemma lookup_hide_ne db i : i <> id -> entity_data (hide db) !! i = entity_data db !! i.
Proof. intros Hne. cbn. by rewrite lookup_alter_ne. Qed.
Lemma lookup_hide_eq db : entity_data (hide db) !! id = veil <$> entity_data db !! id.
Proof. cbn. by rewrite lookup_alter_eq. Qed.

(** A view of a row that the veil keeps. *)
Lemma lookup_hide_view {B} (f : DataRow -> B) db i :
  (forall row, f (veil row) = f row) -> f <$> entity_data (hide db) !! i = f <$> entity_data db !! i.
Proof.
  intros Hf. destruct (decide (i = id)) as [->|Hne]; [|by rewrite lookup_hide_ne].
  rewrite lookup_hide_eq, <- option_fmap_compose. apply option_fmap_ext. intros row. apply Hf.
Qed.

(** *** What does not read content *)

Lemma scope_parent_hide db i : scope_parent_of (hide db) i = scope_parent_of db i.
Proof.
  pose proof (lookup_hide_view d_scope_parent_id db i (fun row => proj1 (proj2 (veil_same row)))) as E.
  unfold scope_parent_of. destruct (entity_data (hide db) !! i), (entity_data db !! i);
    simpl in *; congruence.
Qed.

Lemma scopes_hide db o : scopes (hide db) o = scopes db o.
Proof.
  unfold scopes. revert o. induction max_depth as [|n IH]; intros o; [done|]. simpl.
  rewrite scope_parent_hide. destruct (scope_parent_of db o); [by rewrite IH|done].
Qed.

Lemma effective_rank_hide db a o : effective_rank (hide db) a o = effective_rank db a o.
Proof. unfold effective_rank, ranks_on. by rewrite scopes_hide. Qed.

Lemma reach_hide db a : reach (hide db) a = reach db a.
Proof.
  unfold reach. change (anchors (hide db) a) with (anchors db a).
  assert (E : size (entity_data (hide db)) = size (entity_data db)).
  { unfold hide. cbn. rewrite <- !size_dom. f_equal. apply dom_alter_L. }
  rewrite E. apply cte_ext. intros X. unfold reach_step, select_set. f_equal. apply select_list_alter.
  intros r _. by rewrite (proj1 (proj2 (veil_same r))).
Qed.

(** *** The gates *)

Lemma require_action_hide db caller td o a :
  require_action (hide db) caller td o a = require_action db caller td o a.
Proof. unfold require_action. destruct o; [by rewrite effective_rank_hide|done]. Qed.

Lemma reach_action_hide st caller e a : reach_action (hide_st st) caller e a = reach_action st caller e a.
Proof.
  unfold reach_action. cbn. change (set_entity_data _ (pool st)) with (hide (pool st)).
  destruct (entities (pool st) !! e); [|done]. destruct (registry st !! _); [apply require_action_hide|done].
Qed.

Lemma require_rank_hide db caller o min ctx :
  require_rank (hide db) caller o min ctx = require_rank db caller o min ctx.
Proof. unfold require_rank. by rewrite effective_rank_hide. Qed.

Lemma rank_on_hide db caller o : rank_on (hide db) caller o = rank_on db caller o.
Proof. unfold rank_on. by rewrite effective_rank_hide. Qed.

Lemma filter_readable_hide db caller td o data :
  filter_readable (hide db) caller td o data = filter_readable db caller td o data.
Proof. unfold filter_readable. by rewrite rank_on_hide. Qed.

Lemma require_write_hide db caller td o ws ctx :
  require_write (hide db) caller td o ws ctx = require_write db caller td o ws ctx.
Proof.
  unfold require_write. rewrite rank_on_hide.
  assert (E : forall r, refused_field (hide db) td r ws = refused_field db td r ws)
    by (intros r; induction ws as [|w ws IH]; [done|]; simpl; by rewrite IH).
  by rewrite E.
Qed.

Lemma permitted_verbs_hide db caller td o b :
  permitted_verbs (hide db) caller td o b = permitted_verbs db caller td o b.
Proof.
  unfold permitted_verbs. apply omap_ext. intros va. case_decide; [done|]. by rewrite require_action_hide.
Qed.

Lemma rbac_verdict_hide db caller td o b :
  rbac_verdict (hide db) caller td o b = rbac_verdict db caller td o b.
Proof.
  unfold rbac_verdict. do 2 f_equal. apply list_fmap_ext. intros _ va _. case_decide; [done|].
  by rewrite require_action_hide.
Qed.

Lemma readable_set_hide db caller td o : readable_set (hide db) caller td o = readable_set db caller td o.
Proof. unfold readable_set. destruct o; [by rewrite effective_rank_hide|done]. Qed.

Lemma options_body_hide db td caller o b e :
  options_body (hide db) td caller o b e = options_body db td caller o b e.
Proof. unfold options_body. by rewrite permitted_verbs_hide, rbac_verdict_hide, readable_set_hide. Qed.

Lemma select_data_ne db i t : i <> id -> select_data i t (hide db) = select_data i t db.
Proof. intros Hne. unfold select_data. by rewrite lookup_hide_ne. Qed.

Lemma select_actor_hide db i : select_data i "actor" (hide db) = select_data i "actor" db.
Proof.
  destruct (decide (i = id)) as [->|Hne]; [|by apply select_data_ne].
  unfold select_data. rewrite lookup_hide_eq. destruct (entity_data db !! id) as [row|]; [|done]. simpl.
  unfold veil. destruct (decide (d_type_id row = "actor")) as [E|E]; [by rewrite decide_True|]. simpl.
  by rewrite !decide_False.
Qed.

Lemma ensure_object_hide db i t ctx : ensure_object (hide db) i t ctx = ensure_object db i t ctx.
Proof.
  unfold ensure_object, select_data. destruct (decide (i = id)) as [->|Hne]; [|by rewrite lookup_hide_ne].
  rewrite lookup_hide_eq. destruct (entity_data db !! id) as [row|]; [|done]. simpl.
  rewrite (proj1 (veil_same row)). by case_decide.
Qed.

Lemma reachable_ids_hide db a t : reachable_entity_ids (hide db) a t = reachable_entity_ids db a t.
Proof.
  unfold reachable_entity_ids. rewrite reach_hide. apply list_filter_iff. intros i.
  by rewrite (lookup_hide_view d_type_id) by (intros; apply veil_same).
Qed.

Lemma select_rows_hide db t ids limit offset :
  id ∉ ids -> select_rows (hide db) t (Some ids) limit offset = select_rows db t (Some ids) limit offset.
Proof.
  intros Hid. unfold select_rows. do 3 f_equal. apply filter_rows_alter. intros row. simpl.
  rewrite (bool_decide_false (id ∈ ids)) by done. apply andb_false_r.
Qed.

Lemma search_rows_hide `{Postgres, FullText} db q tf ids limit :
  id ∉ ids -> search_rows (hide db) q tf (Some ids) limit = search_rows db q tf (Some ids) limit.
Proof.
  intros Hid. unfold search_rows. do 2 f_equal. apply select_list_alter. intros row _.
  by rewrite bool_decide_false.
Qed.

Lemma live_sessions_hide `{Postgres} db hash : live_sessions (hide db) hash = live_sessions db hash.
Proof.
  unfold live_sessions, select_list. cbn. apply omap_ext. intros kv. case_decide; [|done].
  change (set_entity_data _ db) with (hide db). by rewrite select_actor_hide.
Qed.

(** *** Running twice *)

(** [m'] on the other store does what [m] does on the first. *)
Definition blind {A} (m m' : M A) (st : AppState) : Prop :=
  m' (hide_st st) = ((m st).1, hide_st (m st).2).
Class Commutes {A} (m : M A) : Prop := commutes : forall st, blind m m st.

Definition hidden {A} (r : Result SqlError (A * Db)) : Result SqlError (A * Db) :=
  match r with Ok (a, db) => Ok (a, hide db) | Err e => Err e end.
Class SqlCommutes {A} (m : SqlM A) : Prop := sql_commutes : forall db, m (hide db) = hidden (m db).

Lemma blind_get {B} (k k' : AppState -> M B) st :
  blind (k st) (k' (hide_st st)) st -> blind (get_state ≫= k) (get_state ≫= k') st.
Proof. done. Qed.

Lemma blind_query {A B} (q q' : Db -> A) (k k' : A -> M B) st :
  blind (k (q (pool st))) (k' (q' (hide (pool st)))) st -> blind (query q ≫= k) (query q' ≫= k') st.
Proof. done. Qed.

Lemma blind_lift {A B} (r r' : AppResult A) (k k' : A -> M B) st :
  r' = r -> (forall a, r = Ok a -> blind (k a) (k' a) st) -> blind (lift r ≫= k) (lift r' ≫= k') st.
Proof. intros -> Hk. unfold blind, mbind, m_bind, lift. destruct r; [by apply Hk|done]. Qed.

Lemma blind_ensure {B} (b b' : bool) e (k k' : unit -> M B) st :
  b' = b -> (b = true -> blind (k tt) (k' tt) st) -> blind (ensure b e ≫= k) (ensure b' e ≫= k') st.
Proof. intros -> Hk. unfold blind, mbind, m_bind, ensure. destruct b; [by apply Hk|done]. Qed.

Lemma blind_ret {A} (a a' : A) st : a' = a -> blind (mret a) (mret a') st.
Proof. by intros ->. Qed.

Lemma blind_fail {A} e st : blind (fail (A := A) e) (fail e) st.
Proof. done. Qed.

Lemma blind_seq {A B} (m m' : M A) (k k' : A -> M B) st :
  blind m m' st -> (forall a, blind (k a) (k' a) (m st).2) -> blind (m ≫= k) (m' ≫= k') st.
Proof.
  intros E Hk. unfold blind, mbind, m_bind in *. rewrite E.
  destruct (m st) as [[a|e] st1]; [apply Hk|done].
Qed.

Lemma blind_bind {A B} (m : M A) (k k' : A -> M B) st :
  Commutes m -> (forall a, blind (k a) (k' a) (m st).2) -> blind (m ≫= k) (m ≫= k') st.
Proof. intros Hm Hk. apply blind_seq; [apply Hm|done]. Qed.

#[export] Instance commutes_ret {A} (a : A) : Commutes (mret a : M A).
Proof. done. Qed.
#[export] Instance commutes_lift {A} (r : AppResult A) : Commutes (lift r).
Proof. done. Qed.
#[export] Instance commutes_fail {A} e : Commutes (fail (A := A) e).
Proof. done. Qed.
#[export] Instance commutes_ensure b e : Commutes (ensure b e).
Proof. by destruct b. Qed.
#[export] Instance commutes_bind {A B} (m : M A) (k : A -> M B) :
  Commutes m -> (forall a, Commutes (k a)) -> Commutes (m ≫= k).
Proof. intros Hm Hk st. apply blind_bind; [done|]. intros a. apply Hk. Qed.
#[export] Instance commutes_run_sql {A} (m : SqlM A) : SqlCommutes m -> Commutes (run_sql m).
Proof.
  intros Hm st. unfold blind, run_sql. change (pool (hide_st st)) with (hide (pool st)). rewrite Hm.
  by destruct (m (pool st)) as [[a db]|e].
Qed.
#[export] Instance commutes_decide {A} (P : Prop) `{Decision P} (m1 m2 : M A) :
  Commutes m1 -> Commutes m2 -> Commutes (if decide P then m1 else m2).
Proof. by case_decide. Qed.
#[export] Instance commutes_if {A} (b : bool) (m1 m2 : M A) :
  Commutes m1 -> Commutes m2 -> Commutes (if b then m1 else m2).
Proof. by destruct b. Qed.
#[export] Instance sql_commutes_ret {A} (a : A) : SqlCommutes (mret a : SqlM A).
Proof. done. Qed.
#[export] Instance sql_commutes_now : SqlCommutes sql_now.
Proof. done. Qed.
#[export] Instance sql_commutes_bind {A B} (m : SqlM A) (k : A -> SqlM B) :
  SqlCommutes m -> (forall a, SqlCommutes (k a)) -> SqlCommutes (m ≫= k).
Proof.
  intros Hm Hk db. unfold mbind, sql_bind. rewrite Hm. destruct (m db) as [[a db1]|e]; [apply Hk|done].
Qed.
#[export] Instance sql_commutes_decide {A} (P : Prop) `{Decision P} (m1 m2 : SqlM A) :
  SqlCommutes m1 -> SqlCommutes m2 -> SqlCommutes (if decide P then m1 else m2).
Proof. by case_decide. Qed.

(** *** Statements *)

(** A statement that does not look at the objects at all. *)
Ltac commutes_tac := intros db; unfold hide; cbn; repeat case_match; done.

Section Statements.
Context `{SerdeJson, Postgres}.

#[export] Instance record_event_commutes ctx a e k p : Commutes (record_event ctx a e k p).
Proof. intros st. unfold blind, record_event. cbn. by case_match. Qed.
#[export] Instance insert_entity_commutes i t by_ : SqlCommutes (insert_entity i t by_).
Proof. unfold insert_entity. commutes_tac. Qed.
#[export] Instance upsert_membership_commutes o m row : SqlCommutes (upsert_membership o m row).
Proof. unfold upsert_membership. commutes_tac. Qed.
#[export] Instance grant_owner_commutes o m : SqlCommutes (grant_owner o m).
Proof. intros db. apply upsert_membership_commutes. Qed.
#[export] Instance update_membership_commutes o m r c : SqlCommutes (update_membership o m r c).
Proof. unfold update_membership. commutes_tac. Qed.
#[export] Instance delete_membership_commutes o m : SqlCommutes (delete_membership o m).
Proof. done. Qed.
#[export] Instance upsert_check_commutes i n b o : SqlCommutes (upsert_check i n b o).
Proof. unfold upsert_check. commutes_tac. Qed.
#[export] Instance insert_run_commutes i c t : SqlCommutes (insert_run i c t).
Proof. unfold insert_run. commutes_tac. Qed.
#[export] Instance insert_handoff_commutes h : SqlCommutes (insert_handoff h).
Proof. unfold insert_handoff. commutes_tac. Qed.
#[export] Instance update_run_commutes i p s : SqlCommutes (update_run i p s).
Proof. done. Qed.
#[export] Instance insert_relation_commutes i r : SqlCommutes (insert_relation i r).
Proof. unfold insert_relation. commutes_tac. Qed.
#[export] Instance remove_relation_commutes i : SqlCommutes (remove_relation i).
Proof. done. Qed.
#[export] Instance insert_session_commutes i r : SqlCommutes (insert_session i r).
Proof. unfold insert_session. commutes_tac. Qed.
#[export] Instance delete_sessions_commutes a : SqlCommutes (delete_sessions a).
Proof. done. Qed.
#[export] Instance insert_identity_commutes p s a e : SqlCommutes (insert_identity p s a e).
Proof. unfold insert_identity. commutes_tac. Qed.
#[export] Instance insert_type_commutes t r : SqlCommutes (insert_type t r).
Proof. unfold insert_type. commutes_tac. Qed.
#[export] Instance insert_type_field_commutes t f r : SqlCommutes (insert_type_field t f r).
Proof. unfold insert_type_field. commutes_tac. Qed.
#[export] Instance insert_fields_commutes t n fs : SqlCommutes (insert_fields t n fs).
Proof. revert n. induction fs as [|f fs IH]; intros n; simpl; apply _. Qed.
#[export] Instance create_type_txn_commutes spec : SqlCommutes (create_type_txn spec).
Proof. unfold create_type_txn. apply _. Qed.
#[export] Instance store_registry_commutes r : Commutes (store_registry r).
Proof. done. Qed.
#[export] Instance ignore_commutes {A} (m : M A) : Commutes m -> Commutes (ignore m).
Proof. intros Hm st. unfold blind, ignore. by rewrite (Hm st). Qed.
#[export] Instance cases_guard_commutes i old new : SqlCommutes (cases_guard i old new).
Proof. unfold cases_guard, check_passed. commutes_tac. Qed.
#[export] Instance upsert_case_mirror_commutes i data n : SqlCommutes (upsert_case_mirror i data n).
Proof.
  intros db. unfold upsert_case_mirror, mbind, sql_bind, sql_get. cbn -[hide].
  change (cases (hide db)) with (cases db). change (now (hide db)) with (now db).
  destruct (cases db !! i) as [old|].
  - rewrite (cases_guard_commutes i old (case_row data n (now db)) db).
    destruct (cases_guard _ _ _ db) as [[u db1]|e]; [|done].
    unfold constraint, hide. cbn. by destruct (_ && _ && _ && _).
  - unfold constraint, hide. cbn. by destruct (_ && _ && _ && _).
Qed.

(** The rows of other objects, and of actors, are written where the veil is not. *)
Lemma hide_insert_ne db i row :
  i <> id ->
  set_entity_data (<[i := row]> (entity_data (hide db))) (hide db)
  = hide (set_entity_data (<[i := row]> (entity_data db)) db).
Proof. intros Hne. unfold hide. cbn. by rewrite alter_insert_ne. Qed.

Lemma hide_insert_actor db i row :
  d_type_id row = "actor" ->
  set_entity_data (<[i := row]> (entity_data (hide db))) (hide db)
  = hide (set_entity_data (<[i := row]> (entity_data db)) db).
Proof.
  intros Ha. destruct (decide (i = id)) as [->|Hne]; [|by apply hide_insert_ne].
  unfold hide. cbn. rewrite insert_alter_eq, alter_insert_eq. unfold veil. by rewrite decide_True.
Qed.

#[export] Instance insert_data_commutes i t data sp : Other i id -> SqlCommutes (insert_data i t data sp).
Proof.
  intros Hne db. unfold insert_data. rewrite lookup_hide_ne by done. case_decide; [done|].
  change (fk_ok (entities (hide db))) with (fk_ok (entities db)).
  change (fk_ok (type_definitions (hide db))) with (fk_ok (type_definitions db)).
  case_match; [|done]. simpl. by rewrite <- hide_insert_ne.
Qed.
#[export] Instance update_data_commutes i t data sp n : Other i id -> SqlCommutes (update_data i t data sp n).
Proof.
  intros Hne db. unfold update_data. rewrite lookup_hide_ne by done.
  destruct (entity_data db !! i) as [row|]; [|done]. case_match; [|done]. case_match; [done|].
  change (fk_ok (entities (hide db))) with (fk_ok (entities db)).
  case_match; [|done]. simpl. by rewrite <- hide_insert_ne.
Qed.
#[export] Instance stamp_run_commutes i s : Other i id -> SqlCommutes (stamp_run i s).
Proof.
  intros Hne db. unfold stamp_run. rewrite select_data_ne by done.
  destruct (select_data i "connector" db) as [row|]; [|done]. change (now (hide db)) with (now db).
  destruct (_ ≫= _); [|done]. case_match; [done|]. simpl. by rewrite <- hide_insert_ne.
Qed.
#[export] Instance delete_object_commutes i t n : Other i id -> SqlCommutes (delete_object i t n).
Proof.
  intros Hne db. unfold delete_object. rewrite lookup_hide_ne by done.
  change (entities (hide db)) with (entities db).
  destruct (entity_data db !! i) as [row|]; [|done]. destruct (entities db !! i); [|done].
  case_match; [|done].
  assert (E : cascade_data i <$> delete i (alter veil id (entity_data db))
    = alter veil id (cascade_data i <$> delete i (entity_data db))).
  { apply map_eq. intros k. rewrite lookup_fmap. destruct (decide (k = id)) as [->|Hid].
    - rewrite lookup_alter_eq, lookup_fmap, !lookup_delete_ne, lookup_alter_eq by done.
      destruct (entity_data db !! id) as [r|]; [|done]. simpl. f_equal. unfold veil.
      by destruct (decide (d_type_id r = "actor")); [rewrite decide_True|rewrite decide_False].
    - rewrite lookup_alter_ne, lookup_fmap by done. f_equal. destruct (decide (k = i)) as [->|Hk].
      + by rewrite !lookup_delete_eq.
      + by rewrite !lookup_delete_ne, lookup_alter_ne. }
  unfold hide, delete_entity. cbn. by rewrite E.
Qed.

(** The claim reads the role of every actor, and of nothing else. *)
Lemma real_admin_hide db :
  map_Exists real_admin (entity_data (hide db)) <-> map_Exists real_admin (entity_data db).
Proof.
  assert (Hr : forall i row, real_admin i (veil row) <-> real_admin i row).
  { intros i row. unfold veil. case_decide as E; [done|]. unfold real_admin. cbn. naive_solver. }
  split; intros (i & row & Hrow & Hreal).
  - destruct (decide (i = id)) as [->|Hne]; [|rewrite lookup_hide_ne in Hrow by done; by exists i, row].
    rewrite lookup_hide_eq in Hrow. apply fmap_Some in Hrow as (r & Hr' & ->). exists id, r. by rewrite <- Hr.
  - destruct (decide (i = id)) as [->|Hne]; [|exists i, row; by rewrite lookup_hide_ne].
    exists id, (veil row). by rewrite lookup_hide_eq, Hrow, Hr.
Qed.

#[export] Instance claim_update_commutes a : SqlCommutes (claim_update a).
Proof.
  intros db. unfold claim_update. rewrite select_actor_hide.
  destruct (select_data a "actor" db) as [row|] eqn:Hrow; [|done].
  rewrite (decide_ext _ _ _ _ (real_admin_hide db)). case_decide; [done|].
  destruct (jsonb_set _ _ _) as [data|]; [|done]. cbn [hidden]. by rewrite hide_insert_actor.
Qed.

(** A new object is not the one veiled, which exists. *)
Lemma insert_object_commutes {A} i t by_ (m : SqlM A) st :
  is_Some (entities (pool st) !! id) -> (Other i id -> SqlCommutes m) ->
  blind (run_sql (insert_entity i t by_ ≫= fun _ => m)) (run_sql (insert_entity i t by_ ≫= fun _ => m)) st.
Proof.
  intros Hid Hm. destruct (decide (i = id)) as [->|Hne].
  - unfold blind, run_sql, insert_entity, mbind, sql_bind. cbn.
    by rewrite !(decide_True _ _ Hid).
  - apply commutes_run_sql, sql_commutes_bind; [apply _|]. intros _. by apply Hm.
Qed.
End Statements.
End Hide.

(** ** Handlers *)

(** The caller is no admin and has no membership that reaches the object. *)
Definition unseen (db : Db) (caller : Caller.t) (id : string) : Prop :=
  Caller.is_platform_admin caller = false /\ id ∉ reach db (Caller.actor_id caller).

Lemma unseen_rank db caller id : unseen db caller id -> effective_rank db (Caller.actor_id caller) id = None.
Proof.
  intros [_ Hr]. destruct (effective_rank _ _ _) as [r|] eqn:E; [|done].
  exfalso. by eapply Hr, grants_reach, effective_rank_grants.
Qed.

Lemma unseen_action db caller td id a :
  unseen db caller id -> require_action db caller td (Some id) a = false.
Proof. intros Hun. unfold require_action. rewrite unseen_rank by done. by destruct Hun as [-> _]. Qed.

Lemma unseen_reach_action st caller id a :
  unseen (pool st) caller id -> reach_action st caller id a = false.
Proof. intros Hun. unfold reach_action. repeat case_match; [by apply unseen_action|done..]. Qed.

Lemma unseen_hide db caller id v : unseen db caller id -> unseen (hide id v db) caller id.
Proof. intros [Ha Hr]. split; [done|]. by rewrite reach_hide. Qed.

Lemma unseen_require_rank db caller id min ctx r :
  unseen db caller id -> require_rank db caller id min ctx <> Ok r.
Proof. intros Hun. unfold require_rank. rewrite unseen_rank by done. by destruct Hun as [-> _]. Qed.

Section Handlers.
Context `{SerdeJson, Postgres, FullText, Reqwest, Env, Hmac, Jwt, Sha2, Build, UrlParams}.
Context `{!FromSlice RelInput, !FromSlice StartInput, !FromSlice HandoffInput, !FromSlice TypeSpec}.
Variables (id : string) (v : Value) (st : AppState) (caller : Caller.t).
Hypothesis Hid : is_Some (entities (pool st) !! id).
Hypothesis Hun : unseen (pool st) caller id.

(** The same value on both stores. *)
Ltac hide_tac :=
  change (pool (hide_st id v st)) with (hide id v (pool st));
  change (registry (hide_st id v st)) with (registry st);
  change (wf_cache (hide_st id v st)) with (wf_cache st);
  rewrite ?require_action_hide, ?reach_action_hide, ?require_rank_hide, ?ensure_object_hide,
    ?permitted_verbs_hide, ?options_body_hide, ?require_write_hide, ?filter_readable_hide,
    ?reachable_ids_hide, ?reach_hide, ?select_data_ne by assumption;
  try reflexivity.

(** Through the guards, up to the first write or the answer. *)
Ltac blind_tac :=
  cbv zeta; unfold resolve;
  repeat lazymatch goal with
  | |- blind _ _ (get_state ≫= _) _ _ => apply blind_get; cbv beta zeta
  | |- blind _ _ (lift _ ≫= _) _ _ => apply blind_lift; [by hide_tac|intros ? ?; cbv beta zeta]
  | |- blind _ _ (ensure _ _ ≫= _) _ _ => apply blind_ensure; [by hide_tac|intros ?; cbv beta zeta]
  end.

(** A guard that lets nobody through who does not see the object. *)
Ltac unseen_tac i :=
  destruct (decide (i = id)) as [->|Hne];
    [exfalso; first
      [ by rewrite unseen_action in * by exact Hun
      | by rewrite unseen_reach_action in * by exact Hun
      | by eapply unseen_require_rank ]
    |change (Other i id) in Hne].

Implicit Types (ctx : RequestCtx) (t i : string) (headers : HeaderMap).
Abbreviation same m := (blind id v m m st).

Lemma item_get_blind ctx t i headers : same (item_get ctx caller t i headers).
Proof.
  unfold item_get. blind_tac. unseen_tac i. blind_tac. case_match; apply blind_ret; by hide_tac.
Qed.

Lemma item_head_blind ctx t i : same (item_head ctx caller t i).
Proof. unfold item_head. blind_tac. unseen_tac i. blind_tac. by apply blind_ret. Qed.

Lemma item_options_blind ctx t i : same (item_options ctx caller t i).
Proof. unfold item_options. blind_tac. unseen_tac i. blind_tac. apply blind_ret. by hide_tac. Qed.

Lemma m405_item_blind ctx t i : same (m405_item ctx caller t i).
Proof.
  unfold m405_item. blind_tac. change (pool (hide_st id v st)) with (hide id v (pool st)).
  rewrite permitted_verbs_hide. apply blind_fail.
Qed.

Lemma m405_coll_blind ctx t : same (m405_coll ctx caller t).
Proof.
  unfold m405_coll. blind_tac. change (pool (hide_st id v st)) with (hide id v (pool st)).
  rewrite permitted_verbs_hide. apply blind_fail.
Qed.

Lemma coll_head_blind ctx t : same (coll_head ctx caller t).
Proof. unfold coll_head. blind_tac. by apply blind_ret. Qed.

Lemma coll_options_blind ctx t : same (coll_options ctx caller t).
Proof. unfold coll_options. blind_tac. apply blind_ret. by hide_tac. Qed.

Lemma coll_get_blind ctx t l o : same (coll_get ctx caller t l o).
Proof.
  unfold coll_get. blind_tac. apply blind_ret. hide_tac. destruct Hun as [-> Hr].
  rewrite select_rows_hide; [|unfold reachable_entity_ids; rewrite list_elem_of_filter, elem_of_elements; tauto].
  do 7 f_equal.
  apply list_fmap_ext. intros _ row _. by rewrite filter_readable_hide.
Qed.

Lemma list_members_blind ctx t i : same (list_members ctx caller t i).
Proof. unfold list_members. blind_tac. apply blind_ret. by hide_tac. Qed.

Lemma list_types_blind : same (list_types caller).
Proof. unfold list_types. blind_tac. by apply blind_ret. Qed.

Lemma get_type_blind ctx t : same (get_type ctx caller t).
Proof. unfold get_type. blind_tac. by apply blind_ret. Qed.

Lemma list_relations_blind ctx e tf : same (list_relations ctx caller e tf).
Proof.
  unfold list_relations. blind_tac. apply blind_ret.
  unfold reachable_entity_ids_any. by hide_tac.
Qed.

Lemma search_blind ctx q tf l : same (search ctx caller q tf l).
Proof.
  unfold search. blind_tac. apply blind_ret. hide_tac. destruct Hun as [-> Hr].
  unfold reachable_entity_ids_any. hide_tac. rewrite search_rows_hide; [done|].
  by rewrite elem_of_elements.
Qed.

Lemma require_run_authority_hide c a ctx :
  require_run_authority (hide_st id v st) caller c a ctx = require_run_authority st caller c a ctx.
Proof. unfold require_run_authority. destruct c; [by rewrite reach_action_hide|done]. Qed.

Lemma list_runs_blind ctx q : same (list_runs ctx caller q).
Proof.
  unfold list_runs. apply blind_seq; [|intros rows; by apply blind_ret]. destruct q as [c|].
  - blind_tac. apply blind_lift; [apply require_run_authority_hide|]. intros _ _. blind_tac.
    by apply blind_ret.
  - blind_tac. by apply blind_ret.
Qed.

Lemma get_run_blind ctx i : same (get_run ctx caller i).
Proof.
  unfold get_run. blind_tac. apply blind_lift; [apply require_run_authority_hide|]. intros _ _.
  apply blind_lift; [done|]. intros ? _. by apply blind_ret.
Qed.

(** *** Handlers that write *)

Lemma item_write_blind u ctx t i headers body : same (item_write u ctx caller t i headers body).
Proof.
  unfold item_write. destruct (decide (i = id)) as [->|Hne].
  - assert (Hd : forall st0, unseen (pool st0) caller id ->
      item_write_read u ctx caller t id headers body st0 = (Err (deny_404 ctx), st0)).
    { intros st0 Hs. unfold item_write_read. run_m. unfold resolve, ok_or.
      destruct (registry st0 !! t) as [td|]; [|done]. by rewrite unseen_action. }
    unfold blind, mbind, m_bind. rewrite (Hd st Hun).
    by rewrite (Hd (hide_st id v st) (unseen_hide _ _ _ _ Hun)).
  - change (Other i id) in Hne. apply blind_seq.
    + unfold item_write_read. blind_tac. apply blind_seq; [|intros _; by apply blind_ret].
      case_decide; [|by apply blind_ret]. unfold blind, lift. cbn. done.
    + intros p. apply commutes. unfold item_write_commit. apply _.
Qed.

Lemma item_delete_blind ctx t i headers : same (item_delete ctx caller t i headers).
Proof. unfold item_delete. blind_tac. unseen_tac i. blind_tac. apply commutes. apply _. Qed.

Lemma add_member_blind ctx t i headers body : same (add_member ctx caller t i headers body).
Proof.
  unfold add_member. apply blind_seq; [unfold add_member_read; blind_tac; by apply blind_ret|].
  intros p. apply commutes. unfold add_member_commit. apply _.
Qed.

Lemma set_member_blind ctx t i m headers body : same (set_member ctx caller t i m headers body).
Proof. unfold set_member. blind_tac. apply commutes. apply _. Qed.

Lemma remove_member_blind ctx t i m : same (remove_member ctx caller t i m).
Proof.
  unfold remove_member. apply blind_seq; [|intros _; apply commutes; unfold remove_member_commit; apply _].
  unfold remove_member_read. blind_tac. apply blind_seq.
  - case_match; [by apply blind_ret|]. blind_tac. by apply blind_ret.
  - intros _. apply commutes. intros st1. apply blind_get; cbv beta zeta. exact (commutes_ensure _ _ _ _ st1).
Qed.

Lemma record_check_blind ctx t i n headers body : same (record_check ctx caller t i n headers body).
Proof. unfold record_check. blind_tac. apply commutes. apply _. Qed.

Lemma coll_create_blind ctx t headers body uuid : same (coll_create ctx caller t headers body uuid).
Proof.
  unfold coll_create. blind_tac. apply blind_seq.
  - case_decide; [|by apply blind_ret]. done.
  - intros _. rewrite read_only. blind_tac. apply blind_seq.
    + by apply insert_object_commutes; [|intros Hne; apply _].
    + intros _. apply commutes. apply _.
Qed.

Lemma create_type_blind ctx body : same (create_type ctx caller body).
Proof.
  unfold create_type. blind_tac. exfalso. destruct Hun. congruence.
Qed.

Lemma create_relation_blind ctx body uuid : same (create_relation ctx caller body uuid).
Proof.
  unfold create_relation. blind_tac. apply blind_bind; [apply _|]. intros _. apply commutes.
  apply commutes_bind; [apply _|]. intros _. intros st1. apply blind_query.
  apply blind_lift; [done|]. intros ? _. by apply blind_ret.
Qed.

Lemma delete_relation_blind ctx i : same (delete_relation ctx caller i).
Proof. unfold delete_relation. blind_tac. apply commutes. apply _. Qed.

Lemma start_run_blind ctx body uuid : same (start_run ctx caller body uuid).
Proof.
  unfold start_run. blind_tac. apply blind_lift; [apply require_run_authority_hide|]. intros _ _.
  apply commutes. repeat (apply commutes_bind; [apply _|intros ?]). intros st1.
  by apply blind_query, blind_ret.
Qed.

Lemma record_handoff_blind ctx i body : same (record_handoff ctx caller i body).
Proof.
  unfold record_handoff. apply blind_seq.
  - unfold handoff_read. blind_tac. apply blind_lift; [apply require_run_authority_hide|]. intros _ _.
    blind_tac. by apply blind_ret.
  - intros p. apply commutes. unfold handoff_commit.
    repeat (apply commutes_bind; [apply _|intros ?]). intros st2. by apply blind_query, blind_ret.
Qed.

Lemma run_connector_blind ctx i : same (run_connector ctx caller i).
Proof.
  destruct (decide (i = id)) as [->|Hne].
  - assert (Hd : forall st0, unseen (pool st0) caller id ->
      run_connector ctx caller id st0 = (Err (deny_404 ctx), st0)).
    { intros st0 Hs. unfold run_connector. run_m. destruct (select_data _ _ _); [|done].
      simpl. by rewrite unseen_reach_action. }
    unfold blind. rewrite (Hd st Hun). by rewrite (Hd (hide_st id v st) (unseen_hide _ _ _ _ Hun)).
  - change (Other i id) in Hne. unfold run_connector. blind_tac. apply commutes. apply commutes_bind; [|apply _].
    case_match; apply _.
Qed.

Lemma claim_admin_blind : same (claim_admin caller).
Proof. apply commutes. unfold claim_admin. apply _. Qed.

Lemma logout_blind : same (logout caller).
Proof. apply commutes. unfold logout. apply _. Qed.

Lemma echo_blind ctx hs body : same (echo ctx caller hs body).
Proof. apply commutes. unfold echo. apply _. Qed.

Lemma set_log_level_blind `{!FromSlice LevelInput} reload ctx body :
  same (set_log_level reload ctx caller body).
Proof.
  unfold set_log_level. blind_tac. apply commutes. case_match; apply _.
Qed.

(** *** Handlers without a caller *)

#[local] Instance mint_session_commutes a token uuid : Commutes id v (mint_session a token uuid).
Proof.
  unfold mint_session. apply _.
Qed.

Lemma dev_login_blind a token uuid : same (dev_login a token uuid).
Proof.
  unfold dev_login. blind_tac. apply blind_lift.
  { change (pool (hide_st id v st)) with (hide id v (pool st)). by rewrite select_actor_hide. }
  intros _ _. apply commutes. apply _.
Qed.

Lemma start_blind name uuid now_unix : same (start name uuid now_unix).
Proof. apply commutes. unfold start. apply _. Qed.

Lemma upsert_identity_blind provider sub email name uuid : same (upsert_identity provider sub email name uuid).
Proof.
  unfold upsert_identity. blind_tac. change (auth_identities (pool (hide_st id v st))) with
    (auth_identities (pool st)). case_match; [by apply blind_ret|]. apply blind_seq.
  - by apply insert_object_commutes; [|intros Hne; apply _].
  - intros _. by apply blind_ret.
Qed.

Lemma callback_blind name code state headers now_unix rnd :
  same (callback name code state headers now_unix rnd).
Proof.
  unfold callback, complete_login. blind_tac. apply blind_seq; [|intros cookie; by apply blind_ret].
  blind_tac. match goal with who : string * option string * string |- _ =>
    destruct who as [[sub email] nm] end.
  apply blind_seq; [apply upsert_identity_blind|]. intros actor. apply commutes. apply _.
Qed.
End Handlers.

Create HintDb blind discriminated.
#[export] Hint Constants Opaque : blind.
#[export] Hint Resolve coll_get_blind coll_head_blind coll_create_blind coll_options_blind
  m405_coll_blind item_get_blind item_head_blind item_write_blind item_delete_blind
  item_options_blind m405_item_blind list_members_blind add_member_blind set_member_blind
  remove_member_blind record_check_blind list_types_blind create_type_blind get_type_blind
  create_relation_blind list_relations_blind delete_relation_blind search_blind start_run_blind
  list_runs_blind get_run_blind record_handoff_blind run_connector_blind claim_admin_blind
  logout_blind dev_login_blind start_blind callback_blind echo_blind set_log_level_blind
  blind_fail : blind.

#[export] Instance from_request_parts_commutes `{Postgres, Sha2} id v headers :
  Commutes id v (from_request_parts headers).
Proof.
  intros st. unfold from_request_parts. apply blind_lift; [done|]. intros token _. apply blind_get.
  apply blind_lift; [|intros row _; by apply blind_ret].
  change (pool (hide_st id v st)) with (hide id v (pool st)). by rewrite live_sessions_hide.
Qed.

(** ** Every request *)

Section Server.
Context `{SerdeJson, Postgres, !FromSlice TypeSpec, !FromSlice RelInput, !FromSlice StartInput}.
Context `{!FromSlice HandoffInput, !FromSlice LevelInput, Reqwest, Env, Hmac, Jwt, Sha2, Build}.
Context `{UrlParams, FullText, HttpCrate, Deployment, Framework}.
Variables (id : string) (v : Value).

Lemma exec_blind fr ctx rq caller e st :
  is_Some (entities (pool st) !! id) -> unseen (pool st) caller id ->
  blind id v (exec fr ctx rq caller e) (exec fr ctx rq caller e) st.
Proof.
  intros Hid Hun. destruct e; cbn [exec]; unfold item_put, item_patch; auto with blind.
Qed.

Lemma exec_public_blind fr ctx rq e st :
  is_Some (entities (pool st) !! id) -> blind id v (exec_public fr ctx rq e) (exec_public fr ctx rq e) st.
Proof.
  intros Hid. destruct e; cbn [exec_public]; auto with blind; by apply blind_ret.
Qed.

(** Whoever a request speaks for does not see the object. *)
Definition keeps_out (p : Process) (rq : HttpRequest) : Prop :=
  forall caller, from_request_parts (rq_headers rq) (app p) = (Ok caller, app p) ->
    unseen (pool (app p)) caller id.

Lemma handle_blind fr ctx rq e p :
  is_Some (entities (pool (app p)) !! id) -> keeps_out p rq ->
  blind id v (handle fr ctx rq e) (handle fr ctx rq e) (app p).
Proof.
  intros Hid Hout. unfold handle. destruct (is_public e); [by apply exec_public_blind|].
  pose proof (read_only (m := from_request_parts (rq_headers rq)) (app p)) as Hro.
  unfold blind, mbind, m_bind. rewrite (from_request_parts_commutes id v _ (app p)).
  unfold keeps_out in Hout. destruct (from_request_parts (rq_headers rq) (app p)) as [[caller|er] st] eqn:Hf;
    simpl in Hro; subst; [|done]. simpl. apply exec_blind; [done|]. by apply Hout.
Qed.

(** The same process with the content of the object replaced. *)
Definition hide_process (p : Process) : Process := mkProcess (hide_st id v (app p)) (buckets p).

Lemma respond_blind fr rq p ctx :
  is_Some (entities (pool (app p)) !! id) -> keeps_out p rq ->
  respond fr rq (hide_process p) ctx = ((respond fr rq p ctx).1, hide_process (respond fr rq p ctx).2).
Proof.
  intros Hid Hout. unfold respond. destruct (route _ _) as [| |e]; [done..|].
  pose proof (handle_blind fr ctx rq e p Hid Hout) as Hb. unfold blind in Hb.
  unfold limited. destruct (is_limited e).
  - cbn [buckets hide_process]. destruct (enforce _ _ _ _ _) as [[er|] b]; [done|]. cbn [app hide_process].
    rewrite Hb. by destruct (handle fr ctx rq e (app p)).
  - cbn [app hide_process]. rewrite Hb. by destruct (handle fr ctx rq e (app p)).
Qed.

Lemma serve_http_blind fr rq p :
  is_Some (entities (pool (app p)) !! id) -> keeps_out p rq ->
  serve_http fr rq (hide_process p) = ((serve_http fr rq p).1, hide_process (serve_http fr rq p).2).
Proof.
  intros Hid Hout. unfold serve_http. destruct (cors_preflight _ _); [done|].
  pose proof (fun ctx => respond_blind fr rq p ctx Hid Hout) as E. unfold request_id_layer.
  revert E. generalize (respond fr rq p) (respond fr rq (hide_process p)). intros run run' E. cbv zeta.
  by rewrite E.
Qed.

(** The object outlives the requests of those who do not see it. *)
Lemma entity_stays fr rq p :
  is_Some (entities (pool (app p)) !! id) -> keeps_out p rq ->
  is_Some (entities (pool (app (serve_http fr rq p).2)) !! id).
Proof.
  intros Hid Hout. destruct (serve_http_untouched fr rq p id) as [Hk|(e & caller & [Hroute Hs] & Hl)].
  { by rewrite (kp_entity _ _ _ (Hk Hid)). }
  destruct (serve_http_app fr rq p) as [->|(e' & ctx & Hroute' & ->)]; [done|].
  assert (e' = e) as -> by congruence.
  pose proof (unseen_rank _ _ _ (Hout _ Hs)) as Hr. destruct (Hout _ Hs) as [Ha _].
  assert (Hno : forall min, ~ holds_rank (pool (app p)) caller id min)
    by (intros min [?|Hm]; [congruence|by rewrite Hr in Hm]).
  assert (e = ClaimAdmin) as -> by (destruct e; try done; exfalso; by eapply Hno, Hl).
  destruct (handle_touches fr ctx rq ClaimAdmin (app p)) as [Ht _].
  assert (Hn : Tentities ∉ footprint ClaimAdmin) by (cbn; set_solver).
  specialize (Ht Tentities Hn). cbn [same_table] in Ht. rewrite Ht. exact Hid.
Qed.
End Server.

Section Runs.
Context `{SerdeJson, Postgres, !FromSlice TypeSpec, !FromSlice RelInput, !FromSlice StartInput}.
Context `{!FromSlice HandoffInput, !FromSlice LevelInput, Reqwest, Env, Hmac, Jwt, Sha2, Build}.
Context `{UrlParams, FullText, HttpCrate, Deployment, Framework}.

(** What a run of the server answers. *)
Fixpoint answers (rqs : list (Fresh * HttpRequest)) (p : Process) : list Response :=
  match rqs with
  | [] => []
  | r :: rest => (serve_http r.1 r.2 p).1 :: answers rest (serve_http r.1 r.2 p).2
  end.

(** C1 What a caller cannot see has no influence on what they get. In any run of the server in which
    no request is made by somebody who is an admin or whose reach has the object, replacing the
    content of the object (of any type but an actor) changes no answer, not its status, its
    headers or its body: not of the object's own endpoints, of lists, searches, relations or runs,
    nor of writes and their errors; and the run leaves the same store but for that content. *)
Theorem unseen_leaves_no_trace id v rqs p :
  is_Some (entities (pool (app p)) !! id) ->
  (forall before fr rq after, rqs = before ++ (fr, rq) :: after ->
     keeps_out id (serve_all before p) rq) ->
  answers rqs (hide_process id v p) = answers rqs p /\
  serve_all rqs (hide_process id v p) = hide_process id v (serve_all rqs p).
Proof.
  revert p. induction rqs as [|[fr rq] rqs IH]; intros p Hid Hout; [done|].
  assert (Hone : keeps_out id p rq) by exact (Hout [] fr rq rqs eq_refl).
  unfold serve_all. cbn [answers fold_left fst snd].
  rewrite serve_http_blind by done. cbn [fst snd].
  destruct (IH (serve_http fr rq p).2) as [E1 E2]; [by apply entity_stays| |by rewrite E1].
  intros before fr' rq' after ->. exact (Hout ((fr, rq) :: before) fr' rq' after eq_refl).
Qed.
End Runs.
