(* ===== verification/Invariants.v ===== *)
(** * Invariants of the running server

    Requests are served one at a time here ([Interleaving] and the files after it have them
    interleaved). Each invariant is shown to hold across every request of every endpoint: by the footprint
    where an endpoint does not write the tables it speaks of, by the rules of the statements
    where it does, and by the component's lemmas for the requests whose checks it needs. *)

From S2P Require Import Prelude RustStr Encoding Config Json AppError Closure Schema Registry.
From S2P Require Import Workflow State Rbac Caller FieldPerms Objects Fixture ObjectHandlers.
From S2P Require Import ObjectProps Lifecycle RbacProps Members MemberProps Orchestrator Pipeline.
From S2P Require Import Types TypeProps Relations HttpClient Connectors Auth OAuth RateLimit.
From S2P Require Import Platform Search Steps CaseFlow Server ServerProps Footprint.

Local Open Scope Z_scope.

(** ** Invariants, and the tables they speak of *)

Definition holds (I : AppState -> Prop) : relation AppState := fun st st' => I st -> I st'.
#[export] Instance holds_preorder I : PreOrder (holds I).
Proof. split; [by intros ? ?|]. intros x y z H1 H2 H. by apply H2, H1. Qed.

(** [I] does not depend on the tables of [T]. *)
Class Independent (I : AppState -> Prop) (T : list Table) : Prop :=
  independent : forall st st', touches T st st' -> holds I st st'.

#[export] Instance holds_frame {A} I T (m : M A) :
  Independent I T -> Respects (touches T) m -> Respects (holds I) m | 20.
Proof. intros HI Hm st. apply HI, Hm. Qed.
#[export] Instance sql_holds_frame {A} I T (m : SqlM A) :
  Independent I T -> SqlRespects (touches T) m -> SqlRespects (holds I) m | 20.
Proof. intros HI Hm st a db Hr. apply HI. by eapply Hm. Qed.

#[export] Instance ignore_holds {A} I (m : M A) :
  Respects (holds I) m -> Respects (holds I) (ignore m).
Proof. intros Hm st. apply Hm. Qed.

(** ** Objects conform to their types *)

(** The types whose data the server itself stamps. *)
Definition stamped : list string := ["actor"; "connector"].

Record conformant (st : AppState) : Prop := {
  cf_registry : registry_coherent st;
  cf_fields : fields_fk (pool st);
  cf_ordinals : ordinals_distinct (pool st);
  cf_typed : forall id row, entity_data (pool st) !! id = Some row ->
    is_Some (type_definitions (pool st) !! d_type_id row);
  cf_data : forall id row td, entity_data (pool st) !! id = Some row -> d_type_id row ∉ stamped ->
    registry st !! d_type_id row = Some td -> validate_final td (d_data row) = Ok tt }.

Definition not_types : list Table :=
  [Tentities; Tmemberships; Tcases; Tchecks; Trelations; Truns; Thandoffs; Tsessions; Tidentities; Tevents].

#[export] Instance conformant_independent : Independent conformant not_types.
Proof.
  intros st st' [Ht _] [H1 H2 H3 H4 H5].
  assert (E1 : type_definitions (pool st') = type_definitions (pool st)) by (apply (Ht Ttypes); set_solver).
  assert (E2 : type_fields (pool st') = type_fields (pool st)) by (apply (Ht Tfields); set_solver).
  assert (E3 : entity_data (pool st') = entity_data (pool st)) by (apply (Ht Tdata); set_solver).
  assert (E4 : registry st' = registry st) by (apply (Ht Tregistry); set_solver).
  constructor; unfold registry_coherent, fields_fk, ordinals_distinct in *;
    rewrite ?E1, ?E2, ?E3, ?E4; try done.
  rewrite H1. by apply load_ext.
Qed.

(** Only the objects change: each row of the new table is allowed by the types. *)
Lemma conformant_data st x :
  conformant st ->
  (forall id row, x !! id = Some row ->
     is_Some (type_definitions (pool st) !! d_type_id row) /\
     (d_type_id row ∉ stamped -> forall td, registry st !! d_type_id row = Some td ->
        validate_final td (d_data row) = Ok tt)) ->
  conformant (set_pool (set_entity_data x (pool st)) st).
Proof.
  intros [H1 H2 H3 H4 H5] Hx. constructor; try done.
  - intros id row Hrow. by eapply Hx.
  - intros id row td Hrow Hty Htd. by eapply Hx.
Qed.

Lemma conformant_insert st id row :
  conformant st -> is_Some (type_definitions (pool st) !! d_type_id row) ->
  (d_type_id row ∉ stamped -> forall td, registry st !! d_type_id row = Some td ->
     validate_final td (d_data row) = Ok tt) ->
  conformant (set_pool (set_entity_data (<[id := row]> (entity_data (pool st))) (pool st)) st).
Proof.
  intros Hc Hty Hval. apply conformant_data; [done|]. intros i r Hr.
  apply lookup_insert_Some in Hr as [[<- <-]|[_ Hr]]; [done|].
  split; [by eapply cf_typed|]. intros Hn td Htd. by eapply cf_data.
Qed.

Section Conformant.
Context `{SerdeJson, Postgres}.

#[export] Instance delete_object_conformant id t v : SqlRespects (holds conformant) (delete_object id t v).
Proof.
  intros st n db [[_ ->]|(_ & row & _ & _ & _ & _ & ->)]%delete_object_ok; [by rewrite set_pool_id|].
  intros Hc.
  assert (H1 : conformant (set_pool (set_entity_data
    (cascade_data id <$> delete id (entity_data (pool st))) (pool st)) st)).
  { apply conformant_data; [done|]. intros i r. rewrite lookup_fmap_Some.
    intros (r0 & <- & [_ Hr]%lookup_delete_Some). simpl. split; [by eapply cf_typed|].
    intros Hn td Htd. by eapply cf_data. }
  eapply (conformant_independent _ _); [|exact H1]. same_tac.
Qed.

#[export] Instance stamp_run_conformant id s : SqlRespects (holds conformant) (stamp_run id s).
Proof.
  intros st v db (row & m & Hrow & Hty & _ & _ & _ & ->)%stamp_run_ok Hc.
  apply conformant_insert; simpl; [done| |intros Hn; exfalso; apply Hn; set_solver].
  rewrite <- Hty. by eapply cf_typed.
Qed.

#[export] Instance claim_update_conformant a : SqlRespects (holds conformant) (claim_update a).
Proof.
  intros st n db. unfold claim_update. destruct (select_data a "actor" (pool st)) as [row|] eqn:Hrow;
    [|intros [= _ <-]; by rewrite set_pool_id].
  apply select_data_Some in Hrow as [Hrow Hty].
  case_decide; [intros [= _ <-]; by rewrite set_pool_id|].
  destruct (jsonb_set _ _ _) as [data|]; [|done]. intros [= _ <-] Hc.
  apply conformant_insert; simpl; [done| |intros Hn; exfalso; apply Hn; set_solver].
  rewrite <- Hty. by eapply cf_typed.
Qed.

#[export] Instance insert_actor_conformant id data sp :
  SqlRespects (holds conformant) (insert_data id "actor" data sp).
Proof.
  intros st x db (_ & _ & Hty & _ & ->)%insert_data_ok Hc.
  apply conformant_insert; simpl; [done..|intros Hn; exfalso; apply Hn; set_solver].
Qed.

(** The registered descriptor of a type carries the type's own name. *)
Lemma registry_type_id st t td : registry_coherent st -> registry st !! t = Some td -> TypeDef.type_id td = t.
Proof.
  intros ->. rewrite load_lookup. intros (row & _ & ->)%fmap_Some. done.
Qed.

Lemma coll_create_conformant ctx caller t headers body uuid :
  Respects (holds conformant) (coll_create ctx caller t headers body uuid).
Proof.
  intros st Hc. destruct (coll_create ctx caller t headers body uuid st) as [[r|e] st'] eqn:Hr;
    [|by apply coll_create_err in Hr as ->].
  apply coll_create_ok in Hr as (td & payload & db & evs & Hck & Ht & -> & _). simpl.
  destruct Hck as (Htd & _ & _ & Hval & _).
  apply create_txn_ok in Ht as (label & cs & _ & _ & Hty & _ & _ & _ & -> & _).
  eapply (conformant_independent (set_pool (set_entity_data _ (pool st)) st)); [same_tac|].
  apply conformant_insert; simpl; [done..|]. intros _ td' Htd'. by assert (td' = td) as -> by congruence.
Qed.

Lemma item_write_conformant u ctx caller t id headers body :
  Respects (holds conformant) (item_write u ctx caller t id headers body).
Proof.
  intros st Hc. destruct (item_write u ctx caller t id headers body st) as [res st'] eqn:Hr.
  unfold item_write, mbind, m_bind in Hr.
  destruct (item_write_read u ctx caller t id headers body st) as [[p|e] st1] eqn:Hread;
    [|injection Hr as _ <-; by apply read_only_run in Hread as ->; [|apply _]].
  apply item_write_read_ok in Hread as [-> (row0 & payload & Hck)].
  destruct Hck as (Htd & _ & _ & _ & _ & _ & _ & _ & Hval & _).
  apply item_write_commit_any in Hr as [->|(row & evs & cs & Hsel & _ & _ & ->)]; [done|].
  apply select_data_Some in Hsel as [Hrow Hty]. simpl.
  eapply (conformant_independent (set_pool (set_entity_data _ (pool st)) st)); [same_tac|].
  apply conformant_insert; simpl; [done|rewrite <- Hty; by eapply cf_typed|].
  intros _ td' Htd'. by assert (td' = p_td p) as -> by congruence.
Qed.

(** A registration keeps the ordinals of every type distinct. *)
Lemma create_type_ordinals spec db x db' :
  fields_fk db -> ordinals_distinct db -> create_type_txn spec db = Ok (x, db') -> ordinals_distinct db'.
Proof.
  intros H2 H3 (Hnone & Hnd & Hl & Hdb)%create_type_txn_ok.
  intros t f1 f2 r1 r2 [Hr1|Hr1]%Hl [Hr2|Hr2]%Hl Ho; simpl in *.
  - apply field_entries_spec in Hr1 as (-> & i & g & Hg & Hf1 & Hr1).
    apply field_entries_spec in Hr2 as (_ & j & g' & Hg' & Hf2 & Hr2).
    rewrite Hr1, Hr2 in Ho. simpl in Ho. assert (i = j) as -> by lia. congruence.
  - apply field_entries_spec in Hr1 as (-> & _). destruct (H2 (ts_type_id spec) f2); [by eexists|congruence].
  - apply field_entries_spec in Hr2 as (-> & _). destruct (H2 (ts_type_id spec) f1); [by eexists|congruence].
  - by eapply H3.
Qed.

Lemma create_type_conformant `{!FromSlice TypeSpec} ctx caller body :
  Respects (holds conformant) (create_type ctx caller body).
Proof.
  intros st Hc. destruct (create_type ctx caller body st) as [[r|e] st'] eqn:Hr;
    [|by apply create_type_err in Hr as ->].
  destruct Hc as [H1 H2 H3 H4 H5].
  apply create_type_ok in Hr as (spec & db & evs & _ & _ & _ & Ht & ->). simpl.
  destruct (create_type_registry _ _ _ _ H2 H3 Ht) as [_ Hold].
  pose proof (create_type_ordinals _ _ _ _ H2 H3 Ht) as Hord.
  apply create_type_txn_ok in Ht as (Hnone & Hnd & Hl & Hdb).
  assert (Hdefs : type_definitions db = <[ts_type_id spec := spec_row spec]> (type_definitions (pool st)))
    by (rewrite Hdb; done).
  assert (Hdata : entity_data db = entity_data (pool st)) by (rewrite Hdb; done).
  constructor; simpl.
  - done.
  - intros t f [r' Hr']. simpl in *. rewrite Hdefs, lookup_insert_is_Some'.
    apply Hl in Hr' as [Hin|Hin]; simpl in Hin; [left|right].
    { by apply field_entries_spec in Hin as (-> & _). }
    eapply H2. by eexists.
  - exact Hord.
  - intros id row. simpl. rewrite Hdata, Hdefs. intros Hrow. rewrite lookup_insert_is_Some'. right. by eapply H4.
  - intros id row td. simpl. rewrite Hdata. intros Hrow Hn Htd.
    assert (d_type_id row <> ts_type_id spec).
    { intros E. destruct (H4 _ _ Hrow) as [y Hy]. rewrite E in Hy. congruence. }
    rewrite Hold in Htd by done. eapply H5; [done|done|]. by rewrite H1.
Qed.
End Conformant.

(** ** Teams do not nest in cycles *)

Record teams_ok (st : AppState) : Prop := {
  to_data : forall id, is_Some (entity_data (pool st) !! id) -> is_Some (entities (pool st) !! id);
  to_members : forall o m, is_Some (memberships (pool st) !! (o, m)) ->
    is_Some (entities (pool st) !! o) /\ is_Some (entities (pool st) !! m);
  to_acyclic : team_acyclic (pool st) }.

Definition not_teams : list Table :=
  [Ttypes; Tfields; Tcases; Tchecks; Trelations; Truns; Thandoffs; Tsessions; Tidentities; Tevents;
   Tregistry].

(** The edges of [st'] are edges of [st], and its members and objects are entities. *)
Lemma teams_ok_sub st st' :
  (forall id, is_Some (entity_data (pool st') !! id) -> is_Some (entities (pool st') !! id)) ->
  (forall o m, is_Some (memberships (pool st') !! (o, m)) ->
     is_Some (entities (pool st') !! o) /\ is_Some (entities (pool st') !! m)) ->
  (forall p o, team_edge (pool st') p o -> team_edge (pool st) p o) ->
  teams_ok st -> teams_ok st'.
Proof. intros Hd Hm He [_ _ Ha]. constructor; [done..|]. by eapply team_acyclic_sub. Qed.

#[export] Instance teams_ok_independent : Independent teams_ok not_teams.
Proof.
  intros st st' [Ht _] Hok.
  assert (E1 : memberships (pool st') = memberships (pool st)) by (apply (Ht Tmemberships); set_solver).
  assert (E2 : entities (pool st') = entities (pool st)) by (apply (Ht Tentities); set_solver).
  assert (E3 : entity_data (pool st') = entity_data (pool st)) by (apply (Ht Tdata); set_solver).
  eapply teams_ok_sub; [| | |exact Hok].
  - rewrite E2, E3. apply Hok.
  - rewrite E1, E2. apply Hok.
  - unfold team_edge, is_team. by rewrite E1, E2.
Qed.

(** Only the objects change, and no object is added that is not an entity. *)
Lemma teams_ok_data st x :
  (forall id, is_Some (x !! id) -> is_Some (entities (pool st) !! id)) ->
  holds teams_ok st (set_pool (set_entity_data x (pool st)) st).
Proof. intros Hx Hok. apply (teams_ok_sub st); [exact Hx|apply Hok|done|done]. Qed.

Lemma teams_ok_insert_data st id row :
  is_Some (entities (pool st) !! id) ->
  holds teams_ok st (set_pool (set_entity_data (<[id := row]> (entity_data (pool st))) (pool st)) st).
Proof.
  intros Hid Hok. apply teams_ok_data; [|done]. intros i [<-|Hi]%lookup_insert_is_Some'; [done|].
  by apply (to_data _ Hok).
Qed.

Section Teams.
Context `{SerdeJson, Postgres}.

#[export] Instance insert_entity_teams id t by_ : SqlRespects (holds teams_ok) (insert_entity id t by_).
Proof.
  intros st x db (Hnone & _ & ->)%insert_entity_ok Hok. pose proof (to_members _ Hok) as Hm.
  eapply teams_ok_sub; [| | |exact Hok]; cbn.
  - intros i Hi. apply lookup_insert_is_Some'. right. by apply (to_data _ Hok).
  - intros o m Hs. apply Hm in Hs as [Ho Hm']. split; apply lookup_insert_is_Some'; by right.
  - intros p o [Hs Hte]. split; [done|]. unfold is_team in *. cbn in Hte.
    apply Hm in Hs as [[e He] _]. rewrite lookup_insert_ne in Hte; [done|]. intros ->. cbn in He. congruence.
Qed.

#[export] Instance insert_data_teams id t data sp : SqlRespects (holds teams_ok) (insert_data id t data sp).
Proof. intros st x db (_ & Hid & _ & _ & ->)%insert_data_ok. by apply teams_ok_insert_data. Qed.

#[export] Instance update_data_teams id t data sp v : SqlRespects (holds teams_ok) (update_data id t data sp v).
Proof.
  intros st x db [[_ ->]|(_ & row & Hrow & _ & _ & _ & _ & ->)]%update_data_ok Hok; [by rewrite set_pool_id|].
  apply teams_ok_insert_data; [|done]. apply (to_data _ Hok). by eexists.
Qed.

#[export] Instance stamp_run_teams id s : SqlRespects (holds teams_ok) (stamp_run id s).
Proof.
  intros st v db (row & m & Hrow & _ & _ & _ & _ & ->)%stamp_run_ok Hok.
  apply teams_ok_insert_data; [|done]. apply (to_data _ Hok). by eexists.
Qed.

#[export] Instance claim_update_teams a : SqlRespects (holds teams_ok) (claim_update a).
Proof.
  intros st n db. unfold claim_update. destruct (select_data a "actor" (pool st)) as [row|] eqn:Hrow;
    [|intros [= _ <-]; by rewrite set_pool_id].
  apply select_data_Some in Hrow as [Hrow Hty].
  case_decide; [intros [= _ <-]; by rewrite set_pool_id|].
  destruct (jsonb_set _ _ _) as [data|]; [|done]. intros [= _ <-] Hok.
  apply teams_ok_insert_data; [|done]. apply (to_data _ Hok). by eexists.
Qed.

#[export] Instance delete_object_teams id t v : SqlRespects (holds teams_ok) (delete_object id t v).
Proof.
  intros st n db [[_ ->]|(_ & row & _ & _ & _ & _ & ->)]%delete_object_ok Hok; [by rewrite set_pool_id|].
  eapply teams_ok_sub; [| | |exact Hok]; cbn.
  - intros i. rewrite lookup_fmap, fmap_is_Some. intros [x [Hne Hx]%lookup_delete_Some].
    rewrite lookup_delete_ne by done. apply (to_data _ Hok). by eexists.
  - intros o m [x [Hs [Ho Hm]]%map_lookup_filter_Some].
    destruct (to_members _ Hok o m) as [He1 He2]; [by eexists|]. by rewrite !lookup_delete_ne.
  - intros p o [[x [Hs _]%map_lookup_filter_Some] Hte]. split; [by eexists|].
    unfold is_team in *. cbn in Hte. apply fmap_Some in Hte as (e & He & Hty).
    apply lookup_delete_Some in He as [_ He]. by rewrite He, Hty.
Qed.

#[export] Instance update_membership_teams o m r c :
  SqlRespects (holds teams_ok) (update_membership o m r c).
Proof.
  intros st x db Hr Hok. unfold update_membership in Hr.
  destruct (memberships (pool st) !! (o, m)) as [old|] eqn:Hold;
    [|injection Hr as _ <-; by rewrite set_pool_id].
  destruct (fk_ok _ _); [|done]. injection Hr as _ <-.
  assert (Hsame : forall k (y : MemberRow), is_Some (<[(o, m) := y]> (memberships (pool st)) !! k) ->
    is_Some (memberships (pool st) !! k)).
  { intros k y [<-|Hs]%lookup_insert_is_Some'; [by eexists|done]. }
  eapply teams_ok_sub; [| | |exact Hok]; cbn.
  - apply Hok.
  - intros o' m' Hs. apply (to_members _ Hok). by eapply Hsame.
  - intros p o' [Hs Hte]. cbn in Hs. split; [by eapply Hsame|done].
Qed.

#[export] Instance delete_membership_teams o m : SqlRespects (holds teams_ok) (delete_membership o m).
Proof.
  intros st x db [= _ <-] Hok. eapply teams_ok_sub; [| | |exact Hok]; cbn.
  - apply Hok.
  - intros o' m' [y [_ Hs]%lookup_delete_Some]. apply (to_members _ Hok). by eexists.
  - intros p o' [[y Hs] Hte]. cbn in Hs. apply lookup_delete_Some in Hs as [_ Hs]. split; [by eexists|done].
Qed.

Lemma add_member_err ctx caller t id headers body st e st' :
  add_member ctx caller t id headers body st = (Err e, st') -> st' = st.
Proof.
  unfold add_member, add_member_commit. intros Hr.
  repeat (apply m_bind_err in Hr as [Hr|(? & ? & Hok' & Hr)];
    [ first [ apply read_only_run in Hr; [by subst|apply _] | by apply run_sql_err in Hr as -> ]
    | try (apply read_only_run in Hok' as ->; [|apply _]) ]).
  exfalso. apply m_bind_err in Hr as [Hr|(? & ? & _ & Hr)]; [by apply record_event_err in Hr|].
  by apply m_ret_err in Hr.
Qed.

#[export] Instance add_member_teams ctx caller t id headers body :
  Respects (holds teams_ok) (add_member ctx caller t id headers body).
Proof.
  intros st Hok. destruct (add_member ctx caller t id headers body st) as [[r|e] st'] eqn:Hr;
    [|by apply add_member_err in Hr as ->].
  assert (Hac : team_acyclic (pool st'))
    by (eapply (roster_keeps_acyclic ctx caller t id ""); [by left|apply Hok]).
  assert (Hm : exists m row evs, is_Some (entities (pool st) !! id) /\ is_Some (entities (pool st) !! m) /\
    pool st' = set_events evs (set_memberships (<[(id, m) := row]> (memberships (pool st))) (pool st))).
  { unfold add_member, add_member_read, add_member_commit in Hr. inv_m.
    match goal with He : record_event _ _ _ _ _ _ = _ |- _ => apply record_event_ok in He as [evs ->] end.
    match goal with Hu : upsert_membership _ _ _ _ = _ |- _ =>
      apply upsert_membership_ok in Hu as (? & ? & _ & ->) end.
    do 3 eexists. by split_and!. }
  destruct Hm as (m & row & evs & Hid & Hme & Hp). simpl. constructor; [..|done]; rewrite Hp; cbn; [apply Hok|].
  intros o m' [[= <- <-]|Hs]%lookup_insert_is_Some'; [done|]. by apply (to_members _ Hok).
Qed.

(** A new object has no edges but the one of its owner, which is not the object itself. *)
Lemma create_txn_teams td id t data sp actor st x db :
  create_txn td id t data sp actor (pool st) = Ok (x, db) -> is_Some (entities (pool st) !! actor) ->
  holds teams_ok st (set_pool db st).
Proof.
  intros Ht Hactor Hok. apply create_txn_ok in Ht as (label & cs & Hnone & _ & _ & _ & _ & _ & -> & _).
  pose proof (to_members _ Hok) as Hm. assert (Hne : actor <> id) by (intros ->; destruct Hactor; congruence).
  constructor; cbn.
  - intros i [<-|Hi]%lookup_insert_is_Some'; apply lookup_insert_is_Some'; [by left|right].
    by apply (to_data _ Hok).
  - intros o m [[= <- <-]|Hs]%lookup_insert_is_Some'.
    + split; apply lookup_insert_is_Some'; [by left|by right].
    + apply Hm in Hs as [? ?]. split; apply lookup_insert_is_Some'; by right.
  - set (db' := set_cases _ _).
    assert (Hsub : forall p o, team_edge db' p o -> add_edge (team_edge (pool st)) actor id p o).
    { intros p o [Hs Hte]. unfold db' in Hs. cbn in Hs.
      apply lookup_insert_is_Some' in Hs as [[= <- <-]|Hs]; [by right|]. left. split; [done|].
      unfold is_team in *. unfold db' in Hte. cbn in Hte. rewrite lookup_insert_ne in Hte; [done|].
      intros <-. apply Hm in Hs as [[y Hy] _]. congruence. }
    intros p o Hpo Hop. eapply (add_edge_acyclic (team_edge (pool st)) actor id);
      [apply Hok| |by apply Hsub|by eapply rtc_subrel].
    intros Hcyc. inversion Hcyc as [|? y ? [Hy _] _]; subst; [done|].
    apply Hm in Hy as [_ [e He]]. congruence.
Qed.

Lemma coll_create_teams ctx caller t headers body uuid st :
  is_Some (entities (pool st) !! Caller.actor_id caller) ->
  holds teams_ok st (coll_create ctx caller t headers body uuid st).2.
Proof.
  intros Hactor Hok. destruct (coll_create ctx caller t headers body uuid st) as [[r|e] st'] eqn:Hr;
    [|by apply coll_create_err in Hr as ->].
  apply coll_create_ok in Hr as (td & payload & db & evs & _ & Ht & -> & _). simpl.
  apply (create_txn_teams _ _ _ _ _ _ st) in Ht; [|done]. apply Ht in Hok.
  eapply (teams_ok_independent (set_pool db st)); [same_tac|done].
Qed.
End Teams.

(** ** The pipeline *)

Definition pipeline_inv (st : AppState) : Prop := pipeline_ok (pool st).

Definition not_runs : list Table :=
  [Ttypes; Tfields; Tentities; Tdata; Tmemberships; Tcases; Tchecks; Trelations; Tsessions;
   Tidentities; Tevents; Tregistry].

(** The same phases and statuses, and the same handoffs. *)
Lemma pipeline_ok_same db db' :
  role_handoffs db' = role_handoffs db ->
  (forall id, (fun r => (f_phase r, f_status r)) <$> feature_runs db' !! id
            = (fun r => (f_phase r, f_status r)) <$> feature_runs db !! id) ->
  pipeline_ok db -> pipeline_ok db'.
Proof.
  intros Eh Er [Hruns Hfk]. split.
  - intros id run Hrun. specialize (Er id). rewrite Hrun in Er. symmetry in Er.
    apply fmap_Some in Er as (run0 & Hrun0 & [= Eph Est]).
    destruct (Hruns _ _ Hrun0) as (r & Hreach & run1 & Hrun1 & Hph & Hst & Hh & Hk).
    exists r. split; [done|]. exists run. assert (run1 = run0) as -> by congruence.
    unfold handoffs_of in *. rewrite Eh. split_and!; congruence.
  - intros h Hin. rewrite Eh in Hin. apply Hfk in Hin as [x Hx]. specialize (Er (h_feature_run_id h)).
    rewrite Hx in Er. apply fmap_is_Some with (f := fun r => (f_phase r, f_status r)). rewrite Er. by eexists.
Qed.

#[export] Instance pipeline_independent : Independent pipeline_inv not_runs.
Proof.
  intros st st' [Ht _]. unfold holds, pipeline_inv. apply pipeline_ok_same.
  - apply (Ht Thandoffs). set_solver.
  - assert (E : feature_runs (pool st') = feature_runs (pool st)) by (apply (Ht Truns); set_solver).
    intros id. by rewrite E.
Qed.

#[export] Instance delete_object_pipeline id t v : SqlRespects (holds pipeline_inv) (delete_object id t v).
Proof.
  intros st n db [[_ ->]|(_ & row & _ & _ & _ & _ & ->)]%delete_object_ok; [by rewrite set_pool_id|].
  unfold holds, pipeline_inv. apply pipeline_ok_same; [done|]. intros i. cbn. rewrite lookup_fmap.
  by destruct (feature_runs (pool st) !! i).
Qed.

Section Runs.
Context `{SerdeJson, Postgres, !FromSlice StartInput, !FromSlice HandoffInput}.

#[export] Instance start_run_pipeline ctx caller body uuid :
  Respects (holds pipeline_inv) (start_run ctx caller body uuid).
Proof. intros st Hok. by apply (runs_keep_pipeline ctx caller body st Hok). Qed.

#[export] Instance record_handoff_pipeline ctx caller id body :
  Respects (holds pipeline_inv) (record_handoff ctx caller id body).
Proof. intros st Hok. by apply (runs_keep_pipeline ctx caller body st Hok). Qed.
End Runs.

(** ** Cases follow their workflow *)

(** What the registration of the type [case] guarantees: its workflow is not writable. *)
Definition case_type_ok (st : AppState) : Prop :=
  exists td, registry st !! "case" = Some td /\ fields_nodup td /\
    forall f, TypeDef.field td "workflow_id" = Some f -> FieldDef.writable f = false.

(** Every case is in a state its workflow can reach from the initial one. *)
Definition cases_reachable (st : AppState) : Prop :=
  forall id row, entity_data (pool st) !! id = Some row -> d_type_id row = "case" ->
    exists wf, wf_cache st !! workflow_of (d_data row) = Some wf /\
      wf_reachable wf (status_of (d_data row)).

Record cases_ok (st : AppState) : Prop := {
  co_conformant : conformant st; co_type : case_type_ok st; co_cases : cases_reachable st }.

Definition not_cases : list Table :=
  [Tentities; Tmemberships; Tcases; Tchecks; Trelations; Truns; Thandoffs; Tsessions; Tidentities; Tevents].

#[export] Instance cases_independent : Independent cases_ok not_cases.
Proof.
  intros st st' Ht [Hc Hty Hca]. pose proof (conformant_independent _ _ Ht Hc) as Hc'.
  destruct Ht as [Ht (_ & _ & _ & Hwf)].
  assert (E3 : entity_data (pool st') = entity_data (pool st)) by (apply (Ht Tdata); set_solver).
  assert (E4 : registry st' = registry st) by (apply (Ht Tregistry); set_solver).
  constructor; [done| |].
  - unfold case_type_ok. by rewrite E4.
  - unfold cases_reachable. by rewrite E3, Hwf.
Qed.

(** A row that is replaced by one that is no case, or is a lawful one. *)
Lemma cases_ok_insert st id row :
  cases_ok st ->
  conformant (set_pool (set_entity_data (<[id := row]> (entity_data (pool st))) (pool st)) st) ->
  (d_type_id row = "case" -> exists wf, wf_cache st !! workflow_of (d_data row) = Some wf /\
     wf_reachable wf (status_of (d_data row))) ->
  cases_ok (set_pool (set_entity_data (<[id := row]> (entity_data (pool st))) (pool st)) st).
Proof.
  intros [_ Hty Hca] Hc Hrow. constructor; [done..|]. intros i r Hr Ht. cbn in Hr.
  apply lookup_insert_Some in Hr as [[<- <-]|[_ Hr]]; [by apply Hrow|by eapply Hca].
Qed.

Section Cases.
Context `{SerdeJson, Postgres}.
Hypothesis json_wf : forall b v, from_slice b = Ok v -> value_wf v.

#[export] Instance delete_object_cases id t v : SqlRespects (holds cases_ok) (delete_object id t v).
Proof.
  intros st n db Hr [Hc Hty Hca]. pose proof (delete_object_conformant _ _ _ _ _ _ Hr Hc) as Hc'.
  apply delete_object_ok in Hr as [[_ ->]|(_ & row & _ & _ & _ & _ & ->)]; [by rewrite set_pool_id|].
  constructor; [done..|]. intros i r Hr Ht. cbn in Hr. rewrite lookup_fmap in Hr.
  apply fmap_Some in Hr as (r0 & [_ Hr]%lookup_delete_Some & ->). exact (Hca i r0 Hr Ht).
Qed.

#[export] Instance stamp_run_cases id s : SqlRespects (holds cases_ok) (stamp_run id s).
Proof.
  intros st v db Hr Hok. pose proof (stamp_run_conformant _ _ _ _ _ Hr (co_conformant _ Hok)) as Hc'.
  apply stamp_run_ok in Hr as (row & m & _ & _ & _ & _ & _ & ->). by apply cases_ok_insert.
Qed.

#[export] Instance claim_update_cases a : SqlRespects (holds cases_ok) (claim_update a).
Proof.
  intros st n db Hr Hok. pose proof (claim_update_conformant _ _ _ _ Hr (co_conformant _ Hok)) as Hc'.
  unfold claim_update in Hr. destruct (select_data a "actor" (pool st)) as [row|] eqn:Hrow;
    [|injection Hr as _ <-; by rewrite set_pool_id].
  case_decide; [injection Hr as _ <-; by rewrite set_pool_id|].
  destruct (jsonb_set _ _ _) as [data|]; [|done]. injection Hr as _ <-. by apply cases_ok_insert.
Qed.

#[export] Instance insert_actor_cases id data sp : SqlRespects (holds cases_ok) (insert_data id "actor" data sp).
Proof.
  intros st x db Hr Hok. pose proof (insert_actor_conformant _ _ _ _ _ _ Hr (co_conformant _ Hok)) as Hc'.
  apply insert_data_ok in Hr as (_ & _ & _ & _ & ->). by apply cases_ok_insert.
Qed.

Lemma coll_create_cases ctx caller t headers body uuid :
  Respects (holds cases_ok) (coll_create ctx caller t headers body uuid).
Proof.
  intros st Hok. pose proof (coll_create_conformant ctx caller t headers body uuid st (co_conformant _ Hok)) as Hc'.
  destruct (coll_create ctx caller t headers body uuid st) as [[r|e] st'] eqn:Hr;
    [|by apply coll_create_err in Hr as ->].
  apply coll_create_ok in Hr as (td & payload & db & evs & Hck & Ht & -> & _). simpl in *.
  destruct Hck as (Htd & _ & _ & _ & Hcase & _).
  apply create_txn_ok in Ht as (label & cs & _ & _ & _ & _ & _ & _ & -> & _). destruct Hok as [Hc Hty Hca].
  constructor; [done..|]. intros i r' Hr' Ht'. cbn in Hr'.
  apply lookup_insert_Some in Hr' as [[<- <-]|[_ Hr']]; [|by eapply Hca]. simpl in *.
  rewrite (registry_type_id _ _ _ (cf_registry _ Hc) Htd) in Hcase.
  apply Hcase, validate_create_ok in Ht' as (wf & Hwf & _ & Hinit). exists wf. split; [done|].
  unfold status_of. rewrite Hinit. apply rtc_refl.
Qed.

Lemma item_write_cases u ctx caller t id headers body :
  Respects (holds cases_ok) (item_write u ctx caller t id headers body).
Proof.
  intros st Hok. pose proof (item_write_conformant u ctx caller t id headers body st (co_conformant _ Hok)) as Hc'.
  destruct (item_write u ctx caller t id headers body st) as [res st'] eqn:Hr.
  unfold item_write, mbind, m_bind in Hr.
  destruct (item_write_read u ctx caller t id headers body st) as [[p|e] st1] eqn:Hread;
    [|injection Hr as _ <-; by apply read_only_run in Hread as ->; [|apply _]].
  apply item_write_read_ok in Hread as [-> (row0 & payload & Hck)].
  destruct Hck as (Htd & _ & Hsel0 & _ & Hj & Hin & Hdata & _ & _ & _ & Hval). destruct Hok as [Hc Hty Hca].
  apply item_write_commit_any in Hr as [->|(row & evs & cs & Hsel & _ & _ & ->)]; [done|].
  assert (row0 = row) as -> by congruence. apply select_data_Some in Hsel as [Hrow Ht].
  constructor; [done..|]. intros i r Hr Hrt. cbn in Hr.
  apply lookup_insert_Some in Hr as [[<- <-]|[_ Hr]]; [|by eapply Hca]. simpl in *.
  rewrite (registry_type_id _ _ _ (cf_registry _ Hc) Htd) in Hval. specialize (Hval Hrt).
  apply validate_case_change_ok in Hval as (wf & Hwf & _ & Hmove & _). exists wf. split; [done|].
  destruct (get_str "status" (d_data row)) as [old|] eqn:Eold; [|rewrite Hmove; apply rtc_refl].
  destruct (Hca _ _ Hrow) as (wf' & Hwf' & Hreach); [congruence|].
  unfold status_of in Hreach at 1. rewrite Eold in Hreach. simpl in Hreach.
  assert (Hsame : workflow_of (p_data p) = workflow_of (d_data row)).
  { unfold workflow_of, get_str. rewrite Hdata. destruct Hty as (td & Htd' & Hnd & Hw).
    assert (Etd : p_td p = td) by congruence. rewrite Etd in *.
    unfold read_json in Hj. destruct (negb _) in Hj; [done|].
    destruct (from_slice body) as [v|] eqn:Ev; [|done].
    destruct (is_object v) eqn:Eo; [|done]. injection Hj as <-.
    rewrite candidate_preserves;
      [done|done|by eapply json_wf|done|done|intros f Hf; by apply Hw]. }
  rewrite Hsame in Hwf. assert (wf' = wf) as -> by congruence.
  destruct Hmove as [->|Hstep]; [done|]. unfold wf_reachable. by eapply rtc_r.
Qed.

Lemma create_type_cases `{!FromSlice TypeSpec} ctx caller body :
  Respects (holds cases_ok) (create_type ctx caller body).
Proof.
  intros st Hok. pose proof (create_type_conformant ctx caller body st (co_conformant _ Hok)) as Hc'.
  destruct (create_type ctx caller body st) as [[r|e] st'] eqn:Hr; [|by apply create_type_err in Hr as ->].
  destruct Hok as [[H1 H2 H3 H4 H5] (td & Htd & Hnd & Hw) Hca].
  apply create_type_ok in Hr as (spec & db & evs & _ & _ & _ & Ht & ->). simpl in *.
  destruct (create_type_registry _ _ _ _ H2 H3 Ht) as [_ Hold].
  apply create_type_txn_ok in Ht as (Hnone & _ & _ & Hdb). constructor; [done|..].
  - exists td. split; [|done]. cbn. rewrite Hold; [by rewrite <- H1|].
    intros E. rewrite H1, load_lookup in Htd. rewrite <- E in Hnone. by rewrite Hnone in Htd.
  - assert (Hdata : entity_data db = entity_data (pool st)) by (rewrite Hdb; done).
    intros i r0 Hr0 Hrt. cbn in Hr0. rewrite Hdata in Hr0. exact (Hca i r0 Hr0 Hrt).
Qed.
End Cases.

(** ** Every request keeps them *)

Section Server.
Context `{SerdeJson, Postgres, !FromSlice TypeSpec, !FromSlice RelInput, !FromSlice StartInput}.
Context `{!FromSlice HandoffInput, !FromSlice LevelInput, Reqwest, Env, Hmac, Jwt, Sha2, Build}.
Context `{UrlParams, FullText, HttpCrate, Deployment, Framework}.

(** An invariant that the handlers of all endpoints keep is kept by the server. *)
Lemma serve_all_holds (I : AppState -> Prop) rqs p :
  (forall fr ctx rq e, Respects (holds I) (handle fr ctx rq e)) ->
  I (app p) -> I (app (serve_all rqs p)).
Proof. intros Hh. apply (serve_all_respects (holds I)). intros fr rq ctx e _. apply Hh. Qed.

#[local] Existing Instances coll_create_conformant item_write_conformant create_type_conformant.
Lemma handle_conformant fr ctx rq e : Respects (holds conformant) (handle fr ctx rq e).
Proof.
  unfold handle. destruct e; cbn [is_public exec exec_public];
    try apply respects_bind; try apply _; respects_tac.
Qed.

Lemma handle_pipeline fr ctx rq e : Respects (holds pipeline_inv) (handle fr ctx rq e).
Proof.
  unfold handle. destruct e; cbn [is_public exec exec_public];
    try apply respects_bind; try apply _; respects_tac.
Qed.

(** The caller of a request is an actor of the store. *)
Lemma handle_teams fr ctx rq e : Respects (holds teams_ok) (handle fr ctx rq e).
Proof.
  unfold handle. destruct e; cbn [is_public exec exec_public];
    try (try apply respects_bind; try apply _; respects_tac; fail).
  intros st Hok. unfold mbind, m_bind.
  destruct (from_request_parts (rq_headers rq) st) as [[caller|er] st1] eqn:Hf.
  - apply from_request_parts_ok in Hf as (-> & sid & row & _ & _ & _ & Hactor).
    apply coll_create_teams; [|done]. by apply (to_data _ Hok).
  - by apply read_only_run in Hf as ->; [|apply _].
Qed.

Lemma handle_cases fr ctx rq e :
  (forall b v, from_slice b = Ok v -> value_wf v) ->
  Respects (holds cases_ok) (handle fr ctx rq e).
Proof.
  intros Hwf. pose proof (item_write_cases Hwf) as Hw. pose proof (coll_create_cases) as Hc.
  pose proof (@create_type_cases _ _) as Ht.
  unfold handle. destruct e; cbn [is_public exec exec_public];
    try apply respects_bind; try apply _; respects_tac.
Qed.

(** The same for whole servers that serve one request at a time, where the registry is moreover what
    a restart would load: from a conformant store, after any sequence of requests each object of a
    type other than actor and connector conforms to its type. (Under interleaving the conformance
    stays, [Interleaving.lawful_under_interleaving], but the registry may lag behind,
    [Interleaving.registry_swap_race].) *)
Theorem objects_always_conform rqs p :
  conformant (app p) ->
  let st := app (serve_all rqs p) in
  registry st = load (pool st) /\
  forall id row, entity_data (pool st) !! id = Some row ->
    exists td, registry st !! d_type_id row = Some td /\
      (d_type_id row ∉ stamped ->
       exists obj, d_data row = JObject obj /\ Forall (field_valid obj) (TypeDef.fields td)).
Proof.
  intros Hc st. assert (Hst : conformant st) by (apply serve_all_holds; [apply handle_conformant|done]).
  destruct Hst as [H1' H2' H3' H4' H5']. split; [done|]. intros id row Hrow.
  destruct (H4' _ _ Hrow) as [tr Htr].
  destruct (registry st !! d_type_id row) as [td|] eqn:Htd.
  - exists td. split; [done|]. intros Hn. by apply validate_final_ok, (H5' id).
  - rewrite H1', load_lookup, Htr in Htd. done.
Qed.

(** C15 Every case is where its workflow allows, always: if every case is in a state its workflow
    reaches from the initial one, then so it is after any requests, whatever they are and however
    they end. *)
Theorem cases_always_reachable rqs p :
  (forall b v, from_slice b = Ok v -> value_wf v) -> cases_ok (app p) ->
  let st := app (serve_all rqs p) in
  forall id row, entity_data (pool st) !! id = Some row -> d_type_id row = "case" ->
    exists wf, wf_cache st !! workflow_of (d_data row) = Some wf /\
      rtc (wf_step wf) (Workflow.initial wf) (status_of (d_data row)).
Proof.
  intros Hwf Hc st. assert (Hst : cases_ok st).
  { apply serve_all_holds; [|done]. intros fr ctx rq e. by apply handle_cases. }
  apply Hst.
Qed.

(** C24 Teams never nest in a cycle, as long as requests are served one at a time: from a store where
    memberships and objects refer to entities and no team is its own member through others, it stays
    so after any sequence of requests. (Two grants that overlap can close a cycle, see
    [MemberProps.team_cycle_race].) *)
Theorem teams_never_cycle rqs p :
  teams_ok (app p) ->
  forall t u, team_edge (pool (app (serve_all rqs p))) t u ->
    ~ rtc (team_edge (pool (app (serve_all rqs p)))) u t.
Proof. intros Hok. apply (to_acyclic _). apply serve_all_holds; [apply handle_teams|done]. Qed.

(** C25 When requests are served one at a time, every run of the agent pipeline is, after any
    sequence of them, in a state that the abstract machine reaches: its phase, its status and its
    handoffs are those of a legal history. The first store has to be such ([pipeline_ok]; one
    without runs is). Handoffs that overlap can leave the machine, see [Pipeline.hop_cap_race]. *)
Theorem pipeline_always rqs p id run :
  pipeline_ok (pool (app p)) ->
  feature_runs (pool (app (serve_all rqs p))) !! id = Some run ->
  exists r, Machine.reachable r /\ represents (pool (app (serve_all rqs p))) id r.
Proof.
  intros Hok. assert (Hst : pipeline_inv (app (serve_all rqs p)))
    by (apply serve_all_holds; [apply handle_pipeline|done]).
  apply Hst.
Qed.

(** C26 The circuit breaker holds of the whole server when requests are served one at a time. From
    a store without runs, after any sequence of requests, a run has at most 8 handoffs and at most
    3 failures on any gate; as long as it is active, fewer than 8 and fewer than 3, so the eighth
    handoff and the third failure close it; a closed run refuses every handoff, whoever sends it,
    and nothing changes; and a landed run was passed last by the coder, the reviewer and ops, in
    this order. *)
Theorem circuit_breaker rqs p id run :
  feature_runs (pool (app p)) = ∅ -> role_handoffs (pool (app p)) = [] ->
  let st := app (serve_all rqs p) in
  feature_runs (pool st) !! id = Some run ->
  (length (handoffs_of (pool st) id) <= 8)%nat /\
  (forall gate, count_fails (pool st) id gate <= 3) /\
  (f_status run = "active" -> (length (handoffs_of (pool st) id) < 8)%nat /\
     forall gate, count_fails (pool st) id gate < 3) /\
  (f_status run <> "active" -> forall ctx caller body, exists e,
     record_handoff ctx caller id body st = (Err e, st)) /\
  (f_status run = "landed" -> exists pre,
     (fun h => (h_role h, h_outcome h)) <$> handoffs_of (pool st) id =
       pre ++ [("coder", "pass"); ("reviewer", "pass"); ("ops", "pass")]).
Proof.
  intros Hruns Hhand st Hrun.
  assert (Hst : pipeline_inv st).
  { apply serve_all_holds; [apply handle_pipeline|]. apply no_runs_pipeline_ok; done. }
  destruct (pipeline_bounds _ _ _ Hst Hrun) as (H1' & H2' & H3' & H4').
  split_and!; [done..| |done]. intros Hclosed ctx caller body. by eapply closed_run_refuses.
Qed.
End Server.
