(* ===== verification/Installation.v ===== *)
(** * Installations

    From an empty database through any history of lives: starts that fail or succeed, restarts
    under other environments, requests and the passing of time. What the migrations write
    satisfies every invariant of the server, each life keeps them, and a restart finds the state
    the last life left. *)

From S2P Require Import Prelude RustStr Encoding Config Json AppError Closure Schema Registry.
From S2P Require Import Workflow State Rbac Caller FieldPerms Objects Fixture ObjectHandlers.
From S2P Require Import ObjectProps Lifecycle RbacProps Members MemberProps Orchestrator Pipeline.
From S2P Require Import Types TypeProps Migrations Relations HttpClient Connectors Auth OAuth.
From S2P Require Import RateLimit Platform Search Steps CaseFlow Server Boot ServerProps Footprint.
From S2P Require Import Invariants.

Local Open Scope Z_scope.

(** ** A fresh installation *)

(** The tables that no request writes, as the migrations leave them. *)
Record as_installed (db : Db) : Prop := {
  ai_roles : roles db = list_to_map [("viewer", 1); ("member", 2); ("admin", 3); ("owner", 4)];
  ai_overrides : field_permissions db = ∅;
  ai_workflows : workflows db = workflows (installed 0) }.

(** Everything the components keep, together. *)
Record sound (st : AppState) : Prop := {
  so_cases : cases_ok st;
  so_teams : teams_ok st;
  so_runs : pipeline_inv st;
  so_workflows : wf_cache st = load_workflows (pool st);
  so_installed : as_installed (pool st) }.

Lemma installed_ok t : run_scripts migrations (fresh t) = Ok (tt, installed t).
Proof.
  assert (Hok : is_ok (run_scripts migrations (fresh t)) = true) by (vm_compute; reflexivity).
  unfold installed. by destruct (run_scripts migrations (fresh t)) as [[[] db]|e].
Qed.
#[local] Opaque installed.

Lemma installed_principal t :
  entity_data (installed t) !! "USR_dev" = Some (mkDataRow "actor"
    (json_object [("display_name", JString "Dev"); ("handle", JString "dev");
       ("kind", JString "human"); ("platform_role", JString "admin");
       ("status", JString "active")]) None 1 t) /\
  (forall id, is_Some (entity_data (installed t) !! id) -> id = "USR_dev").
Proof.
  split; [by vm_compute|].
  assert (E : exists row, entity_data (installed t) = {[ "USR_dev" := row ]})
    by (eexists; vm_compute; reflexivity).
  destruct E as [row ->]. by intros id [x [<- _]%lookup_singleton_Some].
Qed.

Lemma installed_fields t : fields_fk (installed t).
Proof.
  assert (Hall : map_Forall (fun k (_ : TypeFieldRow) => is_Some (type_definitions (installed t) !! k.1))
            (type_fields (installed t))) by by_eval.
  intros ty f [r Hr]. exact (Hall (ty, f) r Hr).
Qed.

Lemma installed_ordinals t : ordinals_distinct (installed t).
Proof.
  assert (Hall : map_Forall (fun k1 r1 => map_Forall (fun k2 r2 =>
              k1.1 = k2.1 -> tf_ordinal r1 = tf_ordinal r2 -> k1.2 = k2.2)
            (type_fields (installed t))) (type_fields (installed t)))
    by by_eval.
  intros ty f1 f2 r1 r2 H1 H2. exact (Hall (ty, f1) r1 H1 (ty, f2) r2 H2 eq_refl).
Qed.

Lemma installed_actor t id row : entity_data (installed t) !! id = Some row -> d_type_id row = "actor".
Proof.
  intros Hrow. destruct (installed_principal t) as [Hdev Hid]. rewrite (Hid id) in Hrow by eauto.
  rewrite Hdev in Hrow. by injection Hrow as <-.
Qed.

Lemma installed_conformant t : conformant (boot (installed t)).
Proof.
  constructor.
  - done.
  - apply installed_fields.
  - apply installed_ordinals.
  - intros id row ->%installed_actor. by_eval.
  - intros id row td ->%installed_actor. intros Hn. exfalso. apply Hn. set_solver.
Qed.

Lemma installed_case_type t : case_type_ok (boot (installed t)).
Proof.
  assert (E : exists td, load (installed t) !! "case" = Some td /\
     bool_decide (NoDup (FieldDef.field <$> TypeDef.fields td)) &&
     match TypeDef.field td "workflow_id" with Some f => negb (FieldDef.writable f) | None => true end
     = true) by (eexists; split; vm_compute; reflexivity).
  destruct E as (td & Htd & [Hnd Hw]%andb_prop). exists td. split; [done|].
  split; [by apply bool_decide_eq_true in Hnd|]. intros f Hf. rewrite Hf in Hw. by apply negb_true_iff.
Qed.

(** A fresh installation is sound. *)
Lemma installed_sound t : sound (boot (installed t)).
Proof.
  constructor.
  - constructor; [apply installed_conformant|apply installed_case_type|].
    intros id row ->%installed_actor. done.
  - assert (Hm : memberships (installed t) = ∅) by (vm_compute; reflexivity).
    constructor; cbn [pool boot].
    + intros id ->%(proj2 (installed_principal t)). by_eval.
    + intros o m. rewrite Hm. intros [x []%lookup_empty_Some].
    + intros p q [Hs _]. rewrite Hm in Hs. destruct Hs as [x []%lookup_empty_Some].
  - assert (Hr : feature_runs (installed t) = ∅ /\ role_handoffs (installed t) = [])
      by (split; vm_compute; reflexivity).
    destruct Hr as [Hr Hh]. split; cbn [pool boot]; rewrite ?Hr, ?Hh.
    + intros id run []%lookup_empty_Some.
    + intros h []%elem_of_nil.
  - done.
  - constructor; vm_compute; reflexivity.
Qed.

(** *** The catalog *)

(** The specification that would register a type. *)
Definition spec_of (td : TypeDef.t) : TypeSpec :=
  mkTypeSpec (TypeDef.type_id td) (TypeDef.id_prefix td) (TypeDef.display_name td)
    (TypeDef.display_name_plural td) (TypeDef.scope_parents td)
    ((fun f => mkFieldSpec (FieldDef.field f) (FieldDef.label f) (FieldDef.kind f)
                 (FieldDef.required f) (FieldDef.editable f) (FieldDef.perm_class f)
                 (FieldDef.options f) (FieldDef.searchable f)) <$> TypeDef.fields td).

#[local] Instance app_error_eq_dec : EqDecision AppError.
Proof. solve_decision. Defined.

(** The answer of the validator for a seeded type. *)
Definition catalog_answer (id : string) : AppResult unit :=
  if String.eqb id "case" then Err (unprocessable "'type' is a reserved field name") else Ok tt.

(** C36 The builtin catalog obeys the rules of the registration: every type that the migrations
    seed would be accepted by the validator of POST /api/types next to the other ones, in
    particular its fields, options, references and scope parents are well formed and none of its
    creates is doomed to fail. The one exception is [case], whose field [type] has a reserved
    name. *)
Theorem catalog_valid `{SerdeJson} t id td :
  let reg := load (installed t) in
  reg !! id = Some td ->
  validate_spec (spec_of td) (delete id reg) = catalog_answer id.
Proof.
  intros reg Htd.
  assert (Hall : forallb (fun kv => match validate_spec (spec_of kv.2) (delete kv.1 reg), catalog_answer kv.1 with
      | Ok _, Ok _ => true | Err e, Err e' => bool_decide (e = e') | _, _ => false end)
      (map_to_list reg) = true) by (vm_compute; reflexivity).
  rewrite forallb_forall in Hall. specialize (Hall (id, td)). cbn [fst snd] in Hall.
  apply elem_of_map_to_list, list_elem_of_In in Htd. specialize (Hall Htd).
  destruct (validate_spec _ _) as [[]|e], (catalog_answer id) as [[]|e'];
    [reflexivity|discriminate Hall..|]. apply bool_decide_eq_true in Hall as ->. reflexivity.
Qed.

(** ** What a life keeps *)

Lemma sound_restart st : sound st -> boot (pool st) = st.
Proof.
  intros [[Hc _ _] _ _ Hw _]. unfold boot. rewrite <- Hw, <- (cf_registry _ Hc). by destruct st.
Qed.

(** The clock is not in the invariants. *)
Lemma tick_sound t st : sound st -> sound (set_pool (set_now t (pool st)) st).
Proof.
  intros [[[H1 H2 H3 H4 H5] Hty Hca] [T1 T2 T3] [R1 R2] Hw [I1 I2 I3]].
  assert (Hload : load (set_now t (pool st)) = load (pool st)) by by apply load_ext.
  constructor; [constructor; [constructor|..]|constructor|split|..].
  all: first [exact H2|exact H3|exact H4|exact H5|exact Hty|exact Hca|exact T1|exact T2|exact T3
             |exact R1|exact R2|exact Hw|by constructor|idtac].
  unfold registry_coherent. cbn [registry pool set_pool]. by rewrite Hload.
Qed.

Section Lives.
Context `{SerdeJson, Postgres, !FromSlice TypeSpec, !FromSlice RelInput, !FromSlice StartInput}.
Context `{!FromSlice HandoffInput, !FromSlice LevelInput, Reqwest, Hmac, Jwt, Sha2, Build}.
Context `{UrlParams, FullText, HttpCrate, Framework, Tracing, Migrator, Tower}.
Hypothesis json_wf : forall b v, from_slice b = Ok v -> value_wf v.

Lemma serve_sound `{Env, Deployment} fr rq p : sound (app p) -> sound (app (serve_http fr rq p).2).
Proof.
  intros [Hca Hte Hru Hwc [Hro Hov Hwo]].
  assert (Hfix : same_fixed (app p) (app (serve_http fr rq p).2)).
  { destruct (serve_http_app fr rq p) as [E|(e & ctx & _ & E)]; rewrite E; [by split_and!|].
    apply handle_touches. }
  destruct Hfix as (Er & Ef & Ew & Ec). constructor.
  - revert Hca. apply (serve_http_respects (holds cases_ok)). intros ctx e. by apply handle_cases.
  - revert Hte. apply (serve_http_respects (holds teams_ok)). intros ctx e. apply handle_teams.
  - revert Hru. apply (serve_http_respects (holds pipeline_inv)). intros ctx e. apply handle_pipeline.
  - unfold load_workflows. by rewrite Ec, Ew, Hwc.
  - constructor; congruence.
Qed.

Lemma life_sound l x : sound (app (st_process x)) -> sound (app (serve_life l x)).
Proof.
  unfold serve_life. generalize (heard (l_signals l) (l_stimuli l)) as xs.
  generalize (st_process x) as p. intros p xs. revert p.
  induction xs as [|[fr rq|t] xs IH]; intros p Hp; [done|..]; cbn [fold_left]; apply IH; cbn [stimulate].
  - by apply serve_sound.
  - by apply tick_sound.
Qed.

(** *** The migrations *)

Lemma migrate_all `{!MigratorDoc} rest old db db' :
  NoDup (old ++ rest).*1 -> run_scripts rest db = Ok (tt, db') ->
  migrate (old ++ rest) (mkStored old.*1 db) = (Ok tt, mkStored (old ++ rest).*1 db').
Proof.
  revert old db. induction rest as [|[v m] rest IH]; intros old db Hnd; cbn [run_scripts].
  - intros [= <-]. rewrite app_nil_r. by apply migrate_done.
  - intros ([] & db1 & Hm & Hrest)%sql_bind_ok. rewrite (migrate_next old v m rest db db1) by done.
    specialize (IH (old ++ [(v, m)]) db1). rewrite <- app_assoc in IH.
    assert (E : (old ++ [(v, m)]).*1 = old.*1 ++ [v]) by by rewrite fmap_app.
    rewrite E in IH. by apply IH.
Qed.

(** A database that only this server has used: empty, or installed and sound. *)
Definition admissible (s : Stored) : Prop :=
  (exists t, s = mkStored [] (fresh t)) \/ (applied s = migrations.*1 /\ sound (boot (data s))).

Lemma migrated_sound `{!MigratorDoc} s :
  admissible s -> exists s', migrate migrations s = (Ok tt, s') /\
    applied s' = migrations.*1 /\ sound (boot (data s')) /\ (applied s = migrations.*1 -> s' = s).
Proof.
  intros [[t ->]|[Ha Hs]].
  - exists (mkStored migrations.*1 (installed t)).
    split_and!; [|done|apply installed_sound|done].
    refine (migrate_all migrations [] (fresh t) (installed t) _ (installed_ok t)). by_eval.
  - exists s. by rewrite migrate_done.
Qed.

(** *** Starts *)

Lemma start_up_cases `{Env, Network, !MigratorDoc} s :
  admissible s ->
  match start_up None s with
  | (Ok x, s') => applied s' = migrations.*1 /\ sound (boot (data s')) /\
      st_process x = mkProcess (boot (data s')) ∅ /\ from_env = Ok (st_cfg x) /\
      st_reloader x = Some log_reloader /\ (applied s = migrations.*1 -> s' = s)
  | (Err _, s') => admissible s' /\ (applied s = migrations.*1 -> s' = s)
  end.
Proof.
  intros Hs. destruct (migrated_sound s Hs) as (s' & Hm & Ha & Hso & Hsame). unfold start_up.
  assert (Hs' : admissible s') by by right.
  destruct from_env as [cfg|e]; [|done]. destruct (pg_connect _); [|done]. rewrite Hm.
  destruct (negb _); [done|]. by destruct (tcp_bind _).
Qed.

Lemma run_admissible `{!MigratorDoc} l s : admissible s -> admissible (run l s).2.
Proof.
  intros Hs. unfold run. cbv zeta.
  destruct (@start_up (l_env l) _ (l_network l) _ _ _ None s) as [[x|e] s1] eqn:E;
    specialize (@start_up_cases (l_env l) (l_network l) _ s Hs) as Hc; rewrite E in Hc; [|by destruct Hc].
  destruct Hc as (Ha & Hso & Hp & _). right. split; [done|]. cbn [snd data].
  assert (Hl : sound (app (serve_life l x))) by (apply life_sound; by rewrite Hp).
  by rewrite (sound_restart _ Hl).
Qed.

Lemma history_admissible `{!MigratorDoc} ls s : admissible s -> admissible (history ls s).
Proof.
  unfold history. revert s. induction ls as [|l ls IH]; intros s Hs; [done|]. cbn [fold_left].
  by apply IH, run_admissible.
Qed.

Lemma wf_reachable_state wf s : wf_reachable wf s -> s = Workflow.initial wf \/ s ∈ Workflow.states wf.
Proof. intros Hr. apply rtc_inv_r in Hr as [->|(y & _ & Hs & _)]; [by left|by right]. Qed.

(** The one workflow of an installation. *)
Lemma installed_workflow db wid wf :
  as_installed db -> load_workflows db !! wid = Some wf ->
  wid = "default" /\ Workflow.initial wf = "backlog" /\
  Workflow.states wf = ["backlog"; "todo"; "in_progress"; "in_review"; "done"].
Proof.
  intros [_ _ Hw]. unfold load_workflows. rewrite Hw.
  assert (E : exists row, workflows (installed 0) = {[ "default" := row ]} /\
     Workflow.initial (workflow_of_row row) = "backlog" /\
     Workflow.states (workflow_of_row row) = ["backlog"; "todo"; "in_progress"; "in_review"; "done"])
    by (eexists; split_and!; vm_compute; reflexivity).
  destruct E as (row & -> & Hi & Hst). rewrite map_fmap_singleton.
  intros [<- <-]%lookup_singleton_Some. split_and!; [reflexivity|exact Hi|exact Hst].
Qed.

(** C8 From the installation on, everything holds. Over an empty database, whatever starts of the
    server succeed or fail, under whatever environments, whatever requests it serves (one at a time)
    and however time passes: either no start ever got as far as the migrations, or the roles, the overrides
    and the workflow are those of the migrations, every object conforms to the type a load of the
    registry gives, every case is in a state of the default workflow, teams never nest in a
    cycle, and every pipeline run is in a state of the abstract machine. *)
Theorem installation_sound `{!MigratorDoc} ls t :
  let s := history ls (mkStored [] (fresh t)) in
  let db := data s in
  (exists t', s = mkStored [] (fresh t')) \/
  applied s = migrations.*1 /\ as_installed db /\
  (forall id row, entity_data db !! id = Some row ->
     exists td, load db !! d_type_id row = Some td /\
       (d_type_id row ∉ stamped ->
        exists obj, d_data row = JObject obj /\ Forall (field_valid obj) (TypeDef.fields td))) /\
  (forall id row, entity_data db !! id = Some row -> d_type_id row = "case" ->
     workflow_of (d_data row) = "default" /\
     status_of (d_data row) ∈ ["backlog"; "todo"; "in_progress"; "in_review"; "done"]) /\
  team_acyclic db /\
  (forall id run, feature_runs db !! id = Some run ->
     exists r, Machine.reachable r /\ represents db id r).
Proof.
  intros s db. assert (Hs : admissible s) by (apply history_admissible; left; by eexists).
  destruct Hs as [Hs|[Ha [Hca Hte Hru _ Hin]]]; [by left|right].
  pose proof (co_conformant _ Hca) as Hc. split_and!; [done|done|..].
  - intros id row Hrow. destruct (cf_typed _ Hc id row Hrow) as [tr Htr].
    destruct (load db !! d_type_id row) as [td|] eqn:Htd.
    + exists td. split; [done|]. intros Hn. by apply validate_final_ok, (cf_data _ Hc id).
    + rewrite load_lookup in Htd. cbn [pool boot] in Htr. unfold db in Htd. by rewrite Htr in Htd.
  - intros id row Hrow Hty. destruct (co_cases _ Hca id row Hrow Hty) as (wf & Hwf & Hr).
    apply installed_workflow in Hwf as (-> & Hi & Hst); [|done]. split; [done|]. rewrite <- Hst.
    apply wf_reachable_state in Hr as [->|Hr]; [|done]. rewrite Hi, Hst. set_solver.
  - apply (to_acyclic _ Hte).
  - apply Hru.
Qed.

(** The origins of a configuration are usable unless one is the wildcard. *)
Lemma cors_usable_layer `{!TowerDoc} cfg :
  cors_usable (cors_layer cfg) = bool_decide ("*" ∉ allow_origin (cors_layer cfg)).
Proof.
  case_bool_decide as Hw.
  - apply explicit_usable. rewrite not_elem_of_app. split; [done|].
    by apply (bool_decide_unpack _).
  - by apply wildcard_panics.
Qed.

(** C20 A restart loses nothing. After any history of an installation and a last life of the
    server, with requests served one at a time, a start that finds its configuration, the database and a free address, and no
    wildcard among the origins, succeeds: it leaves the database as it is, and its state (the
    data, the registry, the workflows) is the one the last life ended with; the table of the
    rate limiter alone starts empty. *)
Theorem restart_transparent `{!MigratorDoc, !TowerDoc} ls t l l' x s1 cfg :
  let s := history ls (mkStored [] (fresh t)) in
  @start_up (l_env l) _ (l_network l) _ _ _ None s = (Ok x, s1) ->
  @from_env (l_env l') = Ok cfg -> "*" ∉ allow_origin (cors_layer cfg) ->
  @pg_connect (l_network l') (database_url cfg) = Ok tt ->
  @tcp_bind (l_network l') (bind cfg) = Ok tt ->
  exists x', @start_up (l_env l') _ (l_network l') _ _ _ None (run l s).2 = (Ok x', (run l s).2) /\
    app (st_process x') = app (serve_life l x) /\ buckets (st_process x') = ∅ /\ st_cfg x' = cfg.
Proof.
  intros s Hx He Hw Hpg Htcp.
  assert (Hs : admissible s) by (apply history_admissible; left; by eexists).
  pose proof (@start_up_cases (l_env l) (l_network l) _ s Hs) as Hc. rewrite Hx in Hc.
  destruct Hc as (Ha & Hso & Hp & _).
  assert (Hl : sound (app (serve_life l x))) by (apply life_sound; by rewrite Hp).
  unfold run. cbv zeta. rewrite Hx. cbn [snd]. unfold start_up. rewrite He, Hpg.
  rewrite (migrate_done migrations) by done. cbn [data]. rewrite cors_usable_layer, bool_decide_eq_true_2 by done.
  cbn [negb]. rewrite Htcp. eexists. split; [reflexivity|]. cbn [st_process app buckets st_cfg].
  by rewrite (sound_restart _ Hl).
Qed.

(** C21 Why a start fails, and what it leaves. Over a database that only this server has used,
    the migrations cannot fail: a start fails because the database is not configured or not
    reachable, because an origin is the wildcard, or because the address is taken. Before the
    migrations it leaves the database alone, and once they are applied it always does; the exit
    code is that of a panic for the wildcard, and 1 otherwise. *)
Theorem start_failures `{!MigratorDoc, !TowerDoc} ls t l e s' :
  let s := history ls (mkStored [] (fresh t)) in
  run l s = (Failed e, s') ->
  match e with
  | ConfigError _ => @env_var (l_env l) "DATABASE_URL" = None /\ s' = s /\ exit_code (Failed e) = Some 1
  | ConnectError m => exists cfg, @from_env (l_env l) = Ok cfg /\
      @pg_connect (l_network l) (database_url cfg) = Err m /\ s' = s /\ exit_code (Failed e) = Some 1
  | MigrateError _ => False
  | CorsPanic => exists cfg, @from_env (l_env l) = Ok cfg /\ "*" ∈ allow_origin (cors_layer cfg) /\
      applied s' = migrations.*1 /\ exit_code (Failed e) = Some 101
  | BindError m => exists cfg, @from_env (l_env l) = Ok cfg /\ 
      @tcp_bind (l_network l) (bind cfg) = Err m /\ applied s' = migrations.*1 /\
      exit_code (Failed e) = Some 1
  end /\ (applied s = migrations.*1 -> s' = s).
Proof.
  intros s Hr. assert (Hs : admissible s) by (apply history_admissible; left; by eexists).
  destruct (migrated_sound s Hs) as (s1 & Hm & Ha & _ & Hsame).
  unfold run, start_up in Hr. cbv zeta in Hr.
  destruct (@from_env (l_env l)) as [cfg|msg] eqn:Hcfg.
  2: { injection Hr as <- <-. split; [|done]. split_and!; [|done..].
       unfold from_env in Hcfg. by destruct (env_var "DATABASE_URL"). }
  destruct (pg_connect (database_url cfg)) as [[]|msg] eqn:Hpg.
  2: { injection Hr as <- <-. split; [|done]. by exists cfg. }
  rewrite Hm, cors_usable_layer in Hr. case_bool_decide as Hw; cbn [negb] in Hr.
  2: { injection Hr as <- <-. split; [|done]. exists cfg. by split_and!. }
  destruct (tcp_bind (bind cfg)) as [[]|msg] eqn:Hb;
    [by destruct (shutdown_signal _)|].
  injection Hr as <- <-. split; [|done]. by exists cfg.
Qed.
End Lives.
