(* ===== verification/Secrecy.v ===== *)
(** * What a caller cannot see, however requests interleave

    [Confidentiality] for the concurrent server of [Staging]. Two servers take the same steps, one
    of them on a store with the content of one object replaced ([hide]). As long as nobody who
    sends requests sees the object at the moments of the run, the trees of the two stay in step:
    each statement does the same on both stores, and the answers are equal. *)

From S2P Require Import Prelude RustStr Encoding Config Json AppError Closure Schema Registry.
From S2P Require Import Workflow State Rbac Caller FieldPerms Objects Fixture ObjectHandlers.
From S2P Require Import ObjectProps Lifecycle RbacProps Members MemberProps Orchestrator Pipeline.
From S2P Require Import Types Relations HttpClient Connectors Auth OAuth RateLimit Platform Search.
From S2P Require Import Steps Server ServerProps Footprint Staging Authority Confidentiality.

Local Open Scope Z_scope.

Section Object.
Variables (id : string) (v : Value).

(** ** Two trees in step *)

Section Mirrors.
Variable A : AppState -> Prop.

(** From every state that the run may be in, the next statements of both trees do the same to the
    two stores; both end with the same result, which meets [Q] if it is a success. *)
Fixpoint mirrors {X} (Q : X -> Prop) (p p' : Prog X) : Prop :=
  match p, p' with
  | Done r, Done r' => r' = r /\ forall a, r = Ok a -> Q a
  | Step m k, Step m' k' => forall st, A st ->
      (m' (hide_st id v st)).2 = hide_st id v (m st).2 /\
      mirrors Q (k (m st).1) (k' (m' (hide_st id v st)).1)
  | _, _ => False
  end.

Lemma mirrors_pbind {X Y} (Q : X -> Prop) (R : Y -> Prop) (p p' : Prog X) (q q' : X -> Prog Y) :
  mirrors Q p p' -> (forall a, Q a -> mirrors R (q a) (q' a)) -> mirrors R (pbind p q) (pbind p' q').
Proof.
  intros Hp Hq. revert p' Hp. induction p as [r|Z m k IH]; intros [r'|Z' m' k']; cbn; try done.
  - intros [-> HQ]. destruct r as [a|e]; [by apply Hq, HQ|done].
  - intros Hp st HA. destruct (Hp st HA) as [H1 H2]. split; [done|]. by apply IH.
Qed.

Lemma mirrors_get {Y} (R : Y -> Prop) (q q' : AppState -> Prog Y) :
  (forall st, A st -> mirrors R (q st) (q' (hide_st id v st))) ->
  mirrors R (pbind (Step get_state Done) q) (pbind (Step get_state Done) q').
Proof. intros Hq st HA. split; [done|]. by apply Hq. Qed.

Lemma mirrors_query {X Y} (R : Y -> Prop) (f f' : Db -> X) (q q' : X -> Prog Y) :
  (forall st, A st -> mirrors R (q (f (pool st))) (q' (f' (hide id v (pool st))))) ->
  mirrors R (pbind (Step (query f) Done) q) (pbind (Step (query f') Done) q').
Proof. intros Hq st HA. split; [done|]. by apply Hq. Qed.

Lemma mirrors_done {X Y} (R : Y -> Prop) (r r' : AppResult X) (q q' : X -> Prog Y) :
  r' = r -> (forall a, r = Ok a -> mirrors R (q a) (q' a)) ->
  mirrors R (pbind (Done r) q) (pbind (Done r') q').
Proof. intros -> Hq. destruct r; [by apply Hq|done]. Qed.

Lemma mirrors_end {X} (Q : X -> Prop) (r r' : AppResult X) :
  r' = r -> (forall a, r = Ok a -> Q a) -> mirrors Q (Done r) (Done r').
Proof. done. Qed.

Lemma mirrors_statement {X} (m : M X) :
  (forall st, A st -> blind id v m m st) -> mirrors (fun _ => True) (Step m Done) (Step m Done).
Proof. intros Hm st HA. rewrite (Hm st HA). cbn. auto. Qed.

Lemma mirrors_step {X Y} (R : Y -> Prop) (m : M X) (q q' : X -> Prog Y) :
  (forall st, A st -> blind id v m m st) -> (forall a, mirrors R (q a) (q' a)) ->
  mirrors R (pbind (Step m Done) q) (pbind (Step m Done) q').
Proof. intros Hm Hq. eapply mirrors_pbind; [by apply mirrors_statement|auto]. Qed.

Lemma mirrors_commutes {X Y} (R : Y -> Prop) (m : M X) (q q' : X -> Prog Y) :
  Commutes id v m -> (forall a, mirrors R (q a) (q' a)) ->
  mirrors R (pbind (Step m Done) q) (pbind (Step m Done) q').
Proof. intros Hm. apply mirrors_step. intros st _. apply Hm. Qed.

Lemma mirrors_cut {X} (Q : X -> Prop) e (p p' : Prog X) : mirrors Q p p' -> mirrors Q (cut e p) (cut e p').
Proof. by destruct p, p'. Qed.
End Mirrors.

Context `{SerdeJson, Postgres, !FromSlice TypeSpec, !FromSlice RelInput, !FromSlice StartInput}.
Context `{!FromSlice HandoffInput, !FromSlice LevelInput, Reqwest, Env, Hmac, Jwt, Sha2, Build}.
Context `{UrlParams, FullText, HttpCrate, Deployment, Framework}.
Context (Sent : HttpRequest -> Prop) (Who : Caller.t -> Prop).

(** ** The callers of a run

    The object is there, the requests speak for these callers only, and none of them sees it. *)
Definition unseeing (st : AppState) : Prop :=
  is_Some (entities (pool st) !! id) /\
  (forall rq c, Sent rq -> from_request_parts (rq_headers rq) st = (Ok c, st) -> Who c) /\
  (forall c, Who c -> unseen (pool st) c id).

Abbreviation same p := (mirrors unseeing (fun _ => True) p p).

Lemma run_authority_hide st c k a ctx :
  require_run_authority (hide_st id v st) c k a ctx = require_run_authority st c k a ctx.
Proof. unfold require_run_authority. destruct k; [by rewrite reach_action_hide|done]. Qed.

(** The same value on both stores. *)
Ltac hide_tac :=
  change (pool (hide_st id v ?s)) with (hide id v (pool s));
  change (registry (hide_st id v ?s)) with (registry s);
  change (wf_cache (hide_st id v ?s)) with (wf_cache s);
  unfold reachable_entity_ids_any;
  rewrite ?require_action_hide, ?reach_action_hide, ?require_rank_hide, ?ensure_object_hide,
    ?permitted_verbs_hide, ?options_body_hide, ?require_write_hide, ?filter_readable_hide,
    ?reachable_ids_hide, ?reach_hide, ?run_authority_hide, ?live_sessions_hide, ?select_actor_hide, ?select_data_ne by assumption;
  try reflexivity.

(** In step through reads, guards and statements that commute with the veil. *)
Ltac mirror_tac :=
  cbv beta zeta; unfold resolve;
  repeat lazymatch goal with
  | |- mirrors _ _ (pbind (Step get_state Done) _) _ => apply mirrors_get; intros ? ?; cbv beta zeta
  | |- mirrors _ _ (pbind (Step (query _) Done) _) _ => apply mirrors_query; intros ? ?; cbv beta zeta
  | |- mirrors _ _ (pbind (Step _ Done) _) _ => apply mirrors_commutes; [apply _|intros ?; cbv beta zeta]
  | |- mirrors _ _ (pbind (Done _) _) _ => apply mirrors_done; [by hide_tac|intros ? ?; cbv beta zeta]
  | |- mirrors _ _ (Step _ Done) _ => apply mirrors_statement; intros ? _; apply commutes; apply _
  | |- mirrors _ _ (Done _) _ => apply mirrors_end; [by hide_tac|done]
  | |- mirrors _ _ (pbind _ _) _ => apply (mirrors_pbind _ (fun _ => True)); [|intros ? _; cbv beta zeta]
  | |- mirrors _ _ (if ?b then _ else _) (if ?b then _ else _) => destruct b
  | |- mirrors _ _ (prog (match ?x with _ => _ end)) _ =>
      change (auth_identities (pool (hide_st id v ?s))) with (auth_identities (pool s));
      destruct x; open_tree
  end.

Section Caller.
Context (c : Caller.t) (Hc : Who c).

Lemma blocked_action st td i a :
  unseeing st -> require_action (pool st) c td (Some i) a = true -> Other i id.
Proof. intros (_ & _ & Hun) Hr ->. by rewrite unseen_action in Hr by by apply Hun. Qed.

Lemma blocked_reach st i a : unseeing st -> reach_action st c i a = true -> Other i id.
Proof. intros (_ & _ & Hun) Hr ->. by rewrite unseen_reach_action in Hr by by apply Hun. Qed.

Lemma blocked_rank st i min ctx r : unseeing st -> require_rank (pool st) c i min ctx = Ok r -> Other i id.
Proof. intros (_ & _ & Hun) Hr ->. eapply unseen_require_rank; [by apply Hun|done]. Qed.

(** Where a guard let the caller through, the object is another one. *)
Ltac other_tac i :=
  assert (Other i id) by
    match goal with
    | HA : unseeing ?st, Hr : (if require_action (pool ?st) c ?td (Some i) ?a then _ else _) = Ok _ |- _ =>
        destruct (require_action (pool st) c td (Some i) a) eqn:?; [|discriminate Hr];
        by eapply (blocked_action st td i a)
    | HA : unseeing ?st, Hr : require_rank (pool ?st) c i ?min _ = Ok _ |- _ =>
        by eapply (blocked_rank st i min)
    | HA : unseeing ?st, Hr : (if reach_action ?st c i ?a then _ else _) = Ok _ |- _ =>
        destruct (reach_action st c i a) eqn:?; [|discriminate Hr]; by eapply (blocked_reach st i a)
    end.

(** *** Handlers that read *)

Lemma item_get_mirror ctx t i headers : same (prog (item_get ctx c t i headers)).
Proof. open_tree. mirror_tac. other_tac i. mirror_tac. Qed.

Lemma item_head_mirror ctx t i : same (prog (item_head ctx c t i)).
Proof. open_tree. mirror_tac. other_tac i. mirror_tac. Qed.

Lemma item_options_mirror ctx t i : same (prog (item_options ctx c t i)).
Proof. open_tree. mirror_tac. other_tac i. mirror_tac. Qed.

Lemma m405_item_mirror ctx t i : same (prog (m405_item ctx c t i)).
Proof. open_tree. mirror_tac. Qed.

Lemma m405_coll_mirror ctx t : same (prog (m405_coll ctx c t)).
Proof. open_tree. mirror_tac. Qed.

Lemma coll_head_mirror ctx t : same (prog (coll_head ctx c t)).
Proof. open_tree. mirror_tac. Qed.

Lemma coll_options_mirror ctx t : same (prog (coll_options ctx c t)).
Proof. open_tree. mirror_tac. Qed.

Lemma list_members_mirror ctx t i : same (prog (list_members ctx c t i)).
Proof. open_tree. mirror_tac. Qed.

Lemma list_types_mirror : same (prog (list_types c)).
Proof. open_tree. mirror_tac. Qed.

Lemma get_type_mirror ctx t : same (prog (get_type ctx c t)).
Proof. open_tree. mirror_tac. Qed.

Lemma list_relations_mirror ctx e tf : same (prog (list_relations ctx c e tf)).
Proof. open_tree. mirror_tac. Qed.

Lemma list_runs_mirror ctx q : same (prog (list_runs ctx c q)).
Proof. open_tree. mirror_tac. Qed.

Lemma get_run_mirror ctx i : same (prog (get_run ctx c i)).
Proof. open_tree. mirror_tac. Qed.

Lemma echo_mirror ctx hs body : same (prog (echo ctx c hs body)).
Proof. open_tree. mirror_tac. Qed.

Lemma unlisted st t : unseeing st -> id ∉ reachable_entity_ids (pool st) (Caller.actor_id c) t.
Proof.
  intros (_ & _ & Hun). unfold reachable_entity_ids. rewrite list_elem_of_filter, elem_of_elements.
  pose proof (proj2 (Hun c Hc)). tauto.
Qed.

Lemma no_admin st : unseeing st -> Caller.is_platform_admin c = false.
Proof. intros (_ & _ & Hun). apply (Hun c Hc). Qed.

Lemma coll_get_mirror ctx t l o : same (prog (coll_get ctx c t l o)).
Proof.
  open_tree. mirror_tac. apply mirrors_end; [|done]. hide_tac.
  match goal with HA : unseeing ?s |- context [reachable_entity_ids (pool ?s) _ _] =>
    rewrite (no_admin s HA); pose proof (unlisted s t HA) as Hr end.
  rewrite select_rows_hide by done. do 8 f_equal.
  apply list_fmap_ext. intros _ row _. by rewrite filter_readable_hide.
Qed.

Lemma search_mirror ctx q tf l : same (prog (search ctx c q tf l)).
Proof.
  open_tree. mirror_tac. apply mirrors_end; [|done]. hide_tac.
  match goal with HA : unseeing ?s |- context [reach (pool ?s) _] =>
    rewrite (no_admin s HA); pose proof (proj2 (proj2 (proj2 HA) c Hc)) as Hr end.
  rewrite search_rows_hide; [done|]. by rewrite elem_of_elements.
Qed.

(** *** Handlers that write *)

Lemma item_write_mirror u ctx t i headers body : same (prog (item_write u ctx c t i headers body)).
Proof.
  unfold item_write_staged, item_write_read_staged, item_write_commit_staged. open_tree.
  apply (mirrors_pbind _ (fun _ => Other i id)).
  - mirror_tac. other_tac i. mirror_tac.
  - intros p Hne. mirror_tac.
Qed.

Lemma item_delete_mirror ctx t i headers : same (prog (item_delete ctx c t i headers)).
Proof. open_tree. mirror_tac. other_tac i. mirror_tac. Qed.

Lemma add_member_mirror ctx t i headers body : same (prog (add_member ctx c t i headers body)).
Proof. open_tree. mirror_tac. Qed.

Lemma set_member_mirror ctx t i m headers body : same (prog (set_member ctx c t i m headers body)).
Proof. open_tree. mirror_tac. Qed.

Lemma remove_member_mirror ctx t i m : same (prog (remove_member ctx c t i m)).
Proof. open_tree. mirror_tac. Qed.

Lemma record_check_mirror ctx t i n headers body : same (prog (record_check ctx c t i n headers body)).
Proof. open_tree. mirror_tac. Qed.

Lemma coll_create_mirror ctx t headers body uuid : same (prog (coll_create ctx c t headers body uuid)).
Proof.
  open_tree. mirror_tac. apply mirrors_step; [|intros _; mirror_tac]. intros s HA.
  unfold create_txn. by apply insert_object_commutes; [apply HA|intros Hne; apply _].
Qed.

Lemma create_type_mirror ctx body : same (prog (create_type ctx c body)).
Proof. open_tree. mirror_tac. Qed.

Lemma create_relation_mirror ctx body uuid : same (prog (create_relation ctx c body uuid)).
Proof. open_tree. mirror_tac. Qed.

Lemma delete_relation_mirror ctx i : same (prog (delete_relation ctx c i)).
Proof. open_tree. mirror_tac. Qed.

Lemma start_run_mirror ctx body uuid : same (prog (start_run ctx c body uuid)).
Proof. open_tree. mirror_tac. Qed.

Lemma record_handoff_mirror ctx i body : same (prog (record_handoff ctx c i body)).
Proof. open_tree. mirror_tac. Qed.

Lemma select_data_hide t db : select_data id t (hide id v db) = veil v <$> select_data id t db.
Proof.
  unfold select_data. rewrite lookup_hide_eq. destruct (entity_data db !! id) as [row|]; [|done]. simpl.
  rewrite (proj1 (veil_same v row)). by case_decide.
Qed.

(** The row is read before the gate, which then stops both. *)
Lemma run_connector_mirror ctx i : same (prog (run_connector ctx c i)).
Proof.
  destruct (decide (i = id)) as [->|Hne]; [|change (Other i id) in Hne; open_tree; mirror_tac].
  open_tree. apply mirrors_get. intros st HA. change (pool (hide_st id v st)) with (hide id v (pool st)).
  rewrite select_data_hide. destruct (select_data id "connector" (pool st)) as [row|]; [|done].
  apply mirrors_get. intros st1 HA1. rewrite reach_action_hide.
  destruct (reach_action st1 c id Edit) eqn:Hr; [|done].
  by destruct (blocked_reach _ _ _ HA1 Hr).
Qed.

Lemma claim_admin_mirror : same (prog (claim_admin c)).
Proof. open_tree. mirror_tac. Qed.

Lemma logout_mirror : same (prog (logout c)).
Proof. open_tree. mirror_tac. Qed.

Lemma set_log_level_mirror reload ctx body : same (prog (set_log_level reload ctx c body)).
Proof. open_tree. mirror_tac. Qed.

End Caller.

(** *** Handlers without a caller *)

Lemma caller_mirror rq :
  Sent rq ->
  mirrors unseeing Who (prog (from_request_parts (rq_headers rq))) (prog (from_request_parts (rq_headers rq))).
Proof.
  intros Hs. open_tree. mirror_tac. apply mirrors_end; [done|].
  match goal with HA : unseeing ?s |- _ => intros ? [= <-]; apply (proj1 (proj2 HA) rq _ Hs) end.
  by eapply from_request_parts_found.
Qed.

Lemma dev_login_mirror a token uuid : same (prog (dev_login a token uuid)).
Proof. open_tree. mirror_tac. Qed.

Lemma start_mirror name uuid t : same (prog (start name uuid t)).
Proof. open_tree. mirror_tac. Qed.

(** A new actor is not the object, which is there. *)
Lemma new_actor_blind provider sub email name uuid st :
  let actor := mint "USR" uuid in
  let m := run_sql (insert_entity actor "actor" (Some actor) ≫= fun _ =>
    insert_data actor "actor" (new_actor_data actor email name) None ≫= fun _ =>
    insert_identity provider sub actor email) in
  unseeing st -> blind id v m m st.
Proof. intros actor m HA. by apply insert_object_commutes; [apply HA|intros Hne; apply _]. Qed.

Lemma callback_mirror name code state headers t rnd : same (prog (callback name code state headers t rnd)).
Proof.
  open_tree. mirror_tac. apply mirrors_step; [intros ? ?; by apply new_actor_blind|intros _; mirror_tac].
Qed.

(** ** Every request *)

Create HintDb mirror discriminated.
#[local] Hint Constants Opaque : mirror.
#[local] Hint Resolve coll_get_mirror coll_head_mirror coll_create_mirror coll_options_mirror
  m405_coll_mirror item_get_mirror item_head_mirror item_write_mirror item_delete_mirror
  item_options_mirror m405_item_mirror list_members_mirror add_member_mirror set_member_mirror
  remove_member_mirror record_check_mirror list_types_mirror create_type_mirror get_type_mirror
  create_relation_mirror list_relations_mirror delete_relation_mirror search_mirror start_run_mirror
  list_runs_mirror get_run_mirror record_handoff_mirror run_connector_mirror claim_admin_mirror
  logout_mirror dev_login_mirror start_mirror callback_mirror echo_mirror set_log_level_mirror : mirror.

Lemma handle_mirror fr ctx rq e : Sent rq -> same (prog (handle fr ctx rq e)).
Proof.
  intros Hs. destruct e; cbn [handle_staged prog staged_bind is_public exec exec_public]; unfold item_put, item_patch;
    try (apply (mirrors_pbind _ Who); [by apply caller_mirror|intros c Hc]); auto with mirror.
  - apply dev_login_mirror.
  - apply start_mirror.
  - apply callback_mirror.
  - by apply mirrors_end.
  - open_tree. mirror_tac.
Qed.

(** ** The server, twice *)

Lemma unseeing_hide st : unseeing st -> unseeing (hide_st id v st).
Proof.
  intros (Hid & Hw & Hun). split_and!; [done| |].
  - intros rq c Hs Hf. apply (Hw rq c Hs). pose proof (from_request_parts_commutes id v (rq_headers rq) st) as E.
    unfold blind in E. rewrite Hf in E. injection E as E1 E2.
    destruct (from_request_parts (rq_headers rq) st) as [r st1] eqn:Hr. cbn in E1. subst r.
    pose proof (read_only (m := from_request_parts (rq_headers rq)) st) as Hro. rewrite Hr in Hro. cbn in Hro.
    by subst.
  - intros c Hc. by apply unseen_hide, Hun.
Qed.

(** A step of one server, and the same step of the other. *)
Lemma server_step_mirror l l' st s2 :
  unseeing st -> Forall2 (mirrors unseeing (fun _ => True)) l l' ->
  server_step (sends Sent) (l, st) s2 ->
  exists l2', server_step (sends Sent) (l', hide_st id v st) (l2', hide_st id v s2.2) /\
    Forall2 (mirrors unseeing (fun _ => True)) s2.1 l2'.
Proof.
  intros HA Hall Hstep. remember (l, st) as s1 eqn:Es.
  destruct Hstep as [l1 l2 X m k st1|p l1 st1 Hp|t l1 st1|e p l1 l2 st1|e l1 st1]; injection Es as ? ->; subst; cbn [fst snd].
  - apply Forall2_app_inv_l in Hall as (l1' & r' & H1' & (p' & l2' & Hp & H2' & ->)%Forall2_cons_inv_l & ->).
    destruct p' as [r|X' m' k']; [done|]. destruct (Hp st HA) as [E Hk].
    exists (l1' ++ k' (m' (hide_st id v st)).1 :: l2'). split; [rewrite <- E; apply step_statement|].
    apply Forall2_app; [done|]. by constructor.
  - exists (p :: l'). split; [by apply step_arrival|]. constructor; [|done].
    destruct Hp as (fr & ctx & rq & e & Hs & ->). by apply handle_mirror.
  - exists l'. split; [|done]. apply (step_tick _ t l' (hide_st id v st)).
  - apply Forall2_app_inv_l in Hall as (l1' & r' & H1' & (p' & l2' & Hp & H2' & ->)%Forall2_cons_inv_l & ->).
    exists (l1' ++ cut e p' :: l2'). split; [apply step_cut|]. apply Forall2_app; [done|].
    constructor; [by apply mirrors_cut|done].
  - exists (cut e <$> l'). split; [apply (step_crash _ e l' (hide_st id v st))|].
    apply Forall2_fmap. eapply Forall2_impl; [exact Hall|]. intros p p'. apply mirrors_cut.
Qed.

(** What a request in flight has answered. *)
Definition answered (p : Prog Response) : option (AppResult Response) :=
  match p with Done r => Some r | Step _ _ => None end.

Lemma mirrors_answered Q (p p' : Prog Response) : mirrors unseeing Q p p' -> answered p' = answered p.
Proof. destruct p, p'; cbn; [by intros [-> _]|done..]. Qed.

(** Both servers take a step, between states that differ in the content only, and have answered the
    same. *)
Definition lockstep : relation (list (Prog Response) * list (Prog Response) * AppState) := fun s s' =>
  step_within unseeing (sends Sent) (s.1.1, s.2) (s'.1.1, s'.2) /\
  step_within unseeing (sends Sent) (s.1.2, hide_st id v s.2) (s'.1.2, hide_st id v s'.2) /\
  answered <$> s'.1.2 = answered <$> s'.1.1.

Lemma all_answered l l' : Forall2 (mirrors unseeing (fun _ => True)) l l' -> answered <$> l' = answered <$> l.
Proof.
  induction 1 as [|p p' l l' Hp _ IH]; [done|]. cbn. f_equal; [by eapply mirrors_answered|apply IH].
Qed.

(** C3 What nobody sees has no influence, whatever the timing. Take any run of the server, with its
    statements in any order, drops and crashes, at no moment of which one of the callers is an
    admin or has the object in reach. Then a server that starts with any other content of the
    object (of any type but an actor) can take the same run step by step: through the same states
    but for that content, and with the same answers to every request at every moment. *)
Theorem unseen_under_interleaving st l st' :
  rtc (step_within unseeing (sends Sent)) ([], st) (l, st') ->
  exists l', rtc lockstep ([], [], st) (l, l', st').
Proof.
  assert (Hrun : forall s s', rtc (step_within unseeing (sends Sent)) s s' -> forall l0',
    Forall2 (mirrors unseeing (fun _ => True)) s.1 l0' ->
    exists l', rtc lockstep (s.1, l0', s.2) (s'.1, l', s'.2)).
  { intros s s'. induction 1 as [s|s1 s2 s3 [HA Hone] _ IH]; intros l0' Hall; [by exists l0'|].
    destruct s1 as [l1 st1], s2 as [l2 st2].
    destruct (server_step_mirror _ _ _ _ HA Hall Hone) as (l2' & Hstep & Hall2).
    destruct (IH l2' Hall2) as (l' & Hrest). exists l'. eapply rtc_l; [|exact Hrest].
    split_and!; [by split|split; [by apply unseeing_hide|exact Hstep]|by apply all_answered]. }
  intros Hr. exact (Hrun _ _ Hr [] ltac:(constructor)).
Qed.
End Object.
