(* ===== verification/Interleaving.v ===== *)
(** * Any interleaving of any requests

    On the concurrent server of [Staging], where between two statements of a request the other
    requests do whatever they like, requests are dropped and the process crashes: every object
    still conforms to its registered type and every case is in a state that its workflow reaches.
    Types are only ever added, so what a request has checked before stays right until it writes. *)

From S2P Require Import Prelude RustStr Encoding Config Json AppError Closure Schema Registry.
From S2P Require Import Workflow State Rbac Caller FieldPerms Objects Fixture ObjectHandlers.
From S2P Require Import ObjectProps Lifecycle RbacProps Members MemberProps Orchestrator Pipeline.
From S2P Require Import Types TypeProps Relations HttpClient Connectors Auth OAuth RateLimit.
From S2P Require Import Platform Search Steps CaseFlow Server ServerProps Footprint Staging Invariants.

Local Open Scope Z_scope.

(** ** The invariant, and what requests may do to each other *)

(** An object of a known type that conforms to it and, if it is a case, is in a reachable state. *)
Definition row_ok (types : TypeDefCache) (wfs : WorkflowCache) (row : DataRow) : Prop :=
  exists td, types !! d_type_id row = Some td /\
    (d_type_id row ∉ stamped -> validate_final td (d_data row) = Ok tt) /\
    (d_type_id row = "case" -> exists wf, wfs !! workflow_of (d_data row) = Some wf /\
       wf_reachable wf (status_of (d_data row))).

(** The registered types are those of the store; the snapshot of the process may lag behind. *)
Record lawful (st : AppState) : Prop := {
  lf_registry : registry st ⊆ load (pool st);
  lf_fields : fields_fk (pool st);
  lf_ordinals : ordinals_distinct (pool st);
  lf_rows : forall id row, entity_data (pool st) !! id = Some row ->
    row_ok (load (pool st)) (wf_cache st) row;
  lf_workflows : wf_cache st = load_workflows (pool st);
  lf_case_type : exists td, load (pool st) !! "case" = Some td /\ fields_nodup td /\
    forall f, TypeDef.field td "workflow_id" = Some f -> FieldDef.writable f = false }.

(** A server between two requests is lawful. *)
Lemma cases_ok_lawful st : cases_ok st -> wf_cache st = load_workflows (pool st) -> lawful st.
Proof.
  intros [[Hco Hf Ho Ht Hd] Hty Hca] Hwf. unfold registry_coherent in Hco. unfold case_type_ok in Hty.
  rewrite Hco in Hty. constructor; [by rewrite Hco|done|done| |done|done].
  intros id row Hrow. destruct (Ht id row Hrow) as [tr Htr].
  destruct (load (pool st) !! d_type_id row) as [td|] eqn:Htd.
  - exists td. split_and!; [done| |by apply (Hca id)]. intros Hn. apply (Hd id); [done..|]. by rewrite Hco.
  - by rewrite load_lookup, Htr in Htd.
Qed.

(** Types are added, never changed; the workflows stay. *)
Definition grows : relation AppState := fun st st' =>
  load (pool st) ⊆ load (pool st') /\ wf_cache st' = wf_cache st.
#[export] Instance grows_preorder : PreOrder grows.
Proof.
  split; [by intros ?|]. intros x y z [H1 E1] [H2 E2]. split; [by etransitivity|congruence].
Qed.

Abbreviation law := (guarantee lawful grows).

Lemma row_ok_grows st st' row :
  grows st st' -> row_ok (load (pool st)) (wf_cache st) row -> row_ok (load (pool st')) (wf_cache st') row.
Proof.
  intros [Hl Hw] (td & Htd & Hrow). exists td. rewrite Hw. split; [|done]. by eapply lookup_weaken.
Qed.

Lemma touches_not_cases st st' :
  touches not_cases st st' ->
  type_definitions (pool st') = type_definitions (pool st) /\
  type_fields (pool st') = type_fields (pool st) /\
  entity_data (pool st') = entity_data (pool st) /\ registry st' = registry st /\
  wf_cache st' = wf_cache st /\ workflows (pool st') = workflows (pool st).
Proof.
  intros [Ht (_ & _ & Hwt & Hw)].
  split_and!; [apply (Ht Ttypes)|apply (Ht Tfields)|apply (Ht Tdata)|apply (Ht Tregistry)|done|done]; by_eval.
Qed.

(** What does not touch the types, the objects and the snapshot keeps the law. *)
Lemma law_frame st st' : touches not_cases st st' -> law st st'.
Proof.
  intros (E1 & E2 & E3 & E4 & Hw & Hwt)%touches_not_cases [H1 H2 H3 H4 H5 H6].
  assert (E5 : load (pool st') = load (pool st)) by by apply load_ext.
  split; [|split; [by rewrite E5|done]].
  constructor; unfold fields_fk, ordinals_distinct, load_workflows in *;
    rewrite ?E1, ?E2, ?E3, ?E4, ?E5, ?Hw, ?Hwt; done.
Qed.

#[export] Instance law_touches {A} (m : M A) : Respects (touches not_cases) m -> Respects law m | 20.
Proof. intros Hm st. apply law_frame, Hm. Qed.
#[export] Instance sql_law_touches {A} (m : SqlM A) :
  SqlRespects (touches not_cases) m -> SqlRespects law m | 20.
Proof. intros Hm st a db Hr. apply law_frame. by eapply Hm. Qed.

Lemma ignore_law {A} (m : M A) : Respects law m -> Respects law (ignore m).
Proof. intros Hm st. apply Hm. Qed.

(** Only the objects change: each row of the new table is lawful. *)
Lemma law_data st x :
  (lawful st -> forall id row, x !! id = Some row -> row_ok (load (pool st)) (wf_cache st) row) ->
  law st (set_pool (set_entity_data x (pool st)) st).
Proof.
  intros Hx HI. pose proof (Hx HI) as Hrows. destruct HI as [H1 H2 H3 H4 H5 H6].
  assert (E : load (set_entity_data x (pool st)) = load (pool st)) by by apply load_ext.
  split; [|split; [cbn [pool set_pool]; by rewrite E|done]].
  constructor; cbn [pool set_pool registry wf_cache]; rewrite ?E; done.
Qed.

Lemma law_insert st id row :
  (lawful st -> row_ok (load (pool st)) (wf_cache st) row) ->
  law st (set_pool (set_entity_data (<[id := row]> (entity_data (pool st))) (pool st)) st).
Proof.
  intros Hrow. apply law_data. intros HI i r [[<- <-]|[_ Hr]]%lookup_insert_Some; [by apply Hrow|].
  by eapply lf_rows.
Qed.

(** A row keeps its conformance when its actor or connector data changes. *)
Lemma row_ok_stamped types wfs row row' :
  row_ok types wfs row -> d_type_id row' = d_type_id row -> d_type_id row ∈ stamped ->
  d_type_id row <> "case" -> row_ok types wfs row'.
Proof. intros (td & Htd & _) Hty Hst Hne. exists td. rewrite Hty. by split_and!. Qed.

Section Statements.
Context `{SerdeJson, Postgres}.

#[export] Instance delete_object_law id t v : SqlRespects law (delete_object id t v).
Proof.
  intros st n db [[_ ->]|(_ & row & _ & _ & _ & _ & ->)]%delete_object_ok; [by rewrite set_pool_id|].
  etransitivity; [apply (law_data st (cascade_data id <$> delete id (entity_data (pool st))))|].
  - intros HI i r. rewrite lookup_fmap_Some. intros (r0 & <- & [_ Hr]%lookup_delete_Some).
    by apply (lf_rows _ HI i r0).
  - apply law_frame. same_tac.
Qed.

#[export] Instance stamp_run_law id s : SqlRespects law (stamp_run id s).
Proof.
  intros st v db (row & m & Hrow & Hty & _ & _ & _ & ->)%stamp_run_ok. apply law_insert. intros HI.
  eapply row_ok_stamped; [by apply (lf_rows _ HI id row)|by rewrite Hty|..]; rewrite Hty; [set_solver|done].
Qed.

#[export] Instance claim_update_law a : SqlRespects law (claim_update a).
Proof.
  intros st n db. unfold claim_update. destruct (select_data a "actor" (pool st)) as [row|] eqn:Hrow;
    [|intros [= _ <-]; by rewrite set_pool_id].
  apply select_data_Some in Hrow as [Hrow Hty].
  case_decide; [intros [= _ <-]; by rewrite set_pool_id|].
  destruct (jsonb_set _ _ _) as [data|]; [|done]. intros [= _ <-]. apply law_insert. intros HI.
  eapply row_ok_stamped; [by apply (lf_rows _ HI a row)|by rewrite Hty|..]; rewrite Hty; [set_solver|done].
Qed.

(** The types of the store are those of the registry a load gives. *)
Lemma load_is_Some db t : is_Some (load db !! t) <-> is_Some (type_definitions db !! t).
Proof. by rewrite load_lookup, fmap_is_Some. Qed.

#[export] Instance insert_actor_law id data sp : SqlRespects law (insert_data id "actor" data sp).
Proof.
  intros st x db (_ & _ & Hty & _ & ->)%insert_data_ok. apply law_insert. intros _.
  apply load_is_Some in Hty as [td Htd]. exists td. split_and!; [done| |done].
  intros Hn. exfalso. apply Hn. set_solver.
Qed.

#[export] Instance create_type_txn_law spec : SqlRespects law (create_type_txn spec).
Proof.
  intros st x db Ht HI. pose proof HI as [H1 H2 H3 H4 H5 H6].
  destruct (create_type_registry _ _ _ _ H2 H3 Ht) as [_ Hold].
  pose proof (create_type_ordinals _ _ _ _ H2 H3 Ht) as Hord.
  apply create_type_txn_ok in Ht as (Hnone & Hnd & Hl & Hdb).
  assert (Hg : load (pool st) ⊆ load db).
  { apply map_subseteq_spec. intros t td Htd. rewrite Hold; [done|]. intros ->.
    assert (is_Some (load (pool st) !! ts_type_id spec)) as [y Hy]%load_is_Some by by eexists. congruence. }
  assert (Hgr : grows st (set_pool db st)) by by split.
  assert (Hdefs : type_definitions db = <[ts_type_id spec := spec_row spec]> (type_definitions (pool st)))
    by (rewrite Hdb; done).
  assert (Hdata : entity_data db = entity_data (pool st)) by (rewrite Hdb; done).
  split; [|done]. constructor; cbn [pool set_pool registry wf_cache].
  - transitivity (load (pool st)); [exact H1|exact Hg].
  - intros t f [r' Hr']. rewrite Hdefs, lookup_insert_is_Some'.
    apply Hl in Hr' as [Hin|Hin]; simpl in Hin; [left|right].
    { by apply field_entries_spec in Hin as (-> & _). }
    eapply H2. by eexists.
  - exact Hord.
  - intros id row. rewrite Hdata. intros Hrow. apply (row_ok_grows st (set_pool db st)); [done|]. by apply (H4 id).
  - rewrite H5, Hdb. done.
  - destruct H6 as (td & Htd & Hnd' & Hw). exists td. split; [by eapply lookup_weaken|done].
Qed.

Lemma store_registry_law fresh st :
  fresh ⊆ load (pool st) -> law st (store_registry fresh st).2.
Proof. intros Hf [H1 H2 H3 H4 H5 H6]. split; [|by split]. by constructor. Qed.
End Statements.

(** ** Requests whose every statement keeps the law *)

Section Requests.
Context `{SerdeJson, Postgres, !FromSlice TypeSpec, !FromSlice RelInput, !FromSlice StartInput}.
Context `{!FromSlice HandoffInput, !FromSlice LevelInput, Reqwest, Env, Hmac, Jwt, Sha2, Build}.
Context `{UrlParams, FullText, HttpCrate, Deployment, Framework}.

(** The requests that write what they computed from what they read before. *)
Definition computes (e : Endpoint) : bool :=
  match e with CollCreate _ | ItemPut _ _ | ItemPatch _ _ | CreateType => true | _ => false end.

#[local] Existing Instance ignore_law.
Lemma handle_calm fr ctx rq e :
  computes e = false -> all_steps (fun X m => Respects law m) (prog (handle fr ctx rq e)).
Proof.
  intros He. destruct e; try discriminate He; clear He;
  each_statement ltac:(apply _).
Qed.

(** ** Requests that compute what they write *)

Hypothesis json_wf : forall b v, from_slice b = Ok v -> value_wf v.

Lemma registered st t td ctx :
  lawful st -> resolve (registry st) t ctx = Ok td -> load (pool st) !! t = Some td.
Proof. intros HI Hr. unfold resolve in Hr. apply ok_or_ok in Hr. by eapply lookup_weaken, (lf_registry _ HI). Qed.

Lemma loaded_type_id db t td : load db !! t = Some td -> TypeDef.type_id td = t.
Proof. rewrite load_lookup. by intros (row & _ & ->)%fmap_Some. Qed.

(** What a PUT or PATCH has decided to write is lawful, although it read the type, the object and
    the workflow at different times. *)
Lemma plan_row_ok u st1 st2 st3 ctx t id headers body td row payload sp v now :
  lawful st1 -> lawful st2 -> grows st1 st2 -> grows st2 st3 ->
  resolve (registry st1) t ctx = Ok td -> select_data id t (pool st2) = Some row ->
  read_json headers body (allow_merge u) = Ok payload -> check_input td payload false = Ok tt ->
  let data := candidate u td (d_data row) payload in
  validate_final td data = Ok tt ->
  (TypeDef.type_id td = "case" ->
     validate_case_change st3 id data (get_str "status" (d_data row)) ctx = Ok tt) ->
  row_ok (load (pool st3)) (wf_cache st3) (mkDataRow t data sp v now).
Proof.
  intros HI1 HI2 [Hg1 _] [Hg2 Hw2] Hr Hsel Hj Hin data Hfin Hcase.
  pose proof (lookup_weaken _ _ _ _ (registered _ _ _ _ HI1 Hr) Hg1) as Hl2.
  pose proof (lookup_weaken _ _ _ _ Hl2 Hg2) as Hl.
  exists td. cbn [d_type_id d_data]. split_and!; [done|done|]. intros ->.
  specialize (Hcase (loaded_type_id _ _ _ Hl)).
  apply validate_case_change_ok in Hcase as (wf & Hwf & _ & Hmove & _). exists wf. split; [done|].
  destruct (get_str "status" (d_data row)) as [old|] eqn:Eold; [|rewrite Hmove; apply rtc_refl].
  apply select_data_Some in Hsel as [Hrow Hty].
  destruct (lf_rows _ HI2 _ _ Hrow) as (_ & _ & _ & Hreach). destruct (Hreach Hty) as (wf' & Hwf' & Hr').
  unfold status_of in Hr' at 1. rewrite Eold in Hr'. simpl in Hr'.
  assert (Hsame : workflow_of data = workflow_of (d_data row)).
  { unfold workflow_of, get_str. destruct (lf_case_type _ HI2) as (td' & Htd' & Hnd & Hw).
    assert (td' = td) as -> by congruence. unfold data.
    unfold read_json in Hj. destruct (negb _) in Hj; [done|].
    destruct (from_slice body) as [w|] eqn:Ev; [|done]. destruct (is_object w) eqn:Eo; [|done].
    injection Hj as <-. rewrite candidate_preserves; [done|done|by eapply json_wf|done|done|].
    intros f Hf. by apply Hw. }
  rewrite Hsame, Hw2 in Hwf. assert (wf' = wf) as -> by congruence.
  destruct Hmove as [->|Hstep]; [done|]. unfold wf_reachable. by eapply rtc_r.
Qed.

(** So is what a POST has decided to create. *)
Lemma created_row_ok st ctx t td data sp v now :
  lawful st -> resolve (registry st) t ctx = Ok td -> validate_final td data = Ok tt ->
  (TypeDef.type_id td = "case" ->
     validate (wf_cache st) (default "default" (get_str "workflow_id" data)) None
       (default "" (get_str "status" data)) = Ok tt) ->
  row_ok (load (pool st)) (wf_cache st) (mkDataRow t data sp v now).
Proof.
  intros HI Hr Hfin Hcase. pose proof (registered _ _ _ _ HI Hr) as Hl. exists td.
  cbn [d_type_id d_data]. split_and!; [done|done|]. intros ->.
  rewrite (loaded_type_id _ _ _ Hl) in Hcase. specialize (Hcase eq_refl).
  apply validate_create_ok in Hcase as (wf & Hwf & _ & Hinit). exists wf. split; [done|].
  unfold status_of. rewrite Hinit. apply rtc_refl.
Qed.

Lemma create_txn_law td id t data sp actor st x db :
  create_txn td id t data sp actor (pool st) = Ok (x, db) ->
  row_ok (load (pool st)) (wf_cache st) (mkDataRow t data sp 1 (now (pool st))) ->
  law st (set_pool db st).
Proof.
  intros (label & cs & _ & _ & _ & _ & _ & _ & -> & _)%create_txn_ok Hrow.
  etransitivity; [by apply (law_insert st id (mkDataRow t data sp 1 (now (pool st))))|].
  apply law_frame. same_tac.
Qed.

Lemma update_data_law st id t data sp v n db :
  update_data id t data sp v (pool st) = Ok (n, db) ->
  (forall w, row_ok (load (pool st)) (wf_cache st) (mkDataRow t data sp w (now (pool st)))) ->
  law st (set_pool db st).
Proof.
  intros [[_ ->]|(_ & row & _ & _ & _ & _ & _ & ->)]%update_data_ok Hrow; [by rewrite set_pool_id|].
  by apply law_insert.
Qed.

(** Nothing is assumed of the states that are met. *)
Abbreviation any_state := (fun _ : AppState => True).
Abbreviation lawful_tree := (fun p st => safe any_state lawful grows p (fun _ _ => True) st).

(** Through what a tree reads: the state of each read, and what came of it. *)
Ltac read_tree := repeat first
  [ apply safe_pbind
  | apply (safe_get any_state lawful grows); intros ? _ ? ?
  | apply safe_done; intros ? ?
  | progress cbv beta zeta ].

(** The end of a request after its last lawful write. *)
Ltac calmly := apply safe_calm; each_statement ltac:(apply _).

(** Along the states of successive reads. *)
Ltac grows_tac :=
  repeat first [eassumption | reflexivity | etransitivity; [eassumption|]].

Lemma item_write_read_safe u ctx caller t id headers body st :
  safe any_state lawful grows (prog (item_write_read u ctx caller t id headers body))
    (fun p st' => forall v n, row_ok (load (pool st')) (wf_cache st')
       (mkDataRow t (p_data p) (p_scope p) v n)) st.
Proof.
  open_tree. read_tree. apply safe_decide. intros [] Hcase _. cbn [safe p_data p_scope]. intros v n.
  repeat match goal with x : unit |- _ => destruct x end.
  match goal with
  | H1 : resolve (registry ?s1) _ _ = Ok ?td, H2 : ok_or (select_data _ _ (pool ?s2)) _ = Ok ?row |- _ =>
      apply ok_or_ok in H2; eapply (plan_row_ok u s1 s2); try eassumption; grows_tac
  end.
Qed.

Lemma item_write_safe u ctx caller t id headers body st :
  lawful_tree (prog (item_write u ctx caller t id headers body)) st.
Proof.
  change (prog (item_write u ctx caller t id headers body))
    with (pbind (prog (item_write_read u ctx caller t id headers body))
            (fun p => prog (item_write_commit u ctx caller t id p))).
  apply safe_pbind. eapply safe_weaken; [|apply item_write_read_safe].
  intros p st1 Hrow. unfold item_write_commit_staged. open_tree.
  apply safe_pbind, safe_statement. intros st2 _ HI2 Hg.
  split; [|intros n st3 _ _ _; calmly].
  unfold run_sql. destruct (update_data _ _ _ _ _ _) as [[n db]|e] eqn:Hu; [|done].
  eapply update_data_law; [exact Hu|]. intros w. by apply (row_ok_grows st1).
Qed.

Lemma coll_create_safe ctx caller t headers body uuid st :
  lawful_tree (prog (coll_create ctx caller t headers body uuid)) st.
Proof.
  open_tree. read_tree. apply safe_decide. intros [] Hcase _. read_tree.
  apply safe_statement. intros st2 _ HI2 Hg. split; [|intros n st3 _ _ _; calmly].
  unfold run_sql. destruct (create_txn _ _ _ _ _ _ _) as [[n db]|e] eqn:Ht; [|done].
  eapply create_txn_law; [exact Ht|].
  match goal with Hr : resolve (registry ?s1) _ _ = Ok ?td, Hv : validate_final ?td ?data = Ok ?x |- _ =>
    apply (row_ok_grows s1); [grows_tac|]; destruct x; eapply created_row_ok; [done..|];
    intros Hc; by apply Hcase, map_err_ok in Hc end.
Qed.

Lemma create_type_safe ctx caller body st : lawful_tree (prog (create_type ctx caller body)) st.
Proof.
  open_tree. read_tree.
  apply safe_statement. intros st2 _ HI2 Hg. split; [apply respects_run_sql; apply _|].
  intros [] st3 _ HI3 _. apply safe_pbind, safe_statement. intros st4 _ HI4 Hg4. split; [by intros ?|].
  intros fresh st5 [= <- <-] _ _. apply safe_pbind, safe_statement. intros st6 _ HI6 [Hg6 _].
  split; [by apply store_registry_law|]. intros n st7 _ _ _. calmly.
Qed.

(** A request first looks up its caller. *)
Lemma authenticated_safe h (k : Caller.t -> M Response) `{!forall c, Staged (k c)} st :
  (forall c st', lawful_tree (prog (k c)) st') ->
  lawful_tree (pbind (prog (from_request_parts h)) (fun c => prog (k c))) st.
Proof.
  intros Hk. apply safe_pbind. open_tree. read_tree. apply Hk.
Qed.

Lemma handle_safe fr ctx rq e st : lawful_tree (prog (handle fr ctx rq e)) st.
Proof.
  destruct (computes e) eqn:He; [|by apply safe_calm, handle_calm].
  destruct e; try discriminate He; cbn [handle_staged prog staged_bind is_public];
    unfold item_put, item_patch; apply authenticated_safe; intros c st'.
  - apply coll_create_safe.
  - apply item_write_safe.
  - apply item_write_safe.
  - apply create_type_safe.
Qed.

Lemma tick_law t st : law st (set_pool (set_now t (pool st)) st).
Proof.
  intros [H1' H2' H3' H4' H5' H6'].
  assert (E : load (set_now t (pool st)) = load (pool st)) by by apply load_ext.
  split; [|split; [cbn [pool set_pool]; by rewrite E|done]].
  constructor; cbn [pool set_pool registry wf_cache]; rewrite ?E; done.
Qed.

(** A crash leaves the store, and the new process finds in it what the old one knew. *)
Lemma boot_law st : law st (boot (pool st)).
Proof.
  intros [H1' H2' H3' H4' H5' H6']. split; [|split; [done|by rewrite H5']].
  constructor; cbn [boot pool registry wf_cache]; [done|done|done|by rewrite <- H5'|done|done].
Qed.

(** C5 Objects and cases are lawful under every interleaving. However the statements of any
    number of requests, of any kind, from anyone, follow one another on the server, whichever of
    them are dropped half-way and wherever the process crashes and starts again: every object of a
    type other than actor and connector (whose data the server stamps itself) keeps conforming to
    its registered type and every case stays in a state that its workflow reaches, registered types
    never change, and the snapshot of the registry never shows anything else than they say. *)
Theorem lawful_under_interleaving st l st' :
  lawful st -> rtc (server_step any_request) ([], st) (l, st') ->
  (forall id row, entity_data (pool st') !! id = Some row ->
     exists td, load (pool st') !! d_type_id row = Some td /\
       (d_type_id row ∉ stamped ->
        exists obj, d_data row = JObject obj /\ Forall (field_valid obj) (TypeDef.fields td)) /\
       (d_type_id row = "case" -> exists wf, wf_cache st !! workflow_of (d_data row) = Some wf /\
          rtc (wf_step wf) (Workflow.initial wf) (status_of (d_data row)))) /\
  load (pool st) ⊆ load (pool st') /\ registry st' ⊆ load (pool st').
Proof.
  intros HI Hrun.
  destruct (rely_guarantee any_state lawful grows any_request ([], st) (l, st')) as (HI' & [Hg Hw] & _);
    [|apply tick_law|apply boot_law| |done|constructor|].
  { intros p s (fr & ctx & rq & e & ->). apply handle_safe. }
  { eapply rtc_subrel; [|exact Hrun]. by intros s s'. }
  cbn [fst snd] in *. split_and!; [|done|apply HI'].
  intros id row Hrow. destruct (lf_rows _ HI' id row Hrow) as (td & Htd & Hfin & Hcase).
  exists td. rewrite Hw in Hcase. split_and!; [done| |done]. intros Hn. by apply validate_final_ok, Hfin.
Qed.

(** ** What interleaving does break: the swap of the registry

    A registration reads the store and then swaps the snapshot, in two steps. A whole other
    registration fits in between, and the swap undoes its snapshot. *)

Lemma create_type_request fr ctx rq st r st' :
  handle fr ctx rq CreateType st = (Ok r, st') ->
  exists spec db evs,
    from_slice_as (A := TypeSpec) (rq_body rq) = Ok spec /\
    create_type_txn spec (pool st) = Ok (tt, db) /\
    st' = set_pool (set_events evs db) (set_registry (load db) st).
Proof.
  intros (c & st1 & Hc & Hr)%m_bind_ok.
  pose proof (read_only (m := from_request_parts (rq_headers rq)) st) as E. rewrite Hc in E. simpl in E. subst st1.
  apply create_type_ok in Hr as (spec & db & evs & _ & Hs & _ & Ht & ->). by exists spec, db, evs.
Qed.

(** Two administrators register types at the same time and both are answered 201. The second type
    is in the store, with all its fields, and the server does not know it. *)
Lemma registry_swap_race (frA frB : Fresh) (ctxA ctxB : RequestCtx) (rqA rqB : HttpRequest) st admin specA dbA rB stB :
  lawful st ->
  from_request_parts (rq_headers rqA) st = (Ok admin, st) -> Caller.is_platform_admin admin = true ->
  from_slice_as (A := TypeSpec) (rq_body rqA) = Ok specA -> validate_spec specA (registry st) = Ok tt ->
  create_type_txn specA (pool st) = Ok (tt, dbA) ->
  handle frB ctxB rqB CreateType (set_pool dbA st) = (Ok rB, stB) ->
  exists specB rA st',
    from_slice_as (A := TypeSpec) (rq_body rqB) = Ok specB /\
    rtc (server_step any_request) ([], st) ([Done (Ok rB); Done (Ok rA)], st') /\
    resp_status rA = CREATED /\ load (pool st') !! ts_type_id specB = Some (spec_type specB) /\
    registry st' !! ts_type_id specB = None.
Proof.
  intros HI Hc Hadm HsA Hv HtA HB.
  assert (HIA : lawful (set_pool dbA st)).
  { pose proof (create_type_txn_law specA st tt dbA HtA HI) as [HIA _]. exact HIA. }
  pose proof (create_type_request _ _ _ _ _ _ HB) as (specB & dbB & evs & HsB & HtB & HstB).
  destruct (create_type_registry _ _ _ _ (lf_fields _ HIA) (lf_ordinals _ HIA) HtB) as [Hnew _].
  pose proof (create_type_txn_ok _ _ _ _ HtB) as (Hnone & _).
  do 3 eexists. split; [exact HsB|]. split.
  - (* the first request up to its reload *)
    eapply rtc_l. { apply step_arrival. by exists frA, ctxA, rqA, CreateType. }
    cbn [handle_staged prog staged_bind is_public].
    etransitivity; [apply (steps_staged _ _ _ [] []); exact Hc|].
    unfold exec, create_type_staged. cbn [prog staged_bind].
    etransitivity; [by apply (steps_staged _ _ _ [] [])|].
    etransitivity; [apply (steps_staged _ _ _ [] []); by unfold ensure; rewrite Hadm|].
    etransitivity; [apply (steps_staged _ _ _ [] []); by rewrite HsA|].
    etransitivity; [apply (steps_staged _ _ _ [] []); by rewrite Hv|].
    etransitivity; [apply (steps_staged _ _ _ [] []); by unfold run_sql; rewrite HtA|].
    etransitivity; [by apply (steps_staged _ _ _ [] [])|].
    (* the second, from the beginning to the end *)
    eapply rtc_l. { apply step_arrival. by exists frB, ctxB, rqB, CreateType. }
    etransitivity; [apply (steps_all _ _ [])|]. rewrite prog_ok, HB.
    (* the swap *)
    etransitivity; [by apply (steps_staged _ _ _ [_] [])|].
    etransitivity; [by apply (steps_staged _ _ _ [_] [])|].
    apply rtc_refl.
  - rewrite HstB. split; [done|split].
    + rewrite <- Hnew. apply (f_equal (fun r => r !! _)), load_ext; reflexivity.
    + change (load dbA !! ts_type_id specB = None). change (type_definitions dbA !! ts_type_id specB = None) in Hnone.
      by rewrite load_lookup, Hnone.
Qed.
End Requests.
