(* ===== verification/Races.v ===== *)
(** * Races on one object

    What the versions of the objects guarantee on the concurrent server of [Staging]: a version
    never means two contents, and of the writes that name the same version at most one succeeds,
    whatever other requests do in between. *)

From S2P Require Import Prelude RustStr Encoding Config Json AppError Closure Schema Registry.
From S2P Require Import Workflow State Rbac Caller FieldPerms Objects Fixture ObjectHandlers.
From S2P Require Import ObjectProps Members Orchestrator Types Relations HttpClient Connectors Auth.
From S2P Require Import OAuth RateLimit Platform Search Steps Server ServerProps Staging.

Local Open Scope Z_scope.

(** ** Relations that every statement respects *)

Lemma all_steps_cut P e {A} (p : Prog A) : all_steps P p -> all_steps P (cut e p).
Proof. by destruct p. Qed.

Lemma steps_respect (R : relation AppState) `{!PreOrder R} admitted s s' :
  (forall p, admitted p -> all_steps (fun X m => Respects R m) p) ->
  (forall t st, R st (set_pool (set_now t (pool st)) st)) -> (forall st, R st (boot (pool st))) ->
  rtc (server_step admitted) s s' ->
  Forall (all_steps (fun X m => Respects R m)) s.1 ->
  R s.2 s'.2 /\ Forall (all_steps (fun X m => Respects R m)) s'.1.
Proof.
  intros Hadm Htick Hboot Hrun. induction Hrun as [s|s1 s2 s3 H1 _ IH]; [done|]. intros Hall.
  assert (Hs : R s1.2 s2.2 /\ Forall (all_steps (fun X m => Respects R m)) s2.1).
  { destruct H1 as [l1 l2 X m k st|p l st Hp|t l st|e p l1 l2 st|e l st]; cbn [fst snd] in *.
    - apply Forall_app in Hall as [Hl1 [[Hm Hk] Hl2]%Forall_cons]. split; [apply Hm|].
      apply Forall_app; split; [done|]. by constructor.
    - split; [done|]. constructor; [by apply Hadm|done].
    - by split.
    - split; [done|]. apply Forall_app in Hall as [Hl1 [Hp Hl2]%Forall_cons].
      apply Forall_app; split; [done|]. constructor; [by apply all_steps_cut|done].
    - split; [apply Hboot|]. apply Forall_fmap. eapply Forall_impl; [exact Hall|]. intros p. apply all_steps_cut. }
  destruct Hs as [HR Hall2]. destruct (IH Hall2) as [HR2 Hall3]. split; [by etransitivity|done].
Qed.

(** ** The server seen from one version of one object *)

Section Version.
Context (id : string) (v : Z).

(** The object is gone or beyond the version. *)
Definition spent (st : AppState) : Prop :=
  forall row, entity_data (pool st) !! id = Some row -> v < d_version row.

(** A statement that takes the version. *)
Definition takes (st st' : AppState) : Prop :=
  (exists row, entity_data (pool st) !! id = Some row /\ d_version row = v) /\ spent st'.

(** A tree that succeeds only if one of its statements takes the version. *)
Fixpoint contends {A} (p : Prog A) (Q : A -> Prop) : Prop :=
  match p with
  | Done (Ok a) => Q a
  | Done (Err _) => True
  | Step m k => forall st, takes st (m st).2 \/ contends (k (m st).1) Q
  end.

Lemma contends_pbind {A B} (p : Prog A) (q : A -> Prog B) Q :
  contends p (fun a => contends (q a) Q) -> contends (pbind p q) Q.
Proof.
  induction p as [[a|e]|X m k IH]; [done..|]. cbn. intros Hp st. destruct (Hp st) as [Ht|Hk]; [by left|].
  right. by apply IH.
Qed.

Lemma contends_done {A} (r : AppResult A) (Q : A -> Prop) :
  (forall a, r = Ok a -> Q a) -> contends (Done r) Q.
Proof. destruct r; cbn; auto. Qed.

Lemma contends_get (Q : AppState -> Prop) : (forall st, Q st) -> contends (Step get_state Done) Q.
Proof. intros HQ st. right. apply HQ. Qed.

Lemma contends_decide {A} (P : Prop) `{Decision P} (r1 r2 : AppResult A) (Q : A -> Prop) :
  (forall a, Q a) -> contends (if decide P then Done r1 else Done r2) Q.
Proof. intros HQ. destruct (decide P); apply contends_done; auto. Qed.

(** A conditional statement and the test of the number of its rows. *)
Lemma contends_cas {A} (m : SqlM Z) (k : AppResult Z -> Prog A) Q :
  (forall st n db, m (pool st) = Ok (n, db) -> n = 0 \/ takes st (set_pool db st)) ->
  contends (k (Ok 0)) Q -> (forall e, contends (k (Err e)) Q) ->
  contends (Step (run_sql m) k) Q.
Proof.
  intros Hm H0 He st. unfold run_sql. destruct (m (pool st)) as [[n db]|e] eqn:E; [|right; apply He].
  destruct (Hm st n db E) as [->|Ht]; [by right|by left].
Qed.

(** *** Two contenders *)

Context (minted : string -> Prop) (Hfresh : ~ minted id).

Lemma spent_steps st st' : data_steps minted st st' -> spent st -> spent st'.
Proof.
  intros Hs Hst row' Hrow'. destruct (data_steps_row _ _ _ _ _ Hs Hfresh Hrow') as (row & Hrow & _ & Hle & _).
  specialize (Hst row Hrow). lia.
Qed.

Abbreviation loses := (fun p => contends p (fun _ : Response => False)).

(** Whether the version is still to be taken decides how many may lose. *)
Definition contest (a b : Prog Response) (st : AppState) : Prop :=
  (loses a /\ loses b) \/ spent st /\ (loses a \/ loses b).

Lemma takes_unspent st st' : takes st st' -> ~ spent st.
Proof. intros [(row & Hrow & Hv) _] Hs. specialize (Hs row Hrow). lia. Qed.

Lemma contest_sym a b st : contest a b st -> contest b a st.
Proof. unfold contest. tauto. Qed.

Lemma contest_step X (m : M X) k b st :
  Respects (data_steps minted) m -> contest (Step m k) b st -> contest (k (m st).1) b (m st).2.
Proof.
  intros Hm. assert (Hsp : spent st -> spent (m st).2) by (apply spent_steps, Hm).
  intros [[Ha Hb]|[Hs [Ha|Hb]]].
  - destruct (Ha st) as [Ht|Ha']; [right|by left]. split; [apply Ht|by right].
  - right. split; [by apply Hsp|]. destruct (Ha st) as [Ht|Ha']; [|by left]. by destruct (takes_unspent _ _ Ht).
  - right. split; [by apply Hsp|by right].
Qed.

Lemma contest_cut e a b st : contest a b st -> contest (cut e a) b st.
Proof.
  assert (Hc : loses a -> loses (cut e a)) by (by destruct a as [[]|]).
  unfold contest. tauto.
Qed.

Lemma contest_frame a b st st' : data_steps minted st st' -> contest a b st -> contest a b st'.
Proof. intros Hs [?|[Hsp ?]]; [by left|right]. split; [by eapply spent_steps|done]. Qed.

(** Where a statement of the server is: in front of the last two trees, or one of them. *)
Lemma last_two {T} (l l1 l2 : list T) (a b x : T) :
  l ++ [a; b] = l1 ++ x :: l2 ->
  (exists l2', l2 = l2' ++ [a; b] /\ l = l1 ++ x :: l2') \/
  (l1 = l /\ x = a /\ l2 = [b]) \/ (l1 = l ++ [a] /\ x = b /\ l2 = []).
Proof.
  revert l1. induction l as [|y l IH]; intros [|z l1]; cbn; intros E.
  - injection E as <- <-. by right; left.
  - injection E as <- E. destruct l1 as [|z l1]; cbn in E; [injection E as <- <-; by right; right|].
    injection E as _ E. by destruct l1.
  - injection E as <- <-. left. by exists l.
  - injection E as <- E. destruct (IH l1 E) as [(l2' & -> & ->)|[(-> & -> & ->)|(-> & -> & ->)]]; eauto.
Qed.

Lemma contest_run admitted l a b st s' :
  (forall p, admitted p -> all_steps (fun X m => Respects (data_steps minted) m) p) ->
  rtc (server_step admitted) (l ++ [a; b], st) s' ->
  Forall (all_steps (fun X m => Respects (data_steps minted) m)) (l ++ [a; b]) ->
  contest a b st ->
  exists l' a' b', s'.1 = l' ++ [a'; b'] /\ contest a' b' s'.2.
Proof.
  intros Hadm Hrun. remember (l ++ [a; b], st) as s eqn:Es. revert l a b st Es.
  induction Hrun as [s|s1 s2 s3 H1 Hrest IH]; intros l a b st ->; [by eexists _, _, _|]. intros Hall Hc.
  assert (Hnext : Forall (all_steps (fun X m => Respects (data_steps minted) m)) s2.1 /\
            exists l' a' b' st', s2 = (l' ++ [a'; b'], st') /\ contest a' b' st').
  { split.
    { eapply (steps_respect (data_steps minted) admitted); [done|..|by apply rtc_once|done];
        intros; apply rtc_refl. }
    remember (l ++ [a; b], st) as s1 eqn:Es.
    destruct H1 as [l1 l2 X m k st1|p l0 st1 Hp|t l0 st1|e p l1 l2 st1|e l0 st1]; injection Es as El ->.
    - symmetry in El. pose proof Hall as Hm. rewrite El in Hm. apply Forall_app in Hm as [_ [[Hm _] _]%Forall_cons].
      apply last_two in El as [(l2' & -> & _)|[(-> & <- & ->)|(-> & <- & ->)]].
      + eexists (l1 ++ k (m st).1 :: l2'), a, b, _. split; [by rewrite <- app_assoc|].
        eapply contest_frame; [apply Hm|done].
      + eexists l, _, b, _. split; [done|]. by apply contest_step.
      + eexists l, a, _, _. split; [by rewrite <- app_assoc|]. by apply contest_sym, contest_step, contest_sym.
    - rewrite El. by exists (p :: l), a, b, st.
    - rewrite El. eexists l, a, b, _. split; [done|]. eapply contest_frame; [|done]. apply rtc_refl.
    - symmetry in El. apply last_two in El as [(l2' & -> & _)|[(-> & <- & ->)|(-> & <- & ->)]].
      + eexists (l1 ++ cut e p :: l2'), a, b, st. by rewrite <- app_assoc.
      + eexists l, _, b, st. split; [done|]. by apply contest_cut.
      + eexists l, a, _, st. split; [by rewrite <- app_assoc|]. by apply contest_sym, contest_cut, contest_sym.
    - rewrite El, fmap_app. eexists (cut e <$> l), _, _, _. split; [done|].
      apply contest_cut, contest_sym, contest_cut, contest_sym.
      eapply contest_frame; [|exact Hc]. apply rtc_refl. }
  destruct Hnext as [Hall2 (l2 & a2 & b2 & st2 & -> & Hc2)]. by eapply IH.
Qed.
End Version.

(** ** The requests *)

Section Requests.
Context `{SerdeJson, Postgres, !FromSlice TypeSpec, !FromSlice RelInput, !FromSlice StartInput}.
Context `{!FromSlice HandoffInput, !FromSlice LevelInput, Reqwest, Env, Hmac, Jwt, Sha2, Build}.
Context `{UrlParams, FullText, HttpCrate, Deployment, Framework}.

(** The requests whose identifiers for new objects are among [minted]. *)
Definition requests (minted : string -> Prop) (p : Prog Response) : Prop :=
  exists fr ctx rq e, (forall id, minted_by fr id -> minted id) /\ p = prog (handle fr ctx rq e).

Lemma insert_minted fr prefix t data sp :
  SqlRespects (data_steps (minted_by fr)) (insert_data (mint prefix (fr_uuid fr)) t data sp).
Proof. apply insert_data_steps. by eexists. Qed.
#[local] Existing Instance insert_minted.

Lemma create_txn_steps fr td prefix t data sp actor :
  SqlRespects (data_steps (minted_by fr)) (create_txn td (mint prefix (fr_uuid fr)) t data sp actor).
Proof. unfold create_txn. apply _. Qed.
#[local] Existing Instance create_txn_steps.

Lemma ignore_steps minted {A} (m : M A) :
  Respects (data_steps minted) m -> Respects (data_steps minted) (ignore m).
Proof. intros Hm st. apply Hm. Qed.
#[local] Existing Instance ignore_steps.

Lemma handle_statements fr ctx rq e :
  all_steps (fun X m => Respects (data_steps (minted_by fr)) m) (prog (handle fr ctx rq e)).
Proof. destruct e; each_statement ltac:(apply _). Qed.

Lemma requests_respect minted p :
  requests minted p -> all_steps (fun X m => Respects (data_steps minted) m) p.
Proof.
  intros (fr & ctx & rq & e & Hm & ->). generalize (handle_statements fr ctx rq e).
  generalize (prog (handle fr ctx rq e)). intros p.
  induction p as [r|X m k IH]; [done|]. intros [Hs Hk]. split; [|by intros r; apply IH].
  intros st. eapply data_steps_mono; [exact Hm|apply Hs].
Qed.

(** C19 A version identifies a content under every interleaving. However the statements of any
    requests follow one another on the server, through drops and crashes: an object that is there
    before and after keeps its type, its version does not decrease, and if it is the same then so is
    the content (actors aside, whose role the first-admin claim sets in place). *)
Theorem versions_under_interleaving minted st l st' id row row' :
  rtc (server_step (requests minted)) ([], st) (l, st') -> ~ minted id ->
  entity_data (pool st) !! id = Some row -> entity_data (pool st') !! id = Some row' ->
  d_type_id row' = d_type_id row /\ d_version row <= d_version row' /\
  (d_type_id row <> "actor" -> d_version row' = d_version row -> d_data row' = d_data row).
Proof.
  intros Hrun Hid Hrow Hrow'.
  destruct (steps_respect (data_steps minted) _ _ _ (requests_respect minted)
              ltac:(intros; apply rtc_refl) ltac:(intros; apply rtc_refl) Hrun (Forall_nil_2 _)) as [Hs _]. cbn [snd] in Hs.
  destruct (data_steps_row _ _ _ _ _ Hs Hid Hrow') as (row0 & Hrow0 & Hn).
  by assert (row0 = row) as -> by congruence.
Qed.

(** The writes of one item. *)
Definition writes_item (e : Endpoint) (t id : string) : Prop :=
  e = ItemPut t id \/ e = ItemPatch t id \/ e = ItemDelete t id.

Lemma update_takes id t data sp v st n db :
  update_data id t data sp v (pool st) = Ok (n, db) -> n = 0 \/ takes id v st (set_pool db st).
Proof.
  intros [[-> _]|(_ & row & Hrow & _ & Hv & _ & _ & ->)]%update_data_ok; [by left|right].
  split; [by exists row|]. intros r. cbn [pool set_pool entity_data set_entity_data].
  rewrite lookup_insert_eq. intros [= <-]. simpl. lia.
Qed.

Lemma delete_takes id t v st n db :
  delete_object id t v (pool st) = Ok (n, db) -> n = 0 \/ takes id v st (set_pool db st).
Proof.
  intros [[-> _]|(_ & row & Hrow & _ & Hv & _ & ->)]%delete_object_ok; [by left|right].
  split; [by exists row|]. intros r. cbn [pool set_pool]. unfold delete_entity.
  cbn [entity_data]. rewrite lookup_fmap, lookup_delete_eq. done.
Qed.

(** Through what a tree reads. *)
Ltac read_tree := repeat first
  [ apply contends_pbind
  | apply contends_get; intros ?
  | apply contends_done; intros ? ?
  | apply contends_decide; intros ?
  | progress cbv beta zeta ].

Lemma item_write_contends u ctx c t id headers body v :
  if_match headers = Some (Some v) ->
  contends id v (prog (item_write u ctx c t id headers body)) (fun _ => False).
Proof.
  intros Him. unfold item_write_staged, item_write_read_staged, item_write_commit_staged. open_tree.
  read_tree. cbn [p_expected].
  match goal with He : require_if_match _ _ = Ok ?w |- _ =>
    apply require_if_match_ok in He; assert (w = v) as -> by congruence end.
  apply contends_cas; [intros ? ? ?; apply update_takes|exact I|done].
Qed.

Lemma item_delete_contends ctx c t id headers v :
  if_match headers = Some (Some v) ->
  contends id v (prog (item_delete ctx c t id headers)) (fun _ => False).
Proof.
  intros Him. open_tree. read_tree.
  match goal with He : require_if_match _ _ = Ok ?w |- _ =>
    apply require_if_match_ok in He; assert (w = v) as -> by congruence end.
  apply contends_cas; [intros ? ? ?; apply delete_takes|exact I|done].
Qed.

Lemma caller_contends h id v (Q : Caller.t -> Prop) :
  (forall c, Q c) -> contends id v (prog (from_request_parts h)) Q.
Proof. intros HQ. open_tree. read_tree. apply HQ. Qed.

Lemma writes_contend fr ctx rq e t id v :
  writes_item e t id -> if_match (rq_headers rq) = Some (Some v) ->
  contends id v (prog (handle fr ctx rq e)) (fun _ => False).
Proof.
  intros [->|[->| ->]] Him; cbn [handle_staged prog staged_bind is_public]; unfold item_put, item_patch;
    apply contends_pbind, caller_contends; intros c.
  - by apply item_write_contends.
  - by apply item_write_contends.
  - by apply item_delete_contends.
Qed.

(** C6 One writer per version. Of two requests that write or delete the same object and name the
    same version of it, at most one succeeds: however their statements and those of any other
    requests follow one another on the server, whoever sends them and whatever is cut short. *)
Theorem one_writer_per_version minted frA frB ctxA ctxB rqA rqB eA eB t id v st l outA outB st' :
  writes_item eA t id -> writes_item eB t id ->
  if_match (rq_headers rqA) = Some (Some v) -> if_match (rq_headers rqB) = Some (Some v) ->
  (forall i, minted_by frA i \/ minted_by frB i -> minted i) -> ~ minted id ->
  rtc (server_step (requests minted))
    ([prog (handle frA ctxA rqA eA); prog (handle frB ctxB rqB eB)], st)
    (l ++ [Done outA; Done outB], st') ->
  ~ (is_ok outA = true /\ is_ok outB = true).
Proof.
  intros HA HB HiA HiB Hm Hid Hrun [HoA HoB].
  assert (Hall : Forall (all_steps (fun X m => Respects (data_steps minted) m))
            [prog (handle frA ctxA rqA eA); prog (handle frB ctxB rqB eB)]).
  { constructor; [|constructor; [|constructor]]; apply requests_respect;
      [exists frA, ctxA, rqA, eA|exists frB, ctxB, rqB, eB]; (split; [|reflexivity]); intros i Hi; apply Hm; tauto. }
  destruct (contest_run id v minted Hid (requests minted) [] _ _ st _ (requests_respect minted) Hrun Hall)
    as (l' & a' & b' & El & Hc).
  { left. by split; eapply writes_contend. }
  cbn [fst snd] in *. apply app_inj_2 in El as [_ [= <- <-]]; [|done].
  destruct outA as [?|]; [|done]. destruct outB as [?|]; [|done]. destruct Hc as [[[] _]|[_ [[]|[]]]].
Qed.
End Requests.
