(* ===== verification/Trespass.v ===== *)
(** * Who may not edit an object cannot change it, however requests interleave

    [Authority] for the concurrent server of [Staging]. A guard and the write it guards are
    different statements: rights may be granted and withdrawn in between, runs may lose their
    cases. If at no moment of a run one of its callers may edit the object, then none of the
    statements of their requests changes it, adds to it or gives rights on it. *)

From S2P Require Import Prelude RustStr Encoding Config Json AppError Closure Schema Registry.
From S2P Require Import Workflow State Rbac Caller FieldPerms Objects Fixture ObjectHandlers.
From S2P Require Import ObjectProps Lifecycle RbacProps Members MemberProps Orchestrator Pipeline.
From S2P Require Import Types TypeProps Relations HttpClient Connectors Auth OAuth RateLimit.
From S2P Require Import Platform Search Steps Server ServerProps Footprint Staging Authority.

Local Open Scope Z_scope.

(** ** What is kept of the object, and of the runs *)

(** A run keeps its case, or loses it when the case is deleted. *)
Definition runs_kept : relation AppState := fun st st' =>
  forall f r, feature_runs (pool st) !! f = Some r ->
    exists r', feature_runs (pool st') !! f = Some r' /\
      (f_case_id r' = f_case_id r \/ f_case_id r' = None).

#[export] Instance runs_kept_preorder : PreOrder runs_kept.
Proof.
  split; [by intros st f r Hr; exists r; auto|]. intros x y z H1 H2 f r (r1 & Hr1 & E1)%H1.
  destruct (H2 f r1 Hr1) as (r2 & Hr2 & E2). exists r2. split; [done|].
  destruct E2 as [->|]; [done|by right].
Qed.

Definition no_runs : list Table :=
  [Ttypes; Tfields; Tentities; Tdata; Tmemberships; Tcases; Tchecks; Trelations; Thandoffs;
   Tsessions; Tidentities; Tevents; Tregistry].

Lemma touches_runs_kept st st' : touches no_runs st st' -> runs_kept st st'.
Proof.
  intros [Ht _] f r Hr. exists r. split; [|by left].
  assert (E : feature_runs (pool st') = feature_runs (pool st)) by (apply (Ht Truns); by_eval).
  by rewrite E.
Qed.

#[export] Instance runs_kept_touches {A} (m : M A) :
  Respects (touches no_runs) m -> Respects runs_kept m | 20.
Proof. intros Hm st. apply touches_runs_kept, Hm. Qed.
#[export] Instance sql_runs_kept_touches {A} (m : SqlM A) :
  SqlRespects (touches no_runs) m -> SqlRespects runs_kept m | 20.
Proof. intros Hm st a db Hr. apply touches_runs_kept. by eapply Hm. Qed.

#[export] Instance insert_run_kept f c t : SqlRespects runs_kept (insert_run f c t).
Proof.
  intros st a db Hr. unfold insert_run in Hr. case_decide as Hn; [done|]. case_match; [|done].
  injection Hr as _ <-. intros g r Hg. exists r. split; [|by left]. cbn.
  rewrite lookup_insert_ne; [done|]. intros ->. apply Hn. by eexists.
Qed.

#[export] Instance update_run_kept f p s : SqlRespects runs_kept (update_run f p s).
Proof.
  intros st a db [= _ <-] g r Hg. cbn. destruct (decide (f = g)) as [->|Hne].
  - rewrite lookup_alter_eq, Hg. eexists. split; [done|by left].
  - rewrite lookup_alter_ne by done. eauto.
Qed.

#[export] Instance delete_object_kept i t v : SqlRespects runs_kept (delete_object i t v).
Proof.
  intros st a db [[_ ->]|(_ & row & _ & _ & _ & _ & ->)]%delete_object_ok g r Hg; [by rewrite set_pool_id; eauto|].
  cbn. rewrite lookup_fmap, Hg. eexists. split; [done|]. cbn. unfold null_if. case_decide; auto.
Qed.

Section Object.
Context (id : string).

Definition here (st : AppState) : Prop := is_Some (entities (pool st) !! id).

Definition spared : relation AppState := fun st st' =>
  kept id (pool st) (pool st') /\ runs_kept st st'.
#[export] Instance spared_preorder : PreOrder spared.
Proof.
  split; [by intros st; split; [apply kept_refl|]|]. intros x y z [K1 R1] [K2 R2].
  split; [by eapply kept_trans|by etransitivity].
Qed.

Abbreviation spares := (guarantee here spared).

Lemma spares_spec st st' : untouched id st st' -> runs_kept st st' -> spares st st'.
Proof.
  intros Hu Hr Hid. specialize (Hu Hid). split; [|by split]. unfold here. by rewrite (kp_entity _ _ _ Hu).
Qed.

#[export] Instance spares_respects {A} (m : M A) :
  Respects (untouched id) m -> Respects runs_kept m -> Respects spares m | 20.
Proof. intros Hu Hr st. apply spares_spec; [apply Hu|apply Hr]. Qed.
#[export] Instance sql_spares_respects {A} (m : SqlM A) :
  SqlRespects (untouched id) m -> SqlRespects runs_kept m -> SqlRespects spares m | 20.
Proof. intros Hu Hr st a db Hm. apply spares_spec; [by eapply Hu|by eapply Hr]. Qed.

(** A new object is none of those that exist. *)
#[export] Instance create_txn_untouched `{SerdeJson, Postgres} td i t data sp actor :
  SqlRespects (untouched id) (create_txn td i t data sp actor).
Proof.
  intros st x db (label & cs & Hnone & _ & _ & _ & _ & _ & -> & Hnc & Hc)%create_txn_ok [e He].
  assert (Hne : i <> id) by (intros E; rewrite E in Hnone; congruence).
  assert (Hcs : cs !! id = cases (pool st) !! id).
  { destruct (decide (TypeDef.type_id td = "case")) as [E|E]; [rewrite (Hc E); by rewrite lookup_insert_ne|].
    by rewrite (Hnc E). }
  apply kept_ext; cbn; try done; try by rewrite lookup_insert_ne.
  intros m row. rewrite lookup_insert_ne by congruence. done.
Qed.
#[export] Instance create_txn_runs_kept `{SerdeJson, Postgres} td i t data sp actor :
  SqlRespects runs_kept (create_txn td i t data sp actor).
Proof. unfold create_txn. apply _. Qed.

(** ** The callers of a run *)

Context `{SerdeJson, Postgres, !FromSlice TypeSpec, !FromSlice RelInput, !FromSlice StartInput}.
Context `{!FromSlice HandoffInput, !FromSlice LevelInput, Reqwest, Env, Hmac, Jwt, Sha2, Build}.
Context `{UrlParams, FullText, HttpCrate, Deployment, Framework}.
Context (Sent : HttpRequest -> Prop) (Who : Caller.t -> Prop).

(** The requests speak for these callers only, and none of them may edit the object (or is it). *)
Definition strangers (st : AppState) : Prop :=
  (forall rq c, Sent rq -> from_request_parts (rq_headers rq) st = (Ok c, st) -> Who c) /\
  (forall c, Who c -> Caller.actor_id c <> id /\ ~ holds_rank (pool st) c id 2).

Abbreviation spared_tree := (fun p st => safe strangers here spared p (fun _ _ => True) st).

Ltac read_tree := repeat first
  [ apply safe_pbind
  | apply (safe_get strangers here spared); intros ? ? ? ?
  | apply safe_done; intros ? ?
  | progress cbv beta zeta ].

(** The rest of a request about another object. *)
Ltac calmly :=
  repeat (apply safe_calm_then; [each_statement ltac:(apply _)|intros ? ?]); exact I.

(** A guard that the caller passed at some moment is about another object. *)
Lemma holds_rank_weaken db c i min min' : min' <= min -> holds_rank db c i min -> holds_rank db c i min'.
Proof. intros Hle [Ha|Hr]; [by left|right]. destruct (effective_rank _ _ _); [lia|done]. Qed.

Lemma barred st c i min :
  strangers st -> Who c -> 2 <= min -> holds_rank (pool st) c i min -> Other i id.
Proof.
  intros [_ Hout] Hc Hmin Hr ->. apply (proj2 (Hout c Hc)). by eapply holds_rank_weaken.
Qed.

Lemma barred_action st c td i a :
  strangers st -> Who c -> 2 <= action_floor a -> require_action (pool st) c td (Some i) a = true -> Other i id.
Proof. intros HA Hc Hf Hr. eapply barred; [done..|]. by eapply require_action_holds. Qed.

Lemma barred_rank st c i min ctx r :
  strangers st -> Who c -> 2 <= min -> require_rank (pool st) c i min ctx = Ok r -> Other i id.
Proof. intros HA Hc Hf Hr. eapply barred; [done..|]. by eapply require_rank_holds. Qed.

Lemma barred_reach st c i a :
  strangers st -> Who c -> 2 <= action_floor a -> reach_action st c i a = true -> Other i id.
Proof. intros HA Hc Hf Hr. eapply barred; [done..|]. by eapply reach_action_holds. Qed.

(** Find the guard and its state. *)
Ltac other_tac i :=
  assert (Other i id) by
    match goal with
    | HA : strangers ?st, H : (if require_action (pool ?st) ?c ?td (Some i) ?a then _ else _) = Ok _ |- _ =>
        destruct (require_action (pool st) c td (Some i) a) eqn:?; [|discriminate H];
        by eapply (barred_action st c td i a)
    | HA : strangers ?st, H : require_rank (pool ?st) ?c i ?min _ = Ok _ |- _ =>
        by eapply (barred_rank st c i min)
    | HA : strangers ?st, H : (if reach_action ?st ?c i ?a then _ else _) = Ok _ |- _ =>
        destruct (reach_action st c i a) eqn:?; [|discriminate H]; by eapply (barred_reach st c i a)
    end.

Section Caller.
Context (c : Caller.t) (Hc : Who c).

Lemma item_write_spared u ctx t i headers body st : spared_tree (prog (item_write u ctx c t i headers body)) st.
Proof.
  unfold item_write_staged, item_write_read_staged, item_write_commit_staged. open_tree. read_tree.
  apply safe_decide. intros ? _ _. read_tree. other_tac i. calmly.
Qed.

Lemma item_delete_spared ctx t i headers st : spared_tree (prog (item_delete ctx c t i headers)) st.
Proof. open_tree. read_tree. other_tac i. calmly. Qed.

Lemma add_member_spared ctx t i headers body st : spared_tree (prog (add_member ctx c t i headers body)) st.
Proof. open_tree. read_tree. other_tac i. calmly. Qed.

Lemma set_member_spared ctx t i m headers body st : spared_tree (prog (set_member ctx c t i m headers body)) st.
Proof. open_tree. read_tree. other_tac i. calmly. Qed.

Lemma record_check_spared ctx t i n headers body st : spared_tree (prog (record_check ctx c t i n headers body)) st.
Proof. open_tree. read_tree. other_tac i. calmly. Qed.

Lemma run_connector_spared ctx i st : spared_tree (prog (run_connector ctx c i)) st.
Proof. open_tree. read_tree. other_tac i. calmly. Qed.

Lemma create_relation_spared ctx body uuid st : spared_tree (prog (create_relation ctx c body uuid)) st.
Proof.
  open_tree. read_tree.
  match goal with
  | HA : strangers ?s1, H : (if reach_action ?s1 _ ?i _ && _ then _ else _) = Ok _ |- _ =>
      destruct (reach_action s1 c i Edit) eqn:E; [|discriminate H];
      assert (Other i id) by by eapply (barred_reach s1 c i Edit)
  end.
  calmly.
Qed.

(** The case of a run that the caller may work on is another object. *)
Lemma barred_run st cid ctx x :
  strangers st -> require_run_authority st c cid Edit ctx = Ok x -> exists k, cid = Some k /\ Other k id.
Proof.
  intros HA Hr. apply require_run_authority_ok in Hr. destruct cid as [k|].
  - exists k. split; [done|]. by eapply (barred_reach st c k Edit).
  - exfalso. apply (proj2 (proj2 HA c Hc)). by left.
Qed.

Lemma insert_run_untouched f k t : Other k id -> SqlRespects (untouched id) (insert_run f (Some k) t).
Proof.
  intros Hne st a db Hr. unfold insert_run in Hr. case_decide as Hn; [done|]. case_match; [|done].
  injection Hr as _ <-. kept_tac. intros g r [[_ <-]|[_ ?]]%lookup_insert_Some; [|done].
  cbn. intros [= E]. by destruct (Hne E).
Qed.

Lemma start_run_spared ctx body uuid st : spared_tree (prog (start_run ctx c body uuid)) st.
Proof.
  open_tree. read_tree.
  match goal with HA : strangers ?s, H : require_run_authority ?s _ _ _ _ = Ok _ |- _ =>
    destruct (barred_run s _ _ _ HA H) as (k & -> & Hk) end.
  pose proof (insert_run_untouched (mint "FRN" uuid) k) as Hins. calmly.
Qed.

Lemma update_run_spared st f k p s :
  (exists r, feature_runs (pool st) !! f = Some r /\ (f_case_id r = Some k \/ f_case_id r = None)) ->
  Other k id -> spares st (run_sql (update_run f p s) st).2.
Proof.
  intros (r & Hr & Hcase) Hne. apply spares_spec; [|by apply (update_run_kept f p s st tt)].
  kept_tac. intros g r' Hg Hid. destruct (decide (f = g)) as [->|Hfg]; [|by rewrite lookup_alter_ne in Hg].
  rewrite lookup_alter_eq, Hr in Hg. injection Hg as <-. cbn in Hid.
  destruct Hcase as [E|E]; rewrite E in Hid; [|done]. injection Hid as E'. by destruct (Hne E').
Qed.

(** Along the states of successive steps. *)
Ltac chain_tac := repeat first [eassumption | reflexivity | etransitivity; [eassumption|]].

Lemma record_handoff_spared ctx f body st : spared_tree (prog (record_handoff ctx c f body)) st.
Proof.
  open_tree. read_tree.
  match goal with
  | HA : strangers ?s, H : require_run_authority ?s _ (f_case_id ?run) _ _ = Ok _,
    H1 : ok_or (feature_runs (pool ?s1) !! f) _ = Ok ?run |- _ =>
    destruct (barred_run s _ _ _ HA H) as (k & Hk & Hne); apply ok_or_ok in H1;
    rename s1 into s_run; rename H1 into Hrun
  end.
  apply safe_statement. intros s2 _ _ HR2. split; [apply respects_run_sql; apply _|].
  intros ? s3 _ _ HR3. apply safe_pbind, safe_statement. intros s4 _ _ HR4.
  assert (Hchain : spared s_run s4) by chain_tac.
  split; [|intros ? ? _ _ _; calmly].
  destruct (proj2 Hchain f _ Hrun) as (r' & Hr' & Hcase). eapply update_run_spared; [|exact Hne].
  exists r'. split; [exact Hr'|]. rewrite <- Hk. exact Hcase.
Qed.

Lemma claim_admin_spared st : spared_tree (prog (claim_admin c)) st.
Proof.
  open_tree. apply safe_pbind, safe_statement. intros s1 [_ HA] _ _.
  pose proof (proj1 (HA c Hc)) as Hne. change (Other (Caller.actor_id c) id) in Hne.
  split; [apply respects_run_sql; apply _|]. intros ? ? _ _ _. calmly.
Qed.

(** The requests that act on what a path or a body names. *)
Definition acts (e : Endpoint) : bool :=
  match e with
  | ItemPut _ _ | ItemPatch _ _ | ItemDelete _ _ | AddMember _ _ | SetMember _ _ _
  | RecordCheck _ _ _ | RunConnector _ | CreateRelation | StartRun | RecordHandoff _ | ClaimAdmin => true
  | _ => false
  end.
End Caller.

Lemma calm_request fr ctx rq e :
  acts e = false -> all_steps (fun X m => Respects spares m) (prog (handle fr ctx rq e)).
Proof.
  intros He. destruct e; try discriminate He; clear He; each_statement ltac:(apply _).
Qed.

Lemma caller_known rq st :
  Sent rq ->
  safe strangers here spared (prog (from_request_parts (rq_headers rq))) (fun c _ => Who c) st.
Proof.
  intros Hs. open_tree. read_tree.
  match goal with HA : strangers ?s, E : Ok _ = Ok _ |- Who _ =>
    injection E as <-; apply (proj1 HA rq _ Hs); by eapply from_request_parts_found end.
Qed.

Lemma handle_spared fr ctx rq e st : Sent rq -> spared_tree (prog (handle fr ctx rq e)) st.
Proof.
  intros Hs. destruct (acts e) eqn:He; [|by apply safe_calm, calm_request].
  destruct e; try discriminate He; cbn [handle_staged prog staged_bind is_public];
    unfold item_put, item_patch; apply safe_pbind;
    (eapply safe_weaken; [|by apply caller_known]); intros c s1 Hc.
  - by apply item_write_spared.
  - by apply item_write_spared.
  - by apply item_delete_spared.
  - by apply add_member_spared.
  - by apply set_member_spared.
  - by apply record_check_spared.
  - by apply create_relation_spared.
  - by apply start_run_spared.
  - by apply record_handoff_spared.
  - by apply run_connector_spared.
  - by apply claim_admin_spared.
Qed.

Lemma same_tables_spares st st' : pool st' = pool st -> spares st st'.
Proof.
  intros E. apply spares_spec; [intros _; rewrite E; apply kept_refl|].
  intros f r Hr. rewrite E. exists r. auto.
Qed.
Lemma tick_spares t st : spares st (set_pool (set_now t (pool st)) st).
Proof.
  apply spares_spec; [intros _; by eapply kept_ext; cbn|]. intros f r Hr. exists r. auto.
Qed.

(** C7 Who may not edit an object cannot change it, whatever the timing. Requests of callers who at
    no moment of the run hold the rank of an editor on an object (or are admins) leave it: its
    content, version and case stay, and no membership, check, edge or run of it is added. Their
    statements may follow one another in any order, with drops and crashes. No caller is the object
    itself, since the first-admin claim writes one's own actor. *)
Theorem strangers_change_nothing st l st' :
  here st -> rtc (step_within strangers (sends Sent)) ([], st) (l, st') -> kept id (pool st) (pool st').
Proof.
  intros Hid Hrun.
  destruct (rely_guarantee strangers here spared (sends Sent) ([], st) (l, st')) as (_ & [Hk _] & _);
    [|apply tick_spares|intros; by apply same_tables_spares|exact Hrun|exact Hid|constructor|exact Hk].
  intros p s (fr & ctx & rq & e & Hs & ->). by apply handle_spared.
Qed.
End Object.
