(* ===== verification/Integrity.v ===== *)
(** * The references of the store

    What the constraints of [migrations/] and the order of the server's statements keep of the
    store as a whole: every reference has its target, every object is one entity with one row of
    content of the same type, and what must be unique is. Each statement keeps it, so the store has
    it between any two statements of the concurrent server of [Staging]; the migrations leave a
    store that has it. *)

From S2P Require Import Prelude RustStr Encoding Config Json AppError Closure Schema Registry.
From S2P Require Import Workflow State Rbac Caller FieldPerms Objects Fixture ObjectHandlers.
From S2P Require Import ObjectProps Members Orchestrator Types Relations HttpClient Connectors Auth.
From S2P Require Import OAuth RateLimit Platform Search Steps Server ServerProps Staging Races Migrations.

Local Open Scope Z_scope.

(** ** The invariant *)

Abbreviation refers_to t k := (fk_ok t k = true).

Record consistent (db : Db) : Prop := {
  co_fields : map_Forall (fun k _ => is_Some (type_definitions db !! k.1)) (type_fields db);
  co_entities : map_Forall (fun i e => is_Some (type_definitions db !! en_type e) /\
    is_Some (entity_data db !! i)) (entities db);
  co_data : map_Forall (fun i d => en_type <$> entities db !! i = Some (d_type_id d) /\
    refers_to (entities db) (d_scope_parent_id d)) (entity_data db);
  co_members : map_Forall (fun k r => is_Some (entities db !! k.1) /\ is_Some (entities db !! k.2) /\
    is_Some (roles db !! m_role r)) (memberships db);
  co_cases : map_Forall (fun i c => is_Some (entities db !! i) /\
    is_Some (workflows db !! c_workflow_id c) /\ refers_to (entities db) (c_assignee_id c) /\
    refers_to (entities db) (c_project_id c)) (cases db);
  co_checks : map_Forall (fun k _ => is_Some (cases db !! k.1)) (case_close_checks db);
  co_relations : map_Forall (fun _ r => is_Some (entities db !! r_subject_id r) /\
    is_Some (entities db !! r_object_id r) /\ refers_to (entities db) (r_created_by r)) (relations db);
  co_runs : map_Forall (fun _ f => refers_to (cases db) (f_case_id f)) (feature_runs db);
  co_handoffs : Forall (fun h => is_Some (feature_runs db !! h_feature_run_id h) /\
    h_role h ∈ handoff_roles) (role_handoffs db);
  co_sessions : map_Forall (fun _ s => is_Some (entities db !! s_actor_id s)) (sessions db);
  co_identities : map_Forall (fun _ a => is_Some (entities db !! i_actor_id a)) (auth_identities db);
  co_events : Forall (fun e => refers_to (entities db) (e_entity_id e)) (events db);
  co_prefixes : forall i j a b, type_definitions db !! i = Some a -> type_definitions db !! j = Some b ->
    td_id_prefix a = td_id_prefix b -> i = j;
  co_edges : forall i j a b, relations db !! i = Some a -> relations db !! j = Some b ->
    same_edge a b -> i = j;
  co_tokens : tokens_unique db }.

Definition integral (st : AppState) : Prop := consistent (pool st).
Definition keeps_integrity : relation AppState := fun st st' => integral st -> integral st'.
#[export] Instance keeps_integrity_preorder : PreOrder keeps_integrity.
Proof. split; [by intros ? ?|]. intros x y z H1 H2 Hx. by apply H2, H1. Qed.

(** ** References into a table that grows *)

Section Growth.
Context {A : Type}.
Implicit Types (t : gmap string A) (i k : string).

Lemma target_insert t i k x : is_Some (t !! i) -> is_Some (<[k := x]> t !! i).
Proof. intros Hs. apply lookup_insert_is_Some'. by right. Qed.

Lemma refers_insert t i x o : refers_to t o -> refers_to (<[i := x]> t) o.
Proof. destruct o; [|done]. rewrite !fk_ok_Some. apply target_insert. Qed.

Lemma target_delete t i k : is_Some (t !! i) -> i <> k -> is_Some (delete k t !! i).
Proof. intros Hs Hne. by rewrite lookup_delete_ne. Qed.

(** [on delete set null] leaves no reference to the key. *)
Lemma refers_delete t k o : refers_to t o -> refers_to (delete k t) (null_if k o).
Proof.
  destruct (null_if k o) as [i|] eqn:E; [|done]. apply null_if_Some in E as [-> Hne].
  rewrite !fk_ok_Some. intros Hs. by apply target_delete.
Qed.
End Growth.

Lemma refers_fmap {A B} (f : A -> B) (t : gmap string A) o : refers_to (f <$> t) o <-> refers_to t o.
Proof. destruct o as [i|]; [|done]. by rewrite !fk_ok_Some, lookup_fmap, fmap_is_Some. Qed.

Lemma map_Forall_filter `{Countable K} {A} (P : K -> A -> Prop) (Q : K * A -> Prop)
    `{!forall x, Decision (Q x)} (t : gmap K A) : map_Forall P t -> map_Forall P (filter Q t).
Proof. intros Ht i x [Hx _]%map_lookup_filter_Some. by apply Ht. Qed.

(** ** Changes of one table that nothing refers to *)

Section Leaves.
Context (db : Db) (Hdb : consistent db).

Lemma consistent_memberships x :
  map_Forall (fun k r => is_Some (entities db !! k.1) /\ is_Some (entities db !! k.2) /\
    is_Some (roles db !! m_role r)) x -> consistent (set_memberships x db).
Proof. intros Hx. by destruct Hdb; constructor. Qed.

Lemma consistent_checks x :
  map_Forall (fun k _ => is_Some (cases db !! k.1)) x -> consistent (set_case_close_checks x db).
Proof. intros Hx. by destruct Hdb; constructor. Qed.

Lemma consistent_relations x :
  map_Forall (fun _ r => is_Some (entities db !! r_subject_id r) /\
    is_Some (entities db !! r_object_id r) /\ refers_to (entities db) (r_created_by r)) x ->
  (forall i j a b, x !! i = Some a -> x !! j = Some b -> same_edge a b -> i = j) ->
  consistent (set_relations x db).
Proof. intros Hx Hu. by destruct Hdb; constructor. Qed.

Lemma consistent_handoffs x :
  Forall (fun h => is_Some (feature_runs db !! h_feature_run_id h) /\ h_role h ∈ handoff_roles) x ->
  consistent (set_role_handoffs x db).
Proof. intros Hx. by destruct Hdb; constructor. Qed.

Lemma consistent_sessions x :
  map_Forall (fun _ s => is_Some (entities db !! s_actor_id s)) x ->
  (forall i j a b, x !! i = Some a -> x !! j = Some b -> s_token_hash a = s_token_hash b -> i = j) ->
  consistent (set_sessions x db).
Proof. intros Hx Hu. by destruct Hdb; constructor. Qed.

Lemma consistent_identities x :
  map_Forall (fun _ a => is_Some (entities db !! i_actor_id a)) x -> consistent (set_auth_identities x db).
Proof. intros Hx. by destruct Hdb; constructor. Qed.

Lemma consistent_events x :
  Forall (fun e => refers_to (entities db) (e_entity_id e)) x -> consistent (set_events x db).
Proof. intros Hx. by destruct Hdb; constructor. Qed.

Lemma consistent_fields x :
  map_Forall (fun k _ => is_Some (type_definitions db !! k.1)) x -> consistent (set_type_fields x db).
Proof. intros Hx. by destruct Hdb; constructor. Qed.
End Leaves.

(** ** Every statement *)

Class Integral {A} (m : SqlM A) : Prop :=
  sql_integral : forall db a db', consistent db -> m db = Ok (a, db') -> consistent db'.

#[export] Instance integral_respects {A} (m : SqlM A) : Integral m -> SqlRespects keeps_integrity m.
Proof. intros Hm st a db Hr Hc. by eapply Hm. Qed.
#[export] Instance integral_ret {A} (a : A) : Integral (mret a : SqlM A).
Proof. by intros db b db' Hc [= _ <-]. Qed.
#[export] Instance integral_bind {A B} (m : SqlM A) (k : A -> SqlM B) :
  Integral m -> (forall a, Integral (k a)) -> Integral (m ≫= k).
Proof. intros Hm Hk db b db' Hc (a & db1 & H1 & H2)%sql_bind_ok. eapply Hk; [|exact H2]. by eapply Hm. Qed.
#[export] Instance integral_decide {A} (P : Prop) `{Decision P} (m1 m2 : SqlM A) :
  Integral m1 -> Integral m2 -> Integral (if decide P then m1 else m2).
Proof. by case_decide. Qed.
#[export] Instance integral_now : Integral sql_now.
Proof. by intros db b db' Hc [= _ <-]. Qed.

Section Statements.
Context `{SerdeJson, Postgres}.

#[export] Instance record_event_integral ctx a e k p : Respects keeps_integrity (record_event ctx a e k p).
Proof.
  intros st Hc. unfold record_event. cbn [snd]. destruct (fk_ok _ _) eqn:F; [|done].
  apply consistent_events; [done|]. apply Forall_app; split; [apply Hc|]. by constructor.
Qed.

#[export] Instance upsert_membership_integral o m row : Integral (upsert_membership o m row).
Proof.
  intros db x db' Hc (Ho & Hm & Hr & ->)%upsert_membership_ok. apply consistent_memberships; [done|].
  apply map_Forall_insert_2; [done|apply Hc].
Qed.
#[export] Instance grant_owner_integral o m : Integral (grant_owner o m).
Proof. intros db x db' Hc Hr. by eapply upsert_membership_integral. Qed.

#[export] Instance update_membership_integral o m r c : Integral (update_membership o m r c).
Proof.
  intros db x db' Hc. unfold update_membership. destruct (memberships db !! (o, m)) as [row|] eqn:Hrow;
    [|by intros [= _ <-]]. destruct (fk_ok _ _) eqn:F; [|done]. intros [= _ <-]. apply fk_ok_Some in F.
  apply consistent_memberships; [done|]. apply map_Forall_insert_2; [|apply Hc].
  destruct (co_members _ Hc _ _ Hrow) as (? & ? & _). done.
Qed.
#[export] Instance delete_membership_integral o m : Integral (delete_membership o m).
Proof.
  intros db x db' Hc [= _ <-]. apply consistent_memberships; [done|]. apply map_Forall_delete, Hc.
Qed.

#[export] Instance upsert_check_integral i n b o : Integral (upsert_check i n b o).
Proof.
  intros db x db' Hc. unfold upsert_check. destruct (fk_ok _ _) eqn:F; [|done]. intros [= _ <-].
  apply consistent_checks; [done|]. apply map_Forall_insert_2; [by apply fk_ok_Some in F|apply Hc].
Qed.

#[export] Instance insert_handoff_integral h : Integral (insert_handoff h).
Proof.
  intros db x db' Hc. unfold insert_handoff. destruct (bool_decide _) eqn:Hr; [|done]. cbn [negb].
  destruct (fk_ok _ _) eqn:F; [|done]. intros [= _ <-]. apply consistent_handoffs; [done|].
  apply Forall_app; split; [apply Hc|]. constructor; [|done].
  split; [by apply fk_ok_Some in F|by apply bool_decide_eq_true in Hr].
Qed.

#[export] Instance remove_relation_integral i : Integral (remove_relation i).
Proof.
  intros db x db' Hc [= _ <-]. apply consistent_relations; [done|apply map_Forall_delete, Hc|].
  intros j k a b [_ Ha]%lookup_delete_Some [_ Hb]%lookup_delete_Some. by apply (co_edges _ Hc).
Qed.

(** A new row that no row is in conflict with. *)
Lemma unique_insert {K A} `{Countable K} (R : A -> A -> Prop) (t : gmap K A) k x :
  (forall a b, R a b -> R b a) -> ~ map_Exists (fun _ a => R a x) t ->
  (forall i j a b, t !! i = Some a -> t !! j = Some b -> R a b -> i = j) ->
  forall i j a b, <[k := x]> t !! i = Some a -> <[k := x]> t !! j = Some b -> R a b -> i = j.
Proof.
  intros Hsym Hno Hu i j a b [[<- <-]|[_ Ha]]%lookup_insert_Some [[<- <-]|[_ Hb]]%lookup_insert_Some HR;
    [done| | |by eapply Hu]; exfalso; apply Hno; [exists j, b|exists i, a]; auto.
Qed.

#[export] Instance insert_relation_integral i r : Integral (insert_relation i r).
Proof.
  intros db x db' Hc. unfold insert_relation. case_decide; [done|]. case_decide as Hno; [done|].
  destruct (_ && _ && _) eqn:F; [|done]. intros [= _ <-].
  apply andb_prop in F as [[F1%fk_ok_Some F2%fk_ok_Some]%andb_prop F3].
  apply consistent_relations; [done|by apply map_Forall_insert_2; [|apply Hc]|].
  apply unique_insert; [unfold same_edge; naive_solver|done|apply Hc].
Qed.

#[export] Instance insert_session_integral i r : Integral (insert_session i r).
Proof.
  intros db x db' Hc. unfold insert_session. case_decide; [done|]. case_decide as Hno; [done|].
  destruct (fk_ok _ _) eqn:F; [|done]. intros [= _ <-]. apply fk_ok_Some in F.
  apply consistent_sessions; [done|by apply map_Forall_insert_2; [|apply Hc]|].
  apply (unique_insert (fun a b => s_token_hash a = s_token_hash b)); [done|done|apply Hc].
Qed.
#[export] Instance delete_sessions_integral a : Integral (delete_sessions a).
Proof.
  intros db x db' Hc [= _ <-]. apply consistent_sessions; [done|apply map_Forall_filter, Hc|].
  intros i j r r' [Hr _]%map_lookup_filter_Some [Hr' _]%map_lookup_filter_Some. by apply (co_tokens _ Hc).
Qed.

#[export] Instance insert_identity_integral p s a e : Integral (insert_identity p s a e).
Proof.
  intros db x db' Hc. unfold insert_identity. case_decide; [done|]. destruct (fk_ok _ _) eqn:F; [|done].
  intros [= _ <-]. apply consistent_identities; [done|].
  apply map_Forall_insert_2; [by apply fk_ok_Some in F|apply Hc].
Qed.

#[export] Instance insert_type_field_integral t f r : Integral (insert_type_field t f r).
Proof.
  intros db x db' Hc. unfold insert_type_field. case_decide; [done|]. destruct (fk_ok _ _) eqn:F; [|done].
  intros [= _ <-]. apply consistent_fields; [done|].
  apply map_Forall_insert_2; [by apply fk_ok_Some in F|apply Hc].
Qed.
#[export] Instance insert_fields_integral t n fs : Integral (insert_fields t n fs).
Proof. revert n. induction fs as [|f fs IH]; intros n; simpl; apply _. Qed.
(** *** Tables that others refer to *)

#[local] Hint Resolve target_insert refers_insert : core.

(** A weaker property of the rows. *)
Lemma map_weaken `{Countable K} {A} (P Q : K -> A -> Prop) (t : gmap K A) :
  map_Forall P t -> (forall i x, P i x -> Q i x) -> map_Forall Q t.
Proof. intros Ht HPQ i x Hx. by apply HPQ, Ht. Qed.

#[export] Instance insert_type_integral t r : Integral (insert_type t r).
Proof.
  intros db x db' [] . unfold insert_type. case_decide; [done|]. case_decide as Hno; [done|]. intros [= _ <-].
  constructor; cbn; try assumption.
  - eapply map_weaken; [eassumption|]. cbn. auto.
  - eapply map_weaken; [eassumption|]. cbn. naive_solver.
  - by apply (unique_insert (fun a b => td_id_prefix a = td_id_prefix b)).
Qed.
#[export] Instance create_type_txn_integral spec : Integral (create_type_txn spec).
Proof. unfold create_type_txn. apply _. Qed.

Lemma consistent_cases db i c :
  consistent db -> is_Some (entities db !! i) -> is_Some (workflows db !! c_workflow_id c) ->
  refers_to (entities db) (c_assignee_id c) -> refers_to (entities db) (c_project_id c) ->
  consistent (set_cases (<[i := c]> (cases db)) db).
Proof.
  intros [] Hi Hw Ha Hp. constructor; cbn; try assumption.
  - by apply map_Forall_insert_2.
  - eapply map_weaken; [eassumption|]. cbn. auto.
  - eapply map_weaken; [eassumption|]. cbn. auto.
Qed.

#[export] Instance upsert_case_mirror_integral i data n : Integral (upsert_case_mirror i data n).
Proof.
  intros db x db' Hc. unfold upsert_case_mirror, mbind, sql_bind, sql_get, constraint, sql_put.
  assert (Hguard : forall old new u db1, cases_guard i old new db = Ok (u, db1) -> db1 = db).
  { intros old new u db1 Hg. unfold cases_guard in Hg. repeat case_match; naive_solver. }
  assert (Hend : forall u, (if fk_ok (entities db) (Some i) && fk_ok (workflows db) (Some (c_workflow_id (case_row data n (now db))))
      && fk_ok (entities db) (c_assignee_id (case_row data n (now db)))
      && fk_ok (entities db) (c_project_id (case_row data n (now db))) then Ok (tt, db) else Err ForeignKeyViolation)
      = Ok (u, db) -> consistent (set_cases (<[i := case_row data n (now db)]> (cases db)) db)).
  { intros u. destruct (_ && _ && _ && _) eqn:F; [intros _|done].
    apply andb_prop in F as [[[F1%fk_ok_Some F2%fk_ok_Some]%andb_prop F3]%andb_prop F4].
    by apply consistent_cases. }
  destruct (cases db !! i) as [old|].
  - destruct (cases_guard i old _ db) as [[u db1]|e] eqn:Hg; [|done]. apply Hguard in Hg as ->.
    destruct (_ && _ && _ && _); [|done]. intros [= _ <-]. by apply (Hend tt).
  - cbn. destruct (_ && _ && _ && _); [|done]. intros [= _ <-]. by apply (Hend tt).
Qed.

#[export] Instance insert_run_integral i c t : Integral (insert_run i c t).
Proof.
  intros db x db' []. unfold insert_run. case_decide; [done|]. destruct (fk_ok _ _) eqn:F; [|done].
  intros [= _ <-]. constructor; cbn; try assumption.
  - by apply map_Forall_insert_2.
  - eapply Forall_impl; [eassumption|]. cbn. naive_solver.
Qed.

#[export] Instance update_run_integral i p s : Integral (update_run i p s).
Proof.
  intros db x db' [] [= _ <-]. constructor; cbn; try assumption.
  - intros j f. rewrite lookup_alter_Some. intros [(_ & f0 & Hf & ->)|[_ Hf]]; by eapply co_runs0 in Hf.
  - eapply Forall_impl; [eassumption|]. cbn. intros h [Hs Hr]. by rewrite lookup_alter_is_Some.
Qed.

(** *** Objects *)

(** The content of an object changes, its type does not. *)
Lemma consistent_row db i row row' :
  consistent db -> entity_data db !! i = Some row -> d_type_id row' = d_type_id row ->
  refers_to (entities db) (d_scope_parent_id row') ->
  consistent (set_entity_data (<[i := row']> (entity_data db)) db).
Proof.
  intros [] Hrow Hty Hsp. constructor; cbn; try assumption.
  - eapply map_weaken; [eassumption|]. cbn. naive_solver.
  - apply map_Forall_insert_2; [|done]. rewrite Hty. by destruct (co_data0 i row Hrow).
Qed.

#[export] Instance update_data_integral i t data sp n : Integral (update_data i t data sp n).
Proof.
  intros db x db' Hc [[_ ->]|(_ & row & Hrow & <- & _ & _ & Hsp & ->)]%update_data_ok; [done|].
  by eapply consistent_row.
Qed.
#[export] Instance stamp_run_integral i s : Integral (stamp_run i s).
Proof.
  intros db x db' Hc (row & m & Hrow & Hty & _ & _ & _ & ->)%stamp_run_ok.
  eapply consistent_row; [done|done|done|]. by destruct (co_data _ Hc i row Hrow).
Qed.
#[export] Instance claim_update_integral a : Integral (claim_update a).
Proof.
  intros db x db' Hc. unfold claim_update. destruct (select_data a "actor" db) as [row|] eqn:Hrow;
    [|by intros [= _ <-]]. case_decide; [by intros [= _ <-]|].
  destruct (jsonb_set _ _ _) as [data|]; [|done]. intros [= _ <-].
  apply select_data_Some in Hrow as [Hrow Hty].
  eapply consistent_row; [done|done|done|]. by destruct (co_data _ Hc a row Hrow).
Qed.

(** The entity and its content arrive in one transaction. *)
Lemma insert_object_integral {B} i t by_ data sp (k : SqlM B) :
  Integral k ->
  Integral (insert_entity i t by_ ≫= fun _ => insert_data i t data sp ≫= fun _ => k).
Proof.
  intros Hk db x db' Hc (u & db1 & H1 & (u' & db2 & H2 & H3)%sql_bind_ok)%sql_bind_ok.
  eapply Hk; [|exact H3]. clear H3 Hk.
  apply insert_entity_ok in H1 as (Hnone & Ht & ->).
  apply insert_data_ok in H2 as (Hnone2 & _ & _ & Hsp & ->). cbn in *.
  destruct Hc. constructor; cbn; try assumption.
  - apply map_Forall_insert_2; [split; [done|by rewrite lookup_insert_eq]|].
    eapply map_weaken; [eassumption|]. cbn. naive_solver.
  - apply map_Forall_insert_2; [by rewrite lookup_insert_eq|]. intros j d Hd.
    destruct (co_data0 j d Hd) as [Hen Hp]. split; [|auto]. rewrite lookup_insert_ne; [done|]. congruence.
  - eapply map_weaken; [eassumption|]. cbn. naive_solver.
  - eapply map_weaken; [eassumption|]. cbn. naive_solver.
  - eapply map_weaken; [eassumption|]. cbn. naive_solver.
  - eapply map_weaken; [eassumption|]. cbn. auto.
  - eapply map_weaken; [eassumption|]. cbn. auto.
  - eapply Forall_impl; [eassumption|]. cbn. auto.
Qed.

#[export] Instance create_txn_integral td i t data sp actor : Integral (create_txn td i t data sp actor).
Proof. unfold create_txn. apply insert_object_integral, _. Qed.

#[export] Instance delete_object_integral i t n : Integral (delete_object i t n).
Proof.
  intros db x db' [] [[_ ->]|(_ & row & _ & _ & _ & _ & ->)]%delete_object_ok; [by constructor|].
  constructor; cbn.
  - assumption.
  - intros j e [Hne He]%lookup_delete_Some. destruct (co_entities0 j e He) as [Ht Hd]. split; [done|].
    by rewrite lookup_fmap, fmap_is_Some, lookup_delete_ne.
  - intros j d. rewrite lookup_fmap_Some. intros (d0 & <- & [Hne Hd]%lookup_delete_Some).
    destruct (co_data0 j d0 Hd) as [Hen Hp]. cbn. rewrite lookup_delete_ne by done.
    split; [done|by apply refers_delete].
  - intros k r [Hr [Hk1 Hk2]]%map_lookup_filter_Some. destruct (co_members0 k r Hr) as (H1' & H2' & H3').
    cbn in *. split_and!; [by apply target_delete..|done].
  - intros j c. rewrite lookup_fmap_Some. intros (c0 & <- & [Hne Hd]%lookup_delete_Some).
    destruct (co_cases0 j c0 Hd) as (H1' & H2' & H3' & H4'). cbn.
    split_and!; [by apply target_delete|done|by apply refers_delete..].
  - intros k r [Hr Hk]%map_lookup_filter_Some. rewrite lookup_fmap, fmap_is_Some. cbn in *.
    by apply target_delete; [eapply co_checks0|].
  - intros j r. rewrite lookup_fmap_Some. intros (r0 & <- & [Hr [Hs Ho]]%map_lookup_filter_Some).
    destruct (co_relations0 j r0 Hr) as (H1' & H2' & H3'). cbn in *.
    split_and!; [by apply target_delete..|by apply refers_delete].
  - intros j f. rewrite lookup_fmap_Some. intros (f0 & <- & Hf). cbn.
    apply refers_fmap, refers_delete. by eapply co_runs0.
  - eapply Forall_impl; [eassumption|]. cbn. intros h [Hs Hr]. by rewrite lookup_fmap, fmap_is_Some.
  - intros j s [Hs Hne]%map_lookup_filter_Some. cbn in *. by apply target_delete; [eapply co_sessions0|].
  - intros j s [Hs Hne]%map_lookup_filter_Some. cbn in *. by apply target_delete; [eapply co_identities0|].
  - apply Forall_fmap. eapply Forall_impl; [eassumption|]. cbn. intros e He. by apply refers_delete.
  - assumption.
  - intros j k a b. rewrite !lookup_fmap_Some.
    intros (a0 & <- & [Ha _]%map_lookup_filter_Some) (b0 & <- & [Hb _]%map_lookup_filter_Some) HR.
    by apply (co_edges0 j k a0 b0).
  - intros j k a b [Ha _]%map_lookup_filter_Some [Hb _]%map_lookup_filter_Some. by apply co_tokens0.
Qed.
End Statements.

(** ** Every request, and every installation *)

Section Requests.
Context `{SerdeJson, Postgres, !FromSlice TypeSpec, !FromSlice RelInput, !FromSlice StartInput}.
Context `{!FromSlice HandoffInput, !FromSlice LevelInput, Reqwest, Env, Hmac, Jwt, Sha2, Build}.
Context `{UrlParams, FullText, HttpCrate, Deployment, Framework}.

#[local] Instance ignore_integral {A} (m : M A) :
  Respects keeps_integrity m -> Respects keeps_integrity (ignore m).
Proof. intros Hm st. apply Hm. Qed.
#[local] Instance store_registry_integral r : Respects keeps_integrity (store_registry r).
Proof. intros st Hc. exact Hc. Qed.
#[local] Instance identity_integral provider sub i email name :
  Integral (insert_entity i "actor" (Some i) ≫= fun _ =>
    insert_data i "actor" (new_actor_data i email name) None ≫= fun _ => insert_identity provider sub i email).
Proof. apply insert_object_integral, _. Qed.

Lemma request_integral p : any_request p -> all_steps (fun X m => Respects keeps_integrity m) p.
Proof. intros (fr & ctx & rq & e & ->). destruct e; each_statement ltac:(apply _). Qed.

Lemma tick_integral t st : keeps_integrity st (set_pool (set_now t (pool st)) st).
Proof. by intros []; constructor. Qed.

(** C18 The references of the store hold at every moment. However the statements of any requests
    follow one another on the server, with drops and crashes: every reference of a row (of content,
    scope parents, members, cases, checks, edges, runs, handoffs, sessions, identities, events) is
    to a row that is there, whatever has been deleted; every object is one entity with one row of
    content of the same type; and prefixes, edges and session digests stay unique. *)
Theorem references_hold st l st' :
  consistent (pool st) -> rtc (server_step any_request) ([], st) (l, st') -> consistent (pool st').
Proof.
  intros Hc Hrun.
  destruct (steps_respect keeps_integrity any_request ([], st) (l, st') request_integral tick_integral)
    as [HI _]; [by intros ? ?|exact Hrun|constructor|]. exact (HI Hc).
Qed.
End Requests.

Lemma unique_column {A B} (f : A -> B) (t : gmap string A) :
  NoDup ((fun kv => f kv.2) <$> map_to_list t) ->
  forall i j a b, t !! i = Some a -> t !! j = Some b -> f a = f b -> i = j.
Proof.
  intros Hnd i j a b [n Hn]%elem_of_map_to_list%list_elem_of_lookup
    [k Hk]%elem_of_map_to_list%list_elem_of_lookup E.
  assert (n = k) as ->; [|congruence].
  eapply (NoDup_lookup _ _ _ (f a)); [exact Hnd|by rewrite list_lookup_fmap, Hn|].
  rewrite list_lookup_fmap, Hk. cbn. congruence.
Qed.

(** The migrations leave such a store. *)
Lemma installed_consistent t : consistent (installed t).
Proof.
  constructor; try by_eval.
  - apply unique_column. by_eval.
  - assert (E : relations (installed t) = ∅) by (vm_compute; reflexivity). rewrite E.
    intros i j a b []%lookup_empty_Some.
  - assert (E : sessions (installed t) = ∅) by (vm_compute; reflexivity). unfold tokens_unique. rewrite E.
    intros i j a b []%lookup_empty_Some.
Qed.
