(* ===== verification/Witnesses.v ===== *)
(** * Witnesses

    The theorems with hypotheses, applied to the concrete server of [Fixture]: every hypothesis
    is met there, by evaluation. *)

From S2P Require Import Prelude RustStr Json AppError Closure Schema Registry Workflow State Rbac.
From S2P Require Import Caller FieldPerms Objects Fixture ObjectHandlers ObjectProps Lifecycle.
From S2P Require Import RbacProps Members MemberProps Orchestrator Pipeline Liveness.

Local Open Scope Z_scope.

(** The run of a request, as an equation. *)
Ltac run_eq := vm_compute; reflexivity.

(** What a request answers and leaves behind. *)
Definition answer (m : M Response) : option Response :=
  match (m seed_state).1 with Ok r => Some r | Err _ => None end.
Definition after (m : M Response) : AppState := (m seed_state).2.

Lemma run_answer (m : M Response) r :
  answer m = Some r -> m seed_state = (Ok r, after m).
Proof.
  unfold answer, after. destruct (m seed_state) as [[x|e] st']; simpl; [|done]. by intros [= ->].
Qed.

(** Runs by their outcome alone: the state they leave is named, not computed. *)
Lemma returns {A} (m : M A) st a : (m st).1 = Ok a -> m st = (Ok a, (m st).2).
Proof. destruct (m st) as [out st']. simpl. by intros ->. Qed.

Lemma returns_ro {A} (m : M A) `{!ReadOnly m} st a : (m st).1 = Ok a -> m st = (Ok a, st).
Proof. intros Hr. rewrite (returns _ _ _ Hr). by rewrite read_only. Qed.

Lemma succeeds {A} (m : M A) st : is_ok (m st).1 = true -> exists a, m st = (Ok a, (m st).2).
Proof. destruct (m st) as [[a|e] st']; [by exists a|done]. Qed.

(** ** Objects *)

Lemma etag_roundtrip_witness : i32_ok 42 /\ parse_version_tag (etag 42) = Some 42.
Proof. split; [by_eval|]. apply etag_roundtrip. by_eval. Defined.

Lemma no_view_carol : no_view (pool seed_state) carol "NOT_1".
Proof. split; [reflexivity|]. intros r Hr. vm_compute in Hr. discriminate Hr. Qed.

Lemma item_denial_leak_free_witness :
  no_view (pool seed_state) carol "NOT_1" /\
  item_head ctx0 carol "note" "NOT_1" seed_state = (Err (deny_404 ctx0), seed_state).
Proof.
  split; [apply no_view_carol|].
  apply (item_denial_leak_free ctx0 carol "note" "NOT_1" ∅ "" seed_state no_view_carol).
Defined.

Definition patch_note : M Response :=
  item_write Patch ctx0 alice "note" "NOT_1" (json_headers (Some (etag 3))) "{title:hello}".

Lemma patch_note_runs : exists r, patch_note seed_state = (Ok r, after patch_note).
Proof. eexists. apply run_answer. run_eq. Qed.

Lemma item_write_version_witness :
  exists row', entity_data (pool (after patch_note)) !! "NOT_1" = Some row' /\ d_version row' = 4.
Proof.
  destruct patch_note_runs as [r Hr].
  destruct (item_write_version _ _ _ _ _ _ _ _ _ _ Hr)
    as (row & row' & v & Hrow & Hv & _ & Hrow' & Hv' & _).
  exists row'. split; [exact Hrow'|]. vm_compute in Hrow. injection Hrow as <-.
  rewrite Hv', <- Hv. reflexivity.
Defined.

(** A stale tag. *)
Definition stale_patch : M Response :=
  item_write Patch ctx0 alice "note" "NOT_1" (json_headers (Some (etag 2))) "{title:hello}".

Definition failure (m : M Response) : option AppError :=
  match (m seed_state).1 with Ok _ => None | Err e => Some e end.

Lemma run_failure (m : M Response) e :
  failure m = Some e -> m seed_state = (Err e, after m).
Proof.
  unfold failure, after. destruct (m seed_state) as [[x|e'] st']; simpl; [done|]. by intros [= ->].
Qed.

Lemma stale_patch_fails :
  stale_patch seed_state = (Err (with_request_id "req_1" precondition_failed), after stale_patch).
Proof. apply run_failure. run_eq. Qed.

Lemma note_not_case td : registry seed_state !! "note" = Some td -> TypeDef.type_id td <> "case".
Proof. intros Htd. vm_compute in Htd. injection Htd as <-. discriminate. Qed.

Lemma item_write_error_frame_witness : after stale_patch = seed_state.
Proof. exact (item_write_error_frame _ _ _ _ _ _ _ _ _ _ note_not_case stale_patch_fails). Defined.

Definition note_type : TypeDef.t :=
  Eval vm_compute in default (TypeDef.mk "" "" "" "" [] false JNull []) (registry seed_state !! "note").

Lemma note_registered : registry seed_state !! "note" = Some note_type.
Proof. run_eq. Qed.

Ltac wf_values := repeat (first [constructor | reflexivity]).

Lemma bodies_wf : Forall (fun kv => value_wf kv.2) bodies.
Proof. unfold bodies. wf_values. Qed.

Lemma fixture_from_slice_wf b v : from_slice b = Ok v -> value_wf v.
Proof.
  unfold from_slice, fixture_json. destruct (map_get b bodies) as [v'|] eqn:E; [|done]. intros [= ->].
  apply map_get_elem in E. by eapply (proj1 (Forall_forall _ _) bodies_wf) in E.
Qed.

Lemma note_fields_nodup : fields_nodup note_type.
Proof. unfold fields_nodup. by_eval. Qed.

Lemma project_id_not_writable f :
  TypeDef.field note_type "project_id" = Some f -> FieldDef.writable f = false.
Proof. intros Hf. vm_compute in Hf. injection Hf as <-. reflexivity. Qed.

Lemma item_write_preserves_witness :
  exists row row', entity_data (pool seed_state) !! "NOT_1" = Some row /\
    entity_data (pool (after patch_note)) !! "NOT_1" = Some row' /\
    get "project_id" (d_data row') = get "project_id" (d_data row).
Proof.
  destruct patch_note_runs as [r Hr].
  exact (item_write_preserves _ _ _ _ _ _ _ _ _ _ note_type "project_id"
    fixture_from_slice_wf note_registered note_fields_nodup project_id_not_writable Hr).
Defined.

Definition title_patch : Value := JObject [("title", JString "hello")].

Lemma note_data_wf : value_wf note_data. Proof. unfold note_data. wf_values. Qed.
Lemma title_patch_wf : value_wf title_patch. Proof. unfold title_patch. wf_values. Qed.

Lemma candidate_preserves_witness :
  get "project_id" (candidate Patch note_type note_data title_patch) = Some (JString "PRJ_1").
Proof.
  rewrite (candidate_preserves Patch note_type note_data title_patch "project_id"
    note_fields_nodup title_patch_wf); [reflexivity|reflexivity|run_eq|].
  apply project_id_not_writable.
Defined.

Lemma merge_patch_idempotent_witness :
  merge_patch (merge_patch note_data title_patch) title_patch = merge_patch note_data title_patch.
Proof. exact (merge_patch_idempotent note_data title_patch note_data_wf title_patch_wf). Defined.

Lemma build_put_data_idempotent_witness :
  build_put_data note_type (build_put_data note_type note_data title_patch) title_patch
    = build_put_data note_type note_data title_patch.
Proof.
  exact (build_put_data_idempotent note_type note_data title_patch note_fields_nodup note_data_wf).
Defined.

(** ** Creation, lists, deletion *)

Definition post_note : M Response :=
  coll_create ctx0 alice "note" (json_headers None) "{project_id:PRJ_1,title:t}" "77".

Lemma post_note_runs : exists r, post_note seed_state = (Ok r, after post_note).
Proof. eexists. apply run_answer. run_eq. Qed.

Lemma owner_rank : roles (pool seed_state) !! "owner" = Some 4.
Proof. run_eq. Qed.

Lemma create_grants_owner_witness :
  require_action (pool (after post_note)) alice note_type (Some "NOT_77") Delete = true.
Proof.
  destruct post_note_runs as [r Hr].
  destruct (create_grants_owner _ _ _ _ _ _ _ _ _ 4 note_type owner_rank (Z.le_refl 4)
    note_registered Hr) as (_ & _ & Ha). exact (Ha Delete).
Defined.

(** A create without its required parent. *)
Definition orphan_note : M Response :=
  coll_create ctx0 alice "note" (json_headers None) "{title:hello}" "78".

Lemma orphan_note_fails : exists e, orphan_note seed_state = (Err e, after orphan_note).
Proof. eexists. apply run_failure. run_eq. Qed.

Lemma create_atomic_witness : after orphan_note = seed_state.
Proof. destruct orphan_note_fails as [e He]. exact (create_atomic _ _ _ _ _ _ _ _ _ He). Defined.

Lemma create_requires_parent_reach_witness :
  exists rank, effective_rank (pool seed_state) "USR_a" "PRJ_1" = Some rank /\ 2 <= rank.
Proof.
  destruct post_note_runs as [r Hr].
  destruct (create_requires_parent_reach ctx0 alice _ _ _ _ _ _ _ eq_refl Hr)
    as (td & row & Htd & _ & Hrow & _ & _ & _ & Hp).
  vm_compute in Htd. injection Htd as <-. vm_compute in Hrow. injection Hrow as <-. exact (proj2 Hp).
Defined.

Lemma create_then_get_witness :
  exists r, item_get ctx0 alice "note" "NOT_77" ∅ (after post_note) = (Ok r, after post_note).
Proof.
  destruct post_note_runs as [r Hr]. eexists.
  refine (create_then_get _ _ _ _ _ _ _ _ _ 4 note_type
    (JObject [("project_id", JString "PRJ_1"); ("title", JString "t")]) owner_rank (Z.le_refl 4)
    note_registered _ _ Hr); [reflexivity|].
  apply Forall_forall. by_eval.
Defined.

Lemma list_exactly_reach_witness :
  exists all : list (string * DataRow), "NOT_1" ∈ all.*1 /\
    (forall id row, (id, row) ∈ all -> id ∈ reach (pool seed_state) "USR_b").
Proof.
  destruct (list_exactly_reach ctx0 bob "note" seed_state note_type eq_refl note_registered)
    as (all & Hall & _).
  exists all. split; [|intros id row Hin; apply Hall in Hin as (_ & _ & Hin); exact Hin].
  apply list_elem_of_fmap. exists ("NOT_1", mkDataRow "note" note_data (Some "PRJ_1") 3 3).
  split; [done|]. apply Hall. split_and!; [run_eq|reflexivity|by_eval].
Defined.

Definition delete_note : M Response :=
  item_delete ctx0 alice "note" "NOT_1" (json_headers (Some (etag 3))).

Lemma delete_note_runs : exists r, delete_note seed_state = (Ok r, after delete_note).
Proof. eexists. apply run_answer. run_eq. Qed.

Lemma delete_complete_witness : unreferenced (pool (after delete_note)) "NOT_1".
Proof.
  destruct delete_note_runs as [r Hr].
  destruct (delete_complete _ _ _ _ _ _ _ _ Hr) as (_ & _ & Hu & _). exact Hu.
Defined.

Lemma delete_leaves_no_audit_witness : events (pool (after delete_note)) = [].
Proof.
  destruct delete_note_runs as [r Hr]. rewrite (delete_leaves_no_audit _ _ _ _ _ _ _ _ Hr). run_eq.
Defined.

(** ** Errors *)

Definition fixture_http : HttpCrate := {|
  canonical_reason := fun s => if s =? 500 then Some "Internal Server Error" else None;
  header_from_str := fun s => Some s |}.

Lemma into_response_airlock_witness :
  into_response (H := fixture_http) (internal "password = hunter2")
    = into_response (H := fixture_http) (internal "").
Proof. exact (into_response_airlock (H := fixture_http) (internal "") "password = hunter2" eq_refl). Defined.

(** ** Reach *)

Lemma seed_shallow : shallow (pool seed_state).
Proof.
  apply (shallow_intro _ (fun id => if decide (entity_data (pool seed_state) !! id ≫= d_scope_parent_id
                                               = None) then 0%nat else 1%nat)).
  assert (Hall : map_Forall (fun x row => forall y, d_scope_parent_id row = Some y ->
    entity_data (pool seed_state) !! y ≫= d_scope_parent_id = None) (entity_data (pool seed_state))).
  { eapply map_Forall_impl with (P := fun _ row =>
      d_scope_parent_id row = None \/ d_scope_parent_id row = Some "PRJ_1" \/
      d_scope_parent_id row = Some "ORG_1").
    - by_eval.
    - intros x row [-> |[-> | ->]] y; [done|intros [= <-]; run_eq..]. }
  intros x y Hxy. unfold scope_edge, scope_parent_of in Hxy.
  destruct (entity_data (pool seed_state) !! x) as [row|] eqn:Hx; [|done]. simpl in Hxy.
  rewrite (Hall x row Hx y Hxy). rewrite decide_True by done. unfold max_depth.
  simpl. rewrite Hxy. rewrite decide_False by done. lia.
Qed.

Lemma seed_roles_known : roles_known (pool seed_state).
Proof.
  assert (Hall : map_Forall (fun _ row => is_Some (roles (pool seed_state) !! m_role row))
    (memberships (pool seed_state))) by by_eval.
  intros k row Hrow. exact (Hall k row Hrow).
Qed.

Lemma reach_iff_rank_witness : exists r, effective_rank (pool seed_state) "USR_b" "NOT_1" = Some r.
Proof. apply (reach_iff_rank _ _ _ seed_shallow seed_roles_known). by_eval. Defined.

Lemma rank_inherited_witness :
  exists r, effective_rank (pool seed_state) "USR_b" "NOT_1" = Some r /\ 1 <= r.
Proof.
  apply (rank_inherited (pool seed_state) "USR_b" "TEM_1" "NOT_1" "PRJ_1" 1 seed_shallow).
  - apply rtc_once. split; [eexists; run_eq|run_eq].
  - apply rtc_once. run_eq.
  - run_eq.
Defined.

(** ** Rosters *)

Definition grant_bob : M Response :=
  add_member ctx0 alice "project" "PRJ_1" (json_headers None) "{member_id:USR_b,role:member}".

Lemma grant_bob_runs : exists r, grant_bob seed_state = (Ok r, after grant_bob).
Proof. eexists. apply run_answer. run_eq. Qed.

(** Carol owns the workspace of a team, is not in the team and makes herself a member: what she
    gains on the project is what the team held there. *)
Definition join_team : M Response :=
  add_member ctx0 carol "team" "TEM_1" (json_headers None) "{member_id:USR_c,role:member}".

Lemma join_team_runs : exists r, join_team workspace_owner = (Ok r, (join_team workspace_owner).2).
Proof. destruct (succeeds join_team workspace_owner) as [r Hr]; [run_eq|]. by exists r. Qed.

Lemma workspace_owner_shallow : shallow (pool workspace_owner).
Proof. exact seed_shallow. Qed.

Lemma grant_no_escalation_witness :
  exists rank0, 1 <= rank0 /\
    (effective_rank (pool workspace_owner) "USR_c" "PRJ_1" = Some rank0 \/
     effective_rank (pool workspace_owner) "TEM_1" "PRJ_1" = Some rank0).
Proof.
  destruct join_team_runs as [r Hr].
  assert (Hrank : effective_rank (pool (join_team workspace_owner).2) "USR_c" "PRJ_1" = Some 1) by run_eq.
  assert (Hreq : exists v, read_json (json_headers None) "{member_id:USR_c,role:member}" false = Ok v /\
    get_str "member_id" v = Some "USR_c" /\ join_team workspace_owner = (Ok r, (join_team workspace_owner).2)).
  { eexists. split; [run_eq|]. split; [run_eq|exact Hr]. }
  destruct (grant_no_escalation ctx0 carol "team" "TEM_1" "USR_c" (json_headers None) _ _ _ _
    (or_introl Hreq) eq_refl workspace_owner_shallow) as [_ Hbound].
  destruct (Hbound _ _ _ Hrank) as (rank0 & Hle & Hcase). exists rank0. split; [exact Hle|].
  destruct Hcase as [?|[_ [?|(_ & _ & _ & ?)]]]; [left|left|right]; assumption.
Defined.

Definition demote_bob : M Response :=
  set_member ctx0 alice "team" "TEM_1" "USR_b" (json_headers None) "{role:admin}".

Lemma demote_bob_runs : exists r, demote_bob seed_state = (Ok r, after demote_bob).
Proof. eexists. apply run_answer. run_eq. Qed.

Lemma last_owner_kept_witness : has_owner (pool (after demote_bob)) "TEM_1".
Proof.
  destruct demote_bob_runs as [r Hr].
  apply (last_owner_kept _ _ _ _ _ _ _ _ _ _ "TEM_1" (or_introl Hr)).
  exists "USR_a". by_eval.
Defined.

Lemma seed_acyclic : team_acyclic (pool seed_state).
Proof.
  intros p q [[row Hrow] Ht] Hqp.
  assert (Hp : bool_decide (map_Forall (fun k _ => ~ (is_team (pool seed_state) k.1 /\
    k.2 ∈ principals (pool seed_state) k.1)) (memberships (pool seed_state)))) by (vm_compute; exact I).
  apply bool_decide_unpack in Hp. apply (Hp (q, p) row Hrow). split; [done|].
  by apply principals_spec.
Qed.

Lemma roster_authority_witness :
  (exists rank, effective_rank (pool seed_state) "USR_a" "PRJ_1" = Some rank /\ 3 <= rank) \/
  memberships (pool (after grant_bob)) = delete ("PRJ_1", "USR_a") (memberships (pool seed_state)).
Proof.
  destruct grant_bob_runs as [r Hr].
  destruct (roster_authority ctx0 alice _ _ "" _ _ _ _ _ (or_introl Hr) eq_refl)
    as [(rank & Hrank & Hm & _)|Hd]; [left; exists rank; split; [exact Hrank|exact Hm]|right; exact Hd].
Defined.

(** ** The pipeline *)

Lemma seed_pipeline_ok : pipeline_ok (pool seed_state).
Proof. split; [intros id run Hrun; vm_compute in Hrun; discriminate|intros h []%elem_of_nil]. Qed.

Lemma started_pipeline_ok : pipeline_ok (pool started).
Proof.
  assert (Hr : exists r, start_run ctx0 alice "{case_id:CAS_1}" "1" seed_state = (Ok r, started))
    by (eexists; apply run_answer; run_eq).
  destruct Hr as [r Hr]. apply start_run_ok in Hr as (input & evs & _ & _ & Hnone & ->).
  by apply start_pipeline_ok; [apply seed_pipeline_ok|..].
Qed.

Lemma started_represents : exists r, Machine.reachable r /\ represents (pool started) "FRN_1" r.
Proof.
  eapply (proj1 started_pipeline_ok).
  assert (Hrun : feature_runs (pool started) !! "FRN_1" =
    Some (mkRunRow (Some "CAS_1") "" "spec" "active" 100 100)) by run_eq.
  exact Hrun.
Qed.

Definition first_handoff : M Response := record_handoff ctx0 alice "FRN_1" "architect pass".

Lemma first_handoff_runs : exists r st', first_handoff started = (Ok r, st').
Proof.
  destruct (succeeds first_handoff started) as [r Hr]; [run_eq|]. by eexists _, _.
Qed.

Lemma handoff_refines_witness :
  exists r r' st', Machine.step r r' /\ represents (pool st') "FRN_1" r'.
Proof.
  destruct started_represents as (r & Hreach & Hrep). destruct first_handoff_runs as (resp & st' & Hr).
  destruct (handoff_refines _ _ _ _ _ _ _ r Hrep Hreach Hr) as ((r' & Hs & Hr') & _).
  exists r, r', st'. split; [exact Hs|exact Hr'].
Defined.

Lemma handoff_progress_witness :
  exists body st', first_handoff started = (Ok (mkResponse OK [] (Some body)), st').
Proof.
  destruct started_represents as (r & Hreach & Hrep).
  refine (proj1 (handoff_progress ctx0 alice "FRN_1" "architect pass" started
    (mkHandoffInput "architect" "g" "pass" "")
    (mkRunRow (Some "CAS_1") "" "spec" "active" 100 100) r ltac:(run_eq) Hrep ltac:(run_eq))
    eq_refl _ eq_refl ltac:(run_eq)).
  by_eval.
Defined.

(** A client that passes every gate, in the name of the phase's role. *)
Definition keen (phase : string) (_ : nat) : string := role_for_phase phase +:+ " pass".

Lemma keen_satisfied : satisfied keen.
Proof. intros p n. exists (mkHandoffInput (role_for_phase (phase_name p)) "g" "pass" ""). by destruct p. Qed.

Lemma run_always_ends_witness :
  exists run, feature_runs (pool (drive ctx0 alice "FRN_1" keen 5 started).2) !! "FRN_1" = Some run /\
    f_status run = "landed".
Proof.
  assert (Hcl : competent keen).
  { intros p n. destruct (keen_satisfied p n) as (i & H1 & H2 & H3). exists i.
    split; [exact H1|]. split; [exact H2|]. rewrite H3. left. }
  destruct (run_always_ends ctx0 alice "FRN_1" keen started
    (mkRunRow (Some "CAS_1") "" "spec" "active" 100 100) Machine.Spec started_pipeline_ok
    ltac:(run_eq) ltac:(run_eq) Hcl) as [_ Hland].
  apply (Hland keen_satisfied eq_refl eq_refl). vm_compute. do 3 apply le_S. apply le_n.
Defined.

(** Bob reads the note, alice writes it with the tag he was given. *)
Lemma read_then_write_witness :
  exists st', patch_note seed_state =
    (Ok (mkResponse OK [("etag", etag 4)] (Some (entity_json "NOT_1" "note"
       (candidate Patch note_type note_data title_patch) 4))), st').
Proof.
  assert (Hget : exists r, item_get ctx0 bob "note" "NOT_1" ∅ seed_state = (Ok r, seed_state) /\
    resp_headers r = [("etag", etag 3)]) by (eexists; split; [apply returns_ro; [apply _|run_eq]|run_eq]).
  destruct Hget as (r & Hget & Hh).
  assert (Hrow : select_data "NOT_1" "note" (pool seed_state)
    = Some (mkDataRow "note" note_data (Some "PRJ_1") 3 3)) by run_eq.
  destruct (read_then_write Patch ctx0 ctx0 alice bob "note" "NOT_1" ∅ seed_state r seed_state _ (etag 3)
    (json_headers (Some (etag 3))) "{title:hello}" seed_state _ note_type title_patch Hget Hrow
    ltac:(rewrite Hh; left; reflexivity) ltac:(by_eval) ltac:(vm_compute; discriminate) ltac:(run_eq) Hrow
    eq_refl ltac:(run_eq) ltac:(discriminate) ltac:(run_eq) ltac:(run_eq) ltac:(run_eq) ltac:(run_eq)
    ltac:(run_eq) ltac:(run_eq)) as [st' Hst'].
  exists st'. exact Hst'.
Defined.
