(* ===== verification/ServerWitnesses.v ===== *)
(** * Witnesses for the server as a whole

    A concrete deployment around the store of [Fixture] (an environment, a provider that vouches
    for one subject, a resolver with a public address), and the theorems about interleavings,
    sequences of requests and the outer components applied to it. *)

From S2P Require Import Prelude RustStr Encoding Config Json AppError Closure Schema Registry.
From S2P Require Import Workflow State Rbac Caller FieldPerms Objects Fixture ObjectHandlers.
From S2P Require Import ObjectProps Lifecycle RbacProps Members MemberProps Orchestrator Pipeline.
From S2P Require Import Types TypeProps Relations HttpClient Connectors Auth OAuth RateLimit.
From S2P Require Import Platform Search Steps FieldProps CaseFlow Concurrency Server ServerProps.
From S2P Require Import Footprint Authority Confidentiality Invariants Witnesses.

Local Open Scope Z_scope.

(** ** A deployment *)

#[export] Instance fixture_type_spec : FromSlice TypeSpec := {
  from_slice_as s := if String.eqb s "{badge}"
    then Ok (mkTypeSpec "badge" "BDG" "Badge" "" []
               [mkFieldSpec "name" "Name" "text" true true "standard" (JObject []) false])
    else if String.eqb s "{ribbon}"
    then Ok (mkTypeSpec "ribbon" "RBN" "Ribbon" "" []
               [mkFieldSpec "colour" "Colour" "text" true true "standard" (JObject []) false])
    else Err "expected value" }.
#[export] Instance fixture_rel_input : FromSlice RelInput := {
  from_slice_as s := if String.eqb s "{NOT_1 blocks CAS_1}"
    then Ok (mkRelInput "NOT_1" "CAS_1" "blocks") else Err "expected value" }.
#[export] Instance fixture_level : FromSlice LevelInput := { from_slice_as s := Ok (mkLevelInput s) }.
#[export] Instance fixture_reqwest : Reqwest := {
  parse_url s := Some (mkUrl s "https" (Some "example.org") None);
  lookup_host _ _ := Some [V4 93 184 216 34];
  build_client host ip := Ok (mkClient host ip);
  send_post _ _ _ := Ok (mkHttpResponse true "200" (Ok "{access_token:a}"));
  send_get _ _ _ := Ok (mkHttpResponse true "200" (Ok "{id:42}")) }.
#[export] Instance fixture_pins : ReqwestPins.
Proof. constructor. by intros host ip c [= <-]. Qed.
#[export] Instance fixture_env : Env := { env_var _ := Some "x" }.
#[export] Instance fixture_hmac : Hmac := { hmac_sha256 k m := k +:+ m }.
#[export] Instance fixture_jwt : Jwt := {
  jwt_key := unit; decode_kid _ := None; rsa_key _ _ := None; decode_claims _ _ _ _ := None }.
#[export] Instance fixture_sha : Sha2 := { sha256 s := s }.
#[export] Instance fixture_build : Build := { debug_assertions := false }.
#[export] Instance fixture_urls : UrlParams := { url_with_params u _ := Some u }.
#[export] Instance fixture_crate : HttpCrate := fixture_http.
#[export] Instance fixture_crate_doc : HeaderValuesDoc.
Proof. constructor. done. Qed.
#[export] Instance fixture_deployment : Deployment := {
  version := "0.1.0"; cfg := mkConfig "" "" false 30 60 default_origins; ping := true; log_reload := None }.
#[export] Instance fixture_framework : Framework := {
  fallback_404 := mkResponse 404 [] None; fallback_405 := mkResponse 405 [] None;
  cors_preflight _ rq := if String.eqb (rq_method rq) "OPTIONS" then Some (mkResponse 200 [] None) else None;
  cors_headers _ _ l := l }.

(** Alice is logged in with the token [tok]. *)
Definition alice_session : SessionRow := mkSessionRow "USR_a" (sha256_hex "tok") 1000.
Definition live_state : AppState :=
  set_pool (set_sessions {["SES_1" := alice_session]} seed_db) seed_state.
Definition server0 : Process := mkProcess live_state ∅.

Definition no_query : Query := mkQuery None None None None None None "" "".
Definition uuid0 : string := "0123456789abcdef0123456789abcdef".
Definition fresh0 : Fresh := mkFresh uuid0 uuid0 "tok2" 0 uuid0 uuid0 0.

Definition http (method : string) (path : list string) (headers : HeaderMap) (body : string)
    : Fresh * HttpRequest :=
  (fresh0, mkHttpRequest method path no_query headers [] body (Some "192.0.2.1") None).

Definition as_alice (headers : HeaderMap) : HeaderMap :=
  <["cookie" := Some "numu_session=tok"]> headers.

(** A write, a new case, a grant and a deletion, all by alice. *)
Definition session : list (Fresh * HttpRequest) :=
  [http "PATCH" ["api"; "objects"; "note"; "NOT_1"] (as_alice (json_headers (Some (etag 3)))) "{title:hello}";
   http "POST" ["api"; "objects"; "case"] (as_alice (json_headers None)) "{project_id:PRJ_1,title:t}";
   http "POST" ["api"; "objects"; "team"; "TEM_1"; "members"] (as_alice (json_headers None))
     "{member_id:USR_b,role:member}";
   http "PATCH" ["api"; "objects"; "case"; "CAS_1"] (as_alice (json_headers (Some (etag 1)))) "{status:todo}";
   http "DELETE" ["api"; "objects"; "case"; "CAS_2"] (as_alice (json_headers (Some (etag 5)))) ""].

Abbreviation served := (serve_all session server0).

(** The session does what it says. *)
Example session_effect :
  (d_version <$> entity_data (pool (app served)) !! "NOT_1") = Some 4 /\
  is_Some (entity_data (pool (app served)) !! ("CAS_" +:+ uuid0)) /\
  (status_of ∘ d_data <$> entity_data (pool (app served)) !! "CAS_1") = Some "todo" /\
  entity_data (pool (app served)) !! "CAS_2" = None.
Proof. split_and!; try (vm_compute; reflexivity). eexists. vm_compute. reflexivity. Qed.

(** ** Invariants hold of the store of the fixture *)

Lemma length_append a b : String.length (a +:+ b) = (String.length a + String.length b)%nat.
Proof. induction a as [|c a IH]; [done|]. rewrite append_cons. simpl. by rewrite IH. Qed.

(** The identifiers of the fixture are shorter than those that are minted. *)
Lemma not_minted rqs id :
  (forall r, r ∈ rqs -> fr_uuid r.1 = uuid0) -> (String.length id < 33)%nat -> ~ minted_in rqs id.
Proof.
  intros Hu Hlen (r & Hr & prefix & ->). unfold mint in Hlen. rewrite (Hu r Hr), !length_append in Hlen.
  simpl in Hlen. lia.
Qed.

Lemma session_uuids r : r ∈ session -> fr_uuid r.1 = uuid0.
Proof.
  assert (Hall : Forall (fun r => fr_uuid r.1 = uuid0) session) by (unfold session; repeat constructor).
  intros Hr. by eapply (proj1 (Forall_forall _ _) Hall).
Qed.

Lemma is_ok_unit {E} (r : Result E unit) : is_ok r = true -> r = Ok tt.
Proof. by destruct r as [[]|]. Qed.

Lemma live_conformant : conformant live_state.
Proof.
  constructor.
  - run_eq.
  - assert (Hall : map_Forall (fun k _ => is_Some (type_definitions (pool live_state) !! k.1))
      (type_fields (pool live_state))) by by_eval.
    intros t f [r Hr]. exact (Hall (t, f) r Hr).
  - assert (Hall : map_Forall (fun k r => map_Forall (fun k' r' =>
        k.1 = k'.1 -> tf_ordinal r = tf_ordinal r' -> k.2 = k'.2) (type_fields (pool live_state)))
      (type_fields (pool live_state))) by by_eval.
    intros t f1 f2 r1 r2 H1 H2 Ho. exact (Hall (t, f1) r1 H1 (t, f2) r2 H2 eq_refl Ho).
  - assert (Hall : map_Forall (fun _ row => is_Some (type_definitions (pool live_state) !! d_type_id row))
      (entity_data (pool live_state))) by by_eval.
    intros id row Hrow. exact (Hall id row Hrow).
  - assert (Hall : map_Forall (fun _ row => d_type_id row ∉ stamped ->
        is_ok (validate_final (default note_type (registry live_state !! d_type_id row)) (d_data row)) = true)
      (entity_data (pool live_state))) by by_eval.
    intros id row td Hrow Hn Htd. specialize (Hall id row Hrow Hn). cbv beta in Hall. rewrite Htd in Hall.
    apply is_ok_unit. exact Hall.
Qed.

Lemma live_teams : teams_ok live_state.
Proof.
  constructor.
  - assert (Hall : map_Forall (fun id _ => is_Some (entities (pool live_state) !! id))
      (entity_data (pool live_state))) by by_eval.
    intros id [row Hrow]. exact (Hall id row Hrow).
  - assert (Hall : map_Forall (fun k _ => is_Some (entities (pool live_state) !! k.1) /\
        is_Some (entities (pool live_state) !! k.2)) (memberships (pool live_state))) by by_eval.
    intros o m [row Hrow]. exact (Hall (o, m) row Hrow).
  - exact seed_acyclic.
Qed.

Definition default_wf : Workflow.t := workflow_of_row seed_workflow.

Lemma in_review_reachable : rtc (wf_step default_wf) "backlog" "in_review".
Proof.
  assert (Hs : forall s t, bool_decide (t ∈ Workflow.states default_wf) && allows default_wf s t = true ->
    wf_step default_wf s t).
  { intros s t [Ht%bool_decide_eq_true Ha%allows_spec]%andb_prop. by split. }
  apply (rtc_l _ _ "todo"); [by apply Hs|]. apply (rtc_l _ _ "in_progress"); [by apply Hs|].
  by apply rtc_once, Hs.
Qed.

Lemma live_cases : cases_ok live_state.
Proof.
  constructor; [apply live_conformant|..].
  - assert (Hc : exists td, registry live_state !! "case" = Some td /\ bool_decide (fields_nodup td) = true /\
      match TypeDef.field td "workflow_id" with Some f => FieldDef.writable f = false | None => True end).
    { eexists. split; [run_eq|]. split; run_eq. }
    destruct Hc as (td & Htd & Hnd%bool_decide_eq_true & Hw). exists td. split_and!; [done..|].
    intros f Hf. by rewrite Hf in Hw.
  - assert (Hall : map_Forall (fun _ row => d_type_id row = "case" -> workflow_of (d_data row) = "default" /\
        (status_of (d_data row) = "backlog" \/ status_of (d_data row) = "in_review"))
      (entity_data (pool live_state))) by by_eval.
    intros id row Hrow Ht. destruct (Hall id row Hrow Ht) as [-> Hs]. exists default_wf. split; [run_eq|].
    destruct Hs as [-> | ->]; [apply rtc_refl|exact in_review_reachable].
Qed.

Lemma objects_always_conform_witness : registry (app served) = load (pool (app served)).
Proof. exact (proj1 (objects_always_conform session server0 live_conformant)). Defined.

Lemma cases_always_reachable_witness :
  exists wf, rtc (wf_step wf) (Workflow.initial wf) "todo".
Proof.
  assert (Hrow : exists row, entity_data (pool (app served)) !! "CAS_1" = Some row /\
    d_type_id row = "case" /\ status_of (d_data row) = "todo") by (eexists; split; [run_eq|split; run_eq]).
  destruct Hrow as (row & Hrow & Ht & Hs).
  pose proof (cases_always_reachable session server0 fixture_from_slice_wf live_cases) as Hall.
  cbv zeta in Hall. destruct (Hall "CAS_1" row Hrow Ht) as (wf & _ & Hreach).
  exists wf. rewrite <- Hs. exact Hreach.
Defined.

Lemma teams_never_cycle_witness : ~ rtc (team_edge (pool (app served))) "TEM_2" "TEM_1".
Proof.
  apply (teams_never_cycle session server0 live_teams "TEM_1" "TEM_2"). split; [|run_eq].
  by_eval.
Defined.

(** A run that alice starts and hands off, over the wire. *)
Definition run_session : list (Fresh * HttpRequest) :=
  [http "POST" ["api"; "feature-runs"] (as_alice (json_headers None)) "{case_id:CAS_1}";
   http "POST" ["api"; "feature-runs"; "FRN_" +:+ uuid0; "handoffs"] (as_alice (json_headers None))
     "architect pass"].

Lemma live_pipeline : pipeline_ok (pool live_state).
Proof. split; [intros id run Hrun; vm_compute in Hrun; discriminate|intros h []%elem_of_nil]. Qed.

Lemma pipeline_always_witness :
  exists r, Machine.reachable r /\ represents (pool (app (serve_all run_session server0))) ("FRN_" +:+ uuid0) r.
Proof.
  assert (Hrun : exists run, feature_runs (pool (app (serve_all run_session server0))) !! ("FRN_" +:+ uuid0)
    = Some run) by (eexists; run_eq).
  destruct Hrun as [run Hrun].
  exact (pipeline_always run_session server0 ("FRN_" +:+ uuid0) run live_pipeline Hrun).
Defined.

(** The run handed off by each role in turn, to its end. *)
Definition landing_session : list (Fresh * HttpRequest) :=
  http "POST" ["api"; "feature-runs"] (as_alice (json_headers None)) "{case_id:CAS_1}" ::
  ((fun body => http "POST" ["api"; "feature-runs"; "FRN_" +:+ uuid0; "handoffs"]
                  (as_alice (json_headers None)) body) <$>
    ["architect pass"; "tester pass"; "coder pass"; "reviewer pass"; "ops pass"]).

Lemma circuit_breaker_witness :
  let st := app (serve_all landing_session server0) in
  (exists pre, (fun h => (h_role h, h_outcome h)) <$> handoffs_of (pool st) ("FRN_" +:+ uuid0) =
     pre ++ [("coder", "pass"); ("reviewer", "pass"); ("ops", "pass")]) /\
  exists e, record_handoff ctx0 alice ("FRN_" +:+ uuid0) "ops pass" st = (Err e, st).
Proof.
  assert (Hrun : exists run, feature_runs (pool (app (serve_all landing_session server0)))
    !! ("FRN_" +:+ uuid0) = Some run /\ f_status run = "landed") by (eexists; split; run_eq).
  destruct Hrun as (run & Hrun & Hs).
  destruct (circuit_breaker landing_session server0 ("FRN_" +:+ uuid0) run eq_refl eq_refl Hrun)
    as (_ & _ & _ & Hclosed & Hlanded).
  split; [exact (Hlanded Hs)|]. apply Hclosed. rewrite Hs. discriminate.
Defined.

(** ** Sequences of requests *)

Lemma version_identifies_content_witness :
  exists row row', entity_data (pool live_state) !! "PRJ_1" = Some row /\
    entity_data (pool (app served)) !! "PRJ_1" = Some row' /\ d_data row' = d_data row.
Proof.
  assert (Hrow : exists row, entity_data (pool live_state) !! "PRJ_1" = Some row /\
    entity_data (pool (app served)) !! "PRJ_1" = Some row /\ d_type_id row = "project")
    by (eexists; split; [run_eq|split; run_eq]).
  destruct Hrow as (row & Hrow & Hrow' & Ht). exists row, row. split; [exact Hrow|split; [exact Hrow'|]].
  apply (version_identifies_content session server0 "PRJ_1" row row
    (not_minted session "PRJ_1" session_uuids ltac:(simpl; lia)) Hrow Hrow'); [|reflexivity].
  rewrite Ht. discriminate.
Defined.

(** Alice's session changes the note: one of its requests had the licence. *)
Lemma every_change_licensed_witness :
  exists before fr rq after e caller, session = before ++ (fr, rq) :: after /\
    licensed (pool (app (serve_all before server0))) caller (rq_body rq) e "NOT_1".
Proof.
  assert (Hid : is_Some (entities (pool live_state) !! "NOT_1")) by by_eval.
  destruct (every_change_licensed session server0 "NOT_1" Hid)
    as [Hk|(before & fr & rq & after & e & caller & Hs & _ & _ & Hl)];
    [exfalso|exists before, fr, rq, after, e, caller; split; [exact Hs|exact Hl]].
  assert (Hrow : exists row row', entity_data (pool live_state) !! "NOT_1" = Some row /\
    entity_data (pool (app served)) !! "NOT_1" = Some row' /\ d_version row = 3 /\ d_version row' = 4)
    by (do 2 eexists; split_and!; run_eq).
  destruct Hrow as (row & row' & Hrow & Hrow' & Hv & Hv').
  destruct (kp_data _ _ _ Hk row Hrow) as (row2 & Hrow2 & _ & _ & Heq & _).
  assert (Hsame : Some row2 = Some row') by (etransitivity; [symmetry; exact Hrow2|exact Hrow']).
  injection Hsame as ->. rewrite Hv, Hv' in Heq. discriminate Heq.
Defined.

(** Carol, who has no membership, looks around: the note, all notes, its edges, a search, a write. *)
Definition carol_process : Process :=
  mkProcess (set_pool (set_sessions {["SES_3" := mkSessionRow "USR_c" (sha256_hex "ctok") 1000]} seed_db)
               seed_state) ∅.
Definition as_carol (headers : HeaderMap) : HeaderMap :=
  <["cookie" := Some "numu_session=ctok"]> headers.
Definition looking_around : list (Fresh * HttpRequest) :=
  [http "GET" ["api"; "objects"; "note"; "NOT_1"] (as_carol ∅) "";
   http "GET" ["api"; "objects"; "note"] (as_carol ∅) "";
   http "PATCH" ["api"; "objects"; "note"; "NOT_1"] (as_carol (json_headers (Some (etag 3)))) "{title:hello}";
   http "POST" ["api"; "objects"; "project"] (as_carol (json_headers None)) "{name:apollo,slug:apollo}"].

(** Nobody in a run sees the object: by evaluation. *)
Fixpoint outsiders (id : string) (rqs : list (Fresh * HttpRequest)) (p : Process) : bool :=
  match rqs with
  | [] => true
  | r :: rest =>
      match (from_request_parts (rq_headers r.2) (app p)).1 with
      | Ok c => negb (Caller.is_platform_admin c)
                && bool_decide (id ∉ reach (pool (app p)) (Caller.actor_id c))
      | Err _ => true
      end && outsiders id rest (serve_http r.1 r.2 p).2
  end.

Lemma outsiders_keep_out id rqs p before fr rq after :
  outsiders id rqs p = true -> rqs = before ++ (fr, rq) :: after -> keeps_out id (serve_all before p) rq.
Proof.
  revert rqs p. induction before as [|r before IH]; intros rqs p Ho ->; simpl in Ho;
    apply andb_prop in Ho as [H1 H2]; [|exact (IH _ (serve_http r.1 r.2 p).2 H2 eq_refl)].
  intros caller Hf. simpl in Hf. change (app (serve_all [] p)) with (app p) in *. rewrite Hf in H1.
  apply andb_prop in H1 as [Ha%negb_true_iff Hr%bool_decide_eq_true]. by split.
Qed.

Lemma unseen_leaves_no_trace_witness :
  answers looking_around (hide_process "NOT_1" (JString "secret") carol_process)
    = answers looking_around carol_process /\
  resp_status <$> answers looking_around carol_process = [404; 200; 404; 201].
Proof.
  split; [|run_eq].
  assert (Ho : outsiders "NOT_1" looking_around carol_process = true) by run_eq.
  assert (Hid : is_Some (entities (pool (app carol_process)) !! "NOT_1")) by by_eval.
  exact (proj1 (unseen_leaves_no_trace "NOT_1" (JString "secret") looking_around carol_process Hid
    (fun before fr rq after E => outsiders_keep_out _ _ _ _ _ _ _ Ho E))).
Defined.

Definition anonymous : HttpRequest := (http "DELETE" ["api"; "objects"; "note"; "NOT_1"] ∅ "").2.

Lemma authentication_required_witness :
  exists refusal b, respond fresh0 anonymous server0 (request_ctx ∅ uuid0 uuid0)
    = (into_response refusal, mkProcess live_state b).
Proof.
  destruct (authentication_required fresh0 anonymous server0 (ItemDelete "note" "NOT_1") eq_refl eq_refl
    ltac:(intros token Ht; vm_compute in Ht; discriminate Ht)) as (refusal & b & Hr & _).
  exists refusal, b. exact Hr.
Defined.

(** ** Interleavings *)

Definition alice_plan : M WritePlan := note_patch alice 3 "{title:hello}".
Definition the_plan : WritePlan := Eval vm_compute in
  match (alice_plan seed_state).1 with
  | Ok p => p
  | Err _ => mkWritePlan note_type JNull None 0
  end.
Definition no_mint (id : string) : Prop := False.

(** While alice decides, root writes to another note of hers: the connector. *)
Definition other_write : AppState :=
  (item_write Patch ctx0 root "project" "PRJ_1" (json_headers (Some (etag 1))) "{status:done}" seed_state).2.

Lemma other_write_steps : data_steps no_mint seed_state other_write.
Proof. unfold other_write. apply (respects (R := data_steps no_mint)). Qed.

Lemma no_lost_update_witness :
  exists row2, entity_data (pool (item_write_commit Patch ctx0 alice "note" "NOT_1" the_plan other_write).2)
    !! "NOT_1" = Some row2 /\
    d_data row2 = candidate Patch (p_td the_plan) note_data title_patch.
Proof.
  assert (Hread : alice_plan seed_state = (Ok the_plan, seed_state)) by (apply returns_ro; [apply _|run_eq]).
  assert (Hsel : select_data "NOT_1" "note" (pool seed_state) = Some (mkDataRow "note" note_data (Some "PRJ_1") 3 3))
    by run_eq.
  destruct (succeeds (item_write_commit Patch ctx0 alice "note" "NOT_1" the_plan) other_write)
    as [r Hc]; [run_eq|].
  destruct (no_lost_update Patch ctx0 alice "note" "NOT_1" _ _ seed_state the_plan seed_state _ no_mint
    other_write r _ ltac:(discriminate) Hread Hsel ltac:(run_eq) other_write_steps
    ltac:(intros []) Hc) as (row1 & row2 & payload & _ & Hd & _ & Hj & Hrow2 & Hd2).
  exists row2. split; [exact Hrow2|]. rewrite Hd2, Hd. vm_compute in Hj. injection Hj as <-. reflexivity.
Defined.

(** Alice's write is in. *)
Definition patched : AppState := (item_write_commit Patch ctx0 alice "note" "NOT_1" the_plan seed_state).2.

Lemma first_writer_wins_witness :
  item_write_commit Put ctx0 root "note" "NOT_1" the_plan patched =
    (Err (with_request_id "req_1" precondition_failed), patched).
Proof.
  destruct (succeeds (item_write_commit Patch ctx0 alice "note" "NOT_1" the_plan) seed_state)
    as [r Hc]; [run_eq|].
  exact (first_writer_wins Patch Put ctx0 ctx0 alice root "note" "NOT_1" the_plan the_plan no_mint
    seed_state r patched patched Hc (rtc_refl _ _) ltac:(intros []) (Z.le_refl _)).
Defined.

(** ** Fields and cases *)

Definition members_of (title : string) : Map :=
  [("body", JString "b"); ("pinned", JBool false); ("project_id", JString "PRJ_1");
   ("title", JString title)].

Lemma members_of_wf title : map_wf (members_of title).
Proof. unfold members_of. repeat constructor. Qed.

Definition title_field : FieldDef.t := Eval vm_compute in
  default (FieldDef.mk "" "" "" false false 0 "" JNull false) (TypeDef.field note_type "title").

Lemma unreadable_leak_free_witness :
  get "title" (filter_readable (pool secret_titles) bob note_type "NOT_1" (JObject (members_of "first"))) = None.
Proof.
  assert (Hag : forall k, readable_key (pool secret_titles) note_type
    (rank_on (pool secret_titles) bob "NOT_1") k ->
    map_get k (members_of "first") = map_get k (members_of "other")).
  { intros k Hk. destruct (decide (k = "title")) as [->|Hne].
    - exfalso. specialize (Hk title_field). vm_compute in Hk. apply Hk; [|reflexivity|reflexivity].
      do 1 right. left.
    - simpl. by rewrite (proj2 (String.eqb_neq k "title") Hne). }
  destruct (unreadable_leak_free ctx0 bob "note" "NOT_1" ∅ secret_titles note_type
    (mkDataRow "note" note_data (Some "PRJ_1") 3 3) (members_of "first") (members_of "other")
    ltac:(run_eq) ltac:(vm_compute; discriminate) ltac:(run_eq) eq_refl (members_of_wf _)
    (members_of_wf _) Hag) as [_ Hget].
  rewrite Hget. run_eq.
Defined.

Definition start_case : M Response :=
  item_write Patch ctx0 alice "case" "CAS_1" (json_headers (Some (etag 1))) "{status:todo}".

Lemma case_write_legal_witness :
  exists row', entity_data (pool (after start_case)) !! "CAS_1" = Some row' /\
    cases (pool (after start_case)) !! "CAS_1" = Some (case_row (d_data row') (d_version row') 100).
Proof.
  assert (Hr : exists r, start_case seed_state = (Ok r, after start_case)) by (eexists; apply run_answer; run_eq).
  destruct Hr as [r Hr].
  assert (Htd : exists td, registry seed_state !! "case" = Some td /\ TypeDef.type_id td = "case")
    by (eexists; split; run_eq).
  destruct Htd as (td & Htd & Hty).
  destruct (case_write_legal Patch _ _ _ _ _ _ _ _ _ td Htd Hty Hr)
    as (row & row' & wf & _ & Hrow' & _ & _ & _ & _ & Hm).
  exists row'. split; [exact Hrow'|exact Hm].
Defined.

(** ** The outer surfaces *)

Lemma search_exactly_reach_witness :
  exists all, (exists r, r ∈ all /\ sr_entity_id r = "NOT_1") /\
    search ctx0 bob (Some "first") None (Some 500) seed_state =
      (Ok (mkResponse OK [] (Some (json_object [("query", JString "first");
         ("results", JArray (search_json <$> take 100 all))]))), seed_state).
Proof.
  assert (Htot : forall a b, rank_leb a b = true \/ rank_leb b a = true).
  { simpl. intros a b. rewrite !Z.leb_le. lia. }
  assert (Htr : Transitive (fun a b => rank_leb a b = true)).
  { intros a b c. simpl. rewrite !Z.leb_le. lia. }
  destruct (search_exactly_reach ctx0 bob "first" None seed_state Htot Htr eq_refl eq_refl)
    as (all & Hall & _ & Hs).
  exists all. split; [|exact (proj2 (Hs (Some 500)))].
  exists (@mkSearchRow fixture_fulltext "NOT_1" "note" (1 : Z) "first"). split; [|reflexivity].
  apply Hall. split; [by_eval|]. eexists. split; run_eq.
Defined.

(** The edge between a note and a case that alice draws. *)
Definition draw_edge (caller : Caller.t) : M Response :=
  create_relation ctx0 caller "{NOT_1 blocks CAS_1}" uuid0.

Lemma relation_no_oracle_witness :
  draw_edge carol seed_state = (Err (deny_404 ctx0), seed_state) /\
  is_ok (draw_edge alice seed_state).1 = true.
Proof.
  split; [|run_eq].
  assert (Hp : from_slice_as (A := RelInput) "{NOT_1 blocks CAS_1}"
    = Ok (mkRelInput "NOT_1" "CAS_1" "blocks")) by run_eq.
  apply (relation_no_oracle ctx0 carol _ uuid0 seed_state _ Hp); [by_eval|discriminate|left; run_eq].
Defined.

Definition list_edges : M Response := list_relations ctx0 bob (Some "NOT_1") None.

Lemma relations_leak_free_witness :
  reach_action (after (draw_edge alice)) bob "NOT_1" View = true.
Proof.
  destruct (succeeds list_edges (after (draw_edge alice))) as [r Hr]; [run_eq|].
  exact (proj1 (proj2 (relations_leak_free ctx0 bob "NOT_1" None _ _ _ eq_refl Hr))).
Defined.

(** Root registers a type. *)
Definition new_type : M Response := create_type ctx0 root "{badge}".

Lemma create_type_live_witness :
  exists spec, registry (after new_type) !! "badge" = Some (spec_type spec) /\
    registry (after new_type) = load (pool (after new_type)).
Proof.
  destruct (succeeds new_type seed_state) as [r Hr]; [run_eq|]. destruct live_conformant as [Hco Hfk Hod _ _].
  destruct (create_type_live ctx0 root "{badge}" seed_state r _ Hco Hfk Hod Hr)
    as (spec & Hspec & _ & _ & Hnew & _ & Hco').
  exists spec. simpl in Hspec. injection Hspec as <-. split; [exact Hnew|exact Hco'].
Defined.

Lemma guarded_client_safe_witness :
  exists c u, guarded_client "https://example.org" = Ok (c, u) /\ is_blocked_ip (cl_pinned c) = false.
Proof.
  assert (Hg : exists c u, guarded_client "https://example.org" = Ok (c, u)) by (do 2 eexists; run_eq).
  destruct Hg as (c & u & Hg). exists c, u. split; [exact Hg|].
  destruct (guarded_client_safe _ _ _ Hg) as (_ & _ & host & addrs & _ & _ & _ & _ & Hok). exact Hok.
Defined.

Lemma blocked_v4_ranges_witness :
  existsb (fun r => in_cidr r.1 r.2 (addr32 169 254 169 254)) blocked_ranges = true.
Proof. rewrite <- (blocked_v4_ranges 169 254 169 254) by (unfold octet; lia). reflexivity. Defined.

(** ** Sessions, logins, the limiter *)

(** Bob logs in and comes back a day later. *)
Definition bob_login : M string := mint_session "USR_b" "btok" "s1".
Definition logged_in : AppState := (bob_login live_state).2.
Definition next_day : AppState :=
  set_pool (set_now (100 + 86400 * 1000000) (pool logged_in)) logged_in.

Lemma session_roundtrip_witness :
  from_request_parts {[ "cookie" := Some "numu_session=btok" ]} next_day = (Ok bob, next_day).
Proof.
  assert (Hu : tokens_unique (pool live_state)).
  { intros i j ri rj Hi Hj _. change (sessions (pool live_state)) with
    ({["SES_1" := alice_session]} : gmap string SessionRow) in *.
    apply lookup_singleton_Some in Hi as [<- _], Hj as [<- _]. done. }
  destruct (succeeds bob_login live_state) as [cookie Hm]; [run_eq|].
  assert (Hd : exists d, select_data "USR_b" "actor" (pool next_day) = Some d /\
    platform_role (d_data d) = None) by (eexists; split; run_eq).
  destruct Hd as (d & Hd & Hrole).
  pose proof (session_roundtrip "USR_b" "btok" "s1" live_state cookie logged_in next_day d Hu
    ltac:(run_eq) Hm ltac:(run_eq) Hd ltac:(vm_compute; reflexivity)) as Hc.
  rewrite Hrole in Hc. exact Hc.
Defined.

(** A login with a provider: the cookie of [start], the query of the provider's redirect. *)
Definition nonce0 : string := mint "st" uuid0.
Definition login_cookie : HeaderMap :=
  {[ "cookie" := Some (STATE_COOKIE +:+ "=" +:+ sign_state (nonce0 +:+ ":600")) ]}.
Definition login (state : string) (now_unix : Z) : M Response :=
  callback "facebook" "code" state login_cookie now_unix (mkLoginRandom uuid0 uuid0 "ltok").

Lemma callback_authentic_witness :
  is_ok (login "forged" 0 seed_state).1 = false /\ is_ok (login nonce0 601 seed_state).1 = false /\
  exists actor row, sessions (pool (after (login nonce0 0))) !! mint "SES" uuid0 = Some row /\
    s_actor_id row = actor /\ s_token_hash row = sha256_hex "ltok".
Proof.
  split; [run_eq|]. split; [run_eq|].
  destruct (succeeds (login nonce0 0) seed_state) as [r Hr]; [run_eq|].
  destruct (callback_authentic _ _ _ _ _ _ _ _ _ Hr)
    as (p & signed & payload & exp & sub & email & nm & actor & row & H).
  exists actor, row. split; [apply H|]. split; apply H.
Defined.

Lemma claim_admin_once_witness :
  claim_admin bob (after (claim_admin alice)) =
    (Err (conflict "an admin already exists"), after (claim_admin alice)).
Proof.
  destruct (succeeds (claim_admin alice) seed_state) as [r Hr]; [run_eq|].
  apply (proj2 (proj2 (claim_admin_once alice seed_state r _ Hr))). discriminate.
Defined.

(** Two hits a minute: the third within it is refused. *)
Definition two_hits : list (string * Z) := [("192.0.2.1", 0); ("192.0.2.1", 10)].

Lemma limiter_bounds_witness :
  2 < hits_in "192.0.2.1" (-40) 20 (two_hits ++ [("192.0.2.1", 20)]).
Proof.
  apply (proj2 (limiter_bounds (mkRateLimiter 2 60) two_hits "192.0.2.1" 20 ltac:(vm_compute; discriminate)
    ltac:(vm_compute; discriminate) ltac:(vm_compute; reflexivity)
    ltac:(repeat constructor; simpl; lia))).
  run_eq.
Defined.
