(* ===== verification/BootWitnesses.v ===== *)
(** * Witnesses for installations and interleavings

    A migrator with the documented behaviour, a network, and a history over a fresh database: a
    start without a configuration, and a life in which the seeded principal logs in and works.
    On the store of [Fixture]: two requests that race each other, requests of a caller without
    reach that interleave, and a deletion. *)

From S2P Require Import Prelude RustStr Encoding Config Json AppError Closure Schema Registry.
From S2P Require Import Workflow State Rbac Caller FieldPerms Objects Fixture ObjectHandlers.
From S2P Require Import ObjectProps Lifecycle RbacProps Members MemberProps Orchestrator Pipeline.
From S2P Require Import Types TypeProps Migrations Relations HttpClient Connectors Auth OAuth.
From S2P Require Import RateLimit Platform Search Steps FieldProps CaseFlow Concurrency Server Boot.
From S2P Require Import ServerProps Footprint Staging Authority Confidentiality Invariants.
From S2P Require Import Installation Secrecy Interleaving Races Trespass Integrity Witnesses ServerWitnesses.

Local Open Scope Z_scope.

(** ** What a process meets *)

(** The migrator of [sqlx], as documented. *)
Fixpoint run_pending (ms : list (Z * SqlM unit)) (s : Stored) : Result string unit * Stored :=
  match ms with
  | [] => (Ok tt, s)
  | (v, m) :: rest =>
      if decide (v ∈ applied s) then run_pending rest s
      else match m (data s) with
           | Ok (_, db) => run_pending rest (mkStored (applied s ++ [v]) db)
           | Err _ => (Err "while executing migrations", s)
           end
  end.

Lemma run_pending_skip old rest s :
  (forall v, v ∈ old.*1 -> v ∈ applied s) -> run_pending (old ++ rest) s = run_pending rest s.
Proof.
  induction old as [|[v m] old IH]; intros Hall; [done|]. simpl. rewrite decide_True by (apply Hall; left).
  apply IH. intros w Hw. apply Hall. by right.
Qed.

Lemma run_pending_next old v m rest db :
  NoDup (old ++ (v, m) :: rest).*1 ->
  run_pending (old ++ (v, m) :: rest) (mkStored old.*1 db) =
    match m db with
    | Ok (_, db') => run_pending rest (mkStored (old.*1 ++ [v]) db')
    | Err _ => (Err "while executing migrations", mkStored old.*1 db)
    end.
Proof.
  intros Hnd. rewrite run_pending_skip by done. cbn [run_pending applied data]. rewrite decide_False; [done|].
  rewrite fmap_app in Hnd. apply NoDup_app in Hnd as (_ & Hnd & _). intros Hv. apply (Hnd v Hv). left.
Qed.

#[export] Instance fixture_migrator : Migrator := { migrate := run_pending }.
#[export] Instance fixture_migrator_doc : MigratorDoc.
Proof.
  constructor.
  - intros ms s Hs. rewrite <- (app_nil_r ms). cbn [migrate fixture_migrator].
    rewrite run_pending_skip; [done|]. by rewrite Hs.
  - intros old v m rest db db' Hnd Hm. cbn [migrate fixture_migrator]. rewrite run_pending_next, Hm by done.
    change (old ++ (v, m) :: rest) with (old ++ [(v, m)] ++ rest).
    rewrite (app_assoc old), run_pending_skip; [done|]. by rewrite fmap_app.
  - intros old v m rest db e Hnd Hm. eexists. cbn [migrate fixture_migrator].
    by rewrite run_pending_next, Hm.
Qed.

#[export] Instance fixture_tower : Tower := {
  cors_usable l := bool_decide ("*" ∉ allow_origin l ++ allow_methods l ++ allow_headers l ++ expose_headers l) }.
#[export] Instance fixture_tower_doc : TowerDoc.
Proof.
  constructor; intros l Hl; cbn [cors_usable fixture_tower].
  - apply bool_decide_eq_false. rewrite elem_of_app. tauto.
  - by apply bool_decide_eq_true.
Qed.

#[export] Instance fixture_tracing : Tracing := {
  Filter := string; filter_try_new := Some; filter_new := id; filter_reload _ := true }.
Definition reachable : Network := {| pg_connect _ := Ok tt; tcp_bind _ := Ok tt |}.
Definition address_taken : Network := {| pg_connect _ := Ok tt; tcp_bind _ := Err "in use" |}.

(** A development build, for the login without a provider. *)
#[export] Instance debug_build : Build := { debug_assertions := true }.

(** ** A history *)

Definition unconfigured : Env := {| env_var _ := None |}.
Definition until_stopped : Signals := mkSignals (Listening (Some 5%nat)) (Listening None).

Definition request (uuid method : string) (path : list string) (headers : HeaderMap) (body : string) : Stimulus :=
  Request (mkFresh uuid uuid "tok" 0 uuid uuid 0)
    (mkHttpRequest method path no_query headers [] body (Some "192.0.2.1") None).

(** The seeded principal logs in, opens a project and a case, and moves the case on; the last
    request comes after the signal. *)
Definition first_day : list Stimulus :=
  [request "1" "POST" ["auth"; "dev-login"] ∅ "";
   Tick 100;
   request "1" "POST" ["api"; "objects"; "project"] (as_alice (json_headers None)) "{name:apollo,slug:apollo}";
   request "2" "POST" ["api"; "objects"; "case"] (as_alice (json_headers None)) "{project_id:PRJ_1,title:t}";
   request "3" "PATCH" ["api"; "objects"; "case"; "CAS_2"] (as_alice (json_headers (Some (etag 1)))) "{status:todo}";
   request "4" "DELETE" ["api"; "objects"; "case"; "CAS_2"] (as_alice (json_headers (Some (etag 2)))) ""].

Definition no_start : Life := mkLife unconfigured reachable "0.1.0" true until_stopped [].
Definition first_life : Life := mkLife fixture_env reachable "0.1.0" true until_stopped first_day.
Definition two_lives : list Life := [no_start; first_life].
Definition empty_database : Stored := mkStored [] (fresh 0).

Definition todo_case (db : Db) : bool :=
  match entity_data db !! "CAS_2" with
  | Some row => bool_decide (d_type_id row = "case" /\ status_of (d_data row) = "todo")
  | None => false
  end.

Lemma todo_case_spec db :
  todo_case db = true <-> exists row, entity_data db !! "CAS_2" = Some row /\ d_type_id row = "case" /\
    status_of (d_data row) = "todo".
Proof.
  unfold todo_case. destruct (entity_data db !! "CAS_2") as [row|].
  - rewrite bool_decide_eq_true. naive_solver.
  - naive_solver.
Qed.

Example history_effect : todo_case (data (history two_lives empty_database)) = true.
Proof. vm_compute. reflexivity. Qed.

Lemma installation_sound_witness :
  exists row, entity_data (data (history two_lives empty_database)) !! "CAS_2" = Some row /\
    workflow_of (d_data row) = "default".
Proof.
  pose proof history_effect as Hc. apply todo_case_spec in Hc as (row & Hrow & Hty & _).
  exists row. split; [exact Hrow|].
  destruct (installation_sound fixture_from_slice_wf two_lives 0) as [[t' Ht]|(_ & _ & _ & Hcases & _)].
  - exfalso. assert (Hd : data (history two_lives empty_database) = fresh t') by (unfold empty_database; rewrite Ht; reflexivity).
    rewrite Hd in Hrow. vm_compute in Hrow. discriminate Hrow.
  - exact (proj1 (Hcases "CAS_2" row Hrow Hty)).
Defined.

(** The second start finds a smaller list of origins. *)
Definition next_env : Env := {| env_var k := if String.eqb k "NUMU_CORS_ORIGINS" then Some "https://numu.test" else Some "x" |}.
Definition next_life : Life := mkLife next_env reachable "0.2.0" true until_stopped [].

Lemma restart_transparent_witness :
  exists x x' s1, @start_up fixture_env _ reachable _ _ _ None (history [no_start] empty_database) = (Ok x, s1) /\
    @start_up next_env _ reachable _ _ _ None (run first_life (history [no_start] empty_database)).2
      = (Ok x', (run first_life (history [no_start] empty_database)).2) /\
    app (st_process x') = app (serve_life first_life x).
Proof.
  assert (Hx : is_ok (@start_up fixture_env _ reachable _ _ _ None (history [no_start] empty_database)).1 = true)
    by (vm_compute; reflexivity).
  destruct (@start_up fixture_env _ reachable _ _ _ None (history [no_start] empty_database)) as [[x|e] s1] eqn:E;
    [clear Hx|discriminate Hx].
  assert (Hw : "*" ∉ allow_origin (cors_layer (mkConfig "x" "x" false 30 60 ["https://numu.test"]))) by by_eval.
  destruct (restart_transparent fixture_from_slice_wf [no_start] 0 first_life next_life x s1 _ E eq_refl Hw eq_refl eq_refl)
    as (x' & Hx' & Happ & _).
  exists x, x', s1. split_and!; [reflexivity|exact Hx'|exact Happ].
Defined.

(** A start with the wildcard among the origins. *)
Definition wildcard_env : Env := {| env_var k := if String.eqb k "NUMU_CORS_ORIGINS" then Some "*" else Some "x" |}.
Definition wildcard_life : Life := mkLife wildcard_env reachable "0.1.0" true until_stopped [].

Lemma start_failures_witness :
  (run wildcard_life empty_database).1 = Failed CorsPanic /\
  applied (run wildcard_life empty_database).2 = migrations.*1 /\
  exit_code (run wildcard_life empty_database).1 = Some 101.
Proof.
  assert (Hr : match (run wildcard_life empty_database).1 with Failed CorsPanic => True | _ => False end)
    by (vm_compute; exact I).
  destruct (run wildcard_life empty_database) as [o s'] eqn:E. cbn [fst snd] in *.
  destruct o as [e| |]; [|contradiction..]. destruct e; try contradiction.
  destruct (start_failures fixture_from_slice_wf [] 0 wildcard_life CorsPanic s' E) as [(cfg & _ & _ & Ha & Hx) _].
  split_and!; [reflexivity|exact Ha|exact Hx].
Defined.

Lemma catalog_valid_witness :
  exists td, load (installed 0) !! "case" = Some td /\
    validate_spec (spec_of td) (delete "case" (load (installed 0)))
      = Err (unprocessable "'type' is a reserved field name").
Proof.
  assert (Hs : bool_decide (is_Some (load (installed 0) !! "case")) = true) by (vm_compute; reflexivity).
  apply bool_decide_eq_true in Hs as [td Htd]. exists td. split; [exact Htd|].
  exact (catalog_valid 0 "case" td Htd).
Defined.

(** ** A race *)

(** Two writes of the same note by alice; the first has only looked up its caller and decided what
    to write when the second comes and goes. *)
Definition rename : HttpRequest :=
  (http "PATCH" ["api"; "objects"; "note"; "NOT_1"] (as_alice (json_headers (Some (etag 3)))) "{title:hello}").2.
Definition rename_tree : Prog Response := prog (handle fresh0 ctx0 rename (ItemPatch "note" "NOT_1")).
Definition commit_of (p : WritePlan) : Prog Response :=
  prog (item_write_commit Patch ctx0 alice "note" "NOT_1" p).
Definition rename_plan : M WritePlan :=
  item_write_read Patch ctx0 alice "note" "NOT_1" (rq_headers rename) (rq_body rename).

Definition after_second : AppState := (alone rename_tree live_state).2.

(** The first request, with the second in the middle: [gap] is what happens to the others. *)
Lemma race_around admitted p l1 l2 l2' :
  rename_plan live_state = (Ok p, live_state) ->
  (forall q, rtc (server_step admitted) (l1 ++ q :: l2, live_state) (l1 ++ q :: l2', after_second)) ->
  rtc (server_step admitted) (l1 ++ rename_tree :: l2, live_state)
    (l1 ++ Done (alone (commit_of p) after_second).1 :: l2', (alone (commit_of p) after_second).2).
Proof.
  intros Hp Hgap.
  assert (Hc : from_request_parts (rq_headers rename) live_state = (Ok alice, live_state))
    by (apply returns_ro; [apply _|run_eq]).
  unfold rename_tree. cbn [handle_staged prog staged_bind is_public].
  etransitivity; [apply steps_staged; exact Hc|].
  unfold exec, item_patch, item_write_staged, item_write. cbn [prog staged_bind].
  etransitivity; [apply steps_staged; exact Hp|].
  etransitivity; [apply Hgap|]. apply (steps_all _ (commit_of p)).
Qed.

(** Both are there from the start. *)
Lemma race_of_two admitted p :
  rename_plan live_state = (Ok p, live_state) ->
  rtc (server_step admitted) ([rename_tree; rename_tree], live_state)
    ([Done (alone (commit_of p) after_second).1; Done (alone rename_tree live_state).1],
     (alone (commit_of p) after_second).2).
Proof.
  intros Hp. apply (race_around admitted p []); [exact Hp|]. intros q. apply (steps_all _ rename_tree [q]).
Qed.

(** Or they arrive. *)
Lemma race_runs admitted p :
  admitted rename_tree -> rename_plan live_state = (Ok p, live_state) ->
  rtc (server_step admitted) ([], live_state)
    ([Done (alone (commit_of p) after_second).1; Done (alone rename_tree live_state).1],
     (alone (commit_of p) after_second).2).
Proof.
  intros Hadm Hp. eapply rtc_l; [by apply step_arrival|]. eapply rtc_l; [by apply step_arrival|].
  by apply race_of_two.
Qed.

Lemma rename_requests : requests (minted_by fresh0) rename_tree.
Proof. by exists fresh0, ctx0, rename, (ItemPatch "note" "NOT_1"). Qed.
Lemma rename_any : any_request rename_tree.
Proof. by exists fresh0, ctx0, rename, (ItemPatch "note" "NOT_1"). Qed.
Lemma note_not_minted : ~ minted_by fresh0 "NOT_1".
Proof.
  intros [prefix Hm]. apply (not_minted [(fresh0, rename)] "NOT_1").
  - by intros r ->%list_elem_of_singleton.
  - simpl. lia.
  - exists (fresh0, rename). split; [left|]. by exists prefix.
Qed.
Lemma plan_computed : is_ok (rename_plan live_state).1 = true.
Proof. run_eq. Qed.
Lemma plan_state p : (rename_plan live_state).1 = Ok p -> rename_plan live_state = (Ok p, live_state).
Proof. apply returns_ro. apply _. Qed.

(** One of them is answered 200 and the other 412, and the note is what the type says. *)
Lemma lawful_under_interleaving_witness :
  exists won lost st' row,
    rtc (server_step any_request) ([], live_state) ([Done (Err lost); Done (Ok won)], st') /\
    entity_data (pool st') !! "NOT_1" = Some row /\ d_version row = 4 /\
    exists obj, d_data row = JObject obj.
Proof.
  pose proof plan_computed as Hp.
  destruct (rename_plan live_state).1 as [p|] eqn:Hfst; [clear Hp|discriminate Hp].
  pose proof (race_runs any_request p rename_any (plan_state p Hfst)) as Hrun.
  vm_compute in Hfst. injection Hfst as <-.
  match type of Hrun with rtc _ _ ([Done ?b; Done ?a], ?c) =>
    assert (Ha : is_ok a = true) by (vm_compute; reflexivity);
    assert (Hb : is_ok b = false) by (vm_compute; reflexivity);
    assert (Hrow : exists row, entity_data (pool c) !! "NOT_1" = Some row /\ d_version row = 4 /\
      d_type_id row = "note") by (eexists; split; [vm_compute; reflexivity|split; vm_compute; reflexivity]);
    destruct a as [won|]; [clear Ha|discriminate Ha]; destruct b as [|lost]; [discriminate Hb|clear Hb];
    set (st' := c) in *
  end.
  destruct Hrow as (row & Hrow & Hv & Hty).
  destruct (lawful_under_interleaving fixture_from_slice_wf live_state _ st' (cases_ok_lawful _ live_cases eq_refl) Hrun)
    as [Hall _].
  destruct (Hall "NOT_1" row Hrow) as (td & _ & Hobj & _).
  destruct Hobj as (obj & Hd & _); [rewrite Hty; by_eval|].
  exists won, lost, st', row. split_and!; [exact Hrun|exact Hrow|exact Hv|]. exists obj. exact Hd.
Defined.

(** The note of the fixture over the same race. *)
Lemma versions_under_interleaving_witness :
  exists l st' row', rtc (server_step (requests (minted_by fresh0))) ([], live_state) (l, st') /\
    entity_data (pool st') !! "NOT_1" = Some row' /\ d_type_id row' = "note" /\ 3 <= d_version row'.
Proof.
  pose proof plan_computed as Hp.
  destruct (rename_plan live_state).1 as [p|] eqn:Hfst; [clear Hp|discriminate Hp].
  pose proof (race_runs _ p rename_requests (plan_state p Hfst)) as Hrun.
  vm_compute in Hfst. injection Hfst as <-.
  match type of Hrun with rtc _ _ (?l, ?c) =>
    assert (Hrow : bool_decide (is_Some (entity_data (pool c) !! "NOT_1")) = true) by (vm_compute; reflexivity);
    set (st' := c) in *; set (l' := l) in * end.
  apply bool_decide_eq_true in Hrow as [row' Hrow'].
  assert (Hrow : entity_data (pool live_state) !! "NOT_1" = Some (mkDataRow "note" note_data (Some "PRJ_1") 3 3)) by run_eq.
  pose proof note_not_minted as Hid.
  destruct (versions_under_interleaving _ _ _ _ _ _ _ Hrun Hid Hrow Hrow') as (Ht & Hv & _).
  exists l', st', row'. split_and!; [exact Hrun|exact Hrow'|exact Ht|exact Hv].
Defined.

Lemma one_writer_per_version_witness :
  exists outA outB st', rtc (server_step (requests (minted_by fresh0))) ([rename_tree; rename_tree], live_state)
      ([Done outA; Done outB], st') /\ is_ok outB = true /\ is_ok outA = false.
Proof.
  pose proof plan_computed as Hp.
  destruct (rename_plan live_state).1 as [p|] eqn:Hfst; [clear Hp|discriminate Hp].
  pose proof (race_of_two (requests (minted_by fresh0)) p (plan_state p Hfst)) as Hrun.
  pose proof note_not_minted as Hid.
  assert (Hw : writes_item (ItemPatch "note" "NOT_1") "note" "NOT_1") by (right; left; reflexivity).
  assert (Him : if_match (rq_headers rename) = Some (Some 3)) by run_eq.
  pose proof (one_writer_per_version (minted_by fresh0) fresh0 fresh0 ctx0 ctx0 rename rename _ _ _ _ _
    live_state [] _ _ _ Hw Hw Him Him ltac:(tauto) Hid Hrun) as Hone.
  assert (Hb : is_ok (alone rename_tree live_state).1 = true) by run_eq.
  eexists _, _, _. split; [exact Hrun|]. split; [exact Hb|].
  destruct (is_ok (alone (commit_of p) after_second).1) eqn:Ha; [|reflexivity].
  exfalso. apply Hone. split; [reflexivity|exact Hb].
Defined.

(** On a fresh installation the seeded principal registers two types at the same time. *)
Definition dev_sessions : gmap string SessionRow :=
  {["SES_1" := mkSessionRow "USR_dev" (sha256_hex "tok") 1000]}.
Definition dev_state : AppState :=
  set_pool (set_sessions dev_sessions (pool (boot (installed 0)))) (boot (installed 0)).
Definition register (body : string) : HttpRequest :=
  (http "POST" ["api"; "types"] (as_alice (json_headers None)) body).2.
Definition badge_spec : TypeSpec :=
  match from_slice_as (A := TypeSpec) "{badge}" with Ok spec => spec | Err _ => mkTypeSpec "" "" "" "" [] [] end.
Definition badge_registered : Db :=
  match create_type_txn badge_spec (pool dev_state) with Ok (_, db) => db | Err _ => seed_db end.

Lemma lawful_sessions st x : lawful st -> lawful (set_pool (set_sessions x (pool st)) st).
Proof. intros HI. refine (proj1 (law_frame st _ _ HI)). same_tac. Qed.

Lemma ok_unit_state {E S} (r : Result E (unit * S)) s :
  is_ok r = true -> s = match r with Ok (_, x) => x | Err _ => s end -> r = Ok (tt, s).
Proof. destruct r as [[[] x]|]; [by intros _ ->|done]. Qed.

Lemma badge_registers : create_type_txn badge_spec (pool dev_state) = Ok (tt, badge_registered).
Proof.
  apply ok_unit_state; [run_eq|]. unfold badge_registered.
  assert (Hok : is_ok (create_type_txn badge_spec (pool dev_state)) = true) by run_eq.
  destruct (create_type_txn badge_spec (pool dev_state)) as [[x db]|e]; [reflexivity|discriminate Hok].
Qed.

Example ribbon_is_lost :
  exists rA rB st', rtc (server_step any_request) ([], dev_state) ([Done (Ok rB); Done (Ok rA)], st') /\
    resp_status rA = CREATED /\ is_Some (load (pool st') !! "ribbon") /\ registry st' !! "ribbon" = None.
Proof.
  assert (HI : lawful dev_state) by (apply lawful_sessions, cases_ok_lawful; [apply so_cases, installed_sound|reflexivity]).
  assert (HB : is_ok (handle fresh0 ctx0 (register "{ribbon}") CreateType (set_pool badge_registered dev_state)).1 = true)
    by run_eq.
  apply succeeds in HB as [rB HB].
  destruct (registry_swap_race fresh0 fresh0 ctx0 ctx0 (register "{badge}") (register "{ribbon}") dev_state
    (Caller.mk "USR_dev" true) badge_spec badge_registered rB _
    HI ltac:(apply returns_ro; [apply _|run_eq]) eq_refl eq_refl ltac:(run_eq) badge_registers HB)
    as (specB & rA & st' & HsB & Hrun & Hst & Hl & Hr).
  exists rA, rB, st'. assert (Hid : ts_type_id specB = "ribbon") by (vm_compute in HsB; injection HsB as <-; reflexivity).
  rewrite Hid in Hl, Hr. split_and!; [exact Hrun|exact Hst|by eexists|exact Hr].
Qed.

(** *** Carol's requests, interleaved *)

Definition carols (rq : HttpRequest) : Prop := rq ∈ looking_around.*2.
Definition carol_write : HttpRequest :=
  (http "PATCH" ["api"; "objects"; "note"; "NOT_1"] (as_carol (json_headers (Some (etag 3)))) "{title:hello}").2.
Definition carol_create : HttpRequest :=
  (http "POST" ["api"; "objects"; "project"] (as_carol (json_headers None)) "{name:apollo,slug:apollo}").2.
Definition carol_state : AppState := app carol_process.
Definition carol_creates : Prog Response := prog (handle fresh0 ctx0 carol_create (CollCreate "project")).

(** By evaluation: her requests are hers, she may not edit the note, nor see it. *)
Definition speaks_for_carol (st : AppState) : bool :=
  forallb (fun r => match (from_request_parts (rq_headers r.2) st).1 with
                    | Ok c => String.eqb (Caller.actor_id c) "USR_c" && negb (Caller.is_platform_admin c)
                    | Err _ => true
                    end) looking_around.
Definition keeps_carol_out (st : AppState) : bool :=
  speaks_for_carol st && negb (bool_decide (holds_rank (pool st) carol "NOT_1" 2))
  && bool_decide (is_Some (entities (pool st) !! "NOT_1"))
  && bool_decide ("NOT_1" ∉ reach (pool st) "USR_c").

Lemma speaks_for_carol_only st :
  speaks_for_carol st = true ->
  forall rq c, carols rq -> from_request_parts (rq_headers rq) st = (Ok c, st) -> c = carol.
Proof.
  intros Hall rq c (r & -> & Hin)%list_elem_of_fmap Hf. unfold speaks_for_carol in Hall.
  rewrite forallb_forall in Hall.
  specialize (Hall r (proj1 (list_elem_of_In _ _) Hin)). rewrite Hf in Hall. cbn [fst] in Hall.
  apply andb_prop in Hall as [Hid%String.eqb_eq Ha%negb_true_iff]. destruct c as [i a].
  cbn in Hid, Ha. by rewrite Hid, Ha.
Qed.

Lemma keeps_carol_out_spec st :
  keeps_carol_out st = true ->
  strangers "NOT_1" carols (fun c => c = carol) st /\ unseeing "NOT_1" carols (fun c => c = carol) st.
Proof.
  intros [[[Hs Hr]%andb_prop Hid]%andb_prop Hn]%andb_prop.
  apply negb_true_iff, bool_decide_eq_false in Hr. apply bool_decide_eq_true in Hid, Hn.
  pose proof (speaks_for_carol_only st Hs) as Hc. split; split; [exact Hc| |exact Hid|split; [exact Hc|]].
  - intros c ->. split; [discriminate|exact Hr].
  - intros c ->. split; [reflexivity|exact Hn].
Qed.

(** The states before the statements of a request that runs without interruption. *)
Fixpoint states {A} (p : Prog A) (st : AppState) : list AppState :=
  match p with Done _ => [] | Step m k => st :: states (k (m st).1) (m st).2 end.

Lemma within_alone (A : AppState -> Prop) admitted (p : Prog Response) l1 l2 st :
  Forall A (states p st) ->
  rtc (step_within A admitted) (l1 ++ p :: l2, st) (l1 ++ Done (alone p st).1 :: l2, (alone p st).2).
Proof.
  revert st. induction p as [r|X m k IH]; intros st Hall; [apply rtc_refl|]. cbn [states alone] in *.
  apply Forall_cons in Hall as [HA Hall]. eapply rtc_l; [split; [exact HA|apply step_statement]|].
  destruct (m st) as [r st1]. cbn [fst snd] in *. by apply IH.
Qed.

Definition carol_writes : Prog Response := prog (handle fresh0 ctx0 carol_write (ItemPatch "note" "NOT_1")).
Definition carol_later : AppState := (alone carol_creates carol_state).2.

(** A write of the note that is refused, around a creation that succeeds. *)
Lemma carol_run (A : AppState -> Prop) admitted :
  (forall st, keeps_carol_out st = true -> A st) ->
  admitted carol_creates -> admitted carol_writes ->
  rtc (step_within A admitted) ([], carol_state)
    ([Done (alone carol_writes carol_later).1; Done (alone carol_creates carol_state).1],
     (alone carol_writes carol_later).2).
Proof.
  intros HA Hcr Hwr.
  assert (Hall : forall p st, forallb keeps_carol_out (states p st) = true -> Forall A (states (A := Response) p st)).
  { intros p st. rewrite forallb_forall, Forall_forall. intros Hk s Hs%list_elem_of_In. by apply HA, Hk. }
  assert (H0 : A carol_state) by (apply HA; run_eq).
  eapply rtc_l; [split; [exact H0|by apply (step_arrival _ carol_creates)]|].
  eapply rtc_l; [split; [exact H0|by apply (step_arrival _ carol_writes)]|].
  etransitivity; [apply (within_alone _ _ carol_creates [carol_writes] []), Hall; run_eq|].
  apply (within_alone _ _ carol_writes []), Hall. run_eq.
Qed.

Lemma carols_sent : carols carol_create /\ carols carol_write.
Proof. split; apply list_elem_of_In; vm_compute; tauto. Qed.
Lemma carol_answers :
  is_ok (alone carol_writes carol_later).1 = false /\ is_ok (alone carol_creates carol_state).1 = true.
Proof. split; run_eq. Qed.

Lemma strangers_change_nothing_witness :
  exists refused created st',
    rtc (step_within (strangers "NOT_1" carols (fun c => c = carol)) (sends carols)) ([], carol_state)
      ([Done refused; Done created], st') /\
    is_ok refused = false /\ is_ok created = true /\ kept "NOT_1" (pool carol_state) (pool st').
Proof.
  assert (Hrun := carol_run (strangers "NOT_1" carols (fun c => c = carol)) (sends carols)
    (fun st Hk => proj1 (keeps_carol_out_spec st Hk))
    (ex_intro _ fresh0 (ex_intro _ ctx0 (ex_intro _ _ (ex_intro _ _ (conj (proj1 carols_sent) eq_refl)))))
    (ex_intro _ fresh0 (ex_intro _ ctx0 (ex_intro _ _ (ex_intro _ _ (conj (proj2 carols_sent) eq_refl)))))).
  assert (Hid : here "NOT_1" carol_state) by (unfold here; by_eval).
  pose proof (strangers_change_nothing "NOT_1" carols (fun c => c = carol) _ _ _ Hid Hrun) as Hk.
  eexists _, _, _. split; [exact Hrun|]. split; [apply carol_answers|split; [apply carol_answers|exact Hk]].
Defined.

(** The note may as well have been a secret. *)
Lemma unseen_under_interleaving_witness :
  exists refused created st' l', rtc (lockstep "NOT_1" (JString "secret") carols (fun c => c = carol))
      ([], [], carol_state) ([Done refused; Done created], l', st') /\
    is_ok refused = false /\ is_ok created = true.
Proof.
  assert (Hrun := carol_run (unseeing "NOT_1" carols (fun c => c = carol)) (sends carols)
    (fun st Hk => proj2 (keeps_carol_out_spec st Hk))
    (ex_intro _ fresh0 (ex_intro _ ctx0 (ex_intro _ _ (ex_intro _ _ (conj (proj1 carols_sent) eq_refl)))))
    (ex_intro _ fresh0 (ex_intro _ ctx0 (ex_intro _ _ (ex_intro _ _ (conj (proj2 carols_sent) eq_refl)))))).
  destruct (unseen_under_interleaving "NOT_1" (JString "secret") carols (fun c => c = carol) _ _ _ Hrun)
    as [l' Hboth].
  eexists _, _, _, l'. split; [exact Hboth|]. exact carol_answers.
Defined.

(** *** A deletion *)

(** Alice deletes the project that the note is in. *)
Definition demolition : HttpRequest :=
  (http "DELETE" ["api"; "objects"; "project"; "PRJ_1"] (as_alice (json_headers (Some (etag 1)))) "").2.
Definition demolishes : Prog Response := prog (handle fresh0 ctx0 demolition (ItemDelete "project" "PRJ_1")).

Lemma live_consistent : consistent (pool live_state).
Proof.
  constructor; try by_eval.
  - apply unique_column. by_eval.
  - intros i j a b Ha Hb (E1 & E2 & E3).
    refine (unique_column (fun r => (r_subject_id r, r_object_id r, r_relation_type r)) _ _ i j a b Ha Hb _);
      [by_eval|congruence].
  - intros i j. apply unique_column. by_eval.
Qed.

Lemma references_hold_witness :
  exists deleted st', rtc (server_step any_request) ([], live_state) ([Done (Ok deleted)], st') /\
    resp_status deleted = NO_CONTENT /\ entities (pool st') !! "PRJ_1" = None /\ consistent (pool st').
Proof.
  assert (Hrun : rtc (server_step any_request) ([], live_state)
    ([Done (alone demolishes live_state).1], (alone demolishes live_state).2)).
  { eapply rtc_l; [apply (step_arrival _ demolishes); by exists fresh0, ctx0, demolition, (ItemDelete "project" "PRJ_1")|].
    apply (steps_all _ demolishes [] []). }
  pose proof (references_hold _ _ _ live_consistent Hrun) as Hc.
  assert (Hgone : entities (pool (alone demolishes live_state).2) !! "PRJ_1" = None) by run_eq.
  assert (Hst : match (alone demolishes live_state).1 with Ok r => resp_status r = NO_CONTENT | Err _ => False end)
    by run_eq.
  destruct (alone demolishes live_state).1 as [deleted|]; [|destruct Hst].
  exists deleted, (alone demolishes live_state).2. split_and!; [exact Hrun|exact Hst|exact Hgone|exact Hc].
Defined.
