(* ===== verification/TestSuite.v ===== *)
(** * The repository's tests, run on the model

    The scenarios of [tests/*.rs] and of the unit tests, with the assertions they make, evaluated
    on the definitions of this library: from the database that the migrations leave, through the
    whole server ([Server.serve_http]). What the source takes from its environment is a bench here:
    a reader of JSON bodies written without quotes, toy digests, no outbound network. *)

From S2P Require Import Prelude RustStr Encoding Config Json AppError Closure Schema Registry.
From S2P Require Import Workflow State Rbac Caller FieldPerms Objects ObjectHandlers Members.
From S2P Require Import Orchestrator Types Migrations Relations HttpClient Connectors Auth OAuth.
From S2P Require Import RateLimit Platform Search Server.
From Stdlib Require Import Ascii.
Import (notations) String.

Local Open Scope Z_scope.

Module Bench.

(** ** The bench *)

(** *** Bodies: [{key:value,...}], [[...]], words; a word that is a number or a keyword is that. *)

Definition word_value (w : string) : Value :=
  if String.eqb w "true" then JBool true
  else if String.eqb w "false" then JBool false
  else if String.eqb w "null" then JNull
  else match parse_i32 w with Some z => json_int z | None => JString w end.

Definition delimiter (c : ascii) : bool := bool_decide (c ∈ [","; ":"; "{"; "}"; "["; "]"]%char).

Fixpoint read_word (s : string) : string * string :=
  match s with
  | "" => ("", "")
  | String c s' => if delimiter c then ("", s) else let '(w, rest) := read_word s' in (String c w, rest)
  end.

Fixpoint read_value (fuel : nat) (s : string) : option (Value * string) :=
  match fuel with
  | O => None
  | S n =>
      match s with
      | String "{" (String "}" rest) => Some (JObject [], rest)
      | String "{" rest => '(ms, rest) ← read_members n rest; Some (JObject (map_collect ms), rest)
      | String "[" (String "]" rest) => Some (JArray [], rest)
      | String "[" rest => '(vs, rest) ← read_items n rest; Some (JArray vs, rest)
      | _ => let '(w, rest) := read_word s in Some (word_value w, rest)
      end
  end
with read_members (fuel : nat) (s : string) : option (list (string * Value) * string) :=
  match fuel with
  | O => None
  | S n =>
      match read_word s with
      | (k, String ":" rest) =>
          '(v, rest) ← read_value n rest;
          match rest with
          | String "," rest => '(ms, rest) ← read_members n rest; Some ((k, v) :: ms, rest)
          | String "}" rest => Some ([(k, v)], rest)
          | _ => None
          end
      | _ => None
      end
  end
with read_items (fuel : nat) (s : string) : option (list Value * string) :=
  match fuel with
  | O => None
  | S n =>
      '(v, rest) ← read_value n s;
      match rest with
      | String "," rest => '(vs, rest) ← read_items n rest; Some (v :: vs, rest)
      | String "]" rest => Some ([v], rest)
      | _ => None
      end
  end.

Definition read (s : string) : Result string Value :=
  match read_value (S (String.length s)) s with Some (v, "") => Ok v | _ => Err "expected value" end.

#[export] Instance bench_json : SerdeJson := { from_slice := read; value_display _ := "..." }.

(** *** Inputs, with the defaults of their [Deserialize] *)

Definition text (k : string) (v : Value) : Result string string := ok_or (get_str k v) ("missing field " +:+ k).
Definition flag (k : string) (d : bool) (v : Value) : bool := default d (get k v ≫= as_bool).

Definition parsed {A} (f : Value -> Result string A) (s : string) : Result string A :=
  let? v := read s in f v.

Definition field_spec (v : Value) : Result string FieldSpec :=
  let? field := text "field" v in
  let? kind := text "kind" v in
  Ok (mkFieldSpec field (default "" (get_str "label" v)) kind (flag "required" false v)
        (flag "editable" true v) (default "standard" (get_str "perm_class" v))
        (default JNull (get "options" v)) (flag "searchable" false v)).
Fixpoint field_specs (l : list Value) : Result string (list FieldSpec) :=
  match l with
  | [] => Ok []
  | v :: rest => let? f := field_spec v in let? fs := field_specs rest in Ok (f :: fs)
  end.

#[export] Instance bench_type_spec : FromSlice TypeSpec := {
  from_slice_as := parsed (fun v =>
    let? id := text "type_id" v in
    let? prefix := text "id_prefix" v in
    let? name := text "display_name" v in
    let? fields := ok_or (get "fields" v ≫= as_array) "missing field fields" in
    let? fields := field_specs fields in
    Ok (mkTypeSpec id prefix name (default "" (get_str "display_name_plural" v))
          (omap as_str (default [] (get "scope_parents" v ≫= as_array))) fields)) }.
#[export] Instance bench_relation : FromSlice RelInput := {
  from_slice_as := parsed (fun v =>
    let? s := text "subject_id" v in
    let? o := text "object_id" v in
    let? t := text "relation_type" v in Ok (mkRelInput s o t)) }.
#[export] Instance bench_run : FromSlice StartInput := {
  from_slice_as := parsed (fun v => let? t := text "title" v in Ok (mkStartInput (get_str "case_id" v) t)) }.
#[export] Instance bench_handoff : FromSlice HandoffInput := {
  from_slice_as := parsed (fun v =>
    let? r := text "role" v in
    let? g := text "gate" v in
    let? o := text "outcome" v in Ok (mkHandoffInput r g o (default "" (get_str "note" v)))) }.
#[export] Instance bench_level : FromSlice LevelInput := {
  from_slice_as := parsed (fun v => let? l := text "level" v in Ok (mkLevelInput l)) }.

(** *** The rest of the environment *)

#[export] Instance bench_pg : Postgres := {
  jsonb_to_text _ := "..."; timestamp_text := show_Z; collate := String.compare }.
(** A query matches an object when it is one of the words of its texts. *)
#[export] Instance bench_search : FullText := {
  Tsquery := string; Rank := unit;
  websearch_to_tsquery := to_ascii_lowercase;
  ts_matches v q := match v with
    | JObject m => existsb (fun kv => match kv.2 with
        | JString s => existsb (String.eqb q) (split " " (to_ascii_lowercase s)) | _ => false end) m
    | _ => false
    end;
  ts_rank _ _ := tt; rank_leb _ _ := true; rank_json _ := JNull }.
#[export] Instance bench_net : Reqwest := {
  parse_url _ := None; lookup_host _ _ := None; build_client _ _ := Err "";
  send_post _ _ _ := Err false; send_get _ _ _ := Err false }.
#[export] Instance bench_env : Env := { env_var _ := None }.
#[export] Instance bench_hmac : Hmac := { hmac_sha256 k m := k +:+ m }.
(** An identity token is its nonce and its audience; the issuer has one key. *)
#[export] Instance bench_jwt : Jwt := {
  jwt_key := unit; decode_kid _ := Some (Some "testkid"); rsa_key _ _ := Some tt;
  decode_claims token _ aud _ := match split " " token with
    | [nonce; a] => if String.eqb a aud
        then Some (mkIdClaims "apple-sub-1" (Some "a@apple.com") (Some nonce)) else None
    | _ => None
    end }.
#[export] Instance bench_sha : Sha2 := { sha256 s := s }.
#[export] Instance bench_build : Build := { debug_assertions := true }.
#[export] Instance bench_urls : UrlParams := { url_with_params u _ := Some u }.
#[export] Instance bench_http : HttpCrate := { canonical_reason _ := None; header_from_str s := Some s }.
#[export] Instance bench_framework : Framework := {
  fallback_404 := mkResponse 404 [] None; fallback_405 := mkResponse 405 [] None;
  cors_preflight _ _ := None; cors_headers _ _ l := l }.

(** The configuration of the tests: [NUMU_DEBUG] unset, no reloader. *)
Definition bench_config (rate_max : Z) : Deployment := {|
  version := "0.1.0"; cfg := mkConfig "" "" false rate_max 60 []; ping := true; log_reload := None |}.

(** ** Test scripts *)

(** The process, how many requests there were, and whether every assertion held so far. *)
Record Bench := mkBench { process : Process; sent : Z; fine : bool }.
Definition Script (A : Type) : Type := Bench -> A * Bench.
#[export] Instance script_ret : MRet Script := fun A a b => (a, b).
#[export] Instance script_bind : MBind Script := fun A B k m b => let '(a, b1) := m b in k a b1.

(** [assert!]; [?] and [unwrap] on a setup step. *)
Definition expect (ok : bool) : Script unit := fun b => (tt, mkBench (process b) (sent b) (fine b && ok)).
Definition db : Script Db := fun b => (pool (app (process b)), b).
(** [sqlx::query(..).execute(&pool)] *)
Definition sql {A} (m : SqlM A) : Script unit := fun b =>
  let st := app (process b) in
  match m (pool st) with
  | Ok (_, db) => (tt, mkBench (mkProcess (set_pool db st) (buckets (process b))) (sent b) (fine b))
  | Err _ => (tt, mkBench (process b) (sent b) false)
  end.

Definition uuid (n : Z) : string :=
  let s := show_Z n in String.string_of_list_ascii (repeat "0"%char (32 - String.length s)) +:+ s.

Record Request := mkReq {
  method : string; path : string; query_ : Query; cookie : option string; etag_ : option string;
  body : option string }.
Definition no_params : Query := mkQuery None None None None None None "" "".

Definition headers (r : Request) : HeaderMap :=
  let put name v hs := match v with Some s => <[name := Some s]> hs | None => hs end in
  put "cookie" (cookie r) (put "if-match" (etag_ r)
    (put "content-type" ((fun _ => "application/json") <$> body r) ∅)).

(** [app.oneshot(request)] *)
Definition oneshot `{Deployment} (r : Request) (dev_actor : option string) : Script Response := fun b =>
  let n := sent b + 1 in
  let fr := mkFresh (uuid n) (uuid n) ("token" +:+ show_Z n) 0 (uuid n) (uuid n) n in
  let rq := mkHttpRequest (method r) (List.tail (split "/" (path r))) (query_ r) (headers r) []
              (default "" (body r)) (Some "192.0.2.1") dev_actor in
  let '(resp, p) := serve_http fr rq (process b) in
  (resp, mkBench p n (fine b)).

Definition response_header (name : string) (r : Response) : option string := snd <$> List.find (fun h => String.eqb h.1 name) (resp_headers r).

Section Helpers.
Context `{Deployment}.

Definition req (method path : string) (who etag body : option string) : Script Response :=
  oneshot (mkReq method path no_params who etag body) None.

(** POST [/auth/dev-login]: the cookie, up to the first semicolon. *)
Definition sign_in (actor : string) : Script (option string) :=
  resp ← oneshot (mkReq "POST" "/auth/dev-login" no_params None None (Some "{}")) (Some actor);
  _ ← expect (resp_status resp =? 200);
  mret (response_header "set-cookie" resp ≫= fun s => head (split ";" s)).

Definition status (resp : Response) (s : Z) : Script unit := expect (resp_status resp =? s).
Definition json_body (resp : Response) : Value := default JNull (resp_body resp).
Definition id_of (resp : Response) : string := default "" (get_str "id" (json_body resp)).
(** [json["data"][k].as_str()] *)
Definition data_str (k : string) (resp : Response) : option string :=
  get "data" (json_body resp) ≫= get_str k.
Definition etag_of (resp : Response) : option string := response_header "etag" resp.
(** [json[rows][..][k]] *)
Definition column (rows k : string) (resp : Response) : list string :=
  omap (get_str k) (default [] (get rows (json_body resp) ≫= as_array)).
End Helpers.

(** The database that the migrations leave, and a process over it. *)
Definition fresh_bench : Bench := mkBench (mkProcess (boot (installed 0)) ∅) 0 true.
Definition passes (t : Script unit) : bool := fine (t fresh_bench).2.

(** Rows that tests write directly. *)
Definition entity (id type_id : string) (data : Value) (parent : option string) : Script unit :=
  _ ← sql (insert_entity id type_id (Some "USR_dev"));
  sql (insert_data id type_id data parent).
Definition grant (object member role : string) : Script unit :=
  sql (upsert_membership object member (mkMemberRow role "")).
Definition add_bob : Script unit :=
  entity "USR_bob" "actor" (json_object [("display_name", JString "Bob"); ("handle", JString "bob");
    ("kind", JString "human"); ("platform_role", JString "member"); ("status", JString "active")]) None.
End Bench.

(** ** [tests/orchestrator.rs] *)

Module OrchestratorTests.
Import Bench.
#[local] Instance config : Deployment := bench_config 30.

Definition start_feature (admin : option string) : Script string :=
  resp ← req "POST" "/api/feature-runs" admin None (Some "{title:Feature X}");
  _ ← status resp 201;
  _ ← expect (bool_decide (get_str "phase" (json_body resp) = Some "spec"));
  _ ← expect (bool_decide (get_str "status" (json_body resp) = Some "active"));
  mret (id_of resp).

Definition handoff (admin : option string) (id role gate outcome : string) : Script Response :=
  req "POST" ("/api/feature-runs/" +:+ id +:+ "/handoffs") admin None
    (Some ("{role:" +:+ role +:+ ",gate:" +:+ gate +:+ ",outcome:" +:+ outcome +:+ "}")).

Definition pipeline_advances_to_landed : Script unit :=
  admin ← sign_in "USR_dev";
  id ← start_feature admin;
  r ← handoff admin id "architect" "spec" "pass"; _ ← status r 200;
  r ← handoff admin id "tester" "test" "pass"; _ ← status r 200;
  r ← handoff admin id "coder" "code" "pass"; _ ← status r 200;
  r ← handoff admin id "reviewer" "review" "pass"; _ ← status r 200;
  r ← handoff admin id "ops" "ops" "pass"; _ ← status r 200;
  r ← req "GET" ("/api/feature-runs/" +:+ id) admin None None;
  _ ← status r 200;
  _ ← expect (bool_decide (get_str "status" (json_body r) = Some "landed"));
  expect (bool_decide (length (column "handoffs" "role" r) = 5%nat)).

Definition breaker_escalates_after_three_gate_fails : Script unit :=
  admin ← sign_in "USR_dev";
  id ← start_feature admin;
  _ ← handoff admin id "architect" "spec" "pass";
  _ ← handoff admin id "tester" "test" "pass";
  _ ← handoff admin id "coder" "code" "pass";
  _ ← handoff admin id "reviewer" "review" "fail";
  _ ← handoff admin id "coder" "code" "pass";
  _ ← handoff admin id "reviewer" "review" "fail";
  _ ← handoff admin id "coder" "code" "pass";
  r ← handoff admin id "reviewer" "review" "fail";
  _ ← status r 200;
  _ ← expect (bool_decide (get_str "status" (json_body r) = Some "escalated"));
  r ← handoff admin id "coder" "code" "pass";
  status r 422.

Definition role_must_match_phase : Script unit :=
  admin ← sign_in "USR_dev";
  id ← start_feature admin;
  r ← handoff admin id "coder" "code" "pass";
  status r 422.

Example pipeline_advances_to_landed_passes : passes pipeline_advances_to_landed = true.
Proof. vm_compute. reflexivity. Qed.
Example breaker_escalates_passes : passes breaker_escalates_after_three_gate_fails = true.
Proof. vm_compute. reflexivity. Qed.
Example role_must_match_phase_passes : passes role_must_match_phase = true.
Proof. vm_compute. reflexivity. Qed.
End OrchestratorTests.

(** ** [tests/cases.rs] *)

Module CaseTests.
Import Bench.
#[local] Instance config : Deployment := bench_config 30.

Definition make_project (admin : option string) : Script string :=
  r ← req "POST" "/api/objects/project" admin None (Some "{name:P,slug:p}");
  _ ← status r 201;
  mret (id_of r).

Definition make_case (admin : option string) (extra : string) : Script Response :=
  pid ← make_project admin;
  req "POST" "/api/objects/case" admin None (Some ("{title:T,type:task," +:+ extra +:+ "project_id:" +:+ pid +:+ "}")).

Definition patch_status (cid : string) (admin etag : option string) (to : string) : Script Response :=
  req "PATCH" ("/api/objects/case/" +:+ cid) admin etag (Some ("{status:" +:+ to +:+ "}")).

Definition kind_is (r : Response) (kind : string) : Script unit :=
  expect (bool_decide (get_str "kind" (json_body r) = Some kind)).

Definition close_gate_blocks_done_until_checks_pass : Script unit :=
  admin ← sign_in "USR_dev";
  c ← make_case admin "";
  let cid := id_of c in
  r ← patch_status cid admin (etag_of c) "todo"; _ ← status r 200;
  r ← patch_status cid admin (etag_of r) "in_progress"; _ ← status r 200;
  review ← patch_status cid admin (etag_of r) "in_review"; _ ← status review 200;
  r ← patch_status cid admin (etag_of review) "done";
  _ ← status r 422; _ ← kind_is r "close_preconditions_unmet";
  r ← req "POST" ("/api/objects/case/" +:+ cid +:+ "/checks/docs_reconciled") admin None (Some "{passed:true}");
  _ ← status r 200;
  r ← patch_status cid admin (etag_of review) "done";
  status r 200.

Definition case_workflow_transitions : Script unit :=
  admin ← sign_in "USR_dev";
  c ← make_case admin "";
  _ ← status c 201; _ ← expect (bool_decide (data_str "status" c = Some "backlog"));
  let cid := id_of c in
  r ← patch_status cid admin (etag_of c) "todo"; _ ← status r 200;
  d ← db;
  _ ← expect (bool_decide (c_status <$> cases d !! cid = Some "todo"));
  r ← patch_status cid admin (etag_of r) "done";
  _ ← status r 422; kind_is r "illegal_transition".

Definition case_must_start_at_initial : Script unit :=
  admin ← sign_in "USR_dev";
  r ← make_case admin "status:done,";
  _ ← status r 422; kind_is r "illegal_transition".

Definition comment_reaches_via_case_cascade : Script unit :=
  _ ← entity "USR_alice" "actor" (JObject []) None;
  _ ← entity "USR_bob" "actor" (JObject []) None;
  _ ← entity "PRJ_1" "project" (JObject []) None;
  _ ← entity "CAS_1" "case" (JObject []) (Some "PRJ_1");
  _ ← entity "CMT_1" "comment" (JObject []) (Some "CAS_1");
  _ ← grant "PRJ_1" "USR_alice" "owner";
  d ← db;
  _ ← expect (bool_decide (effective_rank d "USR_alice" "CMT_1" = Some 4));
  expect (bool_decide (effective_rank d "USR_bob" "CMT_1" = None)).

Example close_gate_passes : passes close_gate_blocks_done_until_checks_pass = true.
Proof. vm_compute. reflexivity. Qed.
Example case_workflow_transitions_passes : passes case_workflow_transitions = true.
Proof. vm_compute. reflexivity. Qed.
Example case_must_start_at_initial_passes : passes case_must_start_at_initial = true.
Proof. vm_compute. reflexivity. Qed.
Example comment_reaches_passes : passes comment_reaches_via_case_cascade = true.
Proof. vm_compute. reflexivity. Qed.
End CaseTests.

(** ** [tests/relations.rs] *)

Module RelationTests.
Import Bench.
#[local] Instance config : Deployment := bench_config 30.

Definition project (admin : option string) (slug : string) : Script string :=
  r ← req "POST" "/api/objects/project" admin None (Some ("{name:" +:+ slug +:+ ",slug:" +:+ slug +:+ "}"));
  _ ← status r 201;
  mret (id_of r).

Definition edge (s o t : string) : option string :=
  Some ("{subject_id:" +:+ s +:+ ",object_id:" +:+ o +:+ ",relation_type:" +:+ t +:+ "}").

Definition create_list_delete_relation : Script unit :=
  admin ← sign_in "USR_dev";
  p1 ← project admin "a"; p2 ← project admin "b";
  rel ← req "POST" "/api/relations" admin None (edge p1 p2 "blocks");
  _ ← status rel 201;
  r ← oneshot (mkReq "GET" "/api/relations" (mkQuery None None None None (Some p1) None "" "") admin None None) None;
  _ ← status r 200;
  _ ← expect (bool_decide (id_of rel ∈ column "relations" "id" r));
  r ← req "POST" "/api/relations" admin None (edge p1 p2 "blocks"); _ ← status r 409;
  r ← req "POST" "/api/relations" admin None (edge p1 p2 "frobnicates"); _ ← status r 422;
  r ← req "DELETE" ("/api/relations/" +:+ id_of rel) admin None None;
  status r 204.

Definition non_editor_cannot_create_relation : Script unit :=
  _ ← add_bob;
  admin ← sign_in "USR_dev";
  p1 ← project admin "a"; p2 ← project admin "b";
  who ← sign_in "USR_bob";
  r ← req "POST" "/api/relations" who None (edge p1 p2 "blocks");
  status r 404.

Definition object_must_be_reachable_and_no_self_loop : Script unit :=
  _ ← add_bob;
  admin ← sign_in "USR_dev";
  p1 ← project admin "a"; p2 ← project admin "b";
  _ ← grant p1 "USR_bob" "owner";
  who ← sign_in "USR_bob";
  r ← req "POST" "/api/relations" who None (edge p1 p2 "blocks"); _ ← status r 404;
  r ← req "POST" "/api/relations" admin None (edge p1 p1 "blocks");
  status r 422.

Example create_list_delete_relation_passes : passes create_list_delete_relation = true.
Proof. vm_compute. reflexivity. Qed.
Example non_editor_passes : passes non_editor_cannot_create_relation = true.
Proof. vm_compute. reflexivity. Qed.
Example object_must_be_reachable_passes : passes object_must_be_reachable_and_no_self_loop = true.
Proof. vm_compute. reflexivity. Qed.
End RelationTests.

(** ** [tests/types.rs] *)

Module TypeTests.
Import Bench.
#[local] Instance config : Deployment := bench_config 30.

Definition INVOICE : string :=
  "{type_id:invoice,id_prefix:INV,display_name:Invoice,scope_parents:[project_id],fields:[" +:+
  "{field:project_id,label:Project,kind:ref,required:true,editable:false,options:{ref:PRJ}}," +:+
  "{field:amount,label:Amount,kind:int,required:true}," +:+
  "{field:status,label:Status,kind:enum,options:{enum:[draft,sent,paid,void],default:draft}}]}".

Definition post_type (who : option string) (spec : string) : Script Response :=
  req "POST" "/api/types" who None (Some spec).

Definition register_then_use_with_no_restart : Script unit :=
  admin ← sign_in "USR_dev";
  r ← post_type admin INVOICE; _ ← status r 201;
  prj ← req "POST" "/api/objects/project" admin None (Some "{name:P,slug:p}"); _ ← status prj 201;
  inv ← req "POST" "/api/objects/invoice" admin None
          (Some ("{project_id:" +:+ id_of prj +:+ ",amount:100}"));
  _ ← status inv 201;
  _ ← expect (bool_decide (data_str "status" inv = Some "draft"));
  _ ← expect (value_eqb (default JNull (get "data" (json_body inv) ≫= get "amount")) (json_int 100));
  opt ← req "OPTIONS" "/api/objects/invoice" admin None None; _ ← status opt 200;
  _ ← expect (bool_decide ("amount" ∈ column "fields" "field" opt /\ "status" ∈ column "fields" "field" opt));
  r ← req "GET" "/api/types" admin None None; _ ← status r 200;
  expect (bool_decide ("invoice" ∈ column "types" "type_id" r)).

Definition non_admin_cannot_register : Script unit :=
  _ ← add_bob;
  who ← sign_in "USR_bob";
  r ← post_type who INVOICE;
  status r 403.

Definition refused (spec : string) (s : Z) : Script unit :=
  admin ← sign_in "USR_dev";
  r ← post_type admin spec;
  status r s.

Definition duplicate_prefix_conflicts : Script unit := refused
  "{type_id:widget,id_prefix:PRJ,display_name:Widget,fields:[{field:name,kind:text,required:true}]}" 409.
Definition bad_scope_parent_is_unprocessable : Script unit := refused
  ("{type_id:widget,id_prefix:WID,display_name:Widget,scope_parents:[name]," +:+
   "fields:[{field:name,kind:text,required:true}]}") 422.
Definition required_readonly_without_default_is_unprocessable : Script unit := refused
  ("{type_id:widget,id_prefix:WID,display_name:Widget," +:+
   "fields:[{field:code,kind:text,required:true,perm_class:readonly}]}") 422.

Example register_then_use_passes : passes register_then_use_with_no_restart = true.
Proof. vm_compute. reflexivity. Qed.
Example non_admin_cannot_register_passes : passes non_admin_cannot_register = true.
Proof. vm_compute. reflexivity. Qed.
Example duplicate_prefix_passes : passes duplicate_prefix_conflicts = true.
Proof. vm_compute. reflexivity. Qed.
Example bad_scope_parent_passes : passes bad_scope_parent_is_unprocessable = true.
Proof. vm_compute. reflexivity. Qed.
Example required_readonly_passes : passes required_readonly_without_default_is_unprocessable = true.
Proof. vm_compute. reflexivity. Qed.
End TypeTests.

(** ** [tests/rbac_sharing.rs] *)

Module SharingTests.
Import Bench.
#[local] Instance config : Deployment := bench_config 30.

Definition bare (id type_id : string) : Script unit := entity id type_id (JObject []) None.
Definition members : string := "/api/objects/project/PRJ_1/members".

Definition grant_and_list_roundtrip : Script unit :=
  admin ← sign_in "USR_dev";
  _ ← bare "USR_alice" "actor"; _ ← bare "USR_bob" "actor"; _ ← bare "PRJ_1" "project";
  _ ← grant "PRJ_1" "USR_alice" "owner";
  r ← req "POST" members admin None (Some "{member_id:USR_bob,role:member,context_role:reviewer}");
  _ ← status r 201;
  r ← req "GET" members admin None None;
  _ ← status r 200; _ ← expect (bool_decide (length (column "members" "member_id" r) = 2%nat));
  d ← db;
  expect (bool_decide (length (filter (fun e => e_entity_id e = Some "PRJ_1" /\
    e_kind e = "project.member_granted") (events d)) = 1%nat)).

Definition last_owner_guard : Script unit :=
  admin ← sign_in "USR_dev";
  _ ← bare "USR_alice" "actor"; _ ← bare "PRJ_1" "project"; _ ← grant "PRJ_1" "USR_alice" "owner";
  r ← req "PATCH" (members +:+ "/USR_alice") admin None (Some "{role:viewer}"); _ ← status r 409;
  r ← req "DELETE" (members +:+ "/USR_alice") admin None None;
  status r 409.

Definition not_found_and_unknown_role : Script unit :=
  admin ← sign_in "USR_dev";
  _ ← bare "USR_bob" "actor"; _ ← bare "PRJ_1" "project";
  r ← req "DELETE" (members +:+ "/USR_ghost") admin None None; _ ← status r 404;
  r ← req "POST" members admin None (Some "{member_id:USR_bob,role:wizard}");
  status r 422.

Definition team_nesting_cycle_guard : Script unit :=
  admin ← sign_in "USR_dev";
  _ ← bare "TEM_1" "team"; _ ← bare "TEM_2" "team"; _ ← grant "TEM_1" "TEM_2" "member";
  r ← req "POST" "/api/objects/team/TEM_2/members" admin None (Some "{member_id:TEM_1,role:member}");
  status r 409.

Definition non_admin_is_enforced : Script unit :=
  _ ← bare "USR_alice" "actor"; _ ← bare "USR_bob" "actor"; _ ← bare "PRJ_1" "project";
  _ ← grant "PRJ_1" "USR_alice" "viewer";
  r ← req "GET" members None None None; _ ← status r 401;
  alice ← sign_in "USR_alice";
  r ← req "GET" members alice None None; _ ← status r 200;
  r ← req "POST" members alice None (Some "{member_id:USR_bob,role:member}"); _ ← status r 403;
  who ← sign_in "USR_bob";
  r ← req "GET" members who None None;
  status r 404.

Example grant_and_list_passes : passes grant_and_list_roundtrip = true.
Proof. vm_compute. reflexivity. Qed.
Example last_owner_guard_passes : passes last_owner_guard = true.
Proof. vm_compute. reflexivity. Qed.
Example not_found_and_unknown_role_passes : passes not_found_and_unknown_role = true.
Proof. vm_compute. reflexivity. Qed.
Example team_nesting_passes : passes team_nesting_cycle_guard = true.
Proof. vm_compute. reflexivity. Qed.
Example non_admin_is_enforced_passes : passes non_admin_is_enforced = true.
Proof. vm_compute. reflexivity. Qed.
End SharingTests.

(** ** [tests/rbac_reach.rs] and [tests/rbac_data.rs] *)

Module ReachTests.
Import Bench.

Definition node (id type_id : string) (parent : option string) : Script unit :=
  entity id type_id (JObject []) parent.
Definition caller_of (id : string) : Caller.t := Caller.mk id false.
Definition may (who : Caller.t) (type_id id : string) (a : Action) (answer : bool) : Script unit :=
  d ← db;
  expect (match load d !! type_id with
          | Some td => Bool.eqb (require_action d who td (Some id) a) answer
          | None => false
          end).
Definition ranks (who id : string) (r : option Z) : Script unit :=
  d ← db; expect (bool_decide (effective_rank d who id = r)).

Definition direct_scope_cascade_and_isolation : Script unit :=
  _ ← node "USR_alice" "actor" None; _ ← node "USR_bob" "actor" None;
  _ ← node "PRJ_1" "project" None; _ ← node "NOT_1" "note" (Some "PRJ_1");
  _ ← grant "PRJ_1" "USR_alice" "owner";
  _ ← ranks "USR_alice" "PRJ_1" (Some 4); _ ← ranks "USR_alice" "NOT_1" (Some 4);
  _ ← ranks "USR_bob" "NOT_1" None;
  _ ← may (caller_of "USR_alice") "note" "NOT_1" View true;
  _ ← may (caller_of "USR_alice") "note" "NOT_1" Delete true;
  may (caller_of "USR_bob") "note" "NOT_1" View false.

Definition tier_floors : Script unit :=
  _ ← node "USR_carol" "actor" None; _ ← node "PRJ_1" "project" None;
  _ ← node "NOT_1" "note" (Some "PRJ_1"); _ ← grant "PRJ_1" "USR_carol" "viewer";
  _ ← ranks "USR_carol" "NOT_1" (Some 1);
  _ ← may (caller_of "USR_carol") "note" "NOT_1" View true;
  _ ← may (caller_of "USR_carol") "note" "NOT_1" Edit false;
  may (caller_of "USR_carol") "note" "NOT_1" Delete false.

Definition team_principals_inherit_reach : Script unit :=
  _ ← node "USR_dave" "actor" None; _ ← node "TEM_1" "team" None; _ ← node "PRJ_1" "project" None;
  _ ← grant "TEM_1" "USR_dave" "member"; _ ← grant "PRJ_1" "TEM_1" "admin";
  _ ← ranks "USR_dave" "PRJ_1" (Some 3);
  _ ← may (caller_of "USR_dave") "project" "PRJ_1" Edit true;
  may (caller_of "USR_dave") "project" "PRJ_1" Delete true.

Definition reachable_list_is_scoped : Script unit :=
  _ ← node "USR_alice" "actor" None; _ ← node "USR_erin" "actor" None; _ ← node "USR_bob" "actor" None;
  _ ← node "PRJ_1" "project" None; _ ← node "PRJ_2" "project" None;
  _ ← node "NOT_1" "note" (Some "PRJ_1"); _ ← node "NOT_2" "note" (Some "PRJ_1");
  _ ← node "NOT_3" "note" (Some "PRJ_2");
  _ ← grant "PRJ_1" "USR_alice" "owner"; _ ← grant "PRJ_2" "USR_erin" "owner";
  d ← db;
  _ ← expect (bool_decide (list_to_set (reachable_entity_ids d "USR_alice" "note")
                           =@{gset string} {["NOT_1"; "NOT_2"]}));
  _ ← expect (bool_decide (reachable_entity_ids d "USR_erin" "note" = ["NOT_3"]));
  expect (bool_decide (reachable_entity_ids d "USR_bob" "note" = [])).

Definition platform_admin_bypasses : Script unit :=
  may (Caller.mk "USR_root" true) "note" "NOT_ghost" Delete true.

Definition roles_registry_is_wellformed : Script unit :=
  d ← db;
  expect (bool_decide (size (roles d) = 4%nat /\
    list_to_set (map_to_list (roles d)).*2 =@{gset Z} {[1; 2; 3; 4]})).

Definition membership_role_upserts_never_stack : Script unit :=
  _ ← node "PRJ_t" "project" None;
  _ ← grant "PRJ_t" "USR_dev" "member"; _ ← grant "PRJ_t" "USR_dev" "admin";
  d ← db;
  expect (bool_decide (m_role <$> memberships d !! ("PRJ_t", "USR_dev") = Some "admin")).

Definition bogus_role_is_a_mapped_fk_violation : Script unit :=
  _ ← node "PRJ_t" "project" None;
  d ← db;
  expect (match upsert_membership "PRJ_t" "USR_dev" (mkMemberRow "bogus" "") d with
          | Err ForeignKeyViolation => true | _ => false end).

Definition dev_principal_is_a_real_actor : Script unit :=
  d ← db;
  expect (bool_decide (en_type <$> entities d !! "USR_dev" = Some "actor" /\
    (entity_data d !! "USR_dev" ≫= fun row => platform_role (d_data row)) = Some "admin")).

Example direct_scope_passes : passes direct_scope_cascade_and_isolation = true.
Proof. vm_compute. reflexivity. Qed.
Example tier_floors_passes : passes tier_floors = true.
Proof. vm_compute. reflexivity. Qed.
Example team_principals_passes : passes team_principals_inherit_reach = true.
Proof. vm_compute. reflexivity. Qed.
Example reachable_list_passes : passes reachable_list_is_scoped = true.
Proof. vm_compute. reflexivity. Qed.
Example platform_admin_passes : passes platform_admin_bypasses = true.
Proof. vm_compute. reflexivity. Qed.
Example roles_registry_passes : passes roles_registry_is_wellformed = true.
Proof. vm_compute. reflexivity. Qed.
Example upserts_never_stack_passes : passes membership_role_upserts_never_stack = true.
Proof. vm_compute. reflexivity. Qed.
Example bogus_role_passes : passes bogus_role_is_a_mapped_fk_violation = true.
Proof. vm_compute. reflexivity. Qed.
Example dev_principal_passes : passes dev_principal_is_a_real_actor = true.
Proof. vm_compute. reflexivity. Qed.
End ReachTests.

(** ** [tests/field_perms.rs] *)

Module FieldTests.
Import Bench.

Definition member : Caller.t := Caller.mk "USR_alice" false.
Definition ctx : RequestCtx := mkRequestCtx "req_test" "".
Definition actor (id : string) (data : Value) : Script unit := entity id "actor" data None.
Definition with_email : Value :=
  json_object [("display_name", JString "X"); ("email", JString "x@example.com")].

Definition may_write (field : string) (answer : option (Z * string)) : Script unit :=
  d ← db;
  expect (match load d !! "actor" with
          | Some td => match require_write d member td "USR_x" [field] ctx, answer with
                       | Ok _, None => true
                       | Err e, Some (s, k) => (AppError.status e =? s) && String.eqb (kind e) k
                       | _, _ => false
                       end
          | None => false
          end).
Definition sees (field : string) (answer : option string) : Script unit :=
  d ← db;
  expect (match load d !! "actor" with
          | Some td => bool_decide (get_str field (filter_readable d member td "USR_x" with_email) = answer)
          | None => false
          end).

Definition class_ranks_are_rank_driven : Script unit :=
  expect (bool_decide (class_ranks "standard" = (1, 2) /\ class_ranks "owner_grade" = (3, 4) /\
    class_ranks "readonly" = (1, i32_max) /\ class_ranks "system" = (1, i32_max))).

Definition write_gate_blocks_owner_grade_for_member : Script unit :=
  _ ← actor "USR_alice" (JObject []); _ ← actor "USR_x" with_email;
  _ ← grant "USR_x" "USR_alice" "member";
  _ ← may_write "display_name" None;
  _ ← may_write "email" (Some (403, "field_forbidden"));
  _ ← grant "USR_x" "USR_alice" "owner";
  may_write "email" None.

Definition read_filter_omits_owner_grade_for_member : Script unit :=
  _ ← actor "USR_alice" (JObject []); _ ← actor "USR_x" with_email;
  _ ← grant "USR_x" "USR_alice" "member";
  _ ← sees "display_name" (Some "X");
  sees "email" None.

(** [insert into field_permissions ..] *)
Definition override (type_id field role : string) (row : bool * bool) : SqlM unit := fun db =>
  Ok (tt, mkDb (type_definitions db) (type_fields db) (entities db) (entity_data db) (memberships db)
    (roles db) (<[(type_id, field, role) := row]> (field_permissions db)) (workflows db) (cases db)
    (case_close_checks db) (relations db) (feature_runs db) (role_handoffs db) (sessions db)
    (auth_identities db) (events db) (now db)).

Definition field_permission_override_lowers_a_floor : Script unit :=
  _ ← actor "USR_alice" (JObject []); _ ← actor "USR_x" with_email;
  _ ← grant "USR_x" "USR_alice" "member";
  _ ← sql (override "actor" "email" "member" (true, false));
  d ← db;
  _ ← expect (bool_decide ((field_floors d "actor" "email" "owner_grade").1 = 2));
  sees "email" (Some "x@example.com").

Example class_ranks_passes : passes class_ranks_are_rank_driven = true.
Proof. vm_compute. reflexivity. Qed.
Example write_gate_passes : passes write_gate_blocks_owner_grade_for_member = true.
Proof. vm_compute. reflexivity. Qed.
Example read_filter_passes : passes read_filter_omits_owner_grade_for_member = true.
Proof. vm_compute. reflexivity. Qed.
Example field_permission_override_passes : passes field_permission_override_lowers_a_floor = true.
Proof. vm_compute. reflexivity. Qed.
End FieldTests.

(** ** [tests/search.rs], [tests/catalog.rs] and [tests/g7.rs] *)

Module CatalogTests.
Import Bench.
#[local] Instance config : Deployment := bench_config 30.

Definition create (admin : option string) (type_id body : string) : Script Response :=
  req "POST" ("/api/objects/" +:+ type_id) admin None (Some body).
Definition search_for (who : option string) (q : string) : Script Response :=
  oneshot (mkReq "GET" "/api/search" (mkQuery None None (Some q) None None None "" "") who None None) None.
Definition data_is (k v : string) (r : Response) : Script unit :=
  expect (bool_decide (data_str k r = Some v)).

Definition search_finds_and_is_reach_filtered : Script unit :=
  admin ← sign_in "USR_dev";
  r ← create admin "project" "{name:Findable Widget,slug:findable-widget}"; _ ← status r 201;
  r ← create admin "project" "{name:Other Thing,slug:other-thing}"; _ ← status r 201;
  r ← search_for admin "widget";
  _ ← status r 200; _ ← expect (bool_decide ("Findable Widget" ∈ column "results" "title" r));
  _ ← add_bob;
  who ← sign_in "USR_bob";
  r ← search_for who "widget";
  _ ← status r 200; _ ← expect (bool_decide (column "results" "title" r = []));
  r ← search_for admin "";
  status r 400.

Definition seeded_catalog_is_usable : Script unit :=
  admin ← sign_in "USR_dev";
  ws ← create admin "workspace" "{name:Acme,slug:acme}";
  _ ← status ws 201; _ ← data_is "status" "active" ws;
  r ← create admin "team" ("{workspace_id:" +:+ id_of ws +:+ ",name:Core}");
  _ ← status r 201; _ ← data_is "kind" "team" r;
  r ← create admin "team" "{name:Orphan}"; _ ← status r 422;
  r ← create admin "runbook" "{title:T,problem:P,root_cause:R,fix:F,date:2026-06-26}";
  _ ← status r 201; _ ← data_is "status" "open" r;
  r ← create admin "decision"
        "{title:Use ArcSwap,context:hot reload,decision:ArcSwap,consequences:one dep,date:2026-06-26}";
  _ ← status r 201; data_is "status" "proposed" r.

Definition g7_catalog_is_usable : Script unit :=
  admin ← sign_in "USR_dev";
  prj ← create admin "project" "{name:P,slug:p}"; _ ← status prj 201;
  sec ← create admin "secret" ("{project_id:" +:+ id_of prj +:+ ",name:db,provider:env,external_ref:DB_PASSWORD}");
  _ ← status sec 201; _ ← data_is "status" "active" sec;
  opt ← req "OPTIONS" "/api/objects/secret" admin None None; _ ← status opt 200;
  _ ← expect (bool_decide (("value" ∉ column "fields" "field" opt) /\ ("plaintext" ∉ column "fields" "field" opt)));
  r ← create admin "skill" "{name:deploy,description:ship it,kind:procedure}"; _ ← status r 201;
  r ← create admin "milestone"
        ("{subject_id:" +:+ id_of prj +:+ ",name:Resolution SLA,kind:sla,target_at:2026-12-31}");
  _ ← status r 201; data_is "target_at" "2026-12-31" r.

Definition connector_run_is_gated : Script unit :=
  admin ← sign_in "USR_dev";
  r ← req "POST" "/api/connectors/CON_nope/run" admin None None; _ ← status r 404;
  con ← create admin "connector" "{name:hook,kind:webhook,target:https%3A//example.com/x}";
  _ ← status con 201;
  r ← req "POST" ("/api/connectors/" +:+ id_of con +:+ "/run") admin None None;
  status r 422.

(** [tests/db_smoke.rs] *)
Definition migrations_and_seed_apply : Script unit :=
  d ← db; expect (negb (Nat.eqb (size (type_definitions d)) 0)).

Example search_passes : passes search_finds_and_is_reach_filtered = true.
Proof. vm_compute. reflexivity. Qed.
Example seeded_catalog_passes : passes seeded_catalog_is_usable = true.
Proof. vm_compute. reflexivity. Qed.
Example g7_catalog_passes : passes g7_catalog_is_usable = true.
Proof. vm_compute. reflexivity. Qed.
Example connector_run_passes : passes connector_run_is_gated = true.
Proof. vm_compute. reflexivity. Qed.
Example migrations_and_seed_passes : passes migrations_and_seed_apply = true.
Proof. vm_compute. reflexivity. Qed.
End CatalogTests.

(** ** [tests/ops.rs] *)

Module OpsTests.
Import Bench.

Definition dev_login_status `{Deployment} : Script Z :=
  r ← oneshot (mkReq "POST" "/auth/dev-login" no_params None None (Some "{}")) (Some "USR_dev");
  mret (resp_status r).

(** At most two requests in a window. *)
Definition auth_is_rate_limited : Script unit :=
  s ← dev_login_status (H := bench_config 2); _ ← expect (negb (s =? 429));
  s ← dev_login_status (H := bench_config 2); _ ← expect (negb (s =? 429));
  s ← dev_login_status (H := bench_config 2); expect (s =? 429).

Definition debug_surface_is_gated : Script unit :=
  admin ← sign_in (H := bench_config 100) "USR_dev";
  r ← req (H := bench_config 100) "POST" "/api/_debug/echo" admin None (Some "{}"); _ ← status r 404;
  r ← req (H := bench_config 100) "PATCH" "/api/_debug/log-level" admin None (Some "{level:debug}");
  status r 503.

Example auth_is_rate_limited_passes : passes auth_is_rate_limited = true.
Proof. vm_compute. reflexivity. Qed.
Example debug_surface_passes : passes debug_surface_is_gated = true.
Proof. vm_compute. reflexivity. Qed.
End OpsTests.

(** ** [tests/oauth.rs] and [tests/oauth_apple.rs] *)

Module LoginTests.
Import Bench.

(** The mock provider. *)
Definition Mock (token userinfo : Value) : Fetcher := mkFetcher (fun _ _ => Ok token) (fun _ _ => Ok userinfo).

Definition test_provider (name : string) (k : ProviderKind) : Provider :=
  mkProvider name "https://x/a" "https://x/t" "https://x/u" "s" "cid" "secret" "https://x/cb" k.

(** [complete_login(&pool, ..)]: a login with fresh randomness. *)
Definition logs_in (p : Provider) (f : Fetcher) (nonce : string) : Script (AppResult string) := fun b =>
  let n := sent b + 1 in
  let '(r, st) := complete_login p f "code" nonce (mkLoginRandom (uuid n) (uuid n) ("token" +:+ show_Z n))
                    (app (process b)) in
  (r, mkBench (mkProcess st (buckets (process b))) n (fine b)).
Definition logged_in (r : AppResult string) : Script unit :=
  expect (match r with Ok cookie => bool_decide (is_Some (strip_prefix "numu_session=" cookie)) | Err _ => false end).

Definition access : Value := json_object [("access_token", JString "at")].

(** The identities of a provider, with the actor's name and email. *)
Definition identities (d : Db) (provider : string) : list (string * (option string * option string)) :=
  omap (fun kv => if String.eqb kv.1.1 provider
    then (fun row => (kv.1.2, (get_str "display_name" (d_data row), get_str "email" (d_data row))))
           <$> entity_data d !! i_actor_id kv.2
    else None) (map_to_list (auth_identities d)).

Definition google_login_upserts_by_sub : Script unit :=
  let mock := Mock access (json_object
    [("sub", JString "g-123"); ("email", JString "a@b.com"); ("name", JString "Alice")]) in
  r ← logs_in (test_provider "google" Userinfo) mock "n1"; _ ← logged_in r;
  d ← db;
  _ ← expect (bool_decide (identities d "google" = [("g-123", (Some "Alice", Some "a@b.com"))]));
  r ← logs_in (test_provider "google" Userinfo) mock "n1"; _ ← logged_in r;
  d ← db;
  _ ← expect (bool_decide (length (identities d "google") = 1%nat));
  expect (bool_decide (size (filter (fun kv => en_type kv.2 = "actor" /\ kv.1 <> "USR_dev") (entities d)) = 1%nat)).

Definition facebook_login_by_id : Script unit :=
  r ← logs_in (test_provider "facebook" Userinfo) (Mock access (json_object
        [("id", JString "fb-1"); ("name", JString "Bob"); ("email", JString "b@fb.com")])) "n1";
  d ← db;
  expect (bool_decide ((identities d "facebook").*1 = ["fb-1"])).

Definition tiktok_login_by_nested_open_id : Script unit :=
  r ← logs_in (test_provider "tiktok" Userinfo) (Mock access (json_object
        [("data", json_object [("user", json_object
           [("open_id", JString "tt-1"); ("display_name", JString "Tina")])])])) "n1";
  d ← db;
  expect (bool_decide (identities d "tiktok" = [("tt-1", (Some "Tina", None))])).

(** A token of the bench is its nonce and its audience. *)
Definition AppleMock (id_token : string) : Fetcher :=
  Mock (json_object [("id_token", JString id_token)])
    (json_object [("keys", JArray [json_object
       [("kty", JString "RSA"); ("kid", JString "testkid"); ("n", JString "n"); ("e", JString "AQAB")]])]).
Definition apple_provider : Provider :=
  test_provider "apple" (IdToken "https://x/jwks" "https://appleid.apple.com").
Definition is_unauthorized (r : AppResult string) : Script unit :=
  expect (match r with Err e => AppError.status e =? 401 | Ok _ => false end).

Definition verifies_and_logs_in : Script unit :=
  r ← logs_in apple_provider (AppleMock "n1 cid") "n1"; _ ← logged_in r;
  d ← db;
  expect (bool_decide ((identities d "apple").*1 = ["apple-sub-1"])).
Definition rejects_nonce_mismatch : Script unit :=
  r ← logs_in apple_provider (AppleMock "n1 cid") "n2"; is_unauthorized r.
Definition rejects_wrong_audience : Script unit :=
  r ← logs_in apple_provider (AppleMock "n1 WRONG-client") "n1"; is_unauthorized r.

Example google_login_passes : passes google_login_upserts_by_sub = true.
Proof. vm_compute. reflexivity. Qed.
Example facebook_login_passes : passes facebook_login_by_id = true.
Proof. vm_compute. reflexivity. Qed.
Example tiktok_login_passes : passes tiktok_login_by_nested_open_id = true.
Proof. vm_compute. reflexivity. Qed.
Example verifies_and_logs_in_passes : passes verifies_and_logs_in = true.
Proof. vm_compute. reflexivity. Qed.
Example rejects_nonce_mismatch_passes : passes rejects_nonce_mismatch = true.
Proof. vm_compute. reflexivity. Qed.
Example rejects_wrong_audience_passes : passes rejects_wrong_audience = true.
Proof. vm_compute. reflexivity. Qed.
End LoginTests.

(** ** The unit tests of [http_client.rs], [ids.rs], [oauth.rs] and [objects.rs] *)

Module UnitTests.
Import Bench.

Example blocks_the_ssrf_classes :
  forallb is_blocked_ip
    [V4 169 254 169 254; V4 127 0 0 1; V4 10 0 0 1; V4 192 168 1 1; V4 172 16 0 1; V4 0 0 0 0;
     V4 100 64 0 1; V6 0 0 0 0 0 0 0 1; V6 64768 0 0 0 0 0 0 1; V6 65152 0 0 0 0 0 0 1;
     V6 0 0 0 0 0 65535 43518 43518] = true /\
  existsb is_blocked_ip [V4 8 8 8 8; V4 1 1 1 1; V4 93 184 216 34] = false.
Proof. split; vm_compute; reflexivity. Qed.

Example mint_has_prefix :
  strip_prefix "CAS_" (mint "CAS" (uuid 7)) = Some (uuid 7) /\ String.length (mint "CAS" (uuid 7)) = 36%nat.
Proof. split; vm_compute; reflexivity. Qed.

Example request_id_shape :
  valid_request_id (request_id (uuid 7)) = true /\ valid_request_id "req_abc-123_DEF" = true /\
  valid_request_id "" = false /\ valid_request_id "has space" = false /\
  valid_request_id ("inject" +:+ String quote "quote") = false /\
  valid_request_id (String.string_of_list_ascii (repeat "x"%char 129)) = false.
Proof. split_and!; vm_compute; reflexivity. Qed.

Example state_rejects_tampering :
  let signed := sign_state "nonce123:9999999999" in
  verify_state signed = Some "nonce123:9999999999" /\
  verify_state ("nonceXXX:9999999999" +:+ default "" (strip_prefix "nonce123:9999999999" signed)) = None /\
  verify_state "no-signature" = None.
Proof. split_and!; vm_compute; reflexivity. Qed.

Example merge_patch_overwrites_clears_and_keeps :
  merge_patch (json_object [("a", json_int 1); ("b", json_int 2); ("c", json_int 3)])
    (json_object [("b", json_int 20); ("c", JNull); ("d", json_int 4)])
  = json_object [("a", json_int 1); ("b", json_int 20); ("d", json_int 4)].
Proof. vm_compute. reflexivity. Qed.

Example etag_round_trips :
  let quoted s := String quote s +:+ String quote "" in
  etag 7 = "W/" +:+ quoted "7" /\ parse_version_tag ("W/" +:+ quoted "7") = Some 7 /\
  parse_version_tag (quoted "7") = Some 7 /\ parse_version_tag "7" = Some 7 /\
  parse_version_tag "garbage" = None.
Proof. split_and!; vm_compute; reflexivity. Qed.

Example if_none_match_matches_version_or_star :
  let tag s : HeaderMap := {[ "if-none-match" := Some s ]} in
  if_none_match_hit (tag (etag 5)) 5 = true /\ if_none_match_hit (tag (etag 5)) 6 = false /\
  if_none_match_hit (tag "*") 99 = true.
Proof. split_and!; vm_compute; reflexivity. Qed.
End UnitTests.
